(** * MemoApp: the persistence and view-state layer, embedded and verified

    The development follows the sources of the application:

    - [model/Memo]                (class [Memo])
    - [database/RdbHelper.ts]     (class [RdbHelper], the lazily opened store)
    - [database/MemoDao]          (class [MemoDao], the CRUD operations)
    - [util/PreferencesHelper.ts] (class [PreferencesHelper])
    - [viewmodel/MemoViewModel.ts] (class [MemoViewModel])

    The application is an ArkTS program running on one thread; every
    method is [async] and suspends at its [await]s.  A single call chain is
    embedded as a computation in a state-and-exception monad over a [World]
    that holds the objects of the application (the two singletons and the
    view model) and the part of the platform they talk to (the relational
    store, its result sets, the preference file, the wall clock).  The
    platform libraries [@ohos.data.relationalStore] and
    [@ohos.data.preferences] are not part of the application; their
    behaviour is modelled in section "The platform".  [console] calls do not
    change the state and are left out. *)

From Stdlib Require Import ZArith String Ascii Bool Lia.
From Stdlib Require Import Sorting.Sorted Sorting.Permutation.
From stdpp Require Import base option list gmap strings.

Local Open Scope string_scope.
Local Open Scope list_scope.
Local Open Scope Z_scope.

(* ===================================================================== *)
(** * Data model *)
(* ===================================================================== *)

(** [class Memo]: [id?: number], two strings and two timestamps. *)
Record Memo := mkMemo {
  id : option Z;
  title : string;
  content : string;
  createdDate : Z;
  modifiedDate : Z
}.

(** A row of table [memo] (see [SQL_CREATE_TABLE]). *)
Record Row := mkRow {
  r_id : Z;
  r_title : string;
  r_content : string;
  r_created_date : Z;
  r_modified_date : Z
}.

(** Values travelling through [ValuesBucket]s and result-set getters. *)
Inductive Value :=
| VInt (z : Z)
| VText (s : string).

Definition value_eqb (a b : Value) : bool :=
  match a, b with
  | VInt x, VInt y => Z.eqb x y
  | VText x, VText y => String.eqb x y
  | _, _ => false
  end.

Definition ValuesBucket := list (string * Value).

(** One call on an [RdbPredicates] object. *)
Inductive Clause :=
| EqualTo (field : string) (v : Value)
| Like (field : string) (pattern : string)
| OrderByDesc (field : string).

Record RdbPredicates := mkPredicates {
  p_table : string;
  p_clauses : list Clause
}.

Definition new_RdbPredicates (table : string) : RdbPredicates :=
  mkPredicates table [].
Definition equalTo (field : string) (v : Value) (p : RdbPredicates) : RdbPredicates :=
  mkPredicates (p_table p) (p_clauses p ++ [EqualTo field v]).
Definition like (field pattern : string) (p : RdbPredicates) : RdbPredicates :=
  mkPredicates (p_table p) (p_clauses p ++ [Like field pattern]).
Definition orderByDesc (field : string) (p : RdbPredicates) : RdbPredicates :=
  mkPredicates (p_table p) (p_clauses p ++ [OrderByDesc field]).

(** What has happened to a result set: nothing yet, [close()] was called
    and returned, or [close()] was called and raised. *)
Inductive ResultSetState :=
| RsOpen
| RsClosed
| RsCloseFailed.

(** A [ResultSet] object: the selected columns, the rows the query
    produced, the row index ([None] is the position before the first row)
    and its state. *)
Record ResultSet := mkResultSet {
  rs_columns : list string;
  rs_rows : list Row;
  rs_pos : option nat;
  rs_state : ResultSetState
}.

Definition rs_usable (r : ResultSet) : bool :=
  match rs_state r with RsOpen => true | _ => false end.

(** Handles are numbered by the open call that produced them; a result
    set is referred to by its index among the result sets of the world. *)
Definition RdbStore := nat.
Definition Preferences := nat.
Abbreviation ResultSetRef := nat (only parsing).

(** [common.Context] is opaque to the application. *)
Definition Context := nat.

(** What a [throw] carries: an error raised by a platform call, or an
    [Error] object the application builds itself. *)
Inductive Exn :=
| PlatformError (call : string)
| JsError (message : string).

(** The state a call chain runs in. *)
Record World := mkWorld {
  (* -- platform: faults and time -- *)
  (** the schedule of platform faults: [n :: s] lets [n] platform calls
      succeed, makes the next one raise and continues with [s]; [[]] means
      that no platform call raises any more *)
  faults : list nat;
  (** the wall clock and the amounts by which it moves before each of the
      next readings of [Date.now()] *)
  now : Z;
  clock_steps : list Z;
  (* -- platform: the relational store [MemoDB.db] -- *)
  db_created : bool;
  db_rows : list Row;
  db_seq : Z;             (** largest row id handed out (AUTOINCREMENT) *)
  db_opens : nat;         (** calls of [relationalStore.getRdbStore] *)
  result_sets : list ResultSet;
  (* -- platform: the preference file [memo_settings] -- *)
  pref_disk : gmap string Z;
  pref_cache : option (gmap string Z);  (** [None] until the file is loaded *)
  pref_opens : nat;       (** calls of [preferences.getPreferences] *)
  (* -- application singletons -- *)
  rdbStore : option RdbStore;          (** [RdbHelper.rdbStore] *)
  prefInstance : option Preferences;   (** [PreferencesHelper.prefInstance] *)
  (* -- the view model -- *)
  memos : list Memo;
  titleFontSize : Z;
  contentFontSize : Z;
  isLoading : bool;
  searchKeyword : string;
  currentMemo : option Memo;
  context : option Context
}.

Definition set_faults (x : list nat) (w : World) : World :=
  mkWorld x (now w) (clock_steps w) (db_created w) (db_rows w) (db_seq w)
    (db_opens w) (result_sets w) (pref_disk w) (pref_cache w) (pref_opens w)
    (rdbStore w) (prefInstance w) (memos w) (titleFontSize w)
    (contentFontSize w) (isLoading w) (searchKeyword w) (currentMemo w)
    (context w).

Definition set_clock (t : Z) (steps : list Z) (w : World) : World :=
  mkWorld (faults w) t steps (db_created w) (db_rows w) (db_seq w)
    (db_opens w) (result_sets w) (pref_disk w) (pref_cache w) (pref_opens w)
    (rdbStore w) (prefInstance w) (memos w) (titleFontSize w)
    (contentFontSize w) (isLoading w) (searchKeyword w) (currentMemo w)
    (context w).

Definition set_db (created : bool) (rows : list Row) (seq : Z) (opens : nat)
    (w : World) : World :=
  mkWorld (faults w) (now w) (clock_steps w) created rows seq
    opens (result_sets w) (pref_disk w) (pref_cache w) (pref_opens w)
    (rdbStore w) (prefInstance w) (memos w) (titleFontSize w)
    (contentFontSize w) (isLoading w) (searchKeyword w) (currentMemo w)
    (context w).

Definition set_result_sets (x : list ResultSet) (w : World) : World :=
  mkWorld (faults w) (now w) (clock_steps w) (db_created w) (db_rows w)
    (db_seq w) (db_opens w) x (pref_disk w) (pref_cache w) (pref_opens w)
    (rdbStore w) (prefInstance w) (memos w) (titleFontSize w)
    (contentFontSize w) (isLoading w) (searchKeyword w) (currentMemo w)
    (context w).

Definition set_prefs (disk : gmap string Z) (cache : option (gmap string Z))
    (opens : nat) (w : World) : World :=
  mkWorld (faults w) (now w) (clock_steps w) (db_created w) (db_rows w)
    (db_seq w) (db_opens w) (result_sets w) disk cache opens
    (rdbStore w) (prefInstance w) (memos w) (titleFontSize w)
    (contentFontSize w) (isLoading w) (searchKeyword w) (currentMemo w)
    (context w).

Definition set_rdbStore (x : option RdbStore) (w : World) : World :=
  mkWorld (faults w) (now w) (clock_steps w) (db_created w) (db_rows w)
    (db_seq w) (db_opens w) (result_sets w) (pref_disk w) (pref_cache w)
    (pref_opens w) x (prefInstance w) (memos w) (titleFontSize w)
    (contentFontSize w) (isLoading w) (searchKeyword w) (currentMemo w)
    (context w).

Definition set_prefInstance (x : option Preferences) (w : World) : World :=
  mkWorld (faults w) (now w) (clock_steps w) (db_created w) (db_rows w)
    (db_seq w) (db_opens w) (result_sets w) (pref_disk w) (pref_cache w)
    (pref_opens w) (rdbStore w) x (memos w) (titleFontSize w)
    (contentFontSize w) (isLoading w) (searchKeyword w) (currentMemo w)
    (context w).

Definition set_memos (x : list Memo) (w : World) : World :=
  mkWorld (faults w) (now w) (clock_steps w) (db_created w) (db_rows w)
    (db_seq w) (db_opens w) (result_sets w) (pref_disk w) (pref_cache w)
    (pref_opens w) (rdbStore w) (prefInstance w) x (titleFontSize w)
    (contentFontSize w) (isLoading w) (searchKeyword w) (currentMemo w)
    (context w).

Definition set_fontSizes (t c : Z) (w : World) : World :=
  mkWorld (faults w) (now w) (clock_steps w) (db_created w) (db_rows w)
    (db_seq w) (db_opens w) (result_sets w) (pref_disk w) (pref_cache w)
    (pref_opens w) (rdbStore w) (prefInstance w) (memos w) t
    c (isLoading w) (searchKeyword w) (currentMemo w)
    (context w).

Definition set_isLoading (x : bool) (w : World) : World :=
  mkWorld (faults w) (now w) (clock_steps w) (db_created w) (db_rows w)
    (db_seq w) (db_opens w) (result_sets w) (pref_disk w) (pref_cache w)
    (pref_opens w) (rdbStore w) (prefInstance w) (memos w) (titleFontSize w)
    (contentFontSize w) x (searchKeyword w) (currentMemo w)
    (context w).

Definition set_searchKeyword (x : string) (w : World) : World :=
  mkWorld (faults w) (now w) (clock_steps w) (db_created w) (db_rows w)
    (db_seq w) (db_opens w) (result_sets w) (pref_disk w) (pref_cache w)
    (pref_opens w) (rdbStore w) (prefInstance w) (memos w) (titleFontSize w)
    (contentFontSize w) (isLoading w) x (currentMemo w)
    (context w).

Definition set_currentMemo (x : option Memo) (w : World) : World :=
  mkWorld (faults w) (now w) (clock_steps w) (db_created w) (db_rows w)
    (db_seq w) (db_opens w) (result_sets w) (pref_disk w) (pref_cache w)
    (pref_opens w) (rdbStore w) (prefInstance w) (memos w) (titleFontSize w)
    (contentFontSize w) (isLoading w) (searchKeyword w) x
    (context w).

Definition set_context (x : option Context) (w : World) : World :=
  mkWorld (faults w) (now w) (clock_steps w) (db_created w) (db_rows w)
    (db_seq w) (db_opens w) (result_sets w) (pref_disk w) (pref_cache w)
    (pref_opens w) (rdbStore w) (prefInstance w) (memos w) (titleFontSize w)
    (contentFontSize w) (isLoading w) (searchKeyword w) (currentMemo w)
    x.

(* ===================================================================== *)
(** * The monad of one call chain *)
(* ===================================================================== *)

Inductive Res (A : Type) :=
| Ok (a : A)
| Raise (e : Exn).
Arguments Ok {A} a.
Arguments Raise {A} e.

Definition M (A : Type) : Type := World -> Res A * World.

Definition ret {A} (a : A) : M A := fun w => (Ok a, w).

Definition bind {A B} (m : M A) (k : A -> M B) : M B := fun w =>
  match m w with
  | (Ok a, w') => k a w'
  | (Raise e, w') => (Raise e, w')
  end.

Definition throw {A} (e : Exn) : M A := fun w => (Raise e, w).

(** [try { m } catch (e) { h e }] *)
Definition try_catch {A} (m : M A) (h : Exn -> M A) : M A := fun w =>
  match m w with
  | (Ok a, w') => (Ok a, w')
  | (Raise e, w') => h e w'
  end.

(** [try { m } finally { f }]: [f] runs on both exits; the completion of
    [m] is kept unless [f] itself raises. *)
Definition try_finally {A} (m : M A) (f : M unit) : M A := fun w =>
  match m w with
  | (r, w') =>
      match f w' with
      | (Ok _, w'') => (r, w'')
      | (Raise e, w'') => (Raise e, w'')
      end
  end.

(** A field assignment [this.x = v]. *)
Definition modify (f : World -> World) : M unit := fun w => (Ok tt, f w).
Definition gets {A} (f : World -> A) : M A := fun w => (Ok (f w), w).

Declare Scope monad_scope.
Delimit Scope monad_scope with monad.
Notation "x <- m ;; k" := (bind m (fun x => k))
  (at level 100, m at next level, right associativity) : monad_scope.
Notation "m ;; k" := (bind m (fun _ => k))
  (at level 100, right associativity) : monad_scope.
Local Open Scope monad_scope.

(* ===================================================================== *)
(** * The platform *)
(* ===================================================================== *)

(** Every call into the platform consults the fault schedule first. *)
Definition platform_call (call : string) : M unit := fun w =>
  match faults w with
  | [] => (Ok tt, w)
  | O :: s => (Raise (PlatformError call), set_faults s w)
  | S n :: s => (Ok tt, set_faults (n :: s) w)
  end.

(** [Date.now()]: the clock moves by the next step and is read. *)
Definition Date_now : M Z := fun w =>
  let t := now w + hd 0 (clock_steps w) in
  (Ok t, set_clock t (tl (clock_steps w)) w).

(** ** Strings *)

(** Text is held in UTF-8, as the string literals of this file are: a
    character is one to four bytes.  [is_white_space] tells whether the
    bytes [cs] are one white-space character of ECMAScript, [WhiteSpace]
    or [LineTerminator]: U+0009 to U+000D and U+0020 (one byte), U+00A0
    (194 160), U+1680 (225 154 128), U+2000 to U+200A, U+2028, U+2029 and
    U+202F (226 128 and 128 to 138, 168, 169, 175), U+205F (226 129 159),
    U+3000 (227 128 128) and U+FEFF (239 187 191). *)
Definition is_white_space (cs : list ascii) : bool :=
  match map N_of_ascii cs with
  | [a] => (9 <=? a) && (a <=? 13) || (a =? 32)
  | [a; b] => (a =? 194) && (b =? 160)
  | [a; b; c] =>
      (a =? 225) && (b =? 154) && (c =? 128)
      || (a =? 226) && (b =? 128)
         && ((128 <=? c) && (c <=? 138) || (c =? 168) || (c =? 169) || (c =? 175))
      || (a =? 226) && (b =? 129) && (c =? 159)
      || (a =? 227) && (b =? 128) && (c =? 128)
      || (a =? 239) && (b =? 187) && (c =? 191)
  | _ => false
  end%N.

(** The bytes left of [l] once the white-space characters it begins with
    are dropped.  [order] puts the bytes taken from [l] in the order of
    the text: [l] is read forwards from the start of a text and backwards
    from its end.  (In UTF-8 no character ends in the bytes of another,
    so that the bytes at the end of a text that spell a white-space
    character are one.) *)
Fixpoint drop_white_space (order : list ascii -> list ascii) (l : list ascii)
    : list ascii :=
  match l with
  | [] => []
  | c1 :: l1 =>
      if is_white_space (order [c1]) then drop_white_space order l1
      else
        match l1 with
        | [] => l
        | c2 :: l2 =>
            if is_white_space (order [c1; c2]) then drop_white_space order l2
            else
              match l2 with
              | [] => l
              | c3 :: l3 =>
                  if is_white_space (order [c1; c2; c3])
                  then drop_white_space order l3
                  else l
              end
        end
  end.

Definition trim_start (s : string) : string :=
  string_of_list_ascii (drop_white_space (fun cs => cs) (list_ascii_of_string s)).

Definition trim_end (s : string) : string :=
  string_of_list_ascii
    (rev (drop_white_space (@rev ascii) (rev (list_ascii_of_string s)))).

(** [String.prototype.trim] *)
Definition trim (s : string) : string := trim_end (trim_start s).

(** JavaScript truthiness of a string: only [''] is falsy. *)
Definition truthy (s : string) : bool :=
  match s with EmptyString => false | _ => true end.

(** ** The SQL operator LIKE

    [%] matches any sequence of characters, [_] any single character, and
    the letters A-Z and a-z are compared without regard to case (the
    default of the SQLite engine under [relationalStore]).  No escape
    character is in force. *)
Definition fold_case (c : ascii) : ascii :=
  let n := nat_of_ascii c in
  if ((65 <=? n) && (n <=? 90))%nat then ascii_of_nat (n + 32) else c.

Definition char_like (p c : ascii) : bool :=
  Ascii.eqb p "_" || Ascii.eqb (fold_case p) (fold_case c).

Fixpoint like_match (p s : list ascii) {struct p} : bool :=
  match p with
  | [] => match s with [] => true | _ :: _ => false end
  | c :: p' =>
      if Ascii.eqb c "%" then
        (fix skip (s : list ascii) : bool :=
           like_match p' s ||
           match s with [] => false | _ :: s' => skip s' end) s
      else
        match s with
        | [] => false
        | d :: s' => char_like c d && like_match p' s'
        end
  end.

Definition sql_like (pattern text : string) : bool :=
  like_match (list_ascii_of_string pattern) (list_ascii_of_string text).

(** ** The relational store *)

Definition column_value (name : string) (r : Row) : option Value :=
  if String.eqb name "id" then Some (VInt (r_id r))
  else if String.eqb name "title" then Some (VText (r_title r))
  else if String.eqb name "content" then Some (VText (r_content r))
  else if String.eqb name "created_date" then Some (VInt (r_created_date r))
  else if String.eqb name "modified_date" then Some (VInt (r_modified_date r))
  else None.

Definition clause_holds (r : Row) (c : Clause) : bool :=
  match c with
  | EqualTo f v =>
      match column_value f r with
      | Some x => value_eqb x v
      | None => false
      end
  | Like f pattern =>
      match column_value f r with
      | Some (VText s) => sql_like pattern s
      | _ => false
      end
  | OrderByDesc _ => true
  end.

Definition selects (p : RdbPredicates) (r : Row) : bool :=
  forallb (clause_holds r) (p_clauses p).

Definition sort_key (f : string) (r : Row) : Z :=
  match column_value f r with
  | Some (VInt z) => z
  | _ => 0
  end.

(** ORDER BY ... DESC: a row goes in front of the first row whose key is
    not larger than its own, so rows with equal keys keep table order. *)
Fixpoint insert_desc (key : Row -> Z) (r : Row) (l : list Row) : list Row :=
  match l with
  | [] => [r]
  | x :: l' => if key r <? key x then x :: insert_desc key r l' else r :: l
  end.

Definition sort_desc (key : Row -> Z) (l : list Row) : list Row :=
  foldr (insert_desc key) [] l.

Definition order_rows (cs : list Clause) (rows : list Row) : list Row :=
  foldr (fun c acc =>
           match c with
           | OrderByDesc f => sort_desc (sort_key f) acc
           | _ => acc
           end) rows cs.

Definition run_query (p : RdbPredicates) (rows : list Row) : list Row :=
  order_rows (p_clauses p) (List.filter (selects p) rows).

Definition table_exists (table : string) : bool := String.eqb table "memo".

(** [relationalStore.getRdbStore(context, STORE_CONFIG, callback)] in two
    halves: the call starts an open and returns a pending promise; the
    promise settles later.  A new database file is created by the first
    open that succeeds, and [onCreate] then runs [SQL_CREATE_TABLE], which
    leaves table [memo] empty. *)
Definition open_begin (ctx : Context) : M nat :=
  modify (fun w => set_db (db_created w) (db_rows w) (db_seq w) (S (db_opens w)) w) ;;
  gets db_opens.

Definition open_complete (ticket : nat) : M RdbStore :=
  platform_call "relationalStore.getRdbStore" ;;
  modify (fun w =>
            if db_created w then w
            else set_db true [] 0 (db_opens w) w) ;;
  ret ticket.

(** [await relationalStore.getRdbStore(...)] with nothing running in
    between. *)
Definition relationalStore_getRdbStore (ctx : Context) : M RdbStore :=
  ticket <- open_begin ctx ;;
  open_complete ticket.

Definition bucket_get (name : string) (b : ValuesBucket) : option Value :=
  match List.find (fun kv => String.eqb (fst kv) name) b with
  | Some kv => Some (snd kv)
  | None => None
  end.

Definition row_of_bucket (rowid : Z) (b : ValuesBucket) : option Row :=
  match bucket_get "title" b, bucket_get "content" b,
        bucket_get "created_date" b, bucket_get "modified_date" b with
  | Some (VText t), Some (VText c), Some (VInt cd), Some (VInt md) =>
      Some (mkRow rowid t c cd md)
  | _, _, _, _ => None
  end.

(** [store.insert(table, bucket)]: AUTOINCREMENT hands out the successor of
    the largest id ever used. *)
Definition store_insert (store : RdbStore) (table : string) (b : ValuesBucket) : M Z :=
  platform_call "RdbStore.insert" ;;
  fun w =>
    match table_exists table, row_of_bucket (db_seq w + 1) b with
    | true, Some r =>
        (Ok (db_seq w + 1),
         set_db (db_created w) (db_rows w ++ [r]) (db_seq w + 1) (db_opens w) w)
    | _, _ => (Raise (PlatformError "RdbStore.insert"), w)
    end.

(** [store.query(predicates, columns)] yields a new result set positioned
    before its first row. *)
Definition store_query (store : RdbStore) (p : RdbPredicates) (columns : list string)
  : M ResultSetRef :=
  platform_call "RdbStore.query" ;;
  fun w =>
    if table_exists (p_table p) then
      (Ok (length (result_sets w)),
       set_result_sets
         (result_sets w ++ [mkResultSet columns (run_query p (db_rows w)) None RsOpen]) w)
    else (Raise (PlatformError "RdbStore.query"), w).

Definition column_accepts (kv : string * Value) : bool :=
  match kv with
  | (k, VInt _) =>
      String.eqb k "id" || String.eqb k "created_date" || String.eqb k "modified_date"
  | (k, VText _) => String.eqb k "title" || String.eqb k "content"
  end.

Definition write_column (r : Row) (kv : string * Value) : Row :=
  match kv with
  | (k, VInt z) =>
      if String.eqb k "id" then
        mkRow z (r_title r) (r_content r) (r_created_date r) (r_modified_date r)
      else if String.eqb k "created_date" then
        mkRow (r_id r) (r_title r) (r_content r) z (r_modified_date r)
      else if String.eqb k "modified_date" then
        mkRow (r_id r) (r_title r) (r_content r) (r_created_date r) z
      else r
  | (k, VText s) =>
      if String.eqb k "title" then
        mkRow (r_id r) s (r_content r) (r_created_date r) (r_modified_date r)
      else if String.eqb k "content" then
        mkRow (r_id r) (r_title r) s (r_created_date r) (r_modified_date r)
      else r
  end.

Definition write_bucket (b : ValuesBucket) (r : Row) : Row :=
  foldl write_column r b.

(** [store.update(bucket, predicates)] rewrites the selected rows and
    returns how many there were. *)
Definition store_update (store : RdbStore) (b : ValuesBucket) (p : RdbPredicates) : M Z :=
  platform_call "RdbStore.update" ;;
  fun w =>
    if table_exists (p_table p) && forallb column_accepts b then
      (Ok (Z.of_nat (length (List.filter (selects p) (db_rows w)))),
       set_db (db_created w)
         (map (fun r => if selects p r then write_bucket b r else r) (db_rows w))
         (db_seq w) (db_opens w) w)
    else (Raise (PlatformError "RdbStore.update"), w).

(** [store.delete(predicates)] removes the selected rows and returns how
    many there were. *)
Definition store_delete (store : RdbStore) (p : RdbPredicates) : M Z :=
  platform_call "RdbStore.delete" ;;
  fun w =>
    if table_exists (p_table p) then
      (Ok (Z.of_nat (length (List.filter (selects p) (db_rows w)))),
       set_db (db_created w)
         (List.filter (fun r => negb (selects p r)) (db_rows w))
         (db_seq w) (db_opens w) w)
    else (Raise (PlatformError "RdbStore.delete"), w).

(** ** Result sets *)

(** A method call on a result set: it may fault, and it raises on an
    unknown or closed result set. *)
Definition on_result_set {A} (call : string) (rs : ResultSetRef)
    (k : ResultSet -> M A) : M A :=
  platform_call call ;;
  fun w =>
    match result_sets w !! rs with
    | Some r => if rs_usable r then k r w else (Raise (PlatformError call), w)
    | None => (Raise (PlatformError call), w)
    end.

Definition at_row (pos : nat) (r : ResultSet) : ResultSet :=
  mkResultSet (rs_columns r) (rs_rows r) (Some pos) (rs_state r).

Definition in_state (s : ResultSetState) (r : ResultSet) : ResultSet :=
  mkResultSet (rs_columns r) (rs_rows r) (rs_pos r) s.

Definition alter_result_set (f : ResultSet -> ResultSet) (rs : ResultSetRef) : M unit :=
  modify (fun w => set_result_sets (alter f rs (result_sets w)) w).

Definition move_to (rs : ResultSetRef) (pos : nat) : M unit :=
  alter_result_set (at_row pos) rs.

(** The property [resultSet.rowCount]. *)
Definition rs_rowCount (rs : ResultSetRef) : M Z :=
  gets (fun w =>
    match result_sets w !! rs with
    | Some r => Z.of_nat (length (rs_rows r))
    | None => 0
    end).

Definition rs_goToFirstRow (rs : ResultSetRef) : M bool :=
  on_result_set "ResultSet.goToFirstRow" rs (fun r =>
    match rs_rows r with
    | [] => ret false
    | _ :: _ => move_to rs 0 ;; ret true
    end).

Definition rs_goToNextRow (rs : ResultSetRef) : M bool :=
  on_result_set "ResultSet.goToNextRow" rs (fun r =>
    let next := match rs_pos r with None => O | Some k => S k end in
    if (next <? length (rs_rows r))%nat
    then move_to rs next ;; ret true
    else move_to rs (length (rs_rows r)) ;; ret false).

Fixpoint index_of (name : string) (l : list string) : Z :=
  match l with
  | [] => -1
  | x :: l' =>
      if String.eqb x name then 0
      else let i := index_of name l' in if i <? 0 then -1 else i + 1
  end.

Definition rs_getColumnIndex (rs : ResultSetRef) (name : string) : M Z :=
  on_result_set "ResultSet.getColumnIndex" rs (fun r =>
    ret (index_of name (rs_columns r))).

Definition current_value (r : ResultSet) (columnIndex : Z) : option Value :=
  if columnIndex <? 0 then None
  else
    match rs_pos r with
    | None => None
    | Some k =>
        match rs_rows r !! k, rs_columns r !! Z.to_nat columnIndex with
        | Some row, Some name => column_value name row
        | _, _ => None
        end
    end.

Definition rs_getLong (rs : ResultSetRef) (columnIndex : Z) : M Z :=
  on_result_set "ResultSet.getLong" rs (fun r =>
    match current_value r columnIndex with
    | Some (VInt z) => ret z
    | _ => throw (PlatformError "ResultSet.getLong")
    end).

Definition rs_getString (rs : ResultSetRef) (columnIndex : Z) : M string :=
  on_result_set "ResultSet.getString" rs (fun r =>
    match current_value r columnIndex with
    | Some (VText s) => ret s
    | _ => throw (PlatformError "ResultSet.getString")
    end).

(** [resultSet.close()] releases the result set unless the call faults. *)
Definition rs_close (rs : ResultSetRef) : M unit :=
  try_catch
    (platform_call "ResultSet.close" ;;
     alter_result_set (in_state RsClosed) rs)
    (fun e => alter_result_set (in_state RsCloseFailed) rs ;; throw e).

(** ** The preference file *)

(** [preferences.getPreferences(context, name)], in the same two halves:
    the first call that succeeds loads the file into the cache behind the
    instance. *)
Definition pref_open_begin (ctx : Context) (name : string) : M nat :=
  modify (fun w => set_prefs (pref_disk w) (pref_cache w) (S (pref_opens w)) w) ;;
  gets pref_opens.

Definition pref_open_complete (ticket : nat) : M Preferences :=
  platform_call "preferences.getPreferences" ;;
  modify (fun w =>
            match pref_cache w with
            | None => set_prefs (pref_disk w) (Some (pref_disk w)) (pref_opens w) w
            | Some _ => w
            end) ;;
  ret ticket.

Definition preferences_getPreferences (ctx : Context) (name : string) : M Preferences :=
  ticket <- pref_open_begin ctx name ;;
  pref_open_complete ticket.

Definition prefs_put (prefs : Preferences) (key : string) (v : Z) : M unit :=
  platform_call "Preferences.put" ;;
  modify (fun w =>
    set_prefs (pref_disk w) (Some (<[key := v]> (default (pref_disk w) (pref_cache w))))
      (pref_opens w) w).

Definition prefs_get (prefs : Preferences) (key : string) (def : Z) : M Z :=
  platform_call "Preferences.get" ;;
  gets (fun w => default def (default (pref_disk w) (pref_cache w) !! key)).

Definition prefs_flush (prefs : Preferences) : M unit :=
  platform_call "Preferences.flush" ;;
  modify (fun w =>
    set_prefs (default (pref_disk w) (pref_cache w)) (pref_cache w) (pref_opens w) w).

(* ===================================================================== *)
(** * The application *)
(* ===================================================================== *)

(** ** model/Memo *)

(** [new Memo(title, content, id?, createdDate?, modifiedDate?)]: the
    constructor reads the clock once and uses the reading for both absent
    dates. *)
Definition new_Memo (title content : string) (id : option Z)
    (createdDate modifiedDate : option Z) : M Memo :=
  t <- Date_now ;;
  ret (mkMemo id title content (default t createdDate) (default t modifiedDate)).

(** ** database/RdbHelper.ts *)

(** [new Error(`Failed to get RDB store: ${e.message}`)] *)
Definition handle_error (e : Exn) : Exn := JsError "Failed to get RDB store".

(** [RdbHelper.getRdbStore].  The value of [this.rdbStore!] returned at the
    end is the one the first branch has just assigned. *)
Definition getRdbStore (ctx : Context) : M RdbStore :=
  cached <- gets rdbStore ;;
  match cached with
  | None =>
      try_catch
        (store <- relationalStore_getRdbStore ctx ;;
         modify (set_rdbStore (Some store)) ;;
         ret store)
        (fun e => throw (handle_error e))
  | Some store => ret store
  end.

(** ** database/MemoDao *)

Definition TABLE_NAME : string := "memo".
Definition COLUMNS : list string :=
  ["id"; "title"; "content"; "created_date"; "modified_date"].

(** [MemoDao.addMemo] *)
Definition addMemo (ctx : Context) (memo : Memo) : M Z :=
  store <- getRdbStore ctx ;;
  let valueBucket : ValuesBucket :=
    [("title", VText (title memo));
     ("content", VText (content memo));
     ("created_date", VInt (createdDate memo));
     ("modified_date", VInt (modifiedDate memo))] in
  try_catch
    (rowId <- store_insert store TABLE_NAME valueBucket ;;
     ret rowId)
    (fun e => ret (-1)).

(** One turn of the [do ... while] body of [parseResultSet] up to the
    [push]: the five getters and the constructor. *)
Definition read_row (rs : ResultSetRef) : M Memo :=
  i <- rs_getColumnIndex rs "id" ;;
  id <- rs_getLong rs i ;;
  i <- rs_getColumnIndex rs "title" ;;
  title <- rs_getString rs i ;;
  i <- rs_getColumnIndex rs "content" ;;
  content <- rs_getString rs i ;;
  i <- rs_getColumnIndex rs "created_date" ;;
  createdDate <- rs_getLong rs i ;;
  i <- rs_getColumnIndex rs "modified_date" ;;
  modifiedDate <- rs_getLong rs i ;;
  new_Memo title content (Some id) (Some createdDate) (Some modifiedDate).

(** The [do ... while (resultSet.goToNextRow())] loop.  The array [memos]
    is filled in place, so what has been pushed survives an exception: the
    loop returns the array together with the way it was left.  The loop
    runs once per row of the result set; [fuel] bounds the number of turns
    (see [parse_rows_fuel]). *)
Fixpoint parse_rows (fuel : nat) (rs : ResultSetRef) (memos : list Memo)
    (w : World) {struct fuel} : (list Memo * Res unit) * World :=
  match fuel with
  | O => ((memos, Ok tt), w)
  | S fuel' =>
      match read_row rs w with
      | (Raise e, w1) => ((memos, Raise e), w1)
      | (Ok memo, w1) =>
          match rs_goToNextRow rs w1 with
          | (Raise e, w2) => ((memos ++ [memo], Raise e), w2)
          | (Ok true, w2) => parse_rows fuel' rs (memos ++ [memo]) w2
          | (Ok false, w2) => ((memos ++ [memo], Ok tt), w2)
          end
      end
  end.

(** The [try] block of [parseResultSet]. *)
Definition parse_try (rs : ResultSetRef) (w : World) : (list Memo * Res unit) * World :=
  match rs_rowCount rs w with
  | (Raise e, w1) => (([], Raise e), w1)
  | (Ok n, w1) =>
      if n =? 0 then (([], Ok tt), w1)
      else
        match rs_goToFirstRow rs w1 with
        | (Raise e, w2) => (([], Raise e), w2)
        | (Ok false, w2) => (([], Ok tt), w2)
        | (Ok true, w2) => parse_rows (Z.to_nat n) rs [] w2
        end
  end.

(** [MemoDao.parseResultSet]: whichever way the [try] block is left (early
    [return memos], normal end, or an exception that the [catch] logs), the
    [finally] block closes the result set and [memos] is returned. *)
Definition parseResultSet (resultSet : option ResultSetRef) : M (list Memo) :=
  match resultSet with
  | None => ret []
  | Some rs => fun w =>
      match parse_try rs w with
      | ((memos, _), w1) =>
          match try_catch (rs_close rs) (fun closeError => ret tt) w1 with
          | (_, w2) => (Ok memos, w2)
          end
      end
  end.

(** [MemoDao.queryAllMemos] *)
Definition queryAllMemos (ctx : Context) : M (list Memo) :=
  store <- getRdbStore ctx ;;
  let predicates := orderByDesc "modified_date" (new_RdbPredicates TABLE_NAME) in
  try_catch
    (resultSet <- store_query store predicates COLUMNS ;;
     memos <- parseResultSet (Some resultSet) ;;
     ret memos)
    (fun e => ret []).

(** [MemoDao.queryMemosByTitle] *)
Definition queryMemosByTitle (ctx : Context) (keyword : string) : M (list Memo) :=
  if negb (truthy keyword) then queryAllMemos ctx
  else
    store <- getRdbStore ctx ;;
    let predicates :=
      orderByDesc "modified_date"
        (like "title" (String.append "%" (String.append keyword "%"))
           (new_RdbPredicates TABLE_NAME)) in
    try_catch
      (resultSet <- store_query store predicates COLUMNS ;;
       memos <- parseResultSet (Some resultSet) ;;
       ret memos)
      (fun e => ret []).

(** [MemoDao.updateMemo] *)
Definition updateMemo (ctx : Context) (memo : Memo) : M Z :=
  match id memo with
  | None => ret 0
  | Some memo_id =>
      store <- getRdbStore ctx ;;
      t <- Date_now ;;
      let valueBucket : ValuesBucket :=
        [("title", VText (title memo));
         ("content", VText (content memo));
         ("modified_date", VInt t)] in
      let predicates := equalTo "id" (VInt memo_id) (new_RdbPredicates TABLE_NAME) in
      try_catch
        (affectedRows <- store_update store valueBucket predicates ;;
         ret affectedRows)
        (fun e => ret 0)
  end.

(** [MemoDao.deleteMemo] *)
Definition deleteMemo (ctx : Context) (id : Z) : M Z :=
  store <- getRdbStore ctx ;;
  let predicates := equalTo "id" (VInt id) (new_RdbPredicates TABLE_NAME) in
  try_catch
    (affectedRows <- store_delete store predicates ;;
     ret affectedRows)
    (fun e => ret 0).

(** The guarded part of [queryMemoById], once [resultSet] is assigned. *)
Definition read_single (rs : ResultSetRef) : M (option Memo) :=
  n <- rs_rowCount rs ;;
  first <- (if 0 <? n then rs_goToFirstRow rs else ret false) ;;
  if first then
    i <- rs_getColumnIndex rs "id" ;;
    memoId <- rs_getLong rs i ;;
    i <- rs_getColumnIndex rs "title" ;;
    title <- rs_getString rs i ;;
    i <- rs_getColumnIndex rs "content" ;;
    content <- rs_getString rs i ;;
    i <- rs_getColumnIndex rs "created_date" ;;
    createdDate <- rs_getLong rs i ;;
    i <- rs_getColumnIndex rs "modified_date" ;;
    modifiedDate <- rs_getLong rs i ;;
    memo <- new_Memo title content (Some memoId) (Some createdDate) (Some modifiedDate) ;;
    ret (Some memo)
  else ret None.

(** [MemoDao.queryMemoById].  The local [resultSet] is [null] until
    [store.query] has returned: when the query raises, the [catch] returns
    [null] and the [finally] finds nothing to close; afterwards the
    [finally] closes the result set on every way out of the [try]. *)
Definition queryMemoById (ctx : Context) (id : Z) : M (option Memo) :=
  store <- getRdbStore ctx ;;
  let predicates := equalTo "id" (VInt id) (new_RdbPredicates TABLE_NAME) in
  resultSet <- try_catch
                 (rs <- store_query store predicates COLUMNS ;; ret (Some rs))
                 (fun e => ret None) ;;
  match resultSet with
  | None => ret None
  | Some rs =>
      try_finally
        (try_catch (read_single rs) (fun e => ret None))
        (try_catch (rs_close rs) (fun closeError => ret tt))
  end.

(** ** util/PreferencesHelper.ts *)

Definition PREF_FILE_NAME : string := "memo_settings".
Definition KEY_TITLE_FONT_SIZE : string := "title_font_size".
Definition KEY_CONTENT_FONT_SIZE : string := "content_font_size".
Definition DEFAULT_TITLE_FONT_SIZE : Z := 18.
Definition DEFAULT_CONTENT_FONT_SIZE : Z := 14.

(** [new Error(`Failed to get Preferences: ${e.message}`)] *)
Definition pref_handle_error (e : Exn) : Exn := JsError "Failed to get Preferences".

(** [PreferencesHelper.getPreferences] *)
Definition getPreferences (ctx : Context) : M Preferences :=
  cached <- gets prefInstance ;;
  match cached with
  | None =>
      try_catch
        (prefs <- preferences_getPreferences ctx PREF_FILE_NAME ;;
         modify (set_prefInstance (Some prefs)) ;;
         ret prefs)
        (fun e => throw (pref_handle_error e))
  | Some prefs => ret prefs
  end.

(** [PreferencesHelper.saveFontSizes] *)
Definition saveFontSizes (ctx : Context) (titleSize contentSize : Z) : M unit :=
  try_catch
    (prefs <- getPreferences ctx ;;
     prefs_put prefs KEY_TITLE_FONT_SIZE titleSize ;;
     prefs_put prefs KEY_CONTENT_FONT_SIZE contentSize ;;
     prefs_flush prefs)
    (fun e => ret tt).

(** [PreferencesHelper.loadFontSizes]: the two locals start at the defaults
    and keep what was assigned before an exception. *)
Definition loadFontSizes (ctx : Context) : M (Z * Z) :=
  try_catch
    (prefs <- getPreferences ctx ;;
     titleSize <- prefs_get prefs KEY_TITLE_FONT_SIZE DEFAULT_TITLE_FONT_SIZE ;;
     try_catch
       (contentSize <- prefs_get prefs KEY_CONTENT_FONT_SIZE DEFAULT_CONTENT_FONT_SIZE ;;
        ret (titleSize, contentSize))
       (fun e => ret (titleSize, DEFAULT_CONTENT_FONT_SIZE)))
    (fun e => ret (DEFAULT_TITLE_FONT_SIZE, DEFAULT_CONTENT_FONT_SIZE)).

(** ** viewmodel/MemoViewModel.ts *)

Module MemoViewModel.

(** The fields of a new [MemoViewModel]. *)
Definition fresh (w : World) : World :=
  set_context None (set_currentMemo None (set_searchKeyword ""
    (set_isLoading false (set_fontSizes 18 14 (set_memos [] w))))).

Definition initialize (ctx : Context) : M unit :=
  modify (set_context (Some ctx)).

Definition loadFontSizes : M unit :=
  c <- gets context ;;
  match c with
  | None => ret tt
  | Some ctx =>
      try_catch
        (sizes <- loadFontSizes ctx ;;
         modify (set_fontSizes (fst sizes) (snd sizes)))
        (fun error => ret tt)
  end.

Definition saveFontSizes : M unit :=
  c <- gets context ;;
  match c with
  | None => ret tt
  | Some ctx =>
      try_catch
        (t <- gets titleFontSize ;;
         s <- gets contentFontSize ;;
         saveFontSizes ctx t s)
        (fun error => ret tt)
  end.

Definition searchMemos (keyword : string) : M unit :=
  c <- gets context ;;
  match c with
  | None => ret tt
  | Some ctx =>
      modify (set_isLoading true) ;;
      modify (set_searchKeyword (trim keyword)) ;;
      try_finally
        (try_catch
           (kw <- gets searchKeyword ;;
            found <- queryMemosByTitle ctx kw ;;
            modify (set_memos found))
           (fun error => modify (set_memos [])))
        (modify (set_isLoading false))
  end.

Definition loadInitialData : M unit :=
  c <- gets context ;;
  match c with
  | None => ret tt
  | Some ctx =>
      modify (set_isLoading true) ;;
      try_finally
        (try_catch
           (loadFontSizes ;;
            kw <- gets searchKeyword ;;
            searchMemos kw)
           (fun error => ret tt))
        (modify (set_isLoading false))
  end.

Definition loadMemoById (id : Z) : M unit :=
  c <- gets context ;;
  match c with
  | None => ret tt
  | Some ctx =>
      modify (set_isLoading true) ;;
      try_finally
        (try_catch
           (found <- queryMemoById ctx id ;;
            modify (set_currentMemo found))
           (fun error => modify (set_currentMemo None)))
        (modify (set_isLoading false))
  end.

Definition prepareNewMemo : M unit :=
  modify (set_currentMemo None).

(** The two branches of [saveCurrentMemo]. *)
Definition save_update (ctx : Context) (title content : string)
    (memo_id created : Z) : M bool :=
  t <- Date_now ;;
  updatedMemo <- new_Memo title content (Some memo_id) (Some created) (Some t) ;;
  affectedRows <- updateMemo ctx updatedMemo ;;
  ret (0 <? affectedRows).

Definition save_add (ctx : Context) (title content : string) : M bool :=
  newMemo <- new_Memo title content None None None ;;
  rowId <- addMemo ctx newMemo ;;
  ret (0 <? rowId).

Definition saveCurrentMemo (title content : string) : M bool :=
  c <- gets context ;;
  match c with
  | None => ret false
  | Some ctx =>
      modify (set_isLoading true) ;;
      try_finally
        (try_catch
           (cur <- gets currentMemo ;;
            success <-
              match cur with
              | Some m =>
                  match id m with
                  | Some memo_id => save_update ctx title content memo_id (createdDate m)
                  | None => save_add ctx title content
                  end
              | None => save_add ctx title content
              end ;;
            (if success : bool
             then kw <- gets searchKeyword ;; searchMemos kw
             else ret tt) ;;
            ret success)
           (fun error => ret false))
        (modify (set_isLoading false))
  end.

Definition deleteMemo (id : Z) : M unit :=
  c <- gets context ;;
  match c with
  | None => ret tt
  | Some ctx =>
      modify (set_isLoading true) ;;
      try_finally
        (try_catch
           (affectedRows <- deleteMemo ctx id ;;
            if 0 <? affectedRows
            then kw <- gets searchKeyword ;; searchMemos kw
            else ret tt)
           (fun error => ret tt))
        (modify (set_isLoading false))
  end.

End MemoViewModel.

(* ===================================================================== *)
(** * Interleaved first calls of the handle getters *)
(* ===================================================================== *)

(** An [async] method runs from its call to its first [await] without
    interruption, and from each resumption to the next [await].  A call of
    [getRdbStore] (and of [getPreferences], which has the same shape) is
    therefore a task of two turns: the first tests the field and, when it
    is empty, starts the open and suspends at the [await]; the second
    resumes with the outcome of the open, assigns the field and returns. *)
Inductive HandleTask :=
| Called (ctx : Context)
| AwaitingOpen (ticket : nat)
| Settled (r : Res nat).

Definition turn_getRdbStore (t : HandleTask) (w : World) : HandleTask * World :=
  match t with
  | Called ctx =>
      match rdbStore w with
      | Some store => (Settled (Ok store), w)
      | None =>
          match open_begin ctx w with
          | (Ok ticket, w') => (AwaitingOpen ticket, w')
          | (Raise e, w') => (Settled (Raise (handle_error e)), w')
          end
      end
  | AwaitingOpen ticket =>
      match open_complete ticket w with
      | (Ok store, w') => (Settled (Ok store), set_rdbStore (Some store) w')
      | (Raise e, w') => (Settled (Raise (handle_error e)), w')
      end
  | Settled r => (Settled r, w)
  end.

Definition turn_getPreferences (t : HandleTask) (w : World) : HandleTask * World :=
  match t with
  | Called ctx =>
      match prefInstance w with
      | Some prefs => (Settled (Ok prefs), w)
      | None =>
          match pref_open_begin ctx PREF_FILE_NAME w with
          | (Ok ticket, w') => (AwaitingOpen ticket, w')
          | (Raise e, w') => (Settled (Raise (pref_handle_error e)), w')
          end
      end
  | AwaitingOpen ticket =>
      match pref_open_complete ticket w with
      | (Ok prefs, w') => (Settled (Ok prefs), set_prefInstance (Some prefs) w')
      | (Raise e, w') => (Settled (Raise (pref_handle_error e)), w')
      end
  | Settled r => (Settled r, w)
  end.

(** A schedule names, turn after turn, the task that runs next. *)
Fixpoint run_tasks (turn : HandleTask -> World -> HandleTask * World)
    (schedule : list nat) (tasks : list HandleTask) (w : World)
  : list HandleTask * World :=
  match schedule with
  | [] => (tasks, w)
  | i :: schedule' =>
      match tasks !! i with
      | None => run_tasks turn schedule' tasks w
      | Some t =>
          match turn t w with
          | (t', w') => run_tasks turn schedule' (<[i := t']> tasks) w'
          end
      end
  end.

(* ===================================================================== *)
(** * Notions used in the statements *)
(* ===================================================================== *)

(** The note a result-set row decodes to. *)
Definition memo_of_row (r : Row) : Memo :=
  mkMemo (Some (r_id r)) (r_title r) (r_content r)
         (r_created_date r) (r_modified_date r).

(** The storage handle cannot be had: none is memoized and the open that
    the next call starts is the next platform call to fault. *)
Definition open_fails (w : World) : bool :=
  match rdbStore w, faults w with
  | None, O :: _ => true
  | _, _ => false
  end.

Definition pref_open_fails (w : World) : bool :=
  match prefInstance w, faults w with
  | None, O :: _ => true
  | _, _ => false
  end.

(** The rows of table [memo] as a handle sees them: a database file that
    does not exist yet is created empty by the open. *)
Definition visible_rows (w : World) : list Row :=
  match rdbStore w with
  | Some _ => db_rows w
  | None => if db_created w then db_rows w else []
  end.

(** Invariant of the store: a file that does not exist has no rows and no
    handle, the ids are positive, distinct and not above the AUTOINCREMENT counter, the
    dates of a row are ordered and lie in the past, and the clock does not
    run backwards.  It holds of the empty store and is kept by every
    operation of the view model (see [store_inv_kept]). *)
Record store_inv (w : World) : Prop := {
  inv_fresh : db_created w = false -> db_rows w = [];
  inv_handle : rdbStore w <> None -> db_created w = true;
  inv_seq : 0 <= db_seq w;
  inv_ids : forall r, In r (db_rows w) -> 0 < r_id r <= db_seq w;
  inv_unique : NoDup (map r_id (db_rows w));
  inv_dates : forall r, In r (db_rows w) ->
      r_created_date r <= r_modified_date r <= now w;
  inv_clock : Forall (fun d => 0 <= d) (clock_steps w)
}.

(** The invariant goes from one world to the next. *)
Definition keeps_inv (w w' : World) : Prop := store_inv w -> store_inv w'.

(** Newest first. *)
Definition newer_first (a b : Memo) : Prop := modifiedDate b <= modifiedDate a.

(** The characters LIKE treats as wild cards. *)
Definition is_wildcard (c : ascii) : bool := Ascii.eqb c "%" || Ascii.eqb c "_".

Definition wildcard_free (s : string) : bool :=
  forallb (fun c => negb (is_wildcard c)) (list_ascii_of_string s).

(** [k] occurs in [s], letters A-Z and a-z compared without regard to
    case. *)
Fixpoint prefix_ci (k s : list ascii) : bool :=
  match k, s with
  | [], _ => true
  | _ :: _, [] => false
  | c :: k', d :: s' => Ascii.eqb (fold_case c) (fold_case d) && prefix_ci k' s'
  end.

Fixpoint occurs_ci (k s : list ascii) : bool :=
  prefix_ci k s ||
  match s with
  | [] => false
  | _ :: s' => occurs_ci k s'
  end.

Definition title_contains (keyword : string) (r : Row) : bool :=
  occurs_ci (list_ascii_of_string keyword) (list_ascii_of_string (r_title r)).

(** [k] occurs in [s] character for character. *)
Fixpoint prefix_exact (k s : list ascii) : bool :=
  match k, s with
  | [], _ => true
  | _ :: _, [] => false
  | c :: k', d :: s' => Ascii.eqb c d && prefix_exact k' s'
  end.

Fixpoint occurs_exact (k s : list ascii) : bool :=
  prefix_exact k s ||
  match s with
  | [] => false
  | _ :: s' => occurs_exact k s'
  end.

Definition is_substring (keyword text : string) : bool :=
  occurs_exact (list_ascii_of_string keyword) (list_ascii_of_string text).

(** A keyword of white space only: its bytes split into white-space
    characters. *)
Fixpoint all_white_space (l : list ascii) : bool :=
  match l with
  | [] => true
  | c1 :: l1 =>
      is_white_space [c1] && all_white_space l1
      || match l1 with
         | [] => false
         | c2 :: l2 =>
             is_white_space [c1; c2] && all_white_space l2
             || match l2 with
                | [] => false
                | c3 :: l3 => is_white_space [c1; c2; c3] && all_white_space l3
                end
         end
  end.

Definition blank (s : string) : bool := all_white_space (list_ascii_of_string s).

(** The rows [ORDER BY modified_date DESC] delivers. *)
Definition newest_first (rows : list Row) : list Row :=
  sort_desc r_modified_date rows.

(** The world once a handle has been obtained: unchanged when one is
    memoized, otherwise after the open (the fault schedule apart). *)
Definition after_open (w : World) : World :=
  match rdbStore w with
  | Some _ => w
  | None =>
      set_rdbStore (Some (S (db_opens w)))
        (if db_created w
         then set_db true (db_rows w) (db_seq w) (S (db_opens w)) w
         else set_db true [] 0 (S (db_opens w)) w)
  end.

Definition after_pref_open (w : World) : World :=
  match prefInstance w with
  | Some _ => w
  | None =>
      set_prefInstance (Some (S (pref_opens w)))
        (set_prefs (pref_disk w)
           (Some (default (pref_disk w) (pref_cache w))) (S (pref_opens w)) w)
  end.

(** How [saveCurrentMemo] settles once its write has come back with [r]
    in world [w]: it succeeds when [r] is a positive number (the count of
    affected rows, or the new row id); on success the list is refreshed by
    a search for the current keyword; the loading flag is cleared. *)
Definition settle_save (r : Res Z) (w : World) : Res bool * World :=
  let success := match r with Ok n => 0 <? n | Raise _ => false end in
  (Ok success,
   set_isLoading false
     (if success then snd (MemoViewModel.searchMemos (searchKeyword w) w) else w)).

(** The edit path: a note with the original id and creation date and a
    fresh modification date goes to [updateMemo]. *)
Definition save_by_update (ctx : Context) (t c : string) (memo_id created : Z)
    (w : World) : Res bool * World :=
  let stamp := now w + hd 0 (clock_steps w) in
  let w1 := snd (Date_now (snd (Date_now (set_isLoading true w)))) in
  let '(r, w2) := updateMemo ctx (mkMemo (Some memo_id) t c created stamp) w1 in
  settle_save r w2.

(** The add path: a newly constructed note goes to [addMemo]. *)
Definition save_by_add (ctx : Context) (t c : string) (w : World)
  : Res bool * World :=
  let stamp := now w + hd 0 (clock_steps w) in
  let w1 := snd (Date_now (set_isLoading true w)) in
  let '(r, w2) := addMemo ctx (mkMemo None t c stamp stamp) w1 in
  settle_save r w2.

(** A computation whose runs all relate the world before to the world
    after by [R]. *)
Definition respects (R : World -> World -> Prop) {A} (m : M A) : Prop :=
  forall w, R w (snd (m w)).

(** [f] reads the same in both worlds. *)
Definition same {T} (f : World -> T) (w w' : World) : Prop := f w' = f w.

(** The result sets of both worlds are the same but for the one at
    [rs]. *)
Definition only_alters (rs : ResultSetRef) (w w' : World) : Prop :=
  exists F, result_sets w' = alter F rs (result_sets w).

(** Every value the computation returns satisfies [P]. *)
Definition yields {A} (P : A -> Prop) (m : M A) : Prop :=
  forall w a, fst (m w) = Ok a -> P a.

(** The fields of the view model read the same in both worlds. *)
Definition vm_same (w w' : World) : Prop :=
  memos w' = memos w /\
  titleFontSize w' = titleFontSize w /\
  contentFontSize w' = contentFontSize w /\
  isLoading w' = isLoading w /\
  searchKeyword w' = searchKeyword w /\
  currentMemo w' = currentMemo w /\
  context w' = context w.

(** A note, when there is one, has an id. *)
Definition with_id (found : option Memo) : Prop :=
  match found with
  | Some m => id m <> None
  | None => True
  end.

(** The current memo, when there is one, has an id. *)
Definition current_has_id (w : World) : Prop := with_id (currentMemo w).

(** Every result set is accounted for: [close()] has been called on it. *)
Definition released (r : ResultSet) : Prop := rs_state r <> RsOpen.

(** The result sets a computation leaves behind: those that were there,
    untouched, and after them new ones that have all been released. *)
Definition releases_its_result_sets {A} (m : M A) (w : World) : Prop :=
  exists new,
    result_sets (snd (m w)) = result_sets w ++ new /\ Forall released new.

(** The result set [rs] stands on a row and has at most [fuel] rows from
    that row on: the state in which [parseResultSet] enters its loop, with
    [fuel] the row count. *)
Definition rows_within (rs : ResultSetRef) (fuel : nat) (w : World) : Prop :=
  exists r k,
    result_sets w !! rs = Some r /\
    rs_pos r = Some k /\
    (k < length (rs_rows r))%nat /\
    (length (rs_rows r) <= k + fuel)%nat.

(** A computation that never leaves its caller with an exception. *)
Definition never_raises {A} (m : M A) (w : World) : Prop :=
  exists a, fst (m w) = Ok a.

(** A computation that leaves its caller with an exception. *)
Definition raises {A} (m : M A) (w : World) : Prop :=
  exists e, fst (m w) = Raise e.

(** The platform call that follows the acquisition of the storage handle
    (the insert, query, update or delete of a repository operation)
    faults. *)
Definition store_call_fails (ctx : Context) (w : World) : bool :=
  match faults (snd (getRdbStore ctx w)) with
  | O :: _ => true
  | _ => false
  end.

(** Worlds for the examples: a bound view model over an opened store. *)
Definition empty_world : World :=
  mkWorld [] 1000 [] false [] 0 0 [] ∅ None 0 None None [] 18 14 false "" None None.

Definition bound_world : World := set_context (Some 1%nat) empty_world.

Definition add_note (title content : string) (w : World) : World :=
  snd ((memo <- new_Memo title content None None None ;; addMemo 1%nat memo) 
         (set_clock (now w) [1] w)).

(** Three notes "Alpha", "Beta", "Alphabet", written one millisecond
    apart. *)
Definition three_notes : World :=
  add_note "Alphabet" "c" (add_note "Beta" "b" (add_note "Alpha" "a" bound_world)).

(** The three notes five milliseconds later. *)
Definition three_notes_later : World :=
  set_clock (now three_notes) [5] three_notes.

(** The three notes with a draft that has no id yet in [currentMemo]. *)
Definition three_notes_with_draft : World :=
  set_currentMemo (Some (mkMemo None "Draft" "" 1003 1003)) three_notes_later.

(** The three notes with the stored note "Beta" in [currentMemo]. *)
Definition three_notes_editing : World :=
  set_currentMemo (Some (mkMemo (Some 2) "Beta" "b" 1002 1002)) three_notes_later.

(* ===================================================================== *)
(** * The pages *)
(* ===================================================================== *)

(** ** Numbers and strings of the pages *)

(** [Number.prototype.toString()] of an integer: its decimal digits, with a
    minus sign for a negative one.  (A number of 22 digits or more would be
    written with an exponent; row ids and calendar fields are far below.) *)
Fixpoint digits_le (fuel : nat) (n : Z) : list Z :=
  match fuel with
  | O => []
  | S fuel' => (n mod 10) :: (if n <? 10 then [] else digits_le fuel' (n / 10))
  end.

Definition digit_char (d : Z) : ascii := ascii_of_nat (48 + Z.to_nat d).

Definition decimal (n : Z) : string :=
  string_of_list_ascii
    (map digit_char (rev (digits_le (S (Z.to_nat (Z.log2 n))) n))).

Definition Number_toString (n : Z) : string :=
  if n <? 0 then String "-" (decimal (- n)) else decimal n.

(** The value of a character as a digit in radix [R], if it is one. *)
Definition digit_value (R : Z) (c : ascii) : option Z :=
  let n := Z.of_nat (nat_of_ascii c) in
  let v :=
    if (48 <=? n) && (n <=? 57) then Some (n - 48)
    else if (97 <=? n) && (n <=? 122) then Some (n - 87)
    else if (65 <=? n) && (n <=? 90) then Some (n - 55)
    else None in
  match v with
  | Some d => if d <? R then Some d else None
  | None => None
  end.

(** The number that the longest prefix of digits denotes. *)
Fixpoint digits_value (R : Z) (s : string) (acc : Z) : Z :=
  match s with
  | EmptyString => acc
  | String c s' =>
      match digit_value R c with
      | Some d => digits_value R s' (acc * R + d)
      | None => acc
      end
  end.

Definition starts_with_digit (R : Z) (s : string) : bool :=
  match s with
  | EmptyString => false
  | String c _ => match digit_value R c with Some _ => true | None => false end
  end.

(** [parseInt(string)] without a radix: leading white space is skipped, a
    sign is taken, [0x] or [0X] selects radix 16, and the longest prefix of
    digits is read; [None] stands for [NaN], the answer when there is no
    digit.  The value is exact, as it is in JavaScript up to 2^53. *)
Definition parseInt (s : string) : option Z :=
  let S := trim_start s in
  let '(sign, S1) :=
    match S with
    | String "-" r => (-1, r)
    | String "+" r => (1, r)
    | _ => (1, S)
    end in
  let '(R, S2) :=
    match S1 with
    | String "0" (String "x" r) => (16, r)
    | String "0" (String "X" r) => (16, r)
    | _ => (10, S1)
    end in
  if starts_with_digit R S2 then Some (sign * digits_value R S2 0) else None.

(** ** What the pages see of the platform *)

(** The user interface: the messages shown by [promptAction.showToast],
    oldest first, the number of calls of [router.back], the pages pushed by
    [router.pushUrl] with their parameters, and the parameters of the
    route the page was opened with ([router.getParams()]). *)
Record Ui := mkUi {
  toasts : list string;
  backs : nat;
  pushes : list (string * gmap string string);
  route_params : option (gmap string string)
}.

(** A page at work: the world, whose view-model fields are those of the
    [viewModel] the page has created, the user interface, and the fields of
    the page itself. *)
Record Screen (P : Type) := mkScreen {
  world : World;
  ui : Ui;
  page : P
}.
Arguments mkScreen {P} world ui page.
Arguments world {P} s.
Arguments ui {P} s.
Arguments page {P} s.

Definition PM (P A : Type) : Type := Screen P -> Res A * Screen P.

Module Page.

Definition ret {P A} (a : A) : PM P A := fun s => (Ok a, s).

Definition bind {P A B} (m : PM P A) (k : A -> PM P B) : PM P B := fun s =>
  match m s with
  | (Ok a, s') => k a s'
  | (Raise e, s') => (Raise e, s')
  end.

Definition try_catch {P A} (m : PM P A) (h : Exn -> PM P A) : PM P A := fun s =>
  match m s with
  | (Ok a, s') => (Ok a, s')
  | (Raise e, s') => h e s'
  end.

(** A call into the view model or the platform of the world. *)
Definition lift {P A} (m : M A) : PM P A := fun s =>
  match m (world s) with
  | (r, w') => (r, mkScreen w' (ui s) (page s))
  end.

Definition gets {P A} (f : Screen P -> A) : PM P A := fun s => (Ok (f s), s).

Definition set_page {P} (f : P -> P) : PM P unit := fun s =>
  (Ok tt, mkScreen (world s) (ui s) (f (page s))).

Definition set_ui {P} (f : Ui -> Ui) : PM P unit := fun s =>
  (Ok tt, mkScreen (world s) (f (ui s)) (page s)).

(** A call of an [async] method that is not awaited, in tail position: the
    chain it starts runs to its end, and a rejection of its promise reaches
    nobody. *)
Definition not_awaited {P A} (m : PM P A) : PM P unit :=
  try_catch (bind m (fun _ => ret tt)) (fun _ => ret tt).

(** [promptAction.showToast({ message })] *)
Definition showToast {P} (message : string) : PM P unit :=
  set_ui (fun u => mkUi (toasts u ++ [message]) (backs u) (pushes u) (route_params u)).

(** [router.back()] *)
Definition router_back {P} : PM P unit :=
  set_ui (fun u => mkUi (toasts u) (S (backs u)) (pushes u) (route_params u)).

(** [router.getParams()] *)
Definition router_getParams {P} : PM P (option (gmap string string)) :=
  gets (fun s => route_params (ui s)).

(** [router.pushUrl({ url, params })]: the promise is rejected when the
    platform faults. *)
Definition router_pushUrl {P} (url : string) (params : gmap string string)
  : PM P unit :=
  bind (lift (platform_call "router.pushUrl")) (fun _ =>
  set_ui (fun u => mkUi (toasts u) (backs u) (pushes u ++ [(url, params)])
                     (route_params u))).

(** [promptAction.showDialog(...)]: the promise resolves with the index of
    the button the user has chosen, or is rejected when the platform
    faults. *)
Definition showDialog {P} (chosen : Z) : PM P Z :=
  bind (lift (platform_call "promptAction.showDialog")) (fun _ => ret chosen).

End Page.

Declare Scope page_scope.
Delimit Scope page_scope with page.
Notation "x <- m ;; k" := (Page.bind m (fun x => k))
  (at level 100, m at next level, right associativity) : page_scope.
Notation "m ;; k" := (Page.bind m (fun _ => k))
  (at level 100, right associativity) : page_scope.

(** ** pages/MemoEditPage *)

Module MemoEditPage.

(** The fields of the page: the two inputs, [memoId] ([null] until the
    route names one), [isEditMode] and [context]. *)
Record Fields := mkFields {
  memoTitle : string;
  memoContent : string;
  memoId : option Z;
  isEditMode : bool;
  page_context : option Context
}.

Definition set_inputs (t c : string) (p : Fields) : Fields :=
  mkFields t c (memoId p) (isEditMode p) (page_context p).
Definition set_memoId (i : option Z) (p : Fields) : Fields :=
  mkFields (memoTitle p) (memoContent p) i (isEditMode p) (page_context p).
Definition set_isEditMode (b : bool) (p : Fields) : Fields :=
  mkFields (memoTitle p) (memoContent p) (memoId p) b (page_context p).

(** The page as it is created: empty inputs, no id, and the context the
    framework has put into the field, if it has. *)
Definition created (ctx : option Context) : Fields :=
  mkFields "" "" None false ctx.

(** [loadExistingMemoData] *)
Definition loadExistingMemoData : PM Fields unit :=
  (i <- Page.gets (fun s => memoId (page s)) ;;
   match i with
   | None => Page.ret tt
   | Some memo_id =>
       Page.lift (MemoViewModel.loadMemoById memo_id) ;;
       cur <- Page.gets (fun s => currentMemo (world s)) ;;
       match cur with
       | Some m => Page.set_page (set_inputs (title m) (content m))
       | None =>
           Page.showToast "无法加载笔记数据" ;;
           Page.router_back
       end
   end)%page.

(** [aboutToAppear] *)
Definition aboutToAppear : PM Fields unit :=
  (c <- Page.gets (fun s => page_context (page s)) ;;
   match c with
   | None => Page.showToast "无法初始化页面环境"
   | Some ctx =>
       Page.lift (MemoViewModel.initialize ctx) ;;
       params <- Page.router_getParams ;;
       match params ≫= (fun ps => ps !! "memoId") with
       | Some text =>
           if truthy text then
             match parseInt text with
             | Some id =>
                 Page.set_page (set_memoId (Some id)) ;;
                 Page.set_page (set_isEditMode true) ;;
                 Page.not_awaited loadExistingMemoData
             | None =>
                 Page.showToast "无效的笔记ID" ;;
                 Page.router_back
             end
           else
             Page.set_page (set_isEditMode false) ;;
             Page.lift MemoViewModel.prepareNewMemo
       | None =>
           Page.set_page (set_isEditMode false) ;;
           Page.lift MemoViewModel.prepareNewMemo
       end
   end)%page.

(** [saveMemo] *)
Definition saveMemo : PM Fields unit :=
  (t <- Page.gets (fun s => memoTitle (page s)) ;;
   if negb (truthy (trim t)) then Page.showToast "标题不能为空"
   else
     c <- Page.gets (fun s => memoContent (page s)) ;;
     success <- Page.lift (MemoViewModel.saveCurrentMemo (trim t) (trim c)) ;;
     if success : bool then
       edit <- Page.gets (fun s => isEditMode (page s)) ;;
       Page.showToast (if edit : bool then "笔记已更新" else "笔记已添加") ;;
       Page.router_back
     else Page.showToast "保存失败，请稍后重试")%page.

(** The [onChange] handlers of the two inputs. *)
Definition onTitleChange (value : string) : PM Fields unit :=
  Page.set_page (fun p => set_inputs value (memoContent p) p).
Definition onContentChange (value : string) : PM Fields unit :=
  Page.set_page (fun p => set_inputs (memoTitle p) value p).

End MemoEditPage.

(** ** pages/MemoListPage *)

Module MemoListPage.

Record Fields := mkFields {
  searchInput : string;
  page_context : option Context
}.

Definition created (ctx : option Context) : Fields := mkFields "" ctx.

(** [aboutToAppear] *)
Definition aboutToAppear : PM Fields unit :=
  (c <- Page.gets (fun s => page_context (page s)) ;;
   match c with
   | Some ctx =>
       Page.lift (MemoViewModel.initialize ctx) ;;
       Page.not_awaited (Page.lift MemoViewModel.loadInitialData)
   | None => Page.showToast "无法初始化页面数据"
   end)%page.

(** [goToEditPage(memoId?)] *)
Definition goToEditPage (memoId : option Z) : PM Fields unit :=
  let params : gmap string string :=
    match memoId with
    | Some i => {[ "memoId" := Number_toString i ]}
    | None => ∅
    end in
  Page.try_catch
    (Page.router_pushUrl "pages/MemoEditPage" params)
    (fun err => Page.showToast "页面跳转失败").

(** The [onChange] handler of the search input. *)
Definition onSearchChange (value : string) : PM Fields unit :=
  (Page.set_page (fun p => mkFields value (page_context p)) ;;
   input <- Page.gets (fun s => searchInput (page s)) ;;
   Page.not_awaited (Page.lift (MemoViewModel.searchMemos input)))%page.

(** The [onClick] handler of the delete button of [memo]; [chosen] is the
    index of the button the user presses in the dialog. *)
Definition onDeleteClick (memo : Memo) (chosen : Z) : PM Fields unit :=
  Page.try_catch
    (index <- Page.showDialog chosen ;;
     if index =? 1 then
       match id memo with
       | Some memo_id =>
           Page.lift (MemoViewModel.deleteMemo memo_id) ;;
           Page.showToast "笔记已删除"
       | None => Page.ret tt
       end
     else Page.ret tt)%page
    (fun err => Page.ret tt).

End MemoListPage.

(** The router opens the page that was pushed last: a new [MemoEditPage]
    with a view model of its own, over the same platform and the same
    singletons, with the parameters of the push as its route parameters. *)
Definition open_edit_page (ctx : option Context) (s : Screen MemoListPage.Fields)
  : Screen MemoEditPage.Fields :=
  mkScreen (MemoViewModel.fresh (world s))
    (mkUi (toasts (ui s)) (backs (ui s)) (pushes (ui s))
       (snd <$> last (pushes (ui s))))
    (MemoEditPage.created ctx).
(** ** Notions for the properties beyond the claims *)

(** What is persisted reads the same in both worlds: the rows a handle
    sees and the preference file. *)
Definition persisted_same (w w' : World) : Prop :=
  visible_rows w' = visible_rows w /\ pref_disk w' = pref_disk w.

(** A platform that has stopped faulting stays so. *)
Definition quiet_kept (w w' : World) : Prop := faults w = [] -> faults w' = [].

(** A new process over the same device: the store and the preference
    file are what they were, the singletons of the application are new
    ([rdbStore] and [prefInstance] are [null]), the platform holds no
    cache of the preference file and no result set, and the view model is
    new. *)
Definition restart (w : World) : World :=
  mkWorld (faults w) (now w) (clock_steps w) (db_created w) (db_rows w) (db_seq w)
    (db_opens w) [] (pref_disk w) None (pref_opens w) None None
    [] 18 14 false "" None None.

(** The preference values an instance reads: the cache once the file is
    loaded, the file before. *)
Definition pref_values (w : World) : gmap string Z :=
  default (pref_disk w) (pref_cache w).

(** What [queryMemosByTitle] delivers for [keyword] when nothing faults:
    the notes whose title LIKE accepts (all notes for the empty keyword),
    newest first. *)
Definition listing (keyword : string) (w : World) : list Memo :=
  map memo_of_row
    (newest_first
       (if truthy keyword
        then List.filter
               (fun r => sql_like (String.append "%" (String.append keyword "%"))
                           (r_title r))
               (visible_rows w)
        else visible_rows w)).

(** The list on display is the listing of the store for the keyword on
    display. *)
Definition list_current (w : World) : Prop :=
  memos w = listing (searchKeyword w) w.

(** The result set [rs] of world [w] has the columns of [COLUMNS], the
    rows [rows] and stands at [pos]. *)
Definition holds_rows (rs : ResultSetRef) (rows : list Row) (pos : option nat)
    (w : World) : Prop :=
  exists r,
    result_sets w !! rs = Some r /\
    rs_rows r = rows /\ rs_columns r = COLUMNS /\ rs_pos r = pos.

(** [found] is nothing, or the note of a stored row with id [i]. *)
Definition stored_under (i : Z) (w : World) (found : option Memo) : Prop :=
  match found with
  | None => True
  | Some m => exists row, In row (visible_rows w) /\ r_id row = i /\ m = memo_of_row row
  end.

(** What a write of the repository has done when it comes back with [r]:
    a positive number means that the store now holds a row with the given
    title and content; anything else that the rows are what they were. *)
Definition written (t c : string) (r : Res Z) (w w' : World) : Prop :=
  match r with
  | Ok n =>
      if 0 <? n
      then exists row, In row (visible_rows w') /\ r_title row = t /\ r_content row = c
      else visible_rows w' = visible_rows w
  | Raise _ => visible_rows w' = visible_rows w
  end.

(** The three notes after a search for the empty keyword. *)
Definition three_notes_listed : World :=
  snd (MemoViewModel.searchMemos "" three_notes).

(** Screens for the examples: the list page and the editor over the three
    notes, as the framework creates them with a context. *)
Definition list_screen : Screen MemoListPage.Fields :=
  mkScreen three_notes (mkUi [] 0 [] None) (MemoListPage.created (Some 1%nat)).

Definition editor_screen (t c : string) : Screen MemoEditPage.Fields :=
  mkScreen three_notes_later (mkUi [] 0 [] (Some ∅))
    (MemoEditPage.mkFields t c None false (Some 1%nat)).

(** ** Dates of the list page *)

(** The calendar of ECMAScript, on which [Date.prototype.getFullYear],
    [getMonth] and [getDate] are defined: the day number of an instant, the
    day on which a year begins, the year of a day, and the month and the
    day of the month from the day within the year. *)
Definition msPerDay : Z := 86400000.

Definition Day (t : Z) : Z := t / msPerDay.

Definition DayFromYear (y : Z) : Z :=
  365 * (y - 1970) + (y - 1969) / 4 - (y - 1901) / 100 + (y - 1601) / 400.

(** The largest year that begins on or before day [d]: one of the three
    years around the estimate by the mean length of a year. *)
Definition YearFromDay (d : Z) : Z :=
  let y := 1970 + (d * 400) / 146097 in
  if DayFromYear (y + 1) <=? d then y + 1
  else if d <? DayFromYear y then y - 1
  else y.

Definition InLeapYear (y : Z) : Z :=
  if negb (y mod 4 =? 0) then 0
  else if negb (y mod 100 =? 0) then 1
  else if negb (y mod 400 =? 0) then 0
  else 1.

Definition YearFromTime (t : Z) : Z := YearFromDay (Day t).

Definition DayWithinYear (t : Z) : Z := Day t - DayFromYear (YearFromTime t).

Definition MonthFromTime (t : Z) : Z :=
  let d := DayWithinYear t in
  let leap := InLeapYear (YearFromTime t) in
  if d <? 31 then 0
  else if d <? 59 + leap then 1
  else if d <? 90 + leap then 2
  else if d <? 120 + leap then 3
  else if d <? 151 + leap then 4
  else if d <? 181 + leap then 5
  else if d <? 212 + leap then 6
  else if d <? 243 + leap then 7
  else if d <? 273 + leap then 8
  else if d <? 304 + leap then 9
  else if d <? 334 + leap then 10
  else 11.

Definition DateFromTime (t : Z) : Z :=
  let d := DayWithinYear t in
  let leap := InLeapYear (YearFromTime t) in
  match MonthFromTime t with
  | 0 => d + 1
  | 1 => d - 30
  | 2 => d - 58 - leap
  | 3 => d - 89 - leap
  | 4 => d - 119 - leap
  | 5 => d - 150 - leap
  | 6 => d - 180 - leap
  | 7 => d - 211 - leap
  | 8 => d - 242 - leap
  | 9 => d - 272 - leap
  | 10 => d - 303 - leap
  | _ => d - 333 - leap
  end.

(** The lengths of the months of a year, from which the thresholds of
    [MonthFromTime] and [DateFromTime] are to come out. *)
Definition month_lengths (leap : Z) : list Z :=
  [31; 28 + leap; 31; 30; 31; 30; 31; 31; 30; 31; 30; 31].

Definition days_before_month (leap m : Z) : Z :=
  foldr Z.add 0 (take (Z.to_nat m) (month_lengths leap)).

Definition days_in_month (leap m : Z) : Z :=
  nth (Z.to_nat m) (month_lengths leap) 0.

(** [new Date(timestamp)]: an instant more than 8.64e15 ms from the epoch
    is not a date, and every getter of such a [Date] answers [NaN]
    ([None]).  The getters read local time: [tz] gives the offset of local
    time from UTC, in milliseconds, at an instant. *)
Definition valid_time (t : Z) : bool := Z.abs t <=? 8640000000000000.

Definition Date_getFullYear (tz : Z -> Z) (t : Z) : option Z :=
  if valid_time t then Some (YearFromTime (t + tz t)) else None.
Definition Date_getMonth (tz : Z -> Z) (t : Z) : option Z :=
  if valid_time t then Some (MonthFromTime (t + tz t)) else None.
Definition Date_getDate (tz : Z -> Z) (t : Z) : option Z :=
  if valid_time t then Some (DateFromTime (t + tz t)) else None.

(** [toString] of a number that may be [NaN]. *)
Definition toString_or_NaN (n : option Z) : string :=
  match n with
  | Some z => Number_toString z
  | None => "NaN"
  end.

(** [String.prototype.padStart(targetLength, padString)]: the pad string
    is repeated, and cut, to fill the missing length. *)
Fixpoint fill_cycle (n : nat) (fill cur : string) : string :=
  match n with
  | O => EmptyString
  | S n' =>
      match cur with
      | String c rest => String c (fill_cycle n' fill rest)
      | EmptyString =>
          match fill with
          | String c rest => String c (fill_cycle n' fill rest)
          | EmptyString => EmptyString
          end
      end
  end.

Definition padStart (targetLength : nat) (padString : string) (s : string) : string :=
  if (targetLength <=? String.length s)%nat then s
  else String.append (fill_cycle (targetLength - String.length s) padString padString) s.

(** [MemoListPage.formatDate]: nothing in the [try] block raises, so the
    [catch] is never entered. *)
Definition formatDate (tz : Z -> Z) (timestamp : Z) : string :=
  if timestamp =? 0 then ""
  else
    String.append (toString_or_NaN (Date_getFullYear tz timestamp))
      (String.append "-"
         (String.append
            (padStart 2 "0"
               (toString_or_NaN ((fun m => m + 1) <$> Date_getMonth tz timestamp)))
            (String.append "-"
               (padStart 2 "0" (toString_or_NaN (Date_getDate tz timestamp)))))).
(** ** The keys of the list *)

(** The key that the list page gives [ForEach] for a memo,
    [memo.id?.toString() ?? Math.random().toString()]: the id in decimal,
    and for a memo without id the text [random] of a number drawn for
    it. *)
Definition item_key (random : string) (memo : Memo) : string :=
  match id memo with
  | Some i => Number_toString i
  | None => random
  end.

(** Every memo of the list has an id, so that no key is drawn, and no two
    memos of the list have the same key. *)
Definition keys_distinct (l : list Memo) : Prop :=
  Forall (fun m => id m <> None) l /\
  forall random, NoDup (map (item_key random) l).

(** From a sound store with distinct keys on display to another. *)
Definition keyed (w w' : World) : Prop :=
  store_inv w -> keys_distinct (memos w) ->
  store_inv w' /\ keys_distinct (memos w').

(* ===================================================================== *)
(** * Basic facts about the monad and the platform *)
(* ===================================================================== *)

Lemma set_faults_same (w : World) : set_faults (faults w) w = w.
Proof. destruct w; reflexivity. Qed.

(** A platform call either returns or raises, and touches nothing but the
    fault schedule. *)
Lemma platform_call_cases (call : string) (w : World) :
  (exists s, faults w = O :: s /\
             platform_call call w = (Raise (PlatformError call), set_faults s w)) \/
  (exists s, (forall s', faults w <> O :: s') /\
             platform_call call w = (Ok tt, set_faults s w)).
Proof.
  unfold platform_call. destruct (faults w) as [|[|n] s] eqn:E.
  - right. exists []. split; [congruence|]. rewrite <- E, set_faults_same. reflexivity.
  - left. exists s. split; reflexivity.
  - right. exists (n :: s). split; [congruence|reflexivity].
Qed.

Lemma platform_call_quiet (call : string) (w : World) :
  faults w = [] -> platform_call call w = (Ok tt, w).
Proof. intros H. unfold platform_call. rewrite H. reflexivity. Qed.

Lemma try_finally_state {A} (m : M A) (f : World -> World) (w : World) :
  snd (try_finally m (modify f) w) = f (snd (m w)).
Proof. unfold try_finally, modify. destruct (m w); reflexivity. Qed.

Lemma try_finally_result {A} (m : M A) (f : World -> World) (w : World) :
  fst (try_finally m (modify f) w) = fst (m w).
Proof. unfold try_finally, modify. destruct (m w); reflexivity. Qed.

Lemma try_catch_never_raises {A} (m : M A) (h : Exn -> M A) (w : World) :
  (forall e w', never_raises (h e) w') -> never_raises (try_catch m h) w.
Proof.
  intros Hh. unfold never_raises, try_catch.
  destruct (m w) as [[a|e] w']; [exists a; reflexivity|apply Hh].
Qed.

Lemma ret_never_raises {A} (a : A) (w : World) : never_raises (ret a) w.
Proof. exists a; reflexivity. Qed.

Lemma modify_never_raises (f : World -> World) (w : World) : never_raises (modify f) w.
Proof. exists tt; reflexivity. Qed.

(** The shape shared by the asynchronous view-model operations:
    [try { body } catch { handler } finally { this.isLoading = false }]. *)
Lemma guarded_settles {A} (body : M A) (handler : Exn -> M A) (w : World) :
  (forall e w', never_raises (handler e) w') ->
  let m := try_finally (try_catch body handler) (modify (set_isLoading false)) in
  isLoading (snd (m w)) = false /\ never_raises m w.
Proof.
  intros Hh m. split.
  - unfold m. rewrite try_finally_state. reflexivity.
  - unfold never_raises, m. rewrite try_finally_result.
    apply try_catch_never_raises, Hh.
Qed.

Lemma bound_operation {A} (op : Context -> M A) (none : M A) (w : World) (ctx : Context) :
  context w = Some ctx ->
  (c <- gets context ;; match c with None => none | Some ctx => op ctx end) w = op ctx w.
Proof. intros H. unfold bind, gets. rewrite H. reflexivity. Qed.

(* ===================================================================== *)
(** * C10: the loading flag *)
(* ===================================================================== *)

(** C10.  Once the view model is bound to a context, each of
    [loadInitialData], [searchMemos], [loadMemoById], [saveCurrentMemo] and
    [deleteMemo] settles without raising and leaves [isLoading] false,
    whatever the platform does: on the success path and on every path on
    which an exception is caught inside. *)
Theorem isLoading_false_when_settled (w : World) (ctx : Context)
    (Hbound : context w = Some ctx) :
  (isLoading (snd (MemoViewModel.loadInitialData w)) = false /\
   never_raises MemoViewModel.loadInitialData w) /\
  (forall keyword,
      isLoading (snd (MemoViewModel.searchMemos keyword w)) = false /\
      never_raises (MemoViewModel.searchMemos keyword) w) /\
  (forall id,
      isLoading (snd (MemoViewModel.loadMemoById id w)) = false /\
      never_raises (MemoViewModel.loadMemoById id) w) /\
  (forall title content,
      isLoading (snd (MemoViewModel.saveCurrentMemo title content w)) = false /\
      never_raises (MemoViewModel.saveCurrentMemo title content) w) /\
  (forall id,
      isLoading (snd (MemoViewModel.deleteMemo id w)) = false /\
      never_raises (MemoViewModel.deleteMemo id) w).
Proof.
  repeat split.
  all: try intros.
  all: unfold never_raises, MemoViewModel.loadInitialData, MemoViewModel.searchMemos,
         MemoViewModel.loadMemoById, MemoViewModel.saveCurrentMemo,
         MemoViewModel.deleteMemo.
  all: rewrite (bound_operation _ _ w ctx Hbound).
  all: unfold bind at 1; cbn [modify].
  all: try (unfold bind at 1; cbn [modify]).
  all: match goal with
       | |- context [try_finally (try_catch ?b ?h) _ ?w'] =>
           destruct (guarded_settles b h w') as [Hl Hr];
           [ intros; first [apply ret_never_raises | apply modify_never_raises] | ]
       end.
  all: first [exact Hl | exact Hr].
Qed.

Lemma isLoading_false_when_settled_witness :
  (isLoading (snd (MemoViewModel.loadInitialData three_notes)) = false /\
   never_raises MemoViewModel.loadInitialData three_notes) /\
  (forall keyword,
      isLoading (snd (MemoViewModel.searchMemos keyword three_notes)) = false /\
      never_raises (MemoViewModel.searchMemos keyword) three_notes) /\
  (forall id,
      isLoading (snd (MemoViewModel.loadMemoById id three_notes)) = false /\
      never_raises (MemoViewModel.loadMemoById id) three_notes) /\
  (forall title content,
      isLoading (snd (MemoViewModel.saveCurrentMemo title content three_notes)) = false /\
      never_raises (MemoViewModel.saveCurrentMemo title content) three_notes) /\
  (forall id,
      isLoading (snd (MemoViewModel.deleteMemo id three_notes)) = false /\
      never_raises (MemoViewModel.deleteMemo id) three_notes).
Proof. apply (isLoading_false_when_settled three_notes 1%nat). reflexivity. Defined.

Lemma platform_call_fault (call : string) (w : World) (s : list nat) :
  faults w = O :: s ->
  platform_call call w = (Raise (PlatformError call), set_faults s w).
Proof. intros H. unfold platform_call. rewrite H. reflexivity. Qed.

Lemma bind_eq {A B} (m : M A) (k : A -> M B) (w w' : World) (r : Res A) :
  m w = (r, w') ->
  bind m k w = match r with Ok a => k a w' | Raise e => (Raise e, w') end.
Proof. intros H. unfold bind. rewrite H. reflexivity. Qed.

Lemma try_finally_never_raises {A} (m : M A) (f : M unit) (w : World) :
  never_raises m w -> (forall w', never_raises f w') ->
  never_raises (try_finally m f) w.
Proof.
  unfold never_raises, try_finally. intros [a Ha] Hf.
  destruct (m w) as [r w1]; cbn in Ha; subst r.
  destruct (Hf w1) as [u Hu]. destruct (f w1) as [r2 w2]; cbn in Hu; subst r2.
  exists a; reflexivity.
Qed.

Lemma raises_not_never {A} (m : M A) (w : World) :
  raises m w -> ~ never_raises m w.
Proof. intros [e He] [a Ha]. congruence. Qed.

(* ===================================================================== *)
(** * The handle getters *)
(* ===================================================================== *)

(** [getRdbStore] raises exactly when no handle is memoized and the open
    faults; otherwise it returns the handle of [after_open]. *)
Lemma getRdbStore_cases (ctx : Context) (w : World) :
  (open_fails w = true /\
   exists e s, getRdbStore ctx w =
     (Raise (handle_error e),
      set_faults s (set_db (db_created w) (db_rows w) (db_seq w) (S (db_opens w)) w))) \/
  (open_fails w = false /\
   exists s, getRdbStore ctx w =
             (Ok (default O (rdbStore (after_open w))), set_faults s (after_open w))).
Proof.
  unfold getRdbStore, open_fails, after_open.
  change (bind (gets rdbStore) ?k w) with (k (rdbStore w) w).
  destruct (rdbStore w) as [h|] eqn:Eh.
  - right. split; [reflexivity|]. exists (faults w).
    rewrite set_faults_same, Eh. reflexivity.
  - unfold try_catch, relationalStore_getRdbStore, open_begin, open_complete,
      bind, modify, gets, ret, throw.
    match goal with |- context [platform_call ?c ?w0] =>
      destruct (platform_call_cases c w0) as [(s & Hf & Hc)|(s & Hf & Hc)];
      rewrite Hc; clear Hc end;
    cbn in Hf |- *.
    + left. rewrite Hf. split; [reflexivity|]. eexists _, _; reflexivity.
    + right. split.
      * destruct (faults w) as [|[|n] s0]; try reflexivity.
        exfalso; eapply Hf; reflexivity.
      * exists s. destruct (db_created w) eqn:Ec; destruct w; cbn in *; subst;
          reflexivity.
Qed.

Lemma getPreferences_cases (ctx : Context) (w : World) :
  (pref_open_fails w = true /\
   exists e w', getPreferences ctx w = (Raise (pref_handle_error e), w')) \/
  (pref_open_fails w = false /\
   exists s, getPreferences ctx w =
             (Ok (default O (prefInstance (after_pref_open w))),
              set_faults s (after_pref_open w))).
Proof.
  unfold getPreferences, pref_open_fails, after_pref_open.
  change (bind (gets prefInstance) ?k w) with (k (prefInstance w) w).
  destruct (prefInstance w) as [h|] eqn:Eh.
  - right. split; [reflexivity|]. exists (faults w).
    rewrite set_faults_same, Eh. reflexivity.
  - unfold try_catch, preferences_getPreferences, pref_open_begin, pref_open_complete,
      bind, modify, gets, ret, throw.
    match goal with |- context [platform_call ?c ?w0] =>
      destruct (platform_call_cases c w0) as [(s & Hf & Hc)|(s & Hf & Hc)];
      rewrite Hc; clear Hc end;
    cbn in Hf |- *.
    + left. rewrite Hf. split; [reflexivity|]. eexists _, _; reflexivity.
    + right. split.
      * destruct (faults w) as [|[|n] s0]; try reflexivity.
        exfalso; eapply Hf; reflexivity.
      * exists s. destruct (pref_cache w) eqn:Ec; destruct w; cbn in *; subst;
          reflexivity.
Qed.

(** A repository operation starts by getting the handle. *)
Lemma with_handle_raises {A} (ctx : Context) (k : RdbStore -> M A) (w : World) :
  open_fails w = true -> raises (store <- getRdbStore ctx ;; k store) w.
Proof.
  intros H. destruct (getRdbStore_cases ctx w) as [(_ & e & w' & E)|(H' & _)];
    [|congruence].
  exists (handle_error e). rewrite (bind_eq _ _ _ _ _ E). reflexivity.
Qed.

Lemma with_handle_runs {A} (ctx : Context) (k : RdbStore -> M A) (w : World) :
  open_fails w = false ->
  exists s,
    getRdbStore ctx w =
      (Ok (default O (rdbStore (after_open w))), set_faults s (after_open w)) /\
    (store <- getRdbStore ctx ;; k store) w =
      k (default O (rdbStore (after_open w))) (set_faults s (after_open w)).
Proof.
  intros H. destruct (getRdbStore_cases ctx w) as [(H' & _)|(_ & s & E)];
    [congruence|].
  exists s. split; [exact E|]. rewrite (bind_eq _ _ _ _ _ E). reflexivity.
Qed.
(* ===================================================================== *)
(** * C4: read operations and raised errors *)
(* ===================================================================== *)

Lemma store_call_fails_faults (ctx : Context) (w : World) (s : list nat) :
  getRdbStore ctx w =
    (Ok (default O (rdbStore (after_open w))), set_faults s (after_open w)) ->
  store_call_fails ctx w = true ->
  exists s', s = O :: s'.
Proof.
  unfold store_call_fails. intros ->. cbn.
  destruct s as [|[|n] s']; try discriminate. eauto.
Qed.

Lemma queryAllMemos_never_raises (ctx : Context) (w : World) :
  open_fails w = false -> never_raises (queryAllMemos ctx) w.
Proof.
  intros Hh. unfold queryAllMemos.
  match goal with |- never_raises (bind _ ?k) _ =>
    destruct (with_handle_runs ctx k w Hh) as (s & _ & E) end.
  unfold never_raises. rewrite E.
  apply try_catch_never_raises. intros; apply ret_never_raises.
Qed.

Lemma queryMemosByTitle_never_raises (ctx : Context) (keyword : string) (w : World) :
  open_fails w = false -> never_raises (queryMemosByTitle ctx keyword) w.
Proof.
  intros Hh. unfold queryMemosByTitle.
  destruct (truthy keyword); cbn [negb].
  - match goal with |- never_raises (bind _ ?k) _ =>
      destruct (with_handle_runs ctx k w Hh) as (s & _ & E) end.
    unfold never_raises. rewrite E.
    apply try_catch_never_raises. intros; apply ret_never_raises.
  - apply queryAllMemos_never_raises, Hh.
Qed.

Lemma rs_close_guarded_never_raises (rs : ResultSetRef) (w : World) :
  never_raises (try_catch (rs_close rs) (fun closeError => ret tt)) w.
Proof. apply try_catch_never_raises. intros; apply ret_never_raises. Qed.

Lemma queryMemoById_never_raises (ctx : Context) (id : Z) (w : World) :
  open_fails w = false -> never_raises (queryMemoById ctx id) w.
Proof.
  intros Hh. unfold queryMemoById.
  match goal with |- never_raises (bind _ ?k) _ =>
    destruct (with_handle_runs ctx k w Hh) as (s & _ & E) end.
  unfold never_raises. rewrite E. unfold bind at 1.
  match goal with |- context [try_catch ?q ?h ?w1] =>
    destruct (try_catch_never_raises q h w1) as [r Hr];
    [intros; apply ret_never_raises|];
    destruct (try_catch q h w1) as [r' w2]; cbn in Hr; subst r' end.
  destruct r as [rs|]; [|apply ret_never_raises].
  apply try_finally_never_raises.
  - apply try_catch_never_raises. intros; apply ret_never_raises.
  - intros. apply rs_close_guarded_never_raises.
Qed.

Lemma query_fault_caught {A} (store : RdbStore) (p : RdbPredicates)
    (k : ResultSetRef -> M A) (a : A) (w : World) (s : list nat) :
  faults w = O :: s ->
  fst (try_catch (rs <- store_query store p COLUMNS ;; k rs) (fun e => ret a) w) = Ok a.
Proof.
  intros Hf. unfold try_catch, store_query, bind.
  rewrite (platform_call_fault _ _ _ Hf). reflexivity.
Qed.

(** A query call that faults is taken for an empty answer. *)
Lemma store_fault_reads_empty (ctx : Context) (w : World) :
  open_fails w = false ->
  store_call_fails ctx w = true ->
  fst (queryAllMemos ctx w) = Ok [] /\
  (forall keyword, fst (queryMemosByTitle ctx keyword w) = Ok []) /\
  (forall id, fst (queryMemoById ctx id w) = Ok None).
Proof.
  intros Hhandle Hq.
  assert (Hall : fst (queryAllMemos ctx w) = Ok []).
  { unfold queryAllMemos.
    match goal with |- context [bind _ ?k] =>
      destruct (with_handle_runs ctx k w Hhandle) as (s & E1 & E) end.
    rewrite E. destruct (store_call_fails_faults _ _ _ E1 Hq) as [s' ->].
    eapply query_fault_caught. reflexivity. }
  split; [exact Hall|]. split.
  - intros keyword. unfold queryMemosByTitle.
    destruct (truthy keyword); cbn [negb]; [|exact Hall].
    match goal with |- context [bind _ ?k] =>
      destruct (with_handle_runs ctx k w Hhandle) as (s & E1 & E) end.
    rewrite E. destruct (store_call_fails_faults _ _ _ E1 Hq) as [s' ->].
    eapply query_fault_caught. reflexivity.
  - intros id. unfold queryMemoById.
    match goal with |- context [bind _ ?k] =>
      destruct (with_handle_runs ctx k w Hhandle) as (s & E1 & E) end.
    rewrite E. destruct (store_call_fails_faults _ _ _ E1 Hq) as [s' ->].
    unfold bind at 1, try_catch, store_query, bind.
    erewrite platform_call_fault by reflexivity. reflexivity.
Qed.

(** C4, as amended.  Once the storage handle can be had (one is memoized,
    or the open does not fault), [queryAllMemos], [queryMemosByTitle] and
    [queryMemoById] never raise, whatever else the platform does; and when
    the query call itself faults, the first two return the empty sequence
    and the third the absent value. *)
Theorem reads_absorb_store_faults (ctx : Context) (w : World)
    (Hhandle : open_fails w = false) :
  (never_raises (queryAllMemos ctx) w /\
   (forall keyword, never_raises (queryMemosByTitle ctx keyword) w) /\
   (forall id, never_raises (queryMemoById ctx id) w)) /\
  (store_call_fails ctx w = true ->
   fst (queryAllMemos ctx w) = Ok [] /\
   (forall keyword, fst (queryMemosByTitle ctx keyword w) = Ok []) /\
   (forall id, fst (queryMemoById ctx id w) = Ok None)).
Proof.
  split.
  - split; [|split]; intros.
    + apply queryAllMemos_never_raises, Hhandle.
    + apply queryMemosByTitle_never_raises, Hhandle.
    + apply queryMemoById_never_raises, Hhandle.
  - intros Hq.
    assert (Hall : fst (queryAllMemos ctx w) = Ok []).
    { unfold queryAllMemos.
      match goal with |- context [bind _ ?k] =>
        destruct (with_handle_runs ctx k w Hhandle) as (s & E1 & E) end.
      rewrite E. destruct (store_call_fails_faults _ _ _ E1 Hq) as [s' ->].
      eapply query_fault_caught. reflexivity. }
    split; [exact Hall|]. split.
    + intros keyword. unfold queryMemosByTitle.
      destruct (truthy keyword); cbn [negb]; [|exact Hall].
      match goal with |- context [bind _ ?k] =>
        destruct (with_handle_runs ctx k w Hhandle) as (s & E1 & E) end.
      rewrite E. destruct (store_call_fails_faults _ _ _ E1 Hq) as [s' ->].
      eapply query_fault_caught. reflexivity.
    + intros id. unfold queryMemoById.
      match goal with |- context [bind _ ?k] =>
        destruct (with_handle_runs ctx k w Hhandle) as (s & E1 & E) end.
      rewrite E. destruct (store_call_fails_faults _ _ _ E1 Hq) as [s' ->].
      unfold bind at 1, try_catch, store_query, bind.
      erewrite platform_call_fault by reflexivity. reflexivity.
Qed.

Lemma reads_absorb_store_faults_witness :
  (never_raises (queryAllMemos 1%nat) (set_faults [O] three_notes) /\
   (forall keyword, never_raises (queryMemosByTitle 1%nat keyword) (set_faults [O] three_notes)) /\
   (forall id, never_raises (queryMemoById 1%nat id) (set_faults [O] three_notes))) /\
  (store_call_fails 1%nat (set_faults [O] three_notes) = true ->
   fst (queryAllMemos 1%nat (set_faults [O] three_notes)) = Ok [] /\
   (forall keyword, fst (queryMemosByTitle 1%nat keyword (set_faults [O] three_notes)) = Ok []) /\
   (forall id, fst (queryMemoById 1%nat id (set_faults [O] three_notes)) = Ok None)).
Proof. apply (reads_absorb_store_faults 1%nat (set_faults [O] three_notes)). reflexivity. Defined.

(** C4 as stated fails: with no handle memoized and an open that faults,
    [queryAllMemos] leaves its caller with the error of [getRdbStore]. *)
Lemma reads_raise_when_open_fails :
  ~ never_raises (queryAllMemos 1%nat) (set_faults [O] bound_world) /\
  fst (queryAllMemos 1%nat (set_faults [O] bound_world))
    = Raise (JsError "Failed to get RDB store") /\
  fst (queryMemosByTitle 1%nat "Alpha" (set_faults [O] bound_world))
    = Raise (JsError "Failed to get RDB store") /\
  fst (queryMemoById 1%nat 1 (set_faults [O] bound_world))
    = Raise (JsError "Failed to get RDB store").
Proof.
  split; [|repeat split; reflexivity].
  intros [a Ha]. vm_compute in Ha. discriminate.
Qed.

(* ===================================================================== *)
(** * C9: which failures propagate *)
(* ===================================================================== *)

Lemma getRdbStore_policy (ctx : Context) (w : World) :
  if open_fails w then raises (getRdbStore ctx) w
  else never_raises (getRdbStore ctx) w.
Proof.
  destruct (getRdbStore_cases ctx w) as [(-> & e & w' & E)|(-> & s & E)].
  - exists (handle_error e). rewrite E. reflexivity.
  - eexists. rewrite E. reflexivity.
Qed.

Lemma getPreferences_policy (ctx : Context) (w : World) :
  if pref_open_fails w then raises (getPreferences ctx) w
  else never_raises (getPreferences ctx) w.
Proof.
  destruct (getPreferences_cases ctx w) as [(-> & e & w' & E)|(-> & s & E)].
  - exists (pref_handle_error e). rewrite E. reflexivity.
  - eexists. rewrite E. reflexivity.
Qed.

Lemma addMemo_never_raises (ctx : Context) (memo : Memo) (w : World) :
  open_fails w = false -> never_raises (addMemo ctx memo) w.
Proof.
  intros Hh. unfold addMemo.
  match goal with |- never_raises (bind _ ?k) _ =>
    destruct (with_handle_runs ctx k w Hh) as (s & _ & E) end.
  unfold never_raises. rewrite E.
  apply try_catch_never_raises. intros; apply ret_never_raises.
Qed.

Lemma deleteMemo_never_raises (ctx : Context) (i : Z) (w : World) :
  open_fails w = false -> never_raises (deleteMemo ctx i) w.
Proof.
  intros Hh. unfold deleteMemo.
  match goal with |- never_raises (bind _ ?k) _ =>
    destruct (with_handle_runs ctx k w Hh) as (s & _ & E) end.
  unfold never_raises. rewrite E.
  apply try_catch_never_raises. intros; apply ret_never_raises.
Qed.

Lemma updateMemo_never_raises (ctx : Context) (memo : Memo) (w : World) :
  open_fails w = false -> never_raises (updateMemo ctx memo) w.
Proof.
  intros Hh. unfold updateMemo.
  destruct (id memo) as [i|]; [|apply ret_never_raises].
  match goal with |- never_raises (bind _ ?k) _ =>
    destruct (with_handle_runs ctx k w Hh) as (s & _ & E) end.
  unfold never_raises. rewrite E. unfold bind at 1, Date_now.
  apply try_catch_never_raises. intros; apply ret_never_raises.
Qed.

Lemma saveFontSizes_never_raises (ctx : Context) (t c : Z) (w : World) :
  never_raises (saveFontSizes ctx t c) w.
Proof.
  unfold saveFontSizes. apply try_catch_never_raises.
  intros; apply ret_never_raises.
Qed.

Lemma loadFontSizes_never_raises (ctx : Context) (w : World) :
  never_raises (loadFontSizes ctx) w.
Proof.
  unfold loadFontSizes. apply try_catch_never_raises.
  intros; apply ret_never_raises.
Qed.

(** What the repository operations return when the platform call behind
    them faults. *)
Lemma writes_report_store_fault (ctx : Context) (memo : Memo) (i : Z) (w : World) :
  open_fails w = false -> store_call_fails ctx w = true ->
  fst (addMemo ctx memo w) = Ok (-1) /\
  fst (updateMemo ctx memo w) = Ok 0 /\
  fst (deleteMemo ctx i w) = Ok 0.
Proof.
  intros Hh Hq. repeat split.
  - unfold addMemo.
    match goal with |- context [bind _ ?k] =>
      destruct (with_handle_runs ctx k w Hh) as (s & E1 & E) end.
    rewrite E. destruct (store_call_fails_faults _ _ _ E1 Hq) as [s' ->].
    unfold try_catch, store_insert, bind.
    erewrite platform_call_fault by reflexivity. reflexivity.
  - unfold updateMemo. destruct (id memo) as [j|]; [|reflexivity].
    match goal with |- context [bind _ ?k] =>
      destruct (with_handle_runs ctx k w Hh) as (s & E1 & E) end.
    rewrite E. destruct (store_call_fails_faults _ _ _ E1 Hq) as [s' ->].
    unfold bind at 1, Date_now, try_catch, store_update, bind.
    erewrite platform_call_fault by reflexivity. reflexivity.
  - unfold deleteMemo.
    match goal with |- context [bind _ ?k] =>
      destruct (with_handle_runs ctx k w Hh) as (s & E1 & E) end.
    rewrite E. destruct (store_call_fails_faults _ _ _ E1 Hq) as [s' ->].
    unfold try_catch, store_delete, bind.
    erewrite platform_call_fault by reflexivity. reflexivity.
Qed.

Lemma prefs_absorb_open_failure (ctx : Context) (t c : Z) (w : World) :
  pref_open_fails w = true ->
  fst (saveFontSizes ctx t c w) = Ok tt /\
  fst (loadFontSizes ctx w) =
    Ok (DEFAULT_TITLE_FONT_SIZE, DEFAULT_CONTENT_FONT_SIZE).
Proof.
  intros Hp.
  destruct (getPreferences_cases ctx w) as [(_ & e & w' & E)|(Hp' & _)];
    [|congruence].
  unfold saveFontSizes, loadFontSizes, try_catch.
  rewrite !(bind_eq _ _ _ _ _ E). split; reflexivity.
Qed.

(** C9, as amended.  [getRdbStore] and [getPreferences] raise exactly when
    no handle is memoized and the open faults.  A repository operation
    passes that error on to its caller ([updateMemo] only when the note has
    an id, since it returns 0 before asking for the handle otherwise) and
    absorbs every other failure: it never raises once the handle can be
    had, and a fault of its store call comes back as -1 from [addMemo], 0
    from [updateMemo] and [deleteMemo], the empty sequence from the two
    list queries and the absent value from [queryMemoById].  The preference
    operations [saveFontSizes] and [loadFontSizes] never raise at all: they
    absorb the failed open too, the second returning the defaults. *)
Theorem failure_policy (ctx : Context) (w : World) (memo : Memo) (i : Z)
    (keyword : string) (t c : Z) :
  (if open_fails w then raises (getRdbStore ctx) w
   else never_raises (getRdbStore ctx) w) /\
  (if pref_open_fails w then raises (getPreferences ctx) w
   else never_raises (getPreferences ctx) w) /\
  (if open_fails w then
     raises (addMemo ctx memo) w /\
     raises (queryAllMemos ctx) w /\
     raises (queryMemosByTitle ctx keyword) w /\
     raises (queryMemoById ctx i) w /\
     raises (deleteMemo ctx i) w /\
     match id memo with
     | Some _ => raises (updateMemo ctx memo) w
     | None => fst (updateMemo ctx memo w) = Ok 0
     end
   else
     never_raises (addMemo ctx memo) w /\
     never_raises (queryAllMemos ctx) w /\
     never_raises (queryMemosByTitle ctx keyword) w /\
     never_raises (queryMemoById ctx i) w /\
     never_raises (deleteMemo ctx i) w /\
     never_raises (updateMemo ctx memo) w /\
     if store_call_fails ctx w then
       fst (addMemo ctx memo w) = Ok (-1) /\
       fst (queryAllMemos ctx w) = Ok [] /\
       fst (queryMemosByTitle ctx keyword w) = Ok [] /\
       fst (queryMemoById ctx i w) = Ok None /\
       fst (deleteMemo ctx i w) = Ok 0 /\
       fst (updateMemo ctx memo w) = Ok 0
     else True) /\
  never_raises (saveFontSizes ctx t c) w /\
  never_raises (loadFontSizes ctx) w /\
  (if pref_open_fails w then
     fst (saveFontSizes ctx t c w) = Ok tt /\
     fst (loadFontSizes ctx w) = Ok (18, 14)
   else True).
Proof.
  split; [apply getRdbStore_policy|].
  split; [apply getPreferences_policy|].
  split; [|split; [apply saveFontSizes_never_raises|
           split; [apply loadFontSizes_never_raises|]]].
  - destruct (open_fails w) eqn:Hh.
    + repeat split.
      * apply with_handle_raises, Hh.
      * apply with_handle_raises, Hh.
      * unfold queryMemosByTitle. destruct (truthy keyword); cbn [negb];
          apply with_handle_raises, Hh.
      * apply with_handle_raises, Hh.
      * apply with_handle_raises, Hh.
      * unfold updateMemo. destruct (id memo); [|reflexivity].
        apply with_handle_raises, Hh.
    + pose proof (store_fault_reads_empty ctx w Hh) as Hq.
      split; [apply addMemo_never_raises, Hh|].
      split; [apply queryAllMemos_never_raises, Hh|].
      split; [apply queryMemosByTitle_never_raises, Hh|].
      split; [apply queryMemoById_never_raises, Hh|].
      split; [apply deleteMemo_never_raises, Hh|].
      split; [apply updateMemo_never_raises, Hh|].
      destruct (store_call_fails ctx w) eqn:Hs; [|exact I].
      destruct (Hq eq_refl) as (Q1 & Q2 & Q3).
      destruct (writes_report_store_fault ctx memo i w Hh Hs) as (W1 & W2 & W3).
      repeat split; auto.
  - destruct (pref_open_fails w) eqn:Hp; [|exact I].
    apply prefs_absorb_open_failure, Hp.
Qed.

(** C9 as stated fails for the preference operations: with no preference
    handle memoized and an open that faults, [getPreferences] raises but
    [saveFontSizes] and [loadFontSizes] return to their callers as if
    nothing had happened. *)
Lemma preference_operations_absorb_open_failure :
  pref_open_fails (set_faults [O] bound_world) = true /\
  raises (getPreferences 1%nat) (set_faults [O] bound_world) /\
  ~ raises (saveFontSizes 1%nat 22 16) (set_faults [O] bound_world) /\
  fst (saveFontSizes 1%nat 22 16 (set_faults [O] bound_world)) = Ok tt /\
  fst (loadFontSizes 1%nat (set_faults [O] bound_world)) = Ok (18, 14).
Proof.
  split; [reflexivity|]. split; [eexists; reflexivity|].
  split; [|split; reflexivity].
  intros [e He]. vm_compute in He. discriminate.
Qed.

(* ===================================================================== *)
(** * Result sets when the platform does not fault *)
(* ===================================================================== *)

Section QuietResultSet.
Variables (rs : ResultSetRef) (r : ResultSet) (w : World).
Hypothesis Hquiet : faults w = [].
Hypothesis Hrs : result_sets w !! rs = Some r.
Hypothesis Husable : rs_usable r = true.

Lemma on_result_set_quiet {A} (call : string) (k : ResultSet -> M A) :
  on_result_set call rs k w = k r w.
Proof.
  unfold on_result_set, bind. rewrite (platform_call_quiet _ _ Hquiet), Hrs, Husable.
  reflexivity.
Qed.

Lemma rs_getColumnIndex_quiet (name : string) :
  rs_getColumnIndex rs name w = (Ok (index_of name (rs_columns r)), w).
Proof. unfold rs_getColumnIndex. rewrite on_result_set_quiet. reflexivity. Qed.

Lemma rs_getLong_quiet (i z : Z) :
  current_value r i = Some (VInt z) -> rs_getLong rs i w = (Ok z, w).
Proof.
  intros H. unfold rs_getLong. rewrite on_result_set_quiet, H. reflexivity.
Qed.

Lemma rs_getString_quiet (i : Z) (s : string) :
  current_value r i = Some (VText s) -> rs_getString rs i w = (Ok s, w).
Proof.
  intros H. unfold rs_getString. rewrite on_result_set_quiet, H. reflexivity.
Qed.

Lemma rs_rowCount_at : rs_rowCount rs w = (Ok (Z.of_nat (length (rs_rows r))), w).
Proof. unfold rs_rowCount, gets. rewrite Hrs. reflexivity. Qed.

Lemma rs_goToFirstRow_quiet :
  rs_goToFirstRow rs w =
    match rs_rows r with
    | [] => (Ok false, w)
    | _ :: _ =>
        (Ok true, set_result_sets (alter (at_row O) rs (result_sets w)) w)
    end.
Proof.
  unfold rs_goToFirstRow. rewrite on_result_set_quiet.
  destruct (rs_rows r); reflexivity.
Qed.

Lemma rs_goToNextRow_quiet :
  rs_goToNextRow rs w =
    let next := match rs_pos r with None => O | Some k => S k end in
    if (next <? length (rs_rows r))%nat
    then (Ok true, set_result_sets (alter (at_row next) rs (result_sets w)) w)
    else (Ok false,
          set_result_sets (alter (at_row (length (rs_rows r))) rs (result_sets w)) w).
Proof.
  unfold rs_goToNextRow. rewrite on_result_set_quiet. cbn zeta.
  destruct (_ <? _)%nat; reflexivity.
Qed.

(** Decoding the current row. *)
Variables (k : nat) (row : Row).
Hypothesis Hcols : rs_columns r = COLUMNS.
Hypothesis Hpos : rs_pos r = Some k.
Hypothesis Hrow : rs_rows r !! k = Some row.

Lemma current_value_column (name : string) (i : Z) :
  0 <= i -> COLUMNS !! Z.to_nat i = Some name ->
  current_value r i = column_value name row.
Proof.
  intros Hi Hn. unfold current_value.
  destruct (i <? 0) eqn:E; [lia|].
  rewrite Hpos, Hrow, Hcols, Hn. reflexivity.
Qed.

Lemma read_long_quiet {B} (name : string) (z : Z) (cont : Z -> M B) :
  column_value name row = Some (VInt z) ->
  0 <= index_of name COLUMNS ->
  COLUMNS !! Z.to_nat (index_of name COLUMNS) = Some name ->
  (i <- rs_getColumnIndex rs name ;; v <- rs_getLong rs i ;; cont v) w = cont z w.
Proof.
  intros Hv Hi Hn.
  rewrite (bind_eq _ _ _ _ _ (rs_getColumnIndex_quiet name)), Hcols.
  assert (Hc : current_value r (index_of name COLUMNS) = Some (VInt z))
    by (rewrite (current_value_column name); auto).
  rewrite (bind_eq _ _ _ _ _ (rs_getLong_quiet _ _ Hc)). reflexivity.
Qed.

Lemma read_string_quiet {B} (name : string) (s : string) (cont : string -> M B) :
  column_value name row = Some (VText s) ->
  0 <= index_of name COLUMNS ->
  COLUMNS !! Z.to_nat (index_of name COLUMNS) = Some name ->
  (i <- rs_getColumnIndex rs name ;; v <- rs_getString rs i ;; cont v) w = cont s w.
Proof.
  intros Hv Hi Hn.
  rewrite (bind_eq _ _ _ _ _ (rs_getColumnIndex_quiet name)), Hcols.
  assert (Hc : current_value r (index_of name COLUMNS) = Some (VText s))
    by (rewrite (current_value_column name); auto).
  rewrite (bind_eq _ _ _ _ _ (rs_getString_quiet _ _ Hc)). reflexivity.
Qed.

Lemma read_row_quiet :
  read_row rs w = (Ok (memo_of_row row), snd (Date_now w)).
Proof.
  unfold read_row.
  rewrite (read_long_quiet "id" (r_id row)); [|reflexivity|vm_compute; discriminate|reflexivity].
  rewrite (read_string_quiet "title" (r_title row));
    [|reflexivity|vm_compute; discriminate|reflexivity].
  rewrite (read_string_quiet "content" (r_content row));
    [|reflexivity|vm_compute; discriminate|reflexivity].
  rewrite (read_long_quiet "created_date" (r_created_date row));
    [|reflexivity|vm_compute; discriminate|reflexivity].
  rewrite (read_long_quiet "modified_date" (r_modified_date row));
    [|reflexivity|vm_compute; discriminate|reflexivity].
  reflexivity.
Qed.
End QuietResultSet.

Lemma lookup_altered (rs : ResultSetRef) (f : ResultSet -> ResultSet)
    (w : World) (r : ResultSet) :
  result_sets w !! rs = Some r ->
  result_sets (set_result_sets (alter f rs (result_sets w)) w) !! rs = Some (f r).
Proof.
  intros H. change (alter f rs (result_sets w) !! rs = Some (f r)).
  rewrite list_lookup_alter_eq, H. reflexivity.
Qed.

Lemma parse_rows_quiet (rs : ResultSetRef) (fuel : nat) :
  forall (k : nat) (r : ResultSet) (acc : list Memo) (w : World),
    faults w = [] ->
    result_sets w !! rs = Some r ->
    rs_usable r = true ->
    rs_columns r = COLUMNS ->
    rs_pos r = Some k ->
    (k < length (rs_rows r))%nat ->
    (length (rs_rows r) <= k + fuel)%nat ->
    fst (parse_rows fuel rs acc w) =
      (acc ++ map memo_of_row (drop k (rs_rows r)), Ok tt).
Proof.
  induction fuel as [|fuel IH]; intros k r acc w Hq Hrs Hu Hc Hp Hlt Hfuel; [lia|].
  destruct (lookup_lt_is_Some_2 (rs_rows r) k Hlt) as [row Hrow].
  cbn [parse_rows].
  rewrite (read_row_quiet rs r w Hq Hrs Hu k row Hc Hp Hrow).
  set (w1 := snd (Date_now w)).
  assert (Hq1 : faults w1 = []) by exact Hq.
  assert (Hrs1 : result_sets w1 !! rs = Some r) by exact Hrs.
  rewrite (rs_goToNextRow_quiet rs r w1 Hq1 Hrs1 Hu), Hp. cbn zeta.
  rewrite (drop_S _ _ _ Hrow). cbn [map].
  destruct (S k <? length (rs_rows r))%nat eqn:E.
  - apply Nat.ltb_lt in E.
    set (w2 := set_result_sets (alter (at_row (S k)) rs (result_sets w1)) w1).
    assert (Hrs2 : result_sets w2 !! rs = Some (at_row (S k) r))
      by apply (lookup_altered rs _ w1 r Hrs1).
    rewrite (IH (S k) (at_row (S k) r) _ w2 Hq Hrs2 Hu Hc eq_refl);
      cbn [rs_rows at_row]; [|lia|lia].
    rewrite <- app_assoc. reflexivity.
  - apply Nat.ltb_ge in E. rewrite drop_ge by lia. reflexivity.
Qed.

Lemma parse_try_quiet (rs : ResultSetRef) (r : ResultSet) (w : World) :
  faults w = [] ->
  result_sets w !! rs = Some r ->
  rs_usable r = true ->
  rs_columns r = COLUMNS ->
  fst (parse_try rs w) = (map memo_of_row (rs_rows r), Ok tt).
Proof.
  intros Hq Hrs Hu Hc. unfold parse_try.
  rewrite (rs_rowCount_at rs r w Hrs).
  destruct (rs_rows r) as [|row rows] eqn:Erows; [reflexivity|].
  destruct (Z.of_nat (length (row :: rows)) =? 0) eqn:E;
    [apply Z.eqb_eq in E; cbn [length] in E; lia|].
  rewrite (rs_goToFirstRow_quiet rs r w Hq Hrs Hu), Erows.
  rewrite Nat2Z.id, <- Erows.
  set (w1 := set_result_sets (alter (at_row O) rs (result_sets w)) w).
  assert (Hrs1 : result_sets w1 !! rs = Some (at_row O r))
    by apply (lookup_altered rs _ w r Hrs).
  rewrite (parse_rows_quiet rs _ O (at_row O r) [] w1 Hq Hrs1 Hu Hc eq_refl);
    cbn [rs_rows at_row]; [|rewrite Erows; cbn; lia|lia].
  rewrite drop_0. reflexivity.
Qed.

Lemma parseResultSet_quiet (rs : ResultSetRef) (r : ResultSet) (w : World) :
  faults w = [] ->
  result_sets w !! rs = Some r ->
  rs_usable r = true ->
  rs_columns r = COLUMNS ->
  fst (parseResultSet (Some rs) w) = Ok (map memo_of_row (rs_rows r)).
Proof.
  intros Hq Hrs Hu Hc. unfold parseResultSet.
  pose proof (parse_try_quiet rs r w Hq Hrs Hu Hc) as H.
  destruct (parse_try rs w) as [[memos res] w1]. cbn in H.
  injection H as -> _.
  destruct (try_catch _ _ w1). reflexivity.
Qed.

Lemma store_query_quiet (store : RdbStore) (p : RdbPredicates)
    (columns : list string) (w : World) :
  faults w = [] -> table_exists (p_table p) = true ->
  store_query store p columns w =
    (Ok (length (result_sets w)),
     set_result_sets
       (result_sets w ++ [mkResultSet columns (run_query p (db_rows w)) None RsOpen]) w).
Proof.
  intros Hq Ht. unfold store_query, bind.
  rewrite (platform_call_quiet _ _ Hq), Ht. reflexivity.
Qed.

(** A query followed by the decoding of its result set. *)
Lemma query_and_parse_quiet (store : RdbStore) (p : RdbPredicates)
    (h : Exn -> M (list Memo)) (w : World) :
  faults w = [] -> table_exists (p_table p) = true ->
  fst (try_catch
         (resultSet <- store_query store p COLUMNS ;;
          memos <- parseResultSet (Some resultSet) ;;
          ret memos) h w)
  = Ok (map memo_of_row (run_query p (db_rows w))).
Proof.
  intros Hq Ht. unfold try_catch.
  rewrite (bind_eq _ _ _ _ _ (store_query_quiet store p COLUMNS w Hq Ht)).
  set (r := mkResultSet COLUMNS (run_query p (db_rows w)) None RsOpen).
  set (w1 := set_result_sets (result_sets w ++ [r]) w).
  assert (Hrs : result_sets w1 !! length (result_sets w) = Some r)
    by (apply list_lookup_middle; reflexivity).
  pose proof (parseResultSet_quiet (length (result_sets w)) r w1 Hq Hrs eq_refl eq_refl) as H.
  unfold bind.
  destruct (parseResultSet _ w1) as [res w2]. cbn in H. subst res. reflexivity.
Qed.

(* ===================================================================== *)
(** * The list queries when the platform does not fault *)
(* ===================================================================== *)

Lemma getRdbStore_quiet (ctx : Context) (w : World) :
  faults w = [] ->
  getRdbStore ctx w = (Ok (default O (rdbStore (after_open w))), after_open w).
Proof.
  intros Hq. unfold getRdbStore, after_open.
  change (bind (gets rdbStore) ?k w) with (k (rdbStore w) w).
  destruct (rdbStore w) as [h|] eqn:Eh.
  - rewrite Eh. reflexivity.
  - unfold try_catch, relationalStore_getRdbStore, open_begin, open_complete,
      bind, modify, gets, ret.
    match goal with |- context [platform_call ?c ?w0] =>
      rewrite (platform_call_quiet c w0 Hq) end.
    cbn. destruct (db_created w); reflexivity.
Qed.

Lemma after_open_rows (w : World) : db_rows (after_open w) = visible_rows w.
Proof.
  unfold after_open, visible_rows.
  destruct (rdbStore w); [reflexivity|]. destruct (db_created w); reflexivity.
Qed.

Lemma after_open_quiet (w : World) : faults w = [] -> faults (after_open w) = [].
Proof.
  unfold after_open. intros H.
  destruct (rdbStore w); [exact H|]. destruct (db_created w); exact H.
Qed.

(** The rows the two list queries ask for. *)
Lemma filter_all {A} (f : A -> bool) (l : list A) :
  (forall x, f x = true) -> List.filter f l = l.
Proof.
  intros H. induction l as [|x l IH]; cbn; [reflexivity|].
  rewrite H, IH. reflexivity.
Qed.

Lemma run_query_all (rows : list Row) :
  run_query (orderByDesc "modified_date" (new_RdbPredicates TABLE_NAME)) rows
  = newest_first rows.
Proof.
  unfold run_query, newest_first.
  rewrite filter_all by reflexivity. reflexivity.
Qed.

Lemma run_query_like (pattern : string) (rows : list Row) :
  run_query
    (orderByDesc "modified_date"
       (like "title" pattern (new_RdbPredicates TABLE_NAME))) rows
  = newest_first (List.filter (fun r => sql_like pattern (r_title r)) rows).
Proof.
  unfold run_query, newest_first.
  rewrite (List.filter_ext (selects _) (fun r => sql_like pattern (r_title r))).
  - reflexivity.
  - intros r. unfold selects. cbn. rewrite !andb_true_r. reflexivity.
Qed.

Lemma run_query_id (i : Z) (rows : list Row) :
  run_query (equalTo "id" (VInt i) (new_RdbPredicates TABLE_NAME)) rows
  = List.filter (fun r => r_id r =? i) rows.
Proof.
  unfold run_query. cbn [order_rows p_clauses equalTo new_RdbPredicates app foldr].
  apply List.filter_ext. intros r. unfold selects. cbn. apply andb_true_r.
Qed.

Lemma queryAllMemos_quiet (ctx : Context) (w : World) :
  faults w = [] ->
  fst (queryAllMemos ctx w) = Ok (map memo_of_row (newest_first (visible_rows w))).
Proof.
  intros Hq. unfold queryAllMemos.
  rewrite (bind_eq _ _ _ _ _ (getRdbStore_quiet ctx w Hq)).
  rewrite query_and_parse_quiet by (auto using after_open_quiet).
  rewrite run_query_all, after_open_rows. reflexivity.
Qed.

Lemma queryMemosByTitle_quiet (ctx : Context) (keyword : string) (w : World) :
  faults w = [] -> truthy keyword = true ->
  fst (queryMemosByTitle ctx keyword w) =
    Ok (map memo_of_row
          (newest_first
             (List.filter
                (fun r => sql_like (String.append "%" (String.append keyword "%")) (r_title r))
                (visible_rows w)))).
Proof.
  intros Hq Hk. unfold queryMemosByTitle. rewrite Hk. cbn [negb].
  rewrite (bind_eq _ _ _ _ _ (getRdbStore_quiet ctx w Hq)).
  rewrite query_and_parse_quiet by (auto using after_open_quiet).
  rewrite run_query_like, after_open_rows. reflexivity.
Qed.

(** ** ORDER BY *)

Lemma insert_desc_perm (key : Row -> Z) (r : Row) (l : list Row) :
  Permutation (insert_desc key r l) (r :: l).
Proof.
  induction l as [|x l IH]; cbn; [reflexivity|].
  destruct (key r <? key x); [|reflexivity].
  rewrite IH. apply perm_swap.
Qed.

Lemma sort_desc_perm (key : Row -> Z) (l : list Row) :
  Permutation (sort_desc key l) l.
Proof.
  induction l as [|x l IH]; cbn; [reflexivity|].
  unfold sort_desc in IH. rewrite insert_desc_perm, IH. reflexivity.
Qed.

Lemma insert_desc_sorted (key : Row -> Z) (r : Row) (l : list Row) :
  Sorted (fun a b => key b <= key a) l ->
  Sorted (fun a b => key b <= key a) (insert_desc key r l).
Proof.
  induction l as [|x l IH]; intros Hs; cbn.
  - repeat constructor.
  - destruct (key r <? key x) eqn:E.
    + apply Z.ltb_lt in E. inversion Hs as [|? ? Hs' Hhd]; subst.
      constructor; [apply IH, Hs'|].
      destruct l as [|y l]; cbn.
      * constructor. lia.
      * destruct (key r <? key y); constructor; [|lia].
        inversion Hhd; subst. assumption.
    + apply Z.ltb_ge in E. constructor; [exact Hs|]. constructor. exact E.
Qed.

Lemma sort_desc_sorted (key : Row -> Z) (l : list Row) :
  Sorted (fun a b => key b <= key a) (sort_desc key l).
Proof.
  induction l as [|x l IH]; cbn; [constructor|].
  apply insert_desc_sorted, IH.
Qed.

Lemma newest_first_memos (rows : list Row) :
  Sorted newer_first (map memo_of_row (newest_first rows)).
Proof.
  unfold newest_first.
  pose proof (sort_desc_sorted r_modified_date rows) as H.
  induction H as [|r l Hs IH Hhd]; cbn; constructor; [exact IH|].
  destruct Hhd; cbn; constructor. assumption.
Qed.

(** ** LIKE with a keyword between two [%] *)

Lemma list_ascii_of_string_append (a b : string) :
  list_ascii_of_string (String.append a b) =
  list_ascii_of_string a ++ list_ascii_of_string b.
Proof. induction a as [|c a IH]; simpl; [reflexivity|]. rewrite IH. reflexivity. Qed.

Lemma like_percent (p s : list ascii) :
  like_match ("%"%char :: p) s =
  like_match p s ||
  match s with
  | [] => false
  | _ :: s' => like_match ("%"%char :: p) s'
  end.
Proof. destruct s; reflexivity. Qed.

Lemma like_percent_only (s : list ascii) : like_match ["%"%char] s = true.
Proof.
  induction s as [|d s IH]; [reflexivity|].
  rewrite like_percent, IH. apply orb_true_r.
Qed.

Lemma like_literal_prefix (k s : list ascii) :
  forallb (fun c => negb (is_wildcard c)) k = true ->
  like_match (k ++ ["%"%char]) s = prefix_ci k s.
Proof.
  revert s. induction k as [|c k IH]; intros s Hk.
  - cbn [app prefix_ci]. apply like_percent_only.
  - cbn [forallb] in Hk. apply andb_true_iff in Hk as [Hc Hk].
    unfold is_wildcard in Hc. apply negb_true_iff, orb_false_iff in Hc as [Hp Hu].
    cbn [app like_match prefix_ci]. rewrite Hp.
    destruct s as [|d s]; [reflexivity|].
    unfold char_like. rewrite Hu, IH by exact Hk. reflexivity.
Qed.

Lemma like_literal_anywhere (k s : list ascii) :
  forallb (fun c => negb (is_wildcard c)) k = true ->
  like_match ("%"%char :: k ++ ["%"%char]) s = occurs_ci k s.
Proof.
  intros Hk. induction s as [|d s IH].
  - rewrite like_percent, like_literal_prefix by exact Hk. reflexivity.
  - rewrite like_percent, like_literal_prefix, IH by exact Hk. reflexivity.
Qed.

Lemma sql_like_contains (keyword : string) (r : Row) :
  wildcard_free keyword = true ->
  sql_like (String.append "%" (String.append keyword "%")) (r_title r)
  = title_contains keyword r.
Proof.
  intros Hk. unfold sql_like, title_contains.
  rewrite !list_ascii_of_string_append. apply like_literal_anywhere, Hk.
Qed.

(** [prefix_ci] and [occurs_ci] say what they should. *)
Lemma prefix_ci_spec (k s : list ascii) :
  prefix_ci k s = true <->
  exists mid post, s = mid ++ post /\ map fold_case mid = map fold_case k.
Proof.
  revert s. induction k as [|c k IH]; intros s.
  - split; [|reflexivity]. intros _. exists [], s. split; reflexivity.
  - destruct s as [|d s]; cbn [prefix_ci].
    + split; [discriminate|]. intros ([|? ?] & post & Hs & Hm); discriminate.
    + rewrite andb_true_iff, IH, Ascii.eqb_eq. split.
      * intros (Hc & mid & post & -> & Hm). exists (d :: mid), post.
        split; [reflexivity|]. cbn. rewrite Hc, Hm. reflexivity.
      * intros ([|d' mid] & post & Hs & Hm); [discriminate|].
        cbn in Hs, Hm. injection Hs as -> ->. injection Hm as Hc Hm.
        split; [congruence|]. exists mid, post. split; [reflexivity|exact Hm].
Qed.

Lemma occurs_ci_spec (k s : list ascii) :
  occurs_ci k s = true <->
  exists pre mid post,
    s = pre ++ mid ++ post /\ map fold_case mid = map fold_case k.
Proof.
  induction s as [|d s IH]; cbn [occurs_ci]; rewrite orb_true_iff, prefix_ci_spec.
  - split.
    + intros [(mid & post & Hs & Hm)|]; [|discriminate].
      exists [], mid, post. split; [exact Hs|exact Hm].
    + intros (pre & mid & post & Hs & Hm). left.
      destruct pre; [|discriminate]. exists mid, post. split; [exact Hs|exact Hm].
  - rewrite IH. split.
    + intros [(mid & post & Hs & Hm)|(pre & mid & post & Hs & Hm)].
      * exists [], mid, post. split; [exact Hs|exact Hm].
      * exists (d :: pre), mid, post. split; [cbn; rewrite Hs; reflexivity|exact Hm].
    + intros ([|d' pre] & mid & post & Hs & Hm).
      * left. exists mid, post. split; [exact Hs|exact Hm].
      * right. cbn in Hs. injection Hs as -> ->.
        exists pre, mid, post. split; [reflexivity|exact Hm].
Qed.

Lemma truthy_nonempty (s : string) : s <> "" -> truthy s = true.
Proof. destruct s; [congruence|reflexivity]. Qed.

(* ===================================================================== *)
(** * C7: search by title *)
(* ===================================================================== *)

(** C7, as amended.  When the platform does not fault, for every non-empty
    keyword without the characters [%] and [_], [queryMemosByTitle] returns
    exactly the notes whose title contains the keyword as a substring, the
    letters A-Z and a-z compared without regard to case, ordered by
    [modifiedDate] descending. *)
Theorem search_returns_titles_containing (ctx : Context) (keyword : string)
    (w : World)
    (Hquiet : faults w = [])
    (Hkeyword : keyword <> "")
    (Hliteral : wildcard_free keyword = true) :
  exists found,
    fst (queryMemosByTitle ctx keyword w) = Ok found /\
    Permutation found
      (map memo_of_row (List.filter (title_contains keyword) (visible_rows w))) /\
    Sorted newer_first found /\
    forall r,
      title_contains keyword r = true <->
      exists pre mid post,
        list_ascii_of_string (r_title r) = pre ++ mid ++ post /\
        map fold_case mid = map fold_case (list_ascii_of_string keyword).
Proof.
  eexists. split; [|split; [|split]].
  - apply queryMemosByTitle_quiet; [exact Hquiet|apply truthy_nonempty, Hkeyword].
  - apply Permutation_map.
    rewrite (List.filter_ext _ (title_contains keyword))
      by (intros r; apply sql_like_contains, Hliteral).
    apply sort_desc_perm.
  - apply newest_first_memos.
  - intros r. apply occurs_ci_spec.
Qed.

Lemma search_returns_titles_containing_witness :
  exists found,
    fst (queryMemosByTitle 1%nat "Alpha" three_notes) = Ok found /\
    Permutation found
      (map memo_of_row (List.filter (title_contains "Alpha") (visible_rows three_notes))) /\
    Sorted newer_first found /\
    forall r,
      title_contains "Alpha" r = true <->
      exists pre mid post,
        list_ascii_of_string (r_title r) = pre ++ mid ++ post /\
        map fold_case mid = map fold_case (list_ascii_of_string "Alpha").
Proof.
  apply (search_returns_titles_containing 1%nat "Alpha" three_notes);
    [reflexivity|discriminate|reflexivity].
Defined.

(** The example of the specification: of "Alpha", "Beta" and "Alphabet",
    a search for "Alpha" finds "Alphabet" and "Alpha", newest first. *)
Example search_alpha :
  fst (queryMemosByTitle 1%nat "Alpha" three_notes) =
    Ok [mkMemo (Some 3) "Alphabet" "c" 1003 1003;
        mkMemo (Some 1) "Alpha" "a" 1001 1001].
Proof. vm_compute. reflexivity. Qed.

(** C7 as stated fails: the match is LIKE's.  A search for "alpha" finds
    the notes titled "Alphabet" and "Alpha", neither of which contains
    "alpha"; and a search for "%" finds every note, none of which contains
    a percent sign. *)
Lemma search_is_not_plain_substring :
  (fst (queryMemosByTitle 1%nat "alpha" three_notes) =
     Ok [mkMemo (Some 3) "Alphabet" "c" 1003 1003;
         mkMemo (Some 1) "Alpha" "a" 1001 1001] /\
   is_substring "alpha" "Alphabet" = false /\
   is_substring "alpha" "Alpha" = false) /\
  (fst (queryMemosByTitle 1%nat "%" three_notes) =
     Ok [mkMemo (Some 3) "Alphabet" "c" 1003 1003;
         mkMemo (Some 2) "Beta" "b" 1002 1002;
         mkMemo (Some 1) "Alpha" "a" 1001 1001] /\
   is_substring "%" "Alphabet" = false /\
   is_substring "%" "Beta" = false /\
   is_substring "%" "Alpha" = false).
Proof. repeat split; vm_compute; reflexivity. Qed.

(* ===================================================================== *)
(** * C6: the empty keyword *)
(* ===================================================================== *)

Ltac ws_props :=
  rewrite ?orb_true_iff, ?andb_true_iff, ?N.eqb_eq, ?N.leb_le, ?N.ltb_lt in *.

(** No white-space character begins with the bytes of another. *)
Lemma white_space_one (c1 c2 c3 : ascii) :
  is_white_space [c1] = true ->
  is_white_space [c1; c2] = false /\ is_white_space [c1; c2; c3] = false.
Proof.
  unfold is_white_space. cbn [map].
  generalize (N_of_ascii c1) (N_of_ascii c2) (N_of_ascii c3). intros a b c H.
  split; apply not_true_iff_false; intros H'; ws_props; lia.
Qed.

Lemma white_space_two (c1 c2 c3 : ascii) :
  is_white_space [c1; c2] = true -> is_white_space [c1; c2; c3] = false.
Proof.
  unfold is_white_space. cbn [map].
  generalize (N_of_ascii c1) (N_of_ascii c2) (N_of_ascii c3). intros a b c H.
  apply not_true_iff_false; intros H'; ws_props; lia.
Qed.

(** A character of one byte begins no white space of several. *)
Lemma white_space_plain (c1 c2 c3 : ascii) :
  (N_of_ascii c1 <? 128)%N = true ->
  is_white_space [c1; c2] = false /\ is_white_space [c1; c2; c3] = false.
Proof.
  unfold is_white_space. cbn [map].
  generalize (N_of_ascii c1) (N_of_ascii c2) (N_of_ascii c3). intros a b c H.
  split; apply not_true_iff_false; intros H'; ws_props; lia.
Qed.

Lemma drop_white_space_plain (c : ascii) (l : list ascii) :
  (N_of_ascii c <? 128)%N = true ->
  is_white_space [c] = false ->
  drop_white_space (fun cs => cs) (c :: l) = c :: l.
Proof.
  intros Hc Hw. cbn [drop_white_space]. rewrite Hw.
  destruct l as [|c2 l2]; [reflexivity|].
  rewrite (proj1 (white_space_plain c c2 c2 Hc)).
  destruct l2 as [|c3 l3]; [reflexivity|].
  rewrite (proj2 (white_space_plain c c2 c3 Hc)). reflexivity.
Qed.

(** A text that begins with a character of one byte that is not white
    space is not cut at its start. *)
Lemma trim_start_plain (c : ascii) (s : string) :
  (N_of_ascii c <? 128)%N = true ->
  is_white_space [c] = false ->
  trim_start (String c s) = String c s.
Proof.
  intros Hc Hw. unfold trim_start. cbn [list_ascii_of_string].
  rewrite (drop_white_space_plain c _ Hc Hw).
  cbn [string_of_list_ascii]. rewrite string_of_list_ascii_of_string. reflexivity.
Qed.

Lemma all_white_space_dropped (n : nat) (l : list ascii) :
  (length l <= n)%nat ->
  all_white_space l = true -> drop_white_space (fun cs => cs) l = [].
Proof.
  revert l. induction n as [|n IH]; intros l Hn H.
  - destruct l; [reflexivity|cbn in Hn; lia].
  - destruct l as [|c1 l1]; [reflexivity|].
    cbn [length] in Hn. cbn [all_white_space drop_white_space] in *.
    destruct (is_white_space [c1]) eqn:E1.
    + apply IH; [lia|].
      destruct l1 as [|c2 l2]; [reflexivity|].
      rewrite (proj1 (white_space_one c1 c2 c2 E1)) in H.
      destruct l2 as [|c3 l3].
      * cbn [andb orb] in H. rewrite orb_false_r in H. exact H.
      * rewrite (proj2 (white_space_one c1 c2 c3 E1)) in H.
        cbn [andb orb] in H. rewrite orb_false_r in H. exact H.
    + cbn [andb orb] in H.
      destruct l1 as [|c2 l2]; [discriminate|].
      cbn [length] in Hn.
      destruct (is_white_space [c1; c2]) eqn:E2.
      * apply IH; [lia|].
        destruct l2 as [|c3 l3]; [reflexivity|].
        rewrite (white_space_two c1 c2 c3 E2) in H.
        cbn [andb orb] in H. rewrite orb_false_r in H. exact H.
      * cbn [andb orb] in H.
        destruct l2 as [|c3 l3]; [discriminate|]. cbn [length] in Hn.
        destruct (is_white_space [c1; c2; c3]) eqn:E3; [|discriminate].
        apply IH; [lia|exact H].
Qed.

Lemma trim_blank (s : string) : blank s = true -> trim s = "".
Proof.
  intros H. unfold trim, trim_start.
  rewrite (all_white_space_dropped _ _ (le_n _) H). reflexivity.
Qed.

(** What [trim] cuts: white space of one byte and of several at both
    ends, and no byte of a character that is not white space (the last
    byte of the first text below is 160, and so is the second byte of the
    no-break space). *)
Example trim_examples :
  trim "你" = "你" /\ trim "学习" = "学习" /\
  trim "　" = "" /\ trim "  你好　 " = "你好" /\ trim " a b  " = "a b" /\
  trim (String (ascii_of_nat 194) (String (ascii_of_nat 160) "x")) = "x" /\
  blank "　 " = true /\ blank "你" = false /\ blank "" = true.
Proof. vm_compute. repeat split. Qed.

(** C6, as amended.  [queryMemosByTitle] with the empty keyword is
    [queryAllMemos].  A keyword of white space only is not empty for the
    repository; it is the view model's [searchMemos] that trims it, so that
    a search for a blank keyword is a search for the empty one and shows
    what [queryAllMemos] returns. *)
Theorem empty_keyword_queries_all (ctx : Context) (w : World) :
  queryMemosByTitle ctx "" w = queryAllMemos ctx w /\
  forall keyword,
    blank keyword = true ->
    MemoViewModel.searchMemos keyword w = MemoViewModel.searchMemos "" w /\
    (context w = Some ctx ->
     memos (snd (MemoViewModel.searchMemos keyword w)) =
       match fst (queryAllMemos ctx (set_searchKeyword "" (set_isLoading true w))) with
       | Ok found => found
       | Raise _ => []
       end).
Proof.
  split; [reflexivity|]. intros keyword Hb. split.
  - unfold MemoViewModel.searchMemos. rewrite (trim_blank _ Hb). reflexivity.
  - intros Hc. unfold MemoViewModel.searchMemos.
    rewrite (bound_operation _ _ w ctx Hc), (trim_blank _ Hb).
    unfold bind at 1. cbn [modify]. unfold bind at 1. cbn [modify].
    rewrite try_finally_state. unfold try_catch, bind at 1, gets.
    cbn [searchKeyword set_searchKeyword].
    change (queryMemosByTitle ctx "") with (queryAllMemos ctx).
    unfold bind. destruct (queryAllMemos ctx _) as [[found|e] w1]; reflexivity.
Qed.

(** A search for the ideographic space, and for a keyword of white space
    of several kinds, shows all notes; a keyword between white space is
    searched for without it and whole. *)
Example search_for_ideographic_space :
  blank "　" = true /\
  map title (memos (snd (MemoViewModel.searchMemos "　" three_notes))) =
    ["Alphabet"; "Beta"; "Alpha"] /\
  searchKeyword (snd (MemoViewModel.searchMemos " 　 " three_notes)) = "" /\
  searchKeyword (snd (MemoViewModel.searchMemos "　你 " three_notes)) = "你".
Proof. repeat split; vm_compute; reflexivity. Qed.

(** C6 as stated fails for a blank keyword: [queryMemosByTitle " "] looks
    for titles with a space in them, and finds none of "Alpha", "Beta",
    "Alphabet", all three of which [queryAllMemos] returns. *)
Lemma blank_keyword_is_matched :
  blank " " = true /\
  fst (queryMemosByTitle 1%nat " " three_notes) = Ok [] /\
  fst (queryMemosByTitle 1%nat " " three_notes) <> fst (queryAllMemos 1%nat three_notes).
Proof. repeat split; vm_compute; [reflexivity..|discriminate]. Qed.

(* ===================================================================== *)
(** * C1: add, then query by id *)
(* ===================================================================== *)

(** Reduce the projections of an updated world. *)
Ltac world_simpl :=
  simpl (faults _) in *; simpl (now _) in *; simpl (clock_steps _) in *;
  simpl (db_created _) in *; simpl (db_rows _) in *; simpl (db_seq _) in *;
  simpl (db_opens _) in *; simpl (result_sets _) in *; simpl (pref_disk _) in *;
  simpl (pref_cache _) in *; simpl (pref_opens _) in *; simpl (rdbStore _) in *;
  simpl (prefInstance _) in *; simpl (memos _) in *; simpl (titleFontSize _) in *;
  simpl (contentFontSize _) in *; simpl (isLoading _) in *;
  simpl (searchKeyword _) in *; simpl (currentMemo _) in *; simpl (context _) in *.

Lemma try_finally_keeps_result {A} (m : M A) (f : M unit) (w : World) :
  (forall w', never_raises f w') ->
  fst (try_finally m f w) = fst (m w).
Proof.
  intros Hf. unfold try_finally. destruct (m w) as [r w1].
  destruct (Hf w1) as [u Hu]. destruct (f w1) as [r2 w2]; cbn in Hu; subst r2.
  reflexivity.
Qed.

Lemma read_single_quiet (rs : ResultSetRef) (r : ResultSet) (w : World) :
  faults w = [] ->
  result_sets w !! rs = Some r ->
  rs_usable r = true ->
  rs_columns r = COLUMNS ->
  fst (read_single rs w) = Ok (memo_of_row <$> head (rs_rows r)).
Proof.
  intros Hq Hrs Hu Hc. unfold read_single.
  rewrite (bind_eq _ _ _ _ _ (rs_rowCount_at rs r w Hrs)).
  destruct (rs_rows r) as [|row rows] eqn:Erows; [reflexivity|].
  destruct (0 <? Z.of_nat (length (row :: rows))) eqn:E;
    [|apply Z.ltb_ge in E; cbn [length] in E; lia].
  pose proof (rs_goToFirstRow_quiet rs r w Hq Hrs Hu) as Hfirst.
  rewrite Erows in Hfirst. rewrite (bind_eq _ _ _ _ _ Hfirst).
  set (w1 := set_result_sets (alter (at_row O) rs (result_sets w)) w).
  assert (Hrs1 : result_sets w1 !! rs = Some (at_row O r))
    by apply (lookup_altered rs _ w r Hrs).
  assert (Hrow : rs_rows (at_row O r) !! O = Some row)
    by (cbn [rs_rows at_row]; rewrite Erows; reflexivity).
  rewrite (read_long_quiet rs _ w1 Hq Hrs1 Hu O row Hc eq_refl Hrow "id" (r_id row));
    [|reflexivity|vm_compute; discriminate|reflexivity].
  rewrite (read_string_quiet rs _ w1 Hq Hrs1 Hu O row Hc eq_refl Hrow "title" (r_title row));
    [|reflexivity|vm_compute; discriminate|reflexivity].
  rewrite (read_string_quiet rs _ w1 Hq Hrs1 Hu O row Hc eq_refl Hrow "content" (r_content row));
    [|reflexivity|vm_compute; discriminate|reflexivity].
  rewrite (read_long_quiet rs _ w1 Hq Hrs1 Hu O row Hc eq_refl Hrow
             "created_date" (r_created_date row));
    [|reflexivity|vm_compute; discriminate|reflexivity].
  rewrite (read_long_quiet rs _ w1 Hq Hrs1 Hu O row Hc eq_refl Hrow
             "modified_date" (r_modified_date row));
    [|reflexivity|vm_compute; discriminate|reflexivity].
  reflexivity.
Qed.

Lemma queryMemoById_quiet (ctx : Context) (i : Z) (w : World) :
  faults w = [] ->
  fst (queryMemoById ctx i w) =
    Ok (memo_of_row <$> head (List.filter (fun r => r_id r =? i) (visible_rows w))).
Proof.
  intros Hq. unfold queryMemoById.
  rewrite (bind_eq _ _ _ _ _ (getRdbStore_quiet ctx w Hq)).
  pose proof (after_open_quiet w Hq) as Hq'.
  set (p := equalTo "id" (VInt i) (new_RdbPredicates TABLE_NAME)).
  pose proof (store_query_quiet (default O (rdbStore (after_open w))) p COLUMNS
                (after_open w) Hq' eq_refl) as Hsq.
  unfold bind at 1. unfold try_catch at 1.
  rewrite (bind_eq _ _ _ _ _ Hsq). cbn [ret].
  rewrite try_finally_keeps_result by (intros; apply rs_close_guarded_never_raises).
  unfold try_catch.
  match goal with |- context [read_single ?rs ?w1] =>
    pose proof (read_single_quiet rs
                  (mkResultSet COLUMNS (run_query p (db_rows (after_open w))) None RsOpen)
                  w1 Hq') as H;
    destruct (read_single rs w1) as [res w2] end.
  cbn [fst] in H. rewrite H; [| apply list_lookup_middle; reflexivity | reflexivity..].
  unfold p.
  cbn [rs_rows]. rewrite run_query_id, after_open_rows. reflexivity.
Qed.

Lemma addMemo_quiet (ctx : Context) (memo : Memo) (w : World) :
  faults w = [] ->
  addMemo ctx memo w =
    (Ok (db_seq (after_open w) + 1),
     set_db (db_created (after_open w))
       (db_rows (after_open w) ++
          [mkRow (db_seq (after_open w) + 1) (title memo) (content memo)
             (createdDate memo) (modifiedDate memo)])
       (db_seq (after_open w) + 1) (db_opens (after_open w)) (after_open w)).
Proof.
  intros Hq. unfold addMemo.
  rewrite (bind_eq _ _ _ _ _ (getRdbStore_quiet ctx w Hq)).
  unfold try_catch, store_insert, bind.
  rewrite (platform_call_quiet _ _ (after_open_quiet w Hq)). reflexivity.
Qed.

Lemma after_open_handle (w : World) :
  rdbStore (after_open w) = Some (default O (rdbStore (after_open w))).
Proof.
  unfold after_open. destruct (rdbStore w) eqn:E; [rewrite E|]; reflexivity.
Qed.

Lemma visible_rows_in (w : World) (r : Row) :
  In r (visible_rows w) -> In r (db_rows w).
Proof.
  unfold visible_rows. destruct (rdbStore w); [auto|].
  destruct (db_created w); [auto|]. intros [].
Qed.

Lemma filter_none {A} (f : A -> bool) (l : list A) :
  (forall x, In x l -> f x = false) -> List.filter f l = [].
Proof.
  induction l as [|x l IH]; intros H; cbn; [reflexivity|].
  rewrite (H x) by (left; reflexivity). apply IH. intros; apply H; right; assumption.
Qed.

(** C1.  When the platform does not fault, adding a newly constructed note
    and then querying the id that [addMemo] returned yields a present note
    with the title and content given and with [createdDate] equal to
    [modifiedDate]. *)
Theorem add_then_queryById (ctx : Context) (t c : string) (w : World)
    (Hquiet : faults w = [])
    (Hinv : store_inv w) :
  exists i w1 memo,
    (newMemo <- new_Memo t c None None None ;; addMemo ctx newMemo) w = (Ok i, w1) /\
    fst (queryMemoById ctx i w1) = Ok (Some memo) /\
    id memo = Some i /\
    title memo = t /\
    content memo = c /\
    createdDate memo = modifiedDate memo.
Proof.
  unfold new_Memo.
  set (w0 := snd (Date_now w)).
  set (stamp := now w + hd 0 (clock_steps w)).
  assert (Hq0 : faults w0 = []) by exact Hquiet.
  pose proof (addMemo_quiet ctx (mkMemo None t c stamp stamp) w0 Hq0) as Hadd.
  cbn [title content createdDate modifiedDate] in Hadd.
  set (i := db_seq (after_open w0) + 1) in *.
  set (row := mkRow i t c stamp stamp) in *.
  match type of Hadd with _ = (_, ?w') => set (w1 := w') in * end.
  exists i, w1, (memo_of_row row).
  split; [exact Hadd|].
  split; [|repeat split].
  assert (Hq1 : faults w1 = []) by (apply (after_open_quiet w0 Hq0)).
  rewrite (queryMemoById_quiet ctx i w1 Hq1).
  assert (Hvis : visible_rows w1 = visible_rows w ++ [row]).
  { unfold visible_rows at 1.
    change (rdbStore w1) with (rdbStore (after_open w0)).
    rewrite after_open_handle.
    change (db_rows w1) with (db_rows (after_open w0) ++ [row]).
    rewrite after_open_rows. reflexivity. }
  rewrite Hvis, List.filter_app, filter_none.
  - cbn. rewrite Z.eqb_refl. reflexivity.
  - intros r Hr. apply visible_rows_in in Hr.
    pose proof (inv_ids w Hinv r Hr) as Hid.
    assert (Hseq : db_seq w <= db_seq (after_open w0)).
    { destruct (db_created w) eqn:Ec.
      - unfold after_open. change (rdbStore w0) with (rdbStore w).
        change (db_created w0) with (db_created w).
        destruct (rdbStore w); [simpl; lia|]. rewrite Ec. simpl. lia.
      - rewrite (inv_fresh w Hinv Ec) in Hr. destruct Hr. }
    apply Z.eqb_neq. unfold i. lia.
Qed.

Lemma three_notes_eq :
  three_notes =
    mkWorld [] 1003 [] true
      [mkRow 1 "Alpha" "a" 1001 1001;
       mkRow 2 "Beta" "b" 1002 1002;
       mkRow 3 "Alphabet" "c" 1003 1003]
      3 1 [] ∅ None 0 (Some 1%nat) None [] 18 14 false "" None (Some 1%nat).
Proof. vm_compute. reflexivity. Qed.

Lemma three_notes_inv : store_inv three_notes.
Proof.
  rewrite three_notes_eq. split; cbn.
  - discriminate.
  - reflexivity.
  - lia.
  - intros r [<-|[<-|[<-|[]]]]; cbn; lia.
  - repeat (constructor;
            [intros H; repeat (apply elem_of_cons in H as [H|H]; [discriminate|]);
             apply elem_of_nil in H; exact H|]).
    constructor.
  - intros r [<-|[<-|[<-|[]]]]; cbn; lia.
  - constructor.
Qed.

Lemma add_then_queryById_witness :
  faults three_notes = [] /\
  store_inv three_notes /\
  exists i w1 memo,
    (newMemo <- new_Memo "Gamma" "g" None None None ;; addMemo 1%nat newMemo) three_notes
      = (Ok i, w1) /\
    fst (queryMemoById 1%nat i w1) = Ok (Some memo) /\
    id memo = Some i /\
    title memo = "Gamma" /\
    content memo = "g" /\
    createdDate memo = modifiedDate memo.
Proof.
  split; [vm_compute; reflexivity|]. split; [exact three_notes_inv|].
  apply (add_then_queryById 1%nat "Gamma" "g" three_notes);
    [vm_compute; reflexivity|exact three_notes_inv].
Defined.

(* ===================================================================== *)
(** * C2: update *)
(* ===================================================================== *)

Lemma visible_rows_inv (w : World) : store_inv w -> visible_rows w = db_rows w.
Proof.
  intros Hinv. unfold visible_rows. destruct (rdbStore w); [reflexivity|].
  destruct (db_created w) eqn:Ec; [reflexivity|].
  symmetry. apply (inv_fresh w Hinv Ec).
Qed.

Lemma filter_id_unique (i : Z) (rows : list Row) :
  NoDup (map r_id rows) ->
  (length (List.filter (fun r => (r_id r =? i)%Z) rows) <= 1)%nat.
Proof.
  induction rows as [|r rows IH]; cbn; [lia|].
  intros Hnd. apply NoDup_cons in Hnd as [Hnotin Hnd].
  destruct (r_id r =? i) eqn:E; [|apply IH, Hnd].
  apply Z.eqb_eq in E. rewrite filter_none; [cbn; lia|].
  intros r' Hr'. apply Z.eqb_neq. intros E'. apply Hnotin.
  rewrite E, <- E'. apply list_elem_of_In, in_map, Hr'.
Qed.

Lemma filter_nonempty {A} (f : A -> bool) (l : list A) :
  (0 < length (List.filter f l))%nat -> exists x, In x l /\ f x = true.
Proof.
  intros H. destruct (List.filter f l) as [|x l'] eqn:E; [cbn in H; lia|].
  exists x. apply List.filter_In. rewrite E. left. reflexivity.
Qed.

Lemma after_open_clock (w : World) :
  now (after_open w) = now w /\ clock_steps (after_open w) = clock_steps w.
Proof.
  unfold after_open. destruct (rdbStore w); [auto|].
  destruct (db_created w); auto.
Qed.

Lemma clock_step_nonneg (steps : list Z) :
  Forall (fun d => 0 <= d) steps -> 0 <= hd 0 steps.
Proof. intros [|d ds Hd _]; cbn; lia. Qed.


(** An update of a stored note succeeds when the platform does not
    fault. *)
Lemma updateMemo_succeeds (ctx : Context) (memo : Memo) (old : Row) (w : World) :
  faults w = [] -> store_inv w ->
  In old (db_rows w) -> id memo = Some (r_id old) ->
  fst (updateMemo ctx memo w) = Ok 1.
Proof.
  intros Hq Hinv Hin Hid. unfold updateMemo. rewrite Hid.
  rewrite (bind_eq _ _ _ _ _ (getRdbStore_quiet ctx w Hq)).
  unfold bind at 1, Date_now. cbn zeta.
  unfold try_catch, store_update.
  match goal with |- context [bind _ _ ?w0] =>
    rewrite (bind_eq _ _ _ _ _
               (bind_eq _ _ _ _ _
                  (platform_call_quiet "RdbStore.update" w0 (after_open_quiet w Hq))))
  end.
  cbn [table_exists p_table equalTo new_RdbPredicates TABLE_NAME String.eqb
       Ascii.eqb Bool.eqb andb forallb column_accepts orb ret fst].
  f_equal. world_simpl.
  rewrite after_open_rows, (visible_rows_inv w Hinv).
  rewrite (List.filter_ext _ (fun r => r_id r =? r_id old))
    by (intros r; unfold selects; cbn; apply andb_true_r).
  pose proof (filter_id_unique (r_id old) (db_rows w) (inv_unique w Hinv)) as Hle.
  assert (Hmem : In old (List.filter (fun r => r_id r =? r_id old) (db_rows w)))
    by (apply List.filter_In; split; [exact Hin|apply Z.eqb_refl]).
  destruct (List.filter _ (db_rows w)) as [|x [|y l]]; cbn in *; [tauto|reflexivity|lia].
Qed.

Lemma three_notes_later_eq :
  three_notes_later =
    mkWorld [] 1003 [5] true
      [mkRow 1 "Alpha" "a" 1001 1001;
       mkRow 2 "Beta" "b" 1002 1002;
       mkRow 3 "Alphabet" "c" 1003 1003]
      3 1 [] ∅ None 0 (Some 1%nat) None [] 18 14 false "" None (Some 1%nat).
Proof. vm_compute. reflexivity. Qed.

Lemma three_notes_later_inv : store_inv three_notes_later.
Proof.
  rewrite three_notes_later_eq. split; cbn.
  - discriminate.
  - reflexivity.
  - lia.
  - intros r [<-|[<-|[<-|[]]]]; cbn; lia.
  - repeat (constructor;
            [intros H; repeat (apply elem_of_cons in H as [H|H]; [discriminate|]);
             apply elem_of_nil in H; exact H|]).
    constructor.
  - intros r [<-|[<-|[<-|[]]]]; cbn; lia.
  - repeat constructor. lia.
Qed.



(** The update of the example: "Beta", written at 1002, is rewritten at
    1008 and keeps its id and creation date. *)
Example update_beta :
  db_rows (snd (updateMemo 1%nat (mkMemo (Some 2) "Beta!" "bb" 0 0) three_notes_later)) =
    [mkRow 1 "Alpha" "a" 1001 1001;
     mkRow 2 "Beta!" "bb" 1002 1008;
     mkRow 3 "Alphabet" "c" 1003 1003].
Proof. vm_compute. reflexivity. Qed.

(* ===================================================================== *)
(** * C3: saving the current memo *)
(* ===================================================================== *)

Lemma searchMemos_never_raises (keyword : string) (w : World) :
  never_raises (MemoViewModel.searchMemos keyword) w.
Proof.
  unfold MemoViewModel.searchMemos.
  destruct (context w) as [ctx|] eqn:Ec.
  - unfold never_raises. rewrite (bound_operation _ _ w ctx Ec).
    unfold bind at 1. cbn [modify]. unfold bind at 1. cbn [modify].
    match goal with
    | |- context [try_finally (try_catch ?b ?h) _ ?w'] =>
        destruct (guarded_settles b h w') as [_ Hr];
        [intros; apply modify_never_raises|exact Hr]
    end.
  - exists tt. unfold bind, gets. rewrite Ec. reflexivity.
Qed.

(** [saveCurrentMemo] from the test of [currentMemo] on. *)
Lemma save_settles (write : option Memo -> M bool) (r : Res Z) (w1 w2 : World) :
  write (currentMemo w1) w1 =
    (match r with Ok n => Ok (0 <? n) | Raise e => Raise e end, w2) ->
  try_finally
    (try_catch
       (cur <- gets currentMemo ;;
        success <- write cur ;;
        (if success : bool
         then kw <- gets searchKeyword ;; MemoViewModel.searchMemos kw
         else ret tt) ;;
        ret success)
       (fun error => ret false))
    (modify (set_isLoading false)) w1
  = settle_save r w2.
Proof.
  intros Hw. unfold settle_save, try_finally, try_catch.
  unfold bind at 1. unfold gets at 1.
  rewrite (bind_eq _ _ _ _ _ Hw).
  destruct r as [n|e]; [|reflexivity].
  destruct (0 <? n); [|reflexivity].
  unfold bind, gets.
  destruct (searchMemos_never_raises (searchKeyword w2) w2) as [u Hu].
  destruct (MemoViewModel.searchMemos (searchKeyword w2) w2) as [res w3].
  cbn in Hu. subst res. reflexivity.
Qed.

Lemma save_update_eq (ctx : Context) (t c : string) (i created : Z) (w0 : World) :
  let stamp := now w0 + hd 0 (clock_steps w0) in
  let w1 := snd (Date_now (snd (Date_now w0))) in
  MemoViewModel.save_update ctx t c i created w0 =
    match updateMemo ctx (mkMemo (Some i) t c created stamp) w1 with
    | (Ok n, w2) => (Ok (0 <? n), w2)
    | (Raise e, w2) => (Raise e, w2)
    end.
Proof.
  intros stamp w1. unfold MemoViewModel.save_update, new_Memo.
  unfold bind at 1. unfold Date_now at 1. cbn zeta.
  unfold bind at 1. unfold bind at 1. unfold Date_now at 1. cbn zeta. cbn [ret].
  unfold bind. fold stamp.
  change (set_clock _ _ (set_clock _ _ w0)) with w1.
  destruct (updateMemo _ _ w1) as [[n|e] w2]; reflexivity.
Qed.

Lemma save_add_eq (ctx : Context) (t c : string) (w0 : World) :
  let stamp := now w0 + hd 0 (clock_steps w0) in
  let w1 := snd (Date_now w0) in
  MemoViewModel.save_add ctx t c w0 =
    match addMemo ctx (mkMemo None t c stamp stamp) w1 with
    | (Ok n, w2) => (Ok (0 <? n), w2)
    | (Raise e, w2) => (Raise e, w2)
    end.
Proof.
  intros stamp w1. unfold MemoViewModel.save_add, new_Memo.
  unfold bind at 1. unfold bind at 1. unfold Date_now at 1. cbn zeta. cbn [ret].
  unfold bind. fold stamp.
  change (set_clock _ _ w0) with w1.
  destruct (addMemo _ _ w1) as [[n|e] w2]; reflexivity.
Qed.

(** C3, as amended.  With the view model bound, [saveCurrentMemo] takes
    the edit path exactly when [currentMemo] is present and has an id: it
    then hands [updateMemo] a note with that id, the creation date of
    [currentMemo] and a fresh modification date, and succeeds iff the
    affected count is positive.  Otherwise ([currentMemo] absent, or
    present without an id) it takes the add path, handing [addMemo] a newly
    constructed note, and succeeds iff the returned id is positive.  On
    either path, on success, it runs [searchMemos] with the current keyword
    before it settles. *)
Theorem save_takes_edit_or_add_path (ctx : Context) (t c : string) (w : World)
    (Hbound : context w = Some ctx) :
  MemoViewModel.saveCurrentMemo t c w =
    match currentMemo w with
    | Some m =>
        match id m with
        | Some memo_id => save_by_update ctx t c memo_id (createdDate m) w
        | None => save_by_add ctx t c w
        end
    | None => save_by_add ctx t c w
    end.
Proof.
  unfold MemoViewModel.saveCurrentMemo.
  rewrite (bound_operation _ _ w ctx Hbound).
  unfold bind at 1. cbn [modify].
  set (w0 := set_isLoading true w).
  change (currentMemo w) with (currentMemo w0).
  destruct (currentMemo w0) as [m|] eqn:Ecur; [destruct (id m) as [i|] eqn:Eid|].
  - pose proof (save_update_eq ctx t c i (createdDate m) w0) as Hu. cbn zeta in Hu.
    unfold save_by_update. fold w0.
    change (now w) with (now w0). change (clock_steps w) with (clock_steps w0).
    destruct (updateMemo ctx _ _) as [r w2] eqn:Eu.
    apply save_settles. rewrite Ecur, Eid, Hu. destruct r; reflexivity.
  - pose proof (save_add_eq ctx t c w0) as Ha. cbn zeta in Ha.
    unfold save_by_add. fold w0.
    change (now w) with (now w0). change (clock_steps w) with (clock_steps w0).
    destruct (addMemo ctx _ _) as [r w2] eqn:Eu.
    apply save_settles. rewrite Ecur, Eid, Ha. destruct r; reflexivity.
  - pose proof (save_add_eq ctx t c w0) as Ha. cbn zeta in Ha.
    unfold save_by_add. fold w0.
    change (now w) with (now w0). change (clock_steps w) with (clock_steps w0).
    destruct (addMemo ctx _ _) as [r w2] eqn:Eu.
    apply save_settles. rewrite Ecur, Ha. destruct r; reflexivity.
Qed.

Lemma save_takes_edit_or_add_path_witness :
  context three_notes_editing = Some 1%nat /\
  MemoViewModel.saveCurrentMemo "Beta!" "bb" three_notes_editing =
    match currentMemo three_notes_editing with
    | Some m =>
        match id m with
        | Some memo_id =>
            save_by_update 1%nat "Beta!" "bb" memo_id (createdDate m) three_notes_editing
        | None => save_by_add 1%nat "Beta!" "bb" three_notes_editing
        end
    | None => save_by_add 1%nat "Beta!" "bb" three_notes_editing
    end.
Proof.
  split; [vm_compute; reflexivity|].
  apply (save_takes_edit_or_add_path 1%nat "Beta!" "bb" three_notes_editing).
  vm_compute. reflexivity.
Defined.

(** The edit path at work: "Beta" is rewritten in place and the list is
    refreshed, the rewritten note now first. *)
Example save_edits_beta :
  let r := MemoViewModel.saveCurrentMemo "Beta!" "bb" three_notes_editing in
  fst r = Ok true /\
  db_rows (snd r) =
    [mkRow 1 "Alpha" "a" 1001 1001;
     mkRow 2 "Beta!" "bb" 1002 1008;
     mkRow 3 "Alphabet" "c" 1003 1003] /\
  memos (snd r) =
    [mkMemo (Some 2) "Beta!" "bb" 1002 1008;
     mkMemo (Some 3) "Alphabet" "c" 1003 1003;
     mkMemo (Some 1) "Alpha" "a" 1001 1001] /\
  isLoading (snd r) = false.
Proof. vm_compute. repeat split; reflexivity. Qed.

(** The add path at work, with no current memo. *)
Example save_adds_gamma :
  let r := MemoViewModel.saveCurrentMemo "Gamma" "g" three_notes_later in
  fst r = Ok true /\
  db_rows (snd r) =
    [mkRow 1 "Alpha" "a" 1001 1001;
     mkRow 2 "Beta" "b" 1002 1002;
     mkRow 3 "Alphabet" "c" 1003 1003;
     mkRow 4 "Gamma" "g" 1008 1008] /\
  map title (memos (snd r)) = ["Gamma"; "Alphabet"; "Beta"; "Alpha"] /\
  isLoading (snd r) = false.
Proof. vm_compute. repeat split; reflexivity. Qed.

(** C3 as stated fails: a [currentMemo] that is present but has no id
    does not put [saveCurrentMemo] on the edit path.  No stored row is
    updated; a fourth row is inserted. *)
Lemma draft_without_id_is_added :
  let r := MemoViewModel.saveCurrentMemo "Draft" "text" three_notes_with_draft in
  currentMemo three_notes_with_draft = Some (mkMemo None "Draft" "" 1003 1003) /\
  fst r = Ok true /\
  db_rows (snd r) =
    [mkRow 1 "Alpha" "a" 1001 1001;
     mkRow 2 "Beta" "b" 1002 1002;
     mkRow 3 "Alphabet" "c" 1003 1003;
     mkRow 4 "Draft" "text" 1008 1008] /\
  r = save_by_add 1%nat "Draft" "text" three_notes_with_draft.
Proof. vm_compute. repeat split; reflexivity. Qed.

(* ===================================================================== *)
(** * Relating the world before and after *)
(* ===================================================================== *)

Section Respects.
Variable R : World -> World -> Prop.
Hypothesis R_refl : forall w, R w w.
Hypothesis R_trans : forall w1 w2 w3, R w1 w2 -> R w2 w3 -> R w1 w3.

Lemma respects_ret {A} (a : A) : respects R (ret a).
Proof. intros w. apply R_refl. Qed.

Lemma respects_throw {A} (e : Exn) : respects R (@throw A e).
Proof. intros w. apply R_refl. Qed.

Lemma respects_gets {A} (f : World -> A) : respects R (gets f).
Proof. intros w. apply R_refl. Qed.

Lemma respects_bind {A B} (m : M A) (k : A -> M B) :
  respects R m -> (forall a, respects R (k a)) -> respects R (bind m k).
Proof.
  intros Hm Hk w. unfold bind. specialize (Hm w).
  destruct (m w) as [[a|e] w1]; cbn in *; [|exact Hm].
  eapply R_trans; [exact Hm|apply Hk].
Qed.

Lemma respects_try_catch {A} (m : M A) (h : Exn -> M A) :
  respects R m -> (forall e, respects R (h e)) -> respects R (try_catch m h).
Proof.
  intros Hm Hh w. unfold try_catch. specialize (Hm w).
  destruct (m w) as [[a|e] w1]; cbn in *; [exact Hm|].
  eapply R_trans; [exact Hm|apply Hh].
Qed.

Lemma respects_try_finally {A} (m : M A) (f : M unit) :
  respects R m -> respects R f -> respects R (try_finally m f).
Proof.
  intros Hm Hf w. unfold try_finally. specialize (Hm w).
  destruct (m w) as [r w1]. specialize (Hf w1).
  destruct (f w1) as [[u|e] w2]; cbn in *; eapply R_trans; eauto.
Qed.

Lemma respects_modify (f : World -> World) :
  (forall w, R w (f w)) -> respects R (modify f).
Proof. intros H w. apply H. Qed.

Lemma respects_platform_call (call : string) :
  (forall s w, R w (set_faults s w)) -> respects R (platform_call call).
Proof.
  intros H w.
  destruct (platform_call_cases call w) as [(s & _ & E)|(s & _ & E)];
    rewrite E; apply H.
Qed.

Lemma respects_Date_now :
  (forall t s w, R w (set_clock t s w)) -> respects R Date_now.
Proof. intros H w. apply H. Qed.

Lemma respects_on_result_set {A} (call : string) (rs : ResultSetRef)
    (k : ResultSet -> M A) :
  (forall s w, R w (set_faults s w)) ->
  (forall r, respects R (k r)) ->
  respects R (on_result_set call rs k).
Proof.
  intros Hf Hk. unfold on_result_set.
  apply respects_bind; [apply respects_platform_call, Hf|].
  intros _ w. destruct (result_sets w !! rs) as [r|]; [|apply R_refl].
  destruct (rs_usable r); [apply Hk|apply R_refl].
Qed.
End Respects.

(** ** What the result-set methods touch *)

Lemma only_alters_refl (rs : ResultSetRef) (w : World) : only_alters rs w w.
Proof. exists (fun r => r). symmetry. apply list_alter_id. reflexivity. Qed.

Lemma only_alters_trans (rs : ResultSetRef) (w1 w2 w3 : World) :
  only_alters rs w1 w2 -> only_alters rs w2 w3 -> only_alters rs w1 w3.
Proof.
  intros [F HF] [G HG]. exists (fun r => G (F r)).
  rewrite HG, HF. apply list_alter_alter_eq.
Qed.

Lemma only_alters_faults (rs : ResultSetRef) (s : list nat) (w : World) :
  only_alters rs w (set_faults s w).
Proof.
  exists (fun r => r). change (result_sets w = alter (fun r => r) rs (result_sets w)).
  symmetry. apply list_alter_id. reflexivity.
Qed.

Lemma only_alters_clock (rs : ResultSetRef) (t : Z) (s : list Z) (w : World) :
  only_alters rs w (set_clock t s w).
Proof.
  exists (fun r => r). change (result_sets w = alter (fun r => r) rs (result_sets w)).
  symmetry. apply list_alter_id. reflexivity.
Qed.

Lemma alter_result_set_only (rs : ResultSetRef) (f : ResultSet -> ResultSet) :
  respects (only_alters rs) (alter_result_set f rs).
Proof. intros w. exists f. reflexivity. Qed.

Ltac only_alters_step rs :=
  first
    [ apply (respects_ret (only_alters rs) (only_alters_refl rs))
    | apply (respects_throw (only_alters rs) (only_alters_refl rs))
    | apply (respects_gets (only_alters rs) (only_alters_refl rs))
    | apply (respects_bind (only_alters rs) (only_alters_trans rs)); [|intros ?]
    | apply (respects_Date_now (only_alters rs)); apply only_alters_clock
    | apply alter_result_set_only
    | apply (respects_try_catch (only_alters rs) (only_alters_trans rs));
        [|intros ?]
    | apply (respects_platform_call (only_alters rs)); apply only_alters_faults ].

Ltac on_result_set_step rs r :=
  apply (respects_on_result_set (only_alters rs) (only_alters_refl rs)
           (only_alters_trans rs)); [apply only_alters_faults|intros r].

Lemma rs_getColumnIndex_only (rs : ResultSetRef) (name : string) :
  respects (only_alters rs) (rs_getColumnIndex rs name).
Proof.
  unfold rs_getColumnIndex. on_result_set_step rs r. only_alters_step rs.
Qed.

Lemma rs_getLong_only (rs : ResultSetRef) (i : Z) :
  respects (only_alters rs) (rs_getLong rs i).
Proof.
  unfold rs_getLong. on_result_set_step rs r.
  destruct (current_value r i) as [[z|s]|]; only_alters_step rs.
Qed.

Lemma rs_getString_only (rs : ResultSetRef) (i : Z) :
  respects (only_alters rs) (rs_getString rs i).
Proof.
  unfold rs_getString. on_result_set_step rs r.
  destruct (current_value r i) as [[z|s]|]; only_alters_step rs.
Qed.

Lemma rs_goToFirstRow_only (rs : ResultSetRef) :
  respects (only_alters rs) (rs_goToFirstRow rs).
Proof.
  unfold rs_goToFirstRow, move_to. on_result_set_step rs r.
  destruct (rs_rows r); repeat only_alters_step rs.
Qed.

Lemma rs_goToNextRow_only (rs : ResultSetRef) :
  respects (only_alters rs) (rs_goToNextRow rs).
Proof.
  unfold rs_goToNextRow, move_to. on_result_set_step rs r. cbn zeta.
  destruct (_ <? _)%nat; repeat only_alters_step rs.
Qed.

Lemma new_Memo_only (rs : ResultSetRef) (t c : string) (i : option Z)
    (created modified : option Z) :
  respects (only_alters rs) (new_Memo t c i created modified).
Proof. unfold new_Memo. repeat only_alters_step rs. Qed.

Lemma read_row_only (rs : ResultSetRef) : respects (only_alters rs) (read_row rs).
Proof.
  unfold read_row.
  repeat first
    [ apply rs_getColumnIndex_only | apply rs_getLong_only
    | apply rs_getString_only | apply new_Memo_only
    | apply (respects_bind (only_alters rs) (only_alters_trans rs)); [|intros ?] ].
Qed.

Lemma read_single_only (rs : ResultSetRef) :
  respects (only_alters rs) (read_single rs).
Proof.
  unfold read_single, rs_rowCount.
  apply (respects_bind (only_alters rs) (only_alters_trans rs));
    [only_alters_step rs|intros n].
  apply (respects_bind (only_alters rs) (only_alters_trans rs)).
  { destruct (0 <? n); [apply rs_goToFirstRow_only|only_alters_step rs]. }
  intros [|]; [|only_alters_step rs].
  repeat first
    [ apply rs_getColumnIndex_only | apply rs_getLong_only
    | apply rs_getString_only | apply new_Memo_only
    | apply (respects_ret (only_alters rs) (only_alters_refl rs))
    | apply (respects_bind (only_alters rs) (only_alters_trans rs)); [|intros ?] ].
Qed.

Lemma parse_rows_only (rs : ResultSetRef) (fuel : nat) :
  forall (memos : list Memo) (w : World),
    only_alters rs w (snd (parse_rows fuel rs memos w)).
Proof.
  induction fuel as [|fuel IH]; intros memos w; cbn [parse_rows];
    [apply only_alters_refl|].
  pose proof (read_row_only rs w) as H1.
  destruct (read_row rs w) as [[memo|e] w1]; cbn [snd] in *; [|exact H1].
  pose proof (rs_goToNextRow_only rs w1) as H2.
  destruct (rs_goToNextRow rs w1) as [[[|]|e] w2]; cbn [snd] in *.
  - eapply only_alters_trans; [exact H1|].
    eapply only_alters_trans; [exact H2|apply IH].
  - eapply only_alters_trans; eauto.
  - eapply only_alters_trans; eauto.
Qed.

Lemma parse_try_only (rs : ResultSetRef) (w : World) :
  only_alters rs w (snd (parse_try rs w)).
Proof.
  unfold parse_try, rs_rowCount, gets.
  destruct (_ =? 0); [apply only_alters_refl|].
  pose proof (rs_goToFirstRow_only rs w) as H1.
  destruct (rs_goToFirstRow rs w) as [[[|]|e] w1]; cbn [snd] in *; try exact H1.
  eapply only_alters_trans; [exact H1|apply parse_rows_only].
Qed.

(** [close()], guarded as in the sources, leaves the result set closed or
    with a close that failed: never open. *)
Lemma guarded_close_releases (rs : ResultSetRef) (w : World) :
  exists s, s <> RsOpen /\
    result_sets (snd (try_catch (rs_close rs) (fun closeError => ret tt) w))
    = alter (in_state s) rs (result_sets w).
Proof.
  unfold try_catch, rs_close, try_catch, bind, alter_result_set, modify, throw, ret.
  destruct (platform_call_cases "ResultSet.close" w) as [(s & _ & E)|(s & _ & E)];
    rewrite E.
  - exists RsCloseFailed. split; [discriminate|reflexivity].
  - exists RsClosed. split; [discriminate|reflexivity].
Qed.

Lemma released_after_close (s : ResultSetState) (F : ResultSet -> ResultSet)
    (l : list ResultSet) (r : ResultSet) :
  s <> RsOpen ->
  exists new,
    alter (in_state s) (length l) (alter F (length l) (l ++ [r])) = l ++ new /\
    Forall released new.
Proof.
  intros Hs. exists [in_state s (F r)]. split.
  - rewrite list_alter_alter_eq.
    rewrite alter_app_r_alt by lia. rewrite Nat.sub_diag. reflexivity.
  - repeat constructor. exact Hs.
Qed.

Lemma nothing_new (l : list ResultSet) :
  exists new, l = l ++ new /\ Forall released new.
Proof. exists []. split; [symmetry; apply app_nil_r|constructor]. Qed.

Lemma same_refl {T} (f : World -> T) (w : World) : same f w w.
Proof. reflexivity. Qed.

Lemma same_trans {T} (f : World -> T) (w1 w2 w3 : World) :
  same f w1 w2 -> same f w2 w3 -> same f w1 w3.
Proof. unfold same. congruence. Qed.

(** Getting the handle creates no result set. *)
Lemma getRdbStore_result_sets (ctx : Context) :
  respects (same result_sets) (getRdbStore ctx).
Proof.
  unfold getRdbStore, relationalStore_getRdbStore, open_begin, open_complete.
  apply (respects_bind _ (same_trans _));
    [apply (respects_gets _ (same_refl _))|intros [store|]];
    [apply (respects_ret _ (same_refl _))|].
  apply (respects_try_catch _ (same_trans _));
    [|intros; apply (respects_throw _ (same_refl _))].
  repeat first
    [ apply (respects_ret _ (same_refl _))
    | apply (respects_gets _ (same_refl _))
    | apply (respects_platform_call (same result_sets)); intros; reflexivity
    | apply (respects_modify (same result_sets)); intros w;
        try destruct (db_created w); reflexivity
    | apply (respects_bind _ (same_trans _)); [|intros ?] ].
Qed.

Lemma try_finally_world {A} (m : M A) (f : M unit) (w : World) :
  snd (try_finally m f w) = snd (f (snd (m w))).
Proof.
  unfold try_finally. destruct (m w) as [r w1]. cbn [snd].
  destruct (f w1) as [[u|e] w2]; reflexivity.
Qed.

(** The query and the decoding of its result set, as [queryAllMemos] and
    [queryMemosByTitle] run them. *)
Lemma query_and_parse_releases (store : RdbStore) (p : RdbPredicates)
    (h : Exn -> M (list Memo)) (w : World) :
  (forall e, respects (same result_sets) (h e)) ->
  releases_its_result_sets
    (try_catch
       (resultSet <- store_query store p COLUMNS ;;
        memos <- parseResultSet (Some resultSet) ;;
        ret memos) h) w.
Proof.
  intros Hh. unfold releases_its_result_sets, try_catch, store_query.
  unfold bind at 1. unfold bind at 1.
  destruct (platform_call_cases "RdbStore.query" w) as [(s & _ & E)|(s & _ & E)];
    rewrite E.
  - rewrite (Hh _ (set_faults s w)). apply nothing_new.
  - destruct (table_exists (p_table p));
      [|rewrite (Hh _ (set_faults s w)); apply nothing_new].
    cbn [result_sets set_faults].
    set (r0 := mkResultSet COLUMNS (run_query p (db_rows (set_faults s w))) None RsOpen).
    set (w2 := set_result_sets (result_sets w ++ [r0]) (set_faults s w)).
    unfold bind, parseResultSet.
    pose proof (parse_try_only (length (result_sets w)) w2) as [F HF].
    destruct (parse_try (length (result_sets w)) w2) as [[memos res] w3].
    cbn [snd] in HF.
    destruct (guarded_close_releases (length (result_sets w)) w3) as (st & Hst & Hclose).
    destruct (try_catch (rs_close _) _ w3) as [u w4]. cbn [snd] in Hclose.
    unfold ret. cbn [snd].
    rewrite Hclose, HF. apply released_after_close, Hst.
Qed.

Lemma with_handle_releases {A} (ctx : Context) (k : RdbStore -> M A) (w : World) :
  (forall store w1, releases_its_result_sets (k store) w1) ->
  releases_its_result_sets (store <- getRdbStore ctx ;; k store) w.
Proof.
  intros Hk. unfold releases_its_result_sets, bind.
  pose proof (getRdbStore_result_sets ctx w) as Hg. unfold same in Hg.
  destruct (getRdbStore ctx w) as [[store|e] w1]; cbn [snd] in *.
  - rewrite <- Hg. apply Hk.
  - rewrite Hg. apply nothing_new.
Qed.

(* ===================================================================== *)
(** * C8: result sets are released *)
(* ===================================================================== *)

(** C8.  Whatever the platform does, the result set a query operation
    obtains has had [close()] called on it by the time the operation
    returns: on the path on which the rows are decoded, on the paths that
    find no row, and on the paths on which a platform call raises.  The
    result sets of the world after [queryAllMemos], [queryMemosByTitle] and
    [queryMemoById] are those of the world before, untouched, followed by
    result sets none of which is still open. *)
Theorem queries_release_result_sets (ctx : Context) (keyword : string) (i : Z)
    (w : World) :
  releases_its_result_sets (queryAllMemos ctx) w /\
  releases_its_result_sets (queryMemosByTitle ctx keyword) w /\
  releases_its_result_sets (queryMemoById ctx i) w.
Proof.
  assert (Hall : forall w, releases_its_result_sets (queryAllMemos ctx) w).
  { intros w0. unfold queryAllMemos. apply with_handle_releases.
    intros store w1. apply query_and_parse_releases.
    intros e w2. reflexivity. }
  split; [apply Hall|]. split.
  - unfold queryMemosByTitle. destruct (truthy keyword); cbn [negb]; [|apply Hall].
    apply with_handle_releases.
    intros store w1. apply query_and_parse_releases.
    intros e w2. reflexivity.
  - unfold queryMemoById. apply with_handle_releases. intros store w1.
    unfold releases_its_result_sets.
    unfold bind at 1, try_catch at 1, store_query.
    unfold bind at 1. unfold bind at 1.
    destruct (platform_call_cases "RdbStore.query" w1) as [(s & _ & E)|(s & _ & E)];
      rewrite E; [apply nothing_new|].
    cbn [table_exists p_table equalTo new_RdbPredicates TABLE_NAME String.eqb
         Ascii.eqb Bool.eqb ret].
    set (rs := length (result_sets (set_faults s w1))).
    match goal with |- context [set_result_sets (_ ++ [?r]) _] => set (r0 := r) end.
    set (w2 := set_result_sets (result_sets (set_faults s w1) ++ [r0]) (set_faults s w1)).
    rewrite try_finally_world.
    pose proof (respects_try_catch (only_alters rs)
                  (only_alters_trans rs) (read_single rs) (fun e => ret None)
                  (read_single_only rs)
                  (fun e => respects_ret (only_alters rs) (only_alters_refl rs) None)
                  w2) as [F HF].
    destruct (guarded_close_releases rs
                (snd (try_catch (read_single rs) (fun e => ret None) w2)))
      as (st & Hst & Hclose).
    rewrite Hclose, HF. apply released_after_close, Hst.
Qed.

(** On the paths without a platform fault the result set ends closed. *)
Example closed_after_queryMemoById :
  result_sets (snd (queryMemoById 1%nat 2 three_notes)) =
    [mkResultSet COLUMNS [mkRow 2 "Beta" "b" 1002 1002] (Some O) RsClosed].
Proof. vm_compute. reflexivity. Qed.

Example closed_after_queryAllMemos :
  map rs_state (result_sets (snd (queryAllMemos 1%nat three_notes))) = [RsClosed].
Proof. vm_compute. reflexivity. Qed.

(** A fault while the second row is decoded: the first row is returned and
    the result set is closed all the same. *)
Example closed_after_decoding_fault :
  let r := queryAllMemos 1%nat (set_faults [14%nat] three_notes) in
  fst r = Ok [mkMemo (Some 3) "Alphabet" "c" 1003 1003] /\
  map rs_state (result_sets (snd r)) = [RsClosed].
Proof. vm_compute. split; reflexivity. Qed.

(* ===================================================================== *)
(** * C5: first calls of the handle getters that overlap *)
(* ===================================================================== *)

(** A call that runs its two turns with nothing in between is the call of
    the sequential embedding. *)
Lemma getRdbStore_two_turns (ctx : Context) (w : World) :
  run_tasks turn_getRdbStore [O; O] [Called ctx] w =
    ([Settled (fst (getRdbStore ctx w))], snd (getRdbStore ctx w)).
Proof.
  unfold getRdbStore, relationalStore_getRdbStore.
  cbn [run_tasks lookup list_lookup turn_getRdbStore].
  change (bind (gets rdbStore) ?k w) with (k (rdbStore w) w).
  destruct (rdbStore w) as [store|] eqn:E.
  - cbn. try rewrite E. reflexivity.
  - unfold open_begin, try_catch, bind, modify, gets, ret, throw.
    cbn [run_tasks insert list_insert lookup list_lookup turn_getRdbStore fst snd].
    match goal with |- context [open_complete ?t ?w0] =>
      destruct (open_complete t w0) as [[store|e] w2] end; reflexivity.
Qed.

Lemma getPreferences_two_turns (ctx : Context) (w : World) :
  run_tasks turn_getPreferences [O; O] [Called ctx] w =
    ([Settled (fst (getPreferences ctx w))], snd (getPreferences ctx w)).
Proof.
  unfold getPreferences, preferences_getPreferences.
  cbn [run_tasks lookup list_lookup turn_getPreferences].
  change (bind (gets prefInstance) ?k w) with (k (prefInstance w) w).
  destruct (prefInstance w) as [prefs|] eqn:E.
  - cbn. try rewrite E. reflexivity.
  - unfold pref_open_begin, try_catch, bind, modify, gets, ret, throw.
    cbn [run_tasks insert list_insert lookup list_lookup turn_getPreferences fst snd].
    match goal with |- context [pref_open_complete ?t ?w0] =>
      destruct (pref_open_complete t w0) as [[prefs|e] w2] end; reflexivity.
Qed.

(** Calls that follow one that has settled with a handle return that
    handle and open nothing. *)
Lemma getRdbStore_memoized (ctx ctx' : Context) (w w1 : World) (store : RdbStore) :
  getRdbStore ctx w = (Ok store, w1) ->
  getRdbStore ctx' w1 = (Ok store, w1).
Proof.
  intros H.
  assert (Hs : rdbStore w1 = Some store).
  { destruct (getRdbStore_cases ctx w) as [(_ & e & w' & E)|(_ & s & E)];
      rewrite E in H; [discriminate|].
    injection H as <- <-. apply (after_open_handle w). }
  unfold getRdbStore. change (bind (gets rdbStore) ?k w1) with (k (rdbStore w1) w1).
  rewrite Hs. reflexivity.
Qed.

(** The first turn on an empty field starts an open; the second turn
    starts none. *)
Lemma first_turn_starts_open (ctx : Context) (w : World) :
  rdbStore w = None ->
  turn_getRdbStore (Called ctx) w =
    (AwaitingOpen (S (db_opens w)),
     set_db (db_created w) (db_rows w) (db_seq w) (S (db_opens w)) w).
Proof. intros H. cbn [turn_getRdbStore]. rewrite H. reflexivity. Qed.

Lemma second_turn_opens_nothing (ticket : nat) (w : World) :
  db_opens (snd (turn_getRdbStore (AwaitingOpen ticket) w)) = db_opens w.
Proof.
  cbn [turn_getRdbStore]. unfold open_complete, bind, modify, ret.
  destruct (platform_call_cases "relationalStore.getRdbStore" w)
    as [(s & _ & E)|(s & _ & E)]; rewrite E; [reflexivity|].
  cbn [db_created set_faults]. destruct (db_created w); reflexivity.
Qed.

(** Two first calls made one after the other, the second before the first
    has settled: each finds the field empty and starts an open of its
    own, in whichever order the two opens then complete. *)
Lemma overlapping_first_calls_open_twice (ctx1 ctx2 : Context) (w : World)
    (schedule : list nat) :
  rdbStore w = None ->
  schedule = [O; 1%nat; O; 1%nat] \/ schedule = [O; 1%nat; 1%nat; O] ->
  db_opens (snd (run_tasks turn_getRdbStore schedule [Called ctx1; Called ctx2] w))
  = S (S (db_opens w)).
Proof.
  intros Hn Hs.
  set (w1 := set_db (db_created w) (db_rows w) (db_seq w) (S (db_opens w)) w).
  set (w2 := set_db (db_created w1) (db_rows w1) (db_seq w1) (S (db_opens w1)) w1).
  assert (Hstart : forall rest,
             run_tasks turn_getRdbStore (O :: 1%nat :: rest) [Called ctx1; Called ctx2] w
             = run_tasks turn_getRdbStore rest
                 [AwaitingOpen (S (db_opens w)); AwaitingOpen (S (db_opens w1))] w2).
  { intros rest. cbn [run_tasks lookup list_lookup].
    rewrite (first_turn_starts_open ctx1 w Hn). fold w1.
    cbn [insert list_insert lookup list_lookup].
    rewrite (first_turn_starts_open ctx2 w1 Hn). reflexivity. }
  destruct Hs as [-> | ->]; rewrite Hstart;
    cbn [run_tasks lookup list_lookup insert list_insert].
  - pose proof (second_turn_opens_nothing (S (db_opens w)) w2) as H3.
    destruct (turn_getRdbStore (AwaitingOpen (S (db_opens w))) w2) as [t3 w3].
    cbn [insert list_insert lookup list_lookup].
    pose proof (second_turn_opens_nothing (S (db_opens w1)) w3) as H4.
    destruct (turn_getRdbStore (AwaitingOpen (S (db_opens w1))) w3) as [t4 w4].
    cbn [snd] in *. rewrite H4, H3. reflexivity.
  - pose proof (second_turn_opens_nothing (S (db_opens w1)) w2) as H3.
    destruct (turn_getRdbStore (AwaitingOpen (S (db_opens w1))) w2) as [t3 w3].
    cbn [insert list_insert lookup list_lookup].
    pose proof (second_turn_opens_nothing (S (db_opens w)) w3) as H4.
    destruct (turn_getRdbStore (AwaitingOpen (S (db_opens w))) w3) as [t4 w4].
    cbn [snd] in *. rewrite H4, H3. reflexivity.
Qed.

(** C5 at its failing input: on a fresh [RdbHelper], two calls of
    [getRdbStore] that overlap run two opens, not one, and the callers
    hold two different handles; with a platform that faults once, the
    first caller is left with an error and the second with a handle.  The
    same holds of [getPreferences]. *)
Theorem overlapping_first_calls_race :
  (let r := run_tasks turn_getRdbStore [O; 1%nat; O; 1%nat]
              [Called 1%nat; Called 1%nat] bound_world in
   fst r = [Settled (Ok 1%nat); Settled (Ok 2%nat)] /\
   db_opens (snd r) = 2%nat) /\
  (let r := run_tasks turn_getRdbStore [O; 1%nat; O; 1%nat]
              [Called 1%nat; Called 1%nat] (set_faults [O] bound_world) in
   fst r = [Settled (Raise (JsError "Failed to get RDB store")); Settled (Ok 2%nat)] /\
   db_opens (snd r) = 2%nat) /\
  (let r := run_tasks turn_getPreferences [O; 1%nat; O; 1%nat]
              [Called 1%nat; Called 1%nat] bound_world in
   fst r = [Settled (Ok 1%nat); Settled (Ok 2%nat)] /\
   pref_opens (snd r) = 2%nat).
Proof. vm_compute. repeat split; reflexivity. Qed.

(** Calls that do not overlap open once. *)
Example consecutive_calls_open_once :
  let r := run_tasks turn_getRdbStore [O; O; 1%nat; 1%nat]
             [Called 1%nat; Called 1%nat] bound_world in
  fst r = [Settled (Ok 1%nat); Settled (Ok 1%nat)] /\
  db_opens (snd r) = 1%nat.
Proof. vm_compute. split; reflexivity. Qed.

(* ===================================================================== *)
(** * The fuel of the decoding loop *)
(* ===================================================================== *)

Ltac same_step f :=
  first
    [ apply (respects_ret (same f) (same_refl f))
    | apply (respects_throw (same f) (same_refl f))
    | apply (respects_gets (same f) (same_refl f))
    | apply (respects_bind (same f) (same_trans f)); [|intros ?]
    | apply (respects_try_catch (same f) (same_trans f)); [|intros ?]
    | apply (respects_try_finally (same f) (same_trans f))
    | apply (respects_Date_now (same f)); intros; reflexivity
    | apply (respects_platform_call (same f)); intros; reflexivity ].

Ltac same_on_result_set f r :=
  apply (respects_on_result_set (same f) (same_refl f) (same_trans f));
    [intros; reflexivity|intros r].

(** Decoding a row moves nothing. *)
Lemma read_row_result_sets (rs : ResultSetRef) :
  respects (same result_sets) (read_row rs).
Proof.
  assert (Hi : forall name, respects (same result_sets) (rs_getColumnIndex rs name)).
  { intros name. unfold rs_getColumnIndex.
    same_on_result_set result_sets r. same_step result_sets. }
  assert (Hl : forall i, respects (same result_sets) (rs_getLong rs i)).
  { intros i. unfold rs_getLong. same_on_result_set result_sets r.
    destruct (current_value r i) as [[z|s]|]; same_step result_sets. }
  assert (Hs : forall i, respects (same result_sets) (rs_getString rs i)).
  { intros i. unfold rs_getString. same_on_result_set result_sets r.
    destruct (current_value r i) as [[z|s]|]; same_step result_sets. }
  unfold read_row, new_Memo.
  repeat first [ apply Hi | apply Hl | apply Hs | same_step result_sets ].
Qed.

(** [goToNextRow] answers [true] only after a move to the next row, which
    exists. *)
Lemma rs_goToNextRow_true (rs : ResultSetRef) (w w' : World) (r : ResultSet) (k : nat) :
  result_sets w !! rs = Some r ->
  rs_pos r = Some k ->
  rs_goToNextRow rs w = (Ok true, w') ->
  (S k < length (rs_rows r))%nat /\
  result_sets w' !! rs = Some (at_row (S k) r).
Proof.
  intros Hrs Hpos. unfold rs_goToNextRow, on_result_set, bind.
  destruct (platform_call_cases "ResultSet.goToNextRow" w) as [(s & _ & E)|(s & _ & E)];
    rewrite E; [discriminate|].
  change (result_sets (set_faults s w)) with (result_sets w).
  rewrite Hrs. destruct (rs_usable r); [|discriminate].
  rewrite Hpos. unfold move_to, alter_result_set, modify, ret.
  destruct (S k <? length (rs_rows r))%nat eqn:El; [|discriminate].
  intros H. injection H as <-. split; [apply Nat.ltb_lt, El|].
  apply (lookup_altered rs _ (set_faults s w) r Hrs).
Qed.

(** The loop never runs out of fuel: with the fuel [parseResultSet] gives
    it, more fuel changes nothing, whatever the platform does. *)
Lemma parse_rows_fuel (rs : ResultSetRef) (fuel : nat) :
  forall (extra : nat) (memos : list Memo) (w : World),
    rows_within rs fuel w ->
    parse_rows (fuel + extra) rs memos w = parse_rows fuel rs memos w.
Proof.
  induction fuel as [|fuel IH]; intros extra memos w (r & k & Hrs & Hpos & Hlt & Hfuel);
    [lia|].
  cbn [parse_rows Nat.add].
  pose proof (read_row_result_sets rs w) as Hsame. unfold same in Hsame.
  destruct (read_row rs w) as [[memo|e] w1]; [|reflexivity].
  cbn [snd] in Hsame.
  destruct (rs_goToNextRow rs w1) as [[[|]|e] w2] eqn:Enext; try reflexivity.
  rewrite <- Hsame in Hrs.
  destruct (rs_goToNextRow_true rs w1 w2 r k Hrs Hpos Enext) as [Hlt' Hrs'].
  apply IH. exists (at_row (S k) r), (S k).
  repeat split; [exact Hrs'|cbn; lia|cbn; lia].
Qed.

(** [parseResultSet] enters the loop with enough fuel. *)
Lemma parse_try_fuel (rs : ResultSetRef) (w w' : World) (n : Z) :
  rs_rowCount rs w = (Ok n, w) ->
  rs_goToFirstRow rs w = (Ok true, w') ->
  rows_within rs (Z.to_nat n) w'.
Proof.
  unfold rs_rowCount, gets, rs_goToFirstRow, on_result_set, bind.
  destruct (platform_call_cases "ResultSet.goToFirstRow" w) as [(s & _ & E)|(s & _ & E)];
    rewrite E; [discriminate|].
  change (result_sets (set_faults s w)) with (result_sets w).
  destruct (result_sets w !! rs) as [r|] eqn:Hrs; [|discriminate].
  intros Hn. injection Hn as <-.
  destruct (rs_usable r); [|discriminate].
  destruct (rs_rows r) as [|row rows] eqn:Erows; [discriminate|].
  unfold move_to, alter_result_set, modify, ret. intros H. injection H as <-.
  exists (at_row O r), O. repeat split.
  - apply (lookup_altered rs _ (set_faults s w) r Hrs).
  - change (rs_rows (at_row O r)) with (rs_rows r). rewrite Erows. cbn [length]. lia.
  - change (rs_rows (at_row O r)) with (rs_rows r). rewrite Nat2Z.id, Erows. lia.
Qed.

(* ===================================================================== *)
(** * The invariant of the store *)
(* ===================================================================== *)

Lemma keeps_inv_refl (w : World) : keeps_inv w w.
Proof. intros H; exact H. Qed.

Lemma keeps_inv_trans (w1 w2 w3 : World) :
  keeps_inv w1 w2 -> keeps_inv w2 w3 -> keeps_inv w1 w3.
Proof. unfold keeps_inv. auto. Qed.

(** The invariant reads the database, the clock and nothing else. *)
Lemma store_inv_same (w w' : World) :
  db_created w' = db_created w ->
  db_rows w' = db_rows w ->
  db_seq w' = db_seq w ->
  now w' = now w ->
  clock_steps w' = clock_steps w ->
  rdbStore w' = rdbStore w ->
  keeps_inv w w'.
Proof.
  intros H1 H2 H3 H4 H5 H6 [a b c d e f g].
  split; rewrite ?H1, ?H2, ?H3, ?H4, ?H5, ?H6; assumption.
Qed.

Lemma store_inv_initial : store_inv empty_world.
Proof.
  split; cbn; try (intros; tauto); try lia; try constructor.
Qed.

Lemma keeps_inv_clock (w : World) : keeps_inv w (snd (Date_now w)).
Proof.
  intros [a b c d e f g]. split; try assumption.
  - intros r Hr. change (now (snd (Date_now w))) with (now w + hd 0 (clock_steps w)).
    pose proof (f r Hr). pose proof (clock_step_nonneg _ g). lia.
  - change (clock_steps (snd (Date_now w))) with (tl (clock_steps w)).
    destruct g; cbn; [constructor|assumption].
Qed.

Ltac inv_same := apply store_inv_same; reflexivity.

Lemma Date_now_inv : respects keeps_inv Date_now.
Proof. intros w. apply keeps_inv_clock. Qed.

Lemma platform_call_inv (call : string) : respects keeps_inv (platform_call call).
Proof. apply (respects_platform_call keeps_inv). intros; inv_same. Qed.

Ltac inv_step :=
  first
    [ apply (respects_ret keeps_inv keeps_inv_refl)
    | apply (respects_throw keeps_inv keeps_inv_refl)
    | apply (respects_gets keeps_inv keeps_inv_refl)
    | apply Date_now_inv
    | apply platform_call_inv
    | apply (respects_modify keeps_inv); intros; inv_same
    | apply (respects_bind keeps_inv keeps_inv_trans); [|intros ?]
    | apply (respects_try_catch keeps_inv keeps_inv_trans); [|intros ?]
    | apply (respects_try_finally keeps_inv keeps_inv_trans) ].

Ltac inv_on_result_set r :=
  apply (respects_on_result_set keeps_inv keeps_inv_refl keeps_inv_trans);
    [intros; inv_same|intros r].

Lemma after_open_inv (w : World) : keeps_inv w (after_open w).
Proof.
  unfold after_open. destruct (rdbStore w) as [h|] eqn:Eh; [apply keeps_inv_refl|].
  intros [a b c d e f g]. destruct (db_created w) eqn:Ec.
  - split; world_simpl; auto.
  - split; world_simpl;
      first [ intros r [] | intros; reflexivity | lia | constructor | assumption ].
Qed.

Lemma getRdbStore_inv (ctx : Context) : respects keeps_inv (getRdbStore ctx).
Proof.
  intros w.
  destruct (getRdbStore_cases ctx w) as [(_ & e & s & E)|(_ & s & E)]; rewrite E.
  - inv_same.
  - eapply keeps_inv_trans; [apply after_open_inv|inv_same].
Qed.

Lemma filter_subset {A} (f : A -> bool) (l : list A) (x : A) :
  In x (List.filter f l) -> In x l.
Proof. intros H. apply List.filter_In in H. tauto. Qed.

Lemma NoDup_map_filter {A B} (g : A -> B) (f : A -> bool) (l : list A) :
  NoDup (map g l) -> NoDup (map g (List.filter f l)).
Proof.
  induction l as [|x l IH]; cbn; [auto|].
  intros H. apply NoDup_cons in H as [Hx Hl].
  destruct (f x); [|auto]. cbn. apply NoDup_cons. split; [|auto].
  intros Hin. apply Hx. apply list_elem_of_In in Hin. apply list_elem_of_In.
  apply in_map_iff in Hin as (y & Hy & Hyin). apply in_map_iff.
  exists y. split; [exact Hy|]. eapply filter_subset, Hyin.
Qed.

Lemma store_delete_inv (store : RdbStore) (p : RdbPredicates) :
  respects keeps_inv (store_delete store p).
Proof.
  unfold store_delete.
  apply (respects_bind keeps_inv keeps_inv_trans); [apply platform_call_inv|intros _].
  intros w Hinv. destruct (table_exists (p_table p)); [|exact Hinv].
  destruct Hinv as [a b c d e f g]. split; cbn [snd]; world_simpl; try assumption.
  - intros Hc. rewrite (a Hc). reflexivity.
  - intros r Hr. apply d. eapply filter_subset, Hr.
  - apply NoDup_map_filter, e.
  - intros r Hr. apply f. eapply filter_subset, Hr.
Qed.

Lemma store_query_inv (store : RdbStore) (p : RdbPredicates) (columns : list string) :
  respects keeps_inv (store_query store p columns).
Proof.
  unfold store_query.
  apply (respects_bind keeps_inv keeps_inv_trans); [apply platform_call_inv|intros _].
  intros w. destruct (table_exists (p_table p)); [inv_same|apply keeps_inv_refl].
Qed.

Lemma alter_result_set_inv (f : ResultSet -> ResultSet) (rs : ResultSetRef) :
  respects keeps_inv (alter_result_set f rs).
Proof. unfold alter_result_set. inv_step. Qed.

Lemma rs_getColumnIndex_inv (rs : ResultSetRef) (name : string) :
  respects keeps_inv (rs_getColumnIndex rs name).
Proof. unfold rs_getColumnIndex. inv_on_result_set r. inv_step. Qed.

Lemma rs_getLong_inv (rs : ResultSetRef) (i : Z) : respects keeps_inv (rs_getLong rs i).
Proof.
  unfold rs_getLong. inv_on_result_set r.
  destruct (current_value r i) as [[z|s]|]; inv_step.
Qed.

Lemma rs_getString_inv (rs : ResultSetRef) (i : Z) :
  respects keeps_inv (rs_getString rs i).
Proof.
  unfold rs_getString. inv_on_result_set r.
  destruct (current_value r i) as [[z|s]|]; inv_step.
Qed.

Lemma rs_goToFirstRow_inv (rs : ResultSetRef) : respects keeps_inv (rs_goToFirstRow rs).
Proof.
  unfold rs_goToFirstRow, move_to. inv_on_result_set r.
  destruct (rs_rows r); repeat first [apply alter_result_set_inv|inv_step].
Qed.

Lemma rs_goToNextRow_inv (rs : ResultSetRef) : respects keeps_inv (rs_goToNextRow rs).
Proof.
  unfold rs_goToNextRow, move_to. inv_on_result_set r. cbn zeta.
  destruct (_ <? _)%nat; repeat first [apply alter_result_set_inv|inv_step].
Qed.

Lemma rs_close_inv (rs : ResultSetRef) : respects keeps_inv (rs_close rs).
Proof. unfold rs_close. repeat first [apply alter_result_set_inv|inv_step]. Qed.

Lemma new_Memo_inv (t c : string) (i created modified : option Z) :
  respects keeps_inv (new_Memo t c i created modified).
Proof. unfold new_Memo. repeat inv_step. Qed.

Ltac inv_calls :=
  repeat first
    [ apply rs_getColumnIndex_inv | apply rs_getLong_inv | apply rs_getString_inv
    | apply rs_goToFirstRow_inv | apply rs_goToNextRow_inv | apply rs_close_inv
    | apply new_Memo_inv | apply store_query_inv | apply store_delete_inv
    | apply getRdbStore_inv | apply alter_result_set_inv | inv_step ].

Lemma read_row_inv (rs : ResultSetRef) : respects keeps_inv (read_row rs).
Proof. unfold read_row. inv_calls. Qed.

Lemma read_single_inv (rs : ResultSetRef) : respects keeps_inv (read_single rs).
Proof.
  unfold read_single, rs_rowCount.
  apply (respects_bind keeps_inv keeps_inv_trans); [inv_step|intros n].
  apply (respects_bind keeps_inv keeps_inv_trans);
    [destruct (0 <? n); inv_calls|intros [|]; inv_calls].
Qed.

Lemma parse_rows_inv (rs : ResultSetRef) (fuel : nat) :
  forall (memos : list Memo) (w : World),
    keeps_inv w (snd (parse_rows fuel rs memos w)).
Proof.
  induction fuel as [|fuel IH]; intros memos w; cbn [parse_rows];
    [apply keeps_inv_refl|].
  pose proof (read_row_inv rs w) as H1.
  destruct (read_row rs w) as [[memo|e] w1]; cbn [snd] in *; [|exact H1].
  pose proof (rs_goToNextRow_inv rs w1) as H2.
  destruct (rs_goToNextRow rs w1) as [[[|]|e] w2]; cbn [snd] in *.
  - eapply keeps_inv_trans; [exact H1|].
    eapply keeps_inv_trans; [exact H2|apply IH].
  - eapply keeps_inv_trans; eauto.
  - eapply keeps_inv_trans; eauto.
Qed.

Lemma parseResultSet_inv (resultSet : option ResultSetRef) :
  respects keeps_inv (parseResultSet resultSet).
Proof.
  destruct resultSet as [rs|]; [|apply (respects_ret keeps_inv keeps_inv_refl)].
  intros w. unfold parseResultSet.
  assert (Htry : keeps_inv w (snd (parse_try rs w))).
  { unfold parse_try, rs_rowCount, gets.
    destruct (_ =? 0); [apply keeps_inv_refl|].
    pose proof (rs_goToFirstRow_inv rs w) as H1.
    destruct (rs_goToFirstRow rs w) as [[[|]|e] w1]; cbn [snd] in *; try exact H1.
    eapply keeps_inv_trans; [exact H1|apply parse_rows_inv]. }
  destruct (parse_try rs w) as [[memos res] w1]. cbn [snd] in Htry.
  pose proof (respects_try_catch keeps_inv keeps_inv_trans (rs_close rs)
                (fun closeError => ret tt) (rs_close_inv rs)
                (fun e => respects_ret keeps_inv keeps_inv_refl tt) w1) as Hclose.
  destruct (try_catch (rs_close rs) _ w1) as [u w2]. cbn [snd] in *.
  eapply keeps_inv_trans; eauto.
Qed.

Ltac inv_queries :=
  repeat first
    [ apply read_single_inv | apply read_row_inv | apply parseResultSet_inv
    | apply rs_getColumnIndex_inv | apply rs_getLong_inv | apply rs_getString_inv
    | apply rs_goToFirstRow_inv | apply rs_goToNextRow_inv | apply rs_close_inv
    | apply new_Memo_inv | apply store_query_inv | apply store_delete_inv
    | apply getRdbStore_inv | apply alter_result_set_inv | inv_step ].

Lemma queryAllMemos_inv (ctx : Context) : respects keeps_inv (queryAllMemos ctx).
Proof. unfold queryAllMemos. inv_queries. Qed.

Lemma queryMemosByTitle_inv (ctx : Context) (keyword : string) :
  respects keeps_inv (queryMemosByTitle ctx keyword).
Proof.
  unfold queryMemosByTitle. destruct (truthy keyword); cbn [negb];
    [|apply queryAllMemos_inv].
  inv_queries.
Qed.

Lemma queryMemoById_inv (ctx : Context) (i : Z) :
  respects keeps_inv (queryMemoById ctx i).
Proof.
  unfold queryMemoById.
  apply (respects_bind keeps_inv keeps_inv_trans); [apply getRdbStore_inv|intros store].
  apply (respects_bind keeps_inv keeps_inv_trans); [inv_queries|intros [rs|]];
    [|inv_step].
  inv_queries.
Qed.

Lemma deleteMemo_inv (ctx : Context) (i : Z) : respects keeps_inv (deleteMemo ctx i).
Proof. unfold deleteMemo. inv_calls. Qed.

(** The write of [updateMemo]: the rows with the given id get the reading
    of the clock as their modification date. *)
Lemma stamp_rows_inv (store : RdbStore) (t c : string) (i : Z) (w : World) :
  keeps_inv w
    (snd (try_catch
            (affectedRows <-
               store_update store
                 [("title", VText t); ("content", VText c);
                  ("modified_date", VInt (now w))]
                 (equalTo "id" (VInt i) (new_RdbPredicates TABLE_NAME)) ;;
             ret affectedRows)
            (fun e => ret 0) w)).
Proof.
  unfold try_catch, store_update.
  destruct (platform_call_cases "RdbStore.update" w) as [(s & _ & E)|(s & _ & E)];
    rewrite (bind_eq _ _ _ _ _ (bind_eq _ _ _ _ _ E)); [inv_same|].
  cbn [table_exists p_table equalTo new_RdbPredicates TABLE_NAME String.eqb
       Ascii.eqb Bool.eqb andb forallb column_accepts orb ret snd].
  intros [a b c0 d e f g]. split; world_simpl; try assumption.
  - intros Hc. rewrite (a Hc). reflexivity.
  - intros r Hr. apply in_map_iff in Hr as (r0 & <- & Hr0).
    pose proof (d r0 Hr0). destruct (selects _ r0); [cbn|]; assumption.
  - rewrite map_map.
    rewrite (map_ext _ r_id); [exact e|].
    intros r. destruct (selects _ r); reflexivity.
  - intros r Hr. apply in_map_iff in Hr as (r0 & <- & Hr0).
    pose proof (f r0 Hr0). destruct (selects _ r0); [cbn; lia|assumption].
Qed.

Lemma updateMemo_inv (ctx : Context) (memo : Memo) :
  respects keeps_inv (updateMemo ctx memo).
Proof.
  unfold updateMemo. destruct (id memo) as [i|]; [|inv_step].
  apply (respects_bind keeps_inv keeps_inv_trans); [apply getRdbStore_inv|intros store].
  intros w. unfold bind at 1, Date_now. cbn zeta.
  eapply keeps_inv_trans; [apply (keeps_inv_clock w)|].
  apply (stamp_rows_inv store (title memo) (content memo) i (snd (Date_now w))).
Qed.

(** The write of [addMemo], for a note whose dates are ordered and not in
    the future. *)
Lemma addMemo_inv (ctx : Context) (memo : Memo) (w : World) :
  createdDate memo <= modifiedDate memo <= now w ->
  keeps_inv w (snd (addMemo ctx memo w)).
Proof.
  intros Hd. unfold addMemo, bind at 1.
  destruct (getRdbStore_cases ctx w) as [(_ & e & s & E)|(_ & s & E)]; rewrite E;
    cbn [snd]; [inv_same|].
  eapply keeps_inv_trans; [apply after_open_inv|].
  set (w1 := set_faults s (after_open w)).
  assert (Hh : rdbStore w1 <> None)
    by (change (rdbStore (after_open w) <> None); rewrite after_open_handle; discriminate).
  assert (Hnow : now w1 = now w) by apply (after_open_clock w).
  eapply keeps_inv_trans; [apply (store_inv_same (after_open w) w1); reflexivity|].
  clearbody w1.
  unfold try_catch, store_insert.
  destruct (platform_call_cases "RdbStore.insert" w1) as [(s' & _ & E')|(s' & _ & E')];
    rewrite (bind_eq _ _ _ _ _ (bind_eq _ _ _ _ _ E')); [inv_same|].
  cbn [table_exists TABLE_NAME String.eqb Ascii.eqb Bool.eqb row_of_bucket bucket_get
       List.find fst snd ret].
  intros [a b c d e0 f g]. split; world_simpl; try assumption.
  - intros Hc. rewrite (b Hh) in Hc. discriminate.
  - lia.
  - intros r Hr. apply in_app_iff in Hr as [Hr|[<-|[]]]; [|cbn; lia].
    pose proof (d r Hr). lia.
  - rewrite map_app. cbn [map]. apply NoDup_app. split; [exact e0|].
    split; [|apply NoDup_singleton].
    intros x Hx Hx'. apply list_elem_of_singleton in Hx'. subst x.
    apply list_elem_of_In, in_map_iff in Hx as (r & Hr & Hin).
    cbn [r_id] in Hr. pose proof (d r Hin). lia.
  - intros r Hr. apply in_app_iff in Hr as [Hr|[<-|[]]]; [apply f, Hr|cbn; lia].
Qed.

Lemma save_add_inv (ctx : Context) (t c : string) :
  respects keeps_inv (MemoViewModel.save_add ctx t c).
Proof.
  intros w. pose proof (save_add_eq ctx t c w) as E. cbn zeta in E. rewrite E.
  set (w1 := snd (Date_now w)).
  eapply keeps_inv_trans; [apply (keeps_inv_clock w)|]. fold w1.
  pose proof (addMemo_inv ctx (mkMemo None t c (now w1) (now w1)) w1) as H.
  change (now w + hd 0 (clock_steps w)) with (now w1).
  destruct (addMemo ctx _ w1) as [[n|e] w2]; apply H; cbn; lia.
Qed.

Lemma save_update_inv (ctx : Context) (t c : string) (i created : Z) :
  respects keeps_inv (MemoViewModel.save_update ctx t c i created).
Proof.
  intros w. pose proof (save_update_eq ctx t c i created w) as E. cbn zeta in E.
  rewrite E.
  eapply keeps_inv_trans; [apply (keeps_inv_clock w)|].
  eapply keeps_inv_trans; [apply (keeps_inv_clock (snd (Date_now w)))|].
  match goal with |- context [updateMemo ctx ?m ?w1] =>
    pose proof (updateMemo_inv ctx m w1) as H;
    destruct (updateMemo ctx m w1) as [[n|e] w2] end; exact H.
Qed.

Lemma getPreferences_inv (ctx : Context) : respects keeps_inv (getPreferences ctx).
Proof.
  unfold getPreferences, preferences_getPreferences, pref_open_begin,
    pref_open_complete.
  apply (respects_bind keeps_inv keeps_inv_trans); [inv_step|intros [prefs|]];
    [inv_step|].
  repeat first
    [ apply (respects_modify keeps_inv); intros w;
        try destruct (pref_cache w); first [apply keeps_inv_refl|inv_same]
    | inv_step ].
Qed.

Lemma saveFontSizes_inv (ctx : Context) (t c : Z) :
  respects keeps_inv (saveFontSizes ctx t c).
Proof.
  unfold saveFontSizes, prefs_put, prefs_flush.
  repeat first [apply getPreferences_inv|inv_step].
Qed.

Lemma loadFontSizes_inv (ctx : Context) : respects keeps_inv (loadFontSizes ctx).
Proof.
  unfold loadFontSizes, prefs_get.
  repeat first [apply getPreferences_inv|inv_step].
Qed.

(** Dispatch on the head of the computation. *)
Ltac inv_head :=
  lazymatch goal with
  | |- respects _ (ret _) => apply (respects_ret keeps_inv keeps_inv_refl)
  | |- respects _ (throw _) => apply (respects_throw keeps_inv keeps_inv_refl)
  | |- respects _ (gets _) => apply (respects_gets keeps_inv keeps_inv_refl)
  | |- respects _ (modify _) => apply (respects_modify keeps_inv); intros; inv_same
  | |- respects _ (bind _ _) =>
      apply (respects_bind keeps_inv keeps_inv_trans); [|intros ?]
  | |- respects _ (try_catch _ _) =>
      apply (respects_try_catch keeps_inv keeps_inv_trans); [|intros ?]
  | |- respects _ (try_finally _ _) =>
      apply (respects_try_finally keeps_inv keeps_inv_trans)
  | |- respects _ (queryMemosByTitle _ _) => apply queryMemosByTitle_inv
  | |- respects _ (queryMemoById _ _) => apply queryMemoById_inv
  | |- respects _ (deleteMemo _ _) => apply deleteMemo_inv
  | |- respects _ (loadFontSizes _) => apply loadFontSizes_inv
  | |- respects _ (saveFontSizes _ _ _) => apply saveFontSizes_inv
  | |- respects _ (MemoViewModel.save_update _ _ _ _ _) => apply save_update_inv
  | |- respects _ (MemoViewModel.save_add _ _ _) => apply save_add_inv
  | |- respects _ (match ?x with Some _ => _ | None => _ end) => destruct x
  | |- respects _ (if ?b then _ else _) => destruct b
  end.

Lemma searchMemos_inv (keyword : string) :
  respects keeps_inv (MemoViewModel.searchMemos keyword).
Proof. unfold MemoViewModel.searchMemos. repeat inv_head. Qed.









(* ===================================================================== *)
(** * The view model and the layers below it *)
(* ===================================================================== *)

Lemma vm_same_refl (w : World) : vm_same w w.
Proof. repeat split. Qed.

Lemma vm_same_trans (w1 w2 w3 : World) :
  vm_same w1 w2 -> vm_same w2 w3 -> vm_same w1 w3.
Proof.
  unfold vm_same. intros (a & b & c & d & e & f & g) (a' & b' & c' & d' & e' & f' & g').
  repeat split; congruence.
Qed.

Ltac vm_frame := intros; repeat split.

(** Dispatch on the head of a computation of the repository or of the
    preference helper. *)
Ltac vm_head :=
  lazymatch goal with
  | |- respects _ (ret _) => apply (respects_ret vm_same vm_same_refl)
  | |- respects _ (throw _) => apply (respects_throw vm_same vm_same_refl)
  | |- respects _ (gets _) => apply (respects_gets vm_same vm_same_refl)
  | |- respects _ (modify _) =>
      apply (respects_modify vm_same); intros w;
      repeat match goal with
             | |- context [match ?x with _ => _ end] => destruct x
             end; repeat split
  | |- respects _ (alter_result_set _ _) =>
      apply (respects_modify vm_same); vm_frame
  | |- respects _ (move_to _ _) => apply (respects_modify vm_same); vm_frame
  | |- respects _ Date_now => apply (respects_Date_now vm_same); vm_frame
  | |- respects _ (platform_call _) =>
      apply (respects_platform_call vm_same); vm_frame
  | |- respects _ (on_result_set _ _ _) =>
      apply (respects_on_result_set vm_same vm_same_refl vm_same_trans);
        [vm_frame|intros ?]
  | |- respects _ (bind _ _) =>
      apply (respects_bind vm_same vm_same_trans); [|intros ?]
  | |- respects _ (try_catch _ _) =>
      apply (respects_try_catch vm_same vm_same_trans); [|intros ?]
  | |- respects _ (try_finally _ _) =>
      apply (respects_try_finally vm_same vm_same_trans)
  | |- respects _ (match ?x with _ => _ end) => destruct x
  | |- respects _ (fun w => _) =>
      let w := fresh "w" in
      intros w;
      repeat match goal with
             | |- context [match ?x with _ => _ end] => destruct x
             end;
      first [apply vm_same_refl|repeat split]
  end.

Lemma getRdbStore_vm (ctx : Context) : respects vm_same (getRdbStore ctx).
Proof.
  unfold getRdbStore, relationalStore_getRdbStore, open_begin, open_complete.
  repeat vm_head.
Qed.

Lemma getPreferences_vm (ctx : Context) : respects vm_same (getPreferences ctx).
Proof.
  unfold getPreferences, preferences_getPreferences, pref_open_begin,
    pref_open_complete.
  repeat vm_head.
Qed.

Lemma read_row_vm (rs : ResultSetRef) : respects vm_same (read_row rs).
Proof.
  unfold read_row, rs_getColumnIndex, rs_getLong, rs_getString, new_Memo.
  repeat vm_head.
Qed.

Lemma rs_goToFirstRow_vm (rs : ResultSetRef) : respects vm_same (rs_goToFirstRow rs).
Proof. unfold rs_goToFirstRow. repeat vm_head. Qed.

Lemma rs_goToNextRow_vm (rs : ResultSetRef) : respects vm_same (rs_goToNextRow rs).
Proof. unfold rs_goToNextRow. repeat vm_head. Qed.

Lemma rs_close_vm (rs : ResultSetRef) : respects vm_same (rs_close rs).
Proof. unfold rs_close. repeat vm_head. Qed.

Lemma read_single_vm (rs : ResultSetRef) : respects vm_same (read_single rs).
Proof.
  unfold read_single, rs_rowCount, rs_getColumnIndex, rs_getLong, rs_getString,
    new_Memo.
  apply (respects_bind vm_same vm_same_trans); [vm_head|intros n].
  apply (respects_bind vm_same vm_same_trans);
    [destruct (0 <? n); [apply rs_goToFirstRow_vm|vm_head]|intros [|]; repeat vm_head].
Qed.

Lemma parse_rows_vm (rs : ResultSetRef) (fuel : nat) :
  forall (memos : list Memo) (w : World),
    vm_same w (snd (parse_rows fuel rs memos w)).
Proof.
  induction fuel as [|fuel IH]; intros memos w; cbn [parse_rows];
    [apply vm_same_refl|].
  pose proof (read_row_vm rs w) as H1.
  destruct (read_row rs w) as [[memo|e] w1]; cbn [snd] in *; [|exact H1].
  pose proof (rs_goToNextRow_vm rs w1) as H2.
  destruct (rs_goToNextRow rs w1) as [[[|]|e] w2]; cbn [snd] in *.
  - eapply vm_same_trans; [exact H1|].
    eapply vm_same_trans; [exact H2|apply IH].
  - eapply vm_same_trans; eauto.
  - eapply vm_same_trans; eauto.
Qed.

Lemma parseResultSet_vm (resultSet : option ResultSetRef) :
  respects vm_same (parseResultSet resultSet).
Proof.
  destruct resultSet as [rs|]; [|apply (respects_ret vm_same vm_same_refl)].
  intros w. unfold parseResultSet.
  assert (Htry : vm_same w (snd (parse_try rs w))).
  { unfold parse_try, rs_rowCount, gets.
    destruct (_ =? 0); [apply vm_same_refl|].
    pose proof (rs_goToFirstRow_vm rs w) as H1.
    destruct (rs_goToFirstRow rs w) as [[[|]|e] w1]; cbn [snd] in *; try exact H1.
    eapply vm_same_trans; [exact H1|apply parse_rows_vm]. }
  destruct (parse_try rs w) as [[memos res] w1]. cbn [snd] in Htry.
  pose proof (respects_try_catch vm_same vm_same_trans (rs_close rs)
                (fun closeError => ret tt) (rs_close_vm rs)
                (fun e => respects_ret vm_same vm_same_refl tt) w1) as Hclose.
  destruct (try_catch (rs_close rs) _ w1) as [u w2]. cbn [snd] in *.
  eapply vm_same_trans; eauto.
Qed.

Ltac vm_dao :=
  lazymatch goal with
  | |- respects _ (getRdbStore _) => apply getRdbStore_vm
  | |- respects _ (getPreferences _) => apply getPreferences_vm
  | |- respects _ (parseResultSet _) => apply parseResultSet_vm
  | |- respects _ (read_single _) => apply read_single_vm
  | |- respects _ (rs_close _) => apply rs_close_vm
  | |- respects _ (store_query _ _ _) => unfold store_query
  | |- respects _ (store_insert _ _ _) => unfold store_insert
  | |- respects _ (store_update _ _ _) => unfold store_update
  | |- respects _ (store_delete _ _) => unfold store_delete
  | |- respects _ (prefs_put _ _ _) => unfold prefs_put
  | |- respects _ (prefs_get _ _ _) => unfold prefs_get
  | |- respects _ (prefs_flush _) => unfold prefs_flush
  | |- _ => vm_head
  end.

Lemma queryAllMemos_vm (ctx : Context) : respects vm_same (queryAllMemos ctx).
Proof. unfold queryAllMemos. repeat vm_dao. Qed.

Lemma queryMemosByTitle_vm (ctx : Context) (keyword : string) :
  respects vm_same (queryMemosByTitle ctx keyword).
Proof.
  unfold queryMemosByTitle. destruct (truthy keyword); cbn [negb];
    [repeat vm_dao|apply queryAllMemos_vm].
Qed.

Lemma queryMemoById_vm (ctx : Context) (i : Z) :
  respects vm_same (queryMemoById ctx i).
Proof. unfold queryMemoById. repeat vm_dao. Qed.

Lemma addMemo_vm (ctx : Context) (memo : Memo) : respects vm_same (addMemo ctx memo).
Proof. unfold addMemo. repeat vm_dao. Qed.

Lemma updateMemo_vm (ctx : Context) (memo : Memo) :
  respects vm_same (updateMemo ctx memo).
Proof. unfold updateMemo. repeat vm_dao. Qed.

Lemma deleteMemo_vm (ctx : Context) (i : Z) : respects vm_same (deleteMemo ctx i).
Proof. unfold deleteMemo. repeat vm_dao. Qed.

Lemma saveFontSizes_vm (ctx : Context) (t c : Z) :
  respects vm_same (saveFontSizes ctx t c).
Proof. unfold saveFontSizes. repeat vm_dao. Qed.

Lemma loadFontSizes_vm (ctx : Context) : respects vm_same (loadFontSizes ctx).
Proof. unfold loadFontSizes. repeat vm_dao. Qed.

(** The repository and the preference helper leave the view model
    alone. *)
Theorem layers_below_keep_view_model (ctx : Context) (memo : Memo) (i : Z)
    (keyword : string) (t c : Z) :
  respects vm_same (addMemo ctx memo) /\
  respects vm_same (queryAllMemos ctx) /\
  respects vm_same (queryMemosByTitle ctx keyword) /\
  respects vm_same (queryMemoById ctx i) /\
  respects vm_same (updateMemo ctx memo) /\
  respects vm_same (deleteMemo ctx i) /\
  respects vm_same (saveFontSizes ctx t c) /\
  respects vm_same (loadFontSizes ctx).
Proof.
  split; [apply addMemo_vm|]. split; [apply queryAllMemos_vm|].
  split; [apply queryMemosByTitle_vm|]. split; [apply queryMemoById_vm|].
  split; [apply updateMemo_vm|]. split; [apply deleteMemo_vm|].
  split; [apply saveFontSizes_vm|apply loadFontSizes_vm].
Qed.

(** ** The current memo *)

Lemma respects_impl {A} (R R' : World -> World -> Prop) (m : M A) :
  (forall w w', R w w' -> R' w w') -> respects R m -> respects R' m.
Proof. intros H Hm w. apply H, Hm. Qed.

Lemma vm_same_current (w w' : World) : vm_same w w' -> same currentMemo w w'.
Proof. intros H. apply H. Qed.

(** Dispatch for the operations of the view model that do not assign
    [currentMemo]. *)
Ltac cur_head :=
  lazymatch goal with
  | |- respects _ (ret _) => apply (respects_ret _ (same_refl currentMemo))
  | |- respects _ (gets _) => apply (respects_gets _ (same_refl currentMemo))
  | |- respects _ (modify _) => apply respects_modify; intros ?; reflexivity
  | |- respects _ Date_now => apply respects_Date_now; intros; reflexivity
  | |- respects _ (new_Memo _ _ _ _ _) => unfold new_Memo
  | |- respects _ (bind _ _) =>
      apply (respects_bind _ (same_trans currentMemo)); [|intros ?]
  | |- respects _ (try_catch _ _) =>
      apply (respects_try_catch _ (same_trans currentMemo)); [|intros ?]
  | |- respects _ (try_finally _ _) =>
      apply (respects_try_finally _ (same_trans currentMemo))
  | |- respects _ (match ?x with _ => _ end) => destruct x
  | |- respects _ (addMemo _ _) =>
      apply (respects_impl _ _ _ vm_same_current), addMemo_vm
  | |- respects _ (updateMemo _ _) =>
      apply (respects_impl _ _ _ vm_same_current), updateMemo_vm
  | |- respects _ (deleteMemo _ _) =>
      apply (respects_impl _ _ _ vm_same_current), deleteMemo_vm
  | |- respects _ (queryMemosByTitle _ _) =>
      apply (respects_impl _ _ _ vm_same_current), queryMemosByTitle_vm
  | |- respects _ (saveFontSizes _ _ _) =>
      apply (respects_impl _ _ _ vm_same_current), saveFontSizes_vm
  | |- respects _ (loadFontSizes _) =>
      apply (respects_impl _ _ _ vm_same_current), loadFontSizes_vm
  end.

Lemma searchMemos_current (keyword : string) :
  respects (same currentMemo) (MemoViewModel.searchMemos keyword).
Proof. unfold MemoViewModel.searchMemos. repeat cur_head. Qed.

Lemma vm_loadFontSizes_current :
  respects (same currentMemo) MemoViewModel.loadFontSizes.
Proof. unfold MemoViewModel.loadFontSizes. repeat cur_head. Qed.

Ltac cur_vm :=
  lazymatch goal with
  | |- respects _ (MemoViewModel.searchMemos _) => apply searchMemos_current
  | |- respects _ MemoViewModel.loadFontSizes => apply vm_loadFontSizes_current
  | |- _ => cur_head
  end.

Lemma vm_saveFontSizes_current :
  respects (same currentMemo) MemoViewModel.saveFontSizes.
Proof. unfold MemoViewModel.saveFontSizes. repeat cur_head. Qed.

Lemma loadInitialData_current :
  respects (same currentMemo) MemoViewModel.loadInitialData.
Proof.
  unfold MemoViewModel.loadInitialData.
  repeat cur_vm.
Qed.

Lemma saveCurrentMemo_current (t c : string) :
  respects (same currentMemo) (MemoViewModel.saveCurrentMemo t c).
Proof.
  unfold MemoViewModel.saveCurrentMemo, MemoViewModel.save_update,
    MemoViewModel.save_add.
  repeat cur_vm.
Qed.

Lemma vm_deleteMemo_current (i : Z) :
  respects (same currentMemo) (MemoViewModel.deleteMemo i).
Proof.
  unfold MemoViewModel.deleteMemo.
  repeat cur_vm.
Qed.

(** *** What [queryMemoById] returns *)

Lemma yields_ret {A} (P : A -> Prop) (a : A) : P a -> yields P (ret a).
Proof. intros H w a' E. cbn in E. congruence. Qed.

Lemma yields_bind {A B} (P : B -> Prop) (m : M A) (k : A -> M B) :
  (forall a, yields P (k a)) -> yields P (bind m k).
Proof.
  intros H w b. unfold bind. destruct (m w) as [[a|e] w1]; [apply H|discriminate].
Qed.

Lemma yields_try_catch {A} (P : A -> Prop) (m : M A) (h : Exn -> M A) :
  yields P m -> (forall e, yields P (h e)) -> yields P (try_catch m h).
Proof.
  intros Hm Hh w a. unfold try_catch. specialize (Hm w).
  destruct (m w) as [[a'|e] w1]; [apply Hm|apply Hh].
Qed.

Lemma yields_try_finally {A} (P : A -> Prop) (m : M A) (f : M unit) :
  yields P m -> yields P (try_finally m f).
Proof.
  intros Hm w a. unfold try_finally. specialize (Hm w).
  destruct (m w) as [r w1]. destruct (f w1) as [[u|e] w2]; [apply Hm|discriminate].
Qed.

Lemma yields_bind_with {A B} (Q : A -> Prop) (P : B -> Prop) (m : M A)
    (k : A -> M B) :
  yields Q m -> (forall a, Q a -> yields P (k a)) -> yields P (bind m k).
Proof.
  intros Hm H w b. unfold bind. specialize (Hm w).
  destruct (m w) as [[a|e] w1]; [apply H, Hm; reflexivity|discriminate].
Qed.

Lemma new_Memo_id (title content : string) (i created modified : option Z) :
  yields (fun m => id m = i) (new_Memo title content i created modified).
Proof. intros w m E. cbn in E. injection E as <-. reflexivity. Qed.

Lemma read_single_with_id (rs : ResultSetRef) : yields with_id (read_single rs).
Proof.
  unfold read_single.
  apply yields_bind; intros n. apply yields_bind; intros [|]; cbv iota;
    [|apply yields_ret; exact I].
  repeat lazymatch goal with
         | |- yields _ (bind (new_Memo _ _ _ _ _) _) =>
             apply (yields_bind_with _ _ _ _ (new_Memo_id _ _ _ _ _)); intros memo Hid
         | |- yields _ (bind _ _) => apply yields_bind; intros ?
         end.
  apply yields_ret. cbn. rewrite Hid. discriminate.
Qed.

Lemma queryMemoById_with_id (ctx : Context) (i : Z) :
  yields with_id (queryMemoById ctx i).
Proof.
  unfold queryMemoById.
  apply yields_bind; intros store. apply yields_bind; intros [rs|];
    [|apply yields_ret; exact I].
  apply yields_try_finally, yields_try_catch;
    [apply read_single_with_id|intros e; apply yields_ret; exact I].
Qed.

Lemma loadMemoById_current (i : Z) (w : World) :
  current_has_id w -> current_has_id (snd (MemoViewModel.loadMemoById i w)).
Proof.
  intros Hw. unfold MemoViewModel.loadMemoById.
  change (bind (gets context) ?k w) with (k (context w) w).
  destruct (context w) as [ctx|]; [|exact Hw].
  unfold bind at 1. cbn [modify].
  set (w0 := set_isLoading true w).
  unfold try_finally, try_catch, bind.
  pose proof (queryMemoById_with_id ctx i w0) as Hq.
  destruct (queryMemoById ctx i w0) as [[found|e] w1]; cbn [modify snd].
  - specialize (Hq found eq_refl). destruct found; exact Hq.
  - exact I.
Qed.

(** X11.  Whatever the platform does, every operation of the view model leaves
    [currentMemo] absent or with an id, when it found it so: a
    [currentMemo] without an id is not produced by the view model
    itself. *)
Theorem current_has_id_kept (ctx : Context) (i : Z) (keyword t c : string)
    (w : World) :
  current_has_id w ->
  current_has_id (MemoViewModel.fresh w) /\
  current_has_id (snd (MemoViewModel.initialize ctx w)) /\
  current_has_id (snd (MemoViewModel.prepareNewMemo w)) /\
  current_has_id (snd (MemoViewModel.loadMemoById i w)) /\
  current_has_id (snd (MemoViewModel.loadInitialData w)) /\
  current_has_id (snd (MemoViewModel.searchMemos keyword w)) /\
  current_has_id (snd (MemoViewModel.saveCurrentMemo t c w)) /\
  current_has_id (snd (MemoViewModel.deleteMemo i w)) /\
  current_has_id (snd (MemoViewModel.loadFontSizes w)) /\
  current_has_id (snd (MemoViewModel.saveFontSizes w)).
Proof.
  intros Hw.
  assert (Hsame : forall w', same currentMemo w w' -> current_has_id w').
  { intros w' E. unfold current_has_id. rewrite E. exact Hw. }
  split; [exact I|]. split; [exact Hw|]. split; [exact I|].
  split; [apply loadMemoById_current, Hw|].
  split; [apply Hsame, loadInitialData_current|].
  split; [apply Hsame, searchMemos_current|].
  split; [apply Hsame, saveCurrentMemo_current|].
  split; [apply Hsame, vm_deleteMemo_current|].
  split; [apply Hsame, vm_loadFontSizes_current|apply Hsame, vm_saveFontSizes_current].
Qed.

(* ===================================================================== *)
(** * Frames: what the queries leave alone *)
(* ===================================================================== *)

Section Frame.
Variable R : World -> World -> Prop.
Hypothesis R_refl : forall w, R w w.
Hypothesis R_trans : forall w1 w2 w3, R w1 w2 -> R w2 w3 -> R w1 w3.
Hypothesis R_call : forall call, respects R (platform_call call).
Hypothesis R_clock : respects R Date_now.
Hypothesis R_sets : forall x w, R w (set_result_sets x w).
Hypothesis R_open : forall ctx, respects R (getRdbStore ctx).
Hypothesis R_pref_open : forall ctx, respects R (getPreferences ctx).
Hypothesis R_db : forall created rows seq opens w, R w (set_db created rows seq opens w).
Hypothesis R_prefs : forall disk cache opens w, R w (set_prefs disk cache opens w).
Hypothesis R_memos : forall x w, R w (set_memos x w).
Hypothesis R_loading : forall x w, R w (set_isLoading x w).
Hypothesis R_keyword : forall x w, R w (set_searchKeyword x w).
Hypothesis R_current : forall x w, R w (set_currentMemo x w).
Hypothesis R_fonts : forall t c w, R w (set_fontSizes t c w).

Lemma frame_on_result_set {A} (call : string) (rs : ResultSetRef)
    (k : ResultSet -> M A) :
  (forall r, respects R (k r)) -> respects R (on_result_set call rs k).
Proof.
  intros Hk. unfold on_result_set.
  apply (respects_bind R R_trans); [apply R_call|intros _].
  intros w. destruct (result_sets w !! rs) as [r|]; [|apply R_refl].
  destruct (rs_usable r); [apply Hk|apply R_refl].
Qed.

Ltac frame_step :=
  lazymatch goal with
  | |- respects _ (ret _) => apply (respects_ret R R_refl)
  | |- respects _ (throw _) => apply (respects_throw R R_refl)
  | |- respects _ (gets _) => apply (respects_gets R R_refl)
  | |- respects _ Date_now => apply R_clock
  | |- respects _ (platform_call _) => apply R_call
  | |- respects _ (getRdbStore _) => apply R_open
  | |- respects _ (getPreferences _) => apply R_pref_open
  | |- respects _ (modify (set_memos _)) => apply (respects_modify R); apply R_memos
  | |- respects _ (modify (set_isLoading _)) => apply (respects_modify R); apply R_loading
  | |- respects _ (modify (set_searchKeyword _)) =>
      apply (respects_modify R); apply R_keyword
  | |- respects _ (modify (set_currentMemo _)) =>
      apply (respects_modify R); apply R_current
  | |- respects _ (modify (set_fontSizes _ _)) => apply (respects_modify R); apply R_fonts
  | |- respects _ (alter_result_set _ _) => apply (respects_modify R); intros ?; apply R_sets
  | |- respects _ (move_to _ _) => apply (respects_modify R); intros ?; apply R_sets
  | |- respects _ (on_result_set _ _ _) => apply frame_on_result_set; intros ?
  | |- respects _ (bind _ _) => apply (respects_bind R R_trans); [|intros ?]
  | |- respects _ (try_catch _ _) => apply (respects_try_catch R R_trans); [|intros ?]
  | |- respects _ (try_finally _ _) => apply (respects_try_finally R R_trans)
  | |- respects _ (match ?x with _ => _ end) => destruct x
  end.

Lemma frame_rs_goToFirstRow (rs : ResultSetRef) : respects R (rs_goToFirstRow rs).
Proof. unfold rs_goToFirstRow. repeat frame_step. Qed.

Lemma frame_rs_goToNextRow (rs : ResultSetRef) : respects R (rs_goToNextRow rs).
Proof. unfold rs_goToNextRow. repeat frame_step. Qed.

Lemma frame_rs_close (rs : ResultSetRef) : respects R (rs_close rs).
Proof. unfold rs_close. repeat frame_step. Qed.

Lemma frame_read_row (rs : ResultSetRef) : respects R (read_row rs).
Proof.
  unfold read_row, rs_getColumnIndex, rs_getLong, rs_getString, new_Memo.
  repeat frame_step.
Qed.

Lemma frame_read_single (rs : ResultSetRef) : respects R (read_single rs).
Proof.
  unfold read_single, rs_rowCount, rs_getColumnIndex, rs_getLong, rs_getString,
    new_Memo.
  apply (respects_bind R R_trans); [frame_step|intros n].
  apply (respects_bind R R_trans);
    [destruct (0 <? n); [apply frame_rs_goToFirstRow|frame_step]
    |intros [|]; repeat frame_step].
Qed.

Lemma frame_parse_rows (rs : ResultSetRef) (fuel : nat) :
  forall (memos : list Memo) (w : World), R w (snd (parse_rows fuel rs memos w)).
Proof.
  induction fuel as [|fuel IH]; intros memos w; cbn [parse_rows]; [apply R_refl|].
  pose proof (frame_read_row rs w) as H1.
  destruct (read_row rs w) as [[memo|e] w1]; cbn [snd] in *; [|exact H1].
  pose proof (frame_rs_goToNextRow rs w1) as H2.
  destruct (rs_goToNextRow rs w1) as [[[|]|e] w2]; cbn [snd] in *.
  - eapply R_trans; [exact H1|]. eapply R_trans; [exact H2|apply IH].
  - eapply R_trans; eauto.
  - eapply R_trans; eauto.
Qed.

Lemma frame_parseResultSet (resultSet : option ResultSetRef) :
  respects R (parseResultSet resultSet).
Proof.
  destruct resultSet as [rs|]; [|apply (respects_ret R R_refl)].
  intros w. unfold parseResultSet.
  assert (Htry : R w (snd (parse_try rs w))).
  { unfold parse_try, rs_rowCount, gets.
    destruct (_ =? 0); [apply R_refl|].
    pose proof (frame_rs_goToFirstRow rs w) as H1.
    destruct (rs_goToFirstRow rs w) as [[[|]|e] w1]; cbn [snd] in *; try exact H1.
    eapply R_trans; [exact H1|apply frame_parse_rows]. }
  destruct (parse_try rs w) as [[memos res] w1]. cbn [snd] in Htry.
  pose proof (respects_try_catch R R_trans (rs_close rs)
                (fun closeError => ret tt) (frame_rs_close rs)
                (fun e => respects_ret R R_refl tt) w1) as Hclose.
  destruct (try_catch (rs_close rs) _ w1) as [u w2]. cbn [snd] in *.
  eapply R_trans; eauto.
Qed.

Lemma frame_store_query (store : RdbStore) (p : RdbPredicates) (columns : list string) :
  respects R (store_query store p columns).
Proof.
  unfold store_query. apply (respects_bind R R_trans); [apply R_call|intros _].
  intros w. destruct (table_exists _); [apply R_sets|apply R_refl].
Qed.

Ltac frame_query :=
  lazymatch goal with
  | |- respects _ (store_query _ _ _) => apply frame_store_query
  | |- respects _ (parseResultSet _) => apply frame_parseResultSet
  | |- respects _ (read_single _) => apply frame_read_single
  | |- respects _ (rs_close _) => apply frame_rs_close
  | |- _ => frame_step
  end.

Lemma frame_queryAllMemos (ctx : Context) : respects R (queryAllMemos ctx).
Proof. unfold queryAllMemos. repeat frame_query. Qed.

Lemma frame_queryMemosByTitle (ctx : Context) (keyword : string) :
  respects R (queryMemosByTitle ctx keyword).
Proof.
  unfold queryMemosByTitle. destruct (truthy keyword); cbn [negb];
    [|apply frame_queryAllMemos].
  repeat frame_query.
Qed.

Lemma frame_queryMemoById (ctx : Context) (i : Z) : respects R (queryMemoById ctx i).
Proof.
  unfold queryMemoById. repeat frame_query.
Qed.

(** *** The writes *)

Lemma frame_addMemo (ctx : Context) (memo : Memo) : respects R (addMemo ctx memo).
Proof.
  unfold addMemo, store_insert.
  apply (respects_bind R R_trans); [apply R_open|intros store].
  apply (respects_try_catch R R_trans); [|intros e; frame_step].
  apply (respects_bind R R_trans); [|intros rowId; frame_step].
  apply (respects_bind R R_trans); [apply R_call|intros _].
  intros w.
  repeat match goal with
         | |- context [match ?x with _ => _ end] => destruct x
         end; first [apply R_db|apply R_refl].
Qed.

Lemma frame_updateMemo (ctx : Context) (memo : Memo) : respects R (updateMemo ctx memo).
Proof.
  unfold updateMemo, store_update. destruct (id memo) as [i|]; [|frame_step].
  apply (respects_bind R R_trans); [apply R_open|intros store].
  apply (respects_bind R R_trans); [apply R_clock|intros t].
  apply (respects_try_catch R R_trans); [|intros e; frame_step].
  apply (respects_bind R R_trans); [|intros n; frame_step].
  apply (respects_bind R R_trans); [apply R_call|intros _].
  intros w.
  repeat match goal with
         | |- context [if ?x then _ else _] => destruct x
         end; first [apply R_db|apply R_refl].
Qed.

Lemma frame_deleteMemo (ctx : Context) (i : Z) : respects R (deleteMemo ctx i).
Proof.
  unfold deleteMemo, store_delete.
  apply (respects_bind R R_trans); [apply R_open|intros store].
  apply (respects_try_catch R R_trans); [|intros e; frame_step].
  apply (respects_bind R R_trans); [|intros n; frame_step].
  apply (respects_bind R R_trans); [apply R_call|intros _].
  intros w.
  repeat match goal with
         | |- context [if ?x then _ else _] => destruct x
         end; first [apply R_db|apply R_refl].
Qed.

(** *** The preference helper *)

Lemma frame_loadFontSizes (ctx : Context) : respects R (loadFontSizes ctx).
Proof. unfold loadFontSizes, prefs_get. repeat frame_step. Qed.

Lemma frame_saveFontSizes (ctx : Context) (t c : Z) :
  respects R (saveFontSizes ctx t c).
Proof.
  unfold saveFontSizes, prefs_put, prefs_flush.
  repeat lazymatch goal with
         | |- respects _ (modify _) => apply (respects_modify R); intros ?; apply R_prefs
         | |- _ => frame_step
         end.
Qed.

(** *** The view model *)

Ltac frame_dao :=
  lazymatch goal with
  | |- respects _ (queryMemosByTitle _ _) => apply frame_queryMemosByTitle
  | |- respects _ (queryMemoById _ _) => apply frame_queryMemoById
  | |- respects _ (addMemo _ _) => apply frame_addMemo
  | |- respects _ (updateMemo _ _) => apply frame_updateMemo
  | |- respects _ (deleteMemo _ _) => apply frame_deleteMemo
  | |- respects _ (loadFontSizes _) => apply frame_loadFontSizes
  | |- respects _ (saveFontSizes _ _ _) => apply frame_saveFontSizes
  | |- _ => frame_step
  end.

Lemma frame_searchMemos (keyword : string) :
  respects R (MemoViewModel.searchMemos keyword).
Proof.
  unfold MemoViewModel.searchMemos.
  repeat frame_dao.
Qed.

Lemma frame_vm_loadFontSizes : respects R MemoViewModel.loadFontSizes.
Proof.
  unfold MemoViewModel.loadFontSizes.
  repeat frame_dao.
Qed.

Lemma frame_vm_saveFontSizes : respects R MemoViewModel.saveFontSizes.
Proof.
  unfold MemoViewModel.saveFontSizes.
  repeat frame_dao.
Qed.

Ltac frame_vm :=
  lazymatch goal with
  | |- respects _ (MemoViewModel.searchMemos _) => apply frame_searchMemos
  | |- respects _ MemoViewModel.loadFontSizes => apply frame_vm_loadFontSizes
  | |- _ => frame_dao
  end.

Lemma frame_loadInitialData : respects R MemoViewModel.loadInitialData.
Proof. unfold MemoViewModel.loadInitialData. repeat frame_vm. Qed.

Lemma frame_loadMemoById (i : Z) : respects R (MemoViewModel.loadMemoById i).
Proof.
  unfold MemoViewModel.loadMemoById.
  repeat frame_vm.
Qed.

Lemma frame_saveCurrentMemo (t c : string) :
  respects R (MemoViewModel.saveCurrentMemo t c).
Proof.
  unfold MemoViewModel.saveCurrentMemo, MemoViewModel.save_update,
    MemoViewModel.save_add, new_Memo.
  repeat frame_vm.
Qed.

Lemma frame_vm_deleteMemo (i : Z) : respects R (MemoViewModel.deleteMemo i).
Proof.
  unfold MemoViewModel.deleteMemo.
  repeat frame_vm.
Qed.

End Frame.

(** ** A platform that has stopped faulting *)

Lemma quiet_kept_refl (w : World) : quiet_kept w w.
Proof. intros H. exact H. Qed.

Lemma quiet_kept_trans (w1 w2 w3 : World) :
  quiet_kept w1 w2 -> quiet_kept w2 w3 -> quiet_kept w1 w3.
Proof. unfold quiet_kept. auto. Qed.

Lemma quiet_kept_call (call : string) : respects quiet_kept (platform_call call).
Proof. intros w H. rewrite (platform_call_quiet call w H). exact H. Qed.

Lemma quiet_kept_clock : respects quiet_kept Date_now.
Proof. intros w H. exact H. Qed.

Lemma quiet_kept_open (ctx : Context) : respects quiet_kept (getRdbStore ctx).
Proof.
  intros w H. rewrite (getRdbStore_quiet ctx w H). apply after_open_quiet, H.
Qed.

Lemma getPreferences_quiet (ctx : Context) (w : World) :
  faults w = [] ->
  getPreferences ctx w =
    (Ok (default O (prefInstance (after_pref_open w))), after_pref_open w).
Proof.
  intros Hq. unfold getPreferences, after_pref_open.
  change (bind (gets prefInstance) ?k w) with (k (prefInstance w) w).
  destruct (prefInstance w) as [h|] eqn:Eh.
  - rewrite Eh. reflexivity.
  - unfold try_catch, preferences_getPreferences, pref_open_begin, pref_open_complete,
      bind, modify, gets, ret.
    match goal with |- context [platform_call ?c ?w0] =>
      rewrite (platform_call_quiet c w0 Hq) end.
    cbn. destruct (pref_cache w) eqn:Ec; destruct w; cbn in *; subst; reflexivity.
Qed.

Lemma after_pref_open_quiet (w : World) :
  faults w = [] -> faults (after_pref_open w) = [].
Proof. unfold after_pref_open. intros H. destruct (prefInstance w); exact H. Qed.

Lemma quiet_kept_pref_open (ctx : Context) : respects quiet_kept (getPreferences ctx).
Proof.
  intros w H. rewrite (getPreferences_quiet ctx w H). apply after_pref_open_quiet, H.
Qed.

Ltac quiet_frame lemma :=
  apply (lemma quiet_kept);
  first [ exact quiet_kept_refl | exact quiet_kept_trans | exact quiet_kept_call
        | exact quiet_kept_clock | exact quiet_kept_open | exact quiet_kept_pref_open
        | intros; intros ?; assumption ].

(** ** What is persisted *)

Lemma persisted_same_refl (w : World) : persisted_same w w.
Proof. split; reflexivity. Qed.

Lemma persisted_same_trans (w1 w2 w3 : World) :
  persisted_same w1 w2 -> persisted_same w2 w3 -> persisted_same w1 w3.
Proof. unfold persisted_same. intros [a b] [c d]. split; congruence. Qed.

Lemma persisted_same_open (ctx : Context) : respects persisted_same (getRdbStore ctx).
Proof.
  intros w.
  destruct (getRdbStore_cases ctx w) as [(_ & e & s & E)|(_ & s & E)]; rewrite E;
    (split; [|unfold after_open; destruct (rdbStore w); [reflexivity|];
              destruct (db_created w); reflexivity]).
  - reflexivity.
  - cbn [snd]. unfold visible_rows at 1.
    change (rdbStore (set_faults s (after_open w))) with (rdbStore (after_open w)).
    rewrite after_open_handle.
    change (db_rows (set_faults s (after_open w))) with (db_rows (after_open w)).
    apply after_open_rows.
Qed.

Lemma pref_disk_pref_open (ctx : Context) : respects (same pref_disk) (getPreferences ctx).
Proof.
  unfold getPreferences, preferences_getPreferences, pref_open_begin,
    pref_open_complete.
  repeat lazymatch goal with
         | |- respects _ (ret _) => apply (respects_ret _ (same_refl pref_disk))
         | |- respects _ (throw _) => apply (respects_throw _ (same_refl pref_disk))
         | |- respects _ (gets _) => apply (respects_gets _ (same_refl pref_disk))
         | |- respects _ (modify _) =>
             apply respects_modify; intros w;
             repeat match goal with
                    | |- context [match ?x with _ => _ end] => destruct x
                    end; reflexivity
         | |- respects _ (platform_call _) =>
             apply respects_platform_call; intros; reflexivity
         | |- respects _ (bind _ _) =>
             apply (respects_bind _ (same_trans pref_disk)); [|intros ?]
         | |- respects _ (try_catch _ _) =>
             apply (respects_try_catch _ (same_trans pref_disk)); [|intros ?]
         | |- respects _ (match ?x with _ => _ end) => destruct x
         end.
Qed.

Lemma visible_rows_pref_open (ctx : Context) :
  respects (same visible_rows) (getPreferences ctx).
Proof.
  unfold getPreferences, preferences_getPreferences, pref_open_begin,
    pref_open_complete.
  repeat lazymatch goal with
         | |- respects _ (ret _) => apply (respects_ret _ (same_refl visible_rows))
         | |- respects _ (throw _) => apply (respects_throw _ (same_refl visible_rows))
         | |- respects _ (gets _) => apply (respects_gets _ (same_refl visible_rows))
         | |- respects _ (modify _) =>
             apply respects_modify; intros w;
             repeat match goal with
                    | |- context [match ?x with _ => _ end] => destruct x
                    end; reflexivity
         | |- respects _ (platform_call _) =>
             apply respects_platform_call; intros; reflexivity
         | |- respects _ (bind _ _) =>
             apply (respects_bind _ (same_trans visible_rows)); [|intros ?]
         | |- respects _ (try_catch _ _) =>
             apply (respects_try_catch _ (same_trans visible_rows)); [|intros ?]
         | |- respects _ (match ?x with _ => _ end) => destruct x
         end.
Qed.

Lemma persisted_same_pref_open (ctx : Context) :
  respects persisted_same (getPreferences ctx).
Proof.
  intros w. split; [apply visible_rows_pref_open|apply pref_disk_pref_open].
Qed.

Ltac persisted_frame lemma :=
  apply (lemma persisted_same);
  first [ exact persisted_same_refl | exact persisted_same_trans
        | exact persisted_same_open | exact persisted_same_pref_open
        | intros; apply respects_platform_call; intros; split; reflexivity
        | apply respects_Date_now; intros; split; reflexivity
        | intros; split; reflexivity ].

(** X4.  The queries of the repository, the load of the font sizes, and the
    operations of the view model built on them write nothing: under any
    schedule of faults the rows of the store and the preference file are
    afterwards what they were. *)
Theorem reads_write_nothing (ctx : Context) (keyword : string) (i : Z) :
  respects persisted_same (queryAllMemos ctx) /\
  respects persisted_same (queryMemosByTitle ctx keyword) /\
  respects persisted_same (queryMemoById ctx i) /\
  respects persisted_same (loadFontSizes ctx) /\
  respects persisted_same (MemoViewModel.searchMemos keyword) /\
  respects persisted_same (MemoViewModel.loadMemoById i) /\
  respects persisted_same MemoViewModel.loadFontSizes /\
  respects persisted_same MemoViewModel.loadInitialData.
Proof.
  split; [persisted_frame @frame_queryAllMemos|].
  split; [persisted_frame @frame_queryMemosByTitle|].
  split; [persisted_frame @frame_queryMemoById|].
  split; [persisted_frame @frame_loadFontSizes|].
  split; [persisted_frame @frame_searchMemos|].
  split; [persisted_frame @frame_loadMemoById|].
  split; [persisted_frame @frame_vm_loadFontSizes|].
  persisted_frame @frame_loadInitialData.
Qed.

(* ===================================================================== *)
(** * Deleting a note *)
(* ===================================================================== *)

Lemma selects_id (i : Z) (r : Row) :
  selects (equalTo "id" (VInt i) (new_RdbPredicates TABLE_NAME)) r = (r_id r =? i).
Proof. unfold selects. cbn. apply andb_true_r. Qed.

Lemma deleteMemo_quiet (ctx : Context) (i : Z) (w : World) :
  faults w = [] ->
  deleteMemo ctx i w =
    (Ok (Z.of_nat (length (List.filter (fun r => r_id r =? i) (visible_rows w)))),
     set_db (db_created (after_open w))
       (List.filter (fun r => negb (r_id r =? i)) (visible_rows w))
       (db_seq (after_open w)) (db_opens (after_open w)) (after_open w)).
Proof.
  intros Hq. unfold deleteMemo.
  rewrite (bind_eq _ _ _ _ _ (getRdbStore_quiet ctx w Hq)).
  unfold try_catch, store_delete, bind.
  rewrite (platform_call_quiet _ _ (after_open_quiet w Hq)).
  cbn [table_exists p_table equalTo new_RdbPredicates TABLE_NAME String.eqb Ascii.eqb
       Bool.eqb ret].
  rewrite after_open_rows.
  rewrite (List.filter_ext _ _ (selects_id i)).
  rewrite (List.filter_ext (fun r => negb (selects _ r)) (fun r => negb (r_id r =? i)))
    by (intros r; rewrite selects_id; reflexivity).
  reflexivity.
Qed.

Lemma visible_rows_handle (w : World) (h : RdbStore) :
  rdbStore w = Some h -> visible_rows w = db_rows w.
Proof. intros H. unfold visible_rows. rewrite H. reflexivity. Qed.

Lemma filter_filter_other (i j : Z) (rows : list Row) :
  j <> i ->
  List.filter (fun r => r_id r =? j) (List.filter (fun r => negb (r_id r =? i)) rows)
  = List.filter (fun r => r_id r =? j) rows.
Proof.
  intros Hne. induction rows as [|r rows IH]; [reflexivity|]. cbn.
  destruct (r_id r =? i) eqn:Ei; cbn.
  - apply Z.eqb_eq in Ei. destruct (r_id r =? j) eqn:Ej; [|exact IH].
    apply Z.eqb_eq in Ej. congruence.
  - rewrite IH. reflexivity.
Qed.

Lemma filter_filter_self (i : Z) (rows : list Row) :
  List.filter (fun r => r_id r =? i) (List.filter (fun r => negb (r_id r =? i)) rows) = [].
Proof.
  induction rows as [|r rows IH]; [reflexivity|]. cbn.
  destruct (r_id r =? i) eqn:Ei; cbn; [exact IH|]. rewrite Ei. exact IH.
Qed.

Lemma length_filter_id (i : Z) (rows : list Row) :
  NoDup (map r_id rows) ->
  Z.of_nat (length (List.filter (fun r => r_id r =? i) rows)) =
    if existsb (fun r => r_id r =? i) rows then 1 else 0.
Proof.
  intros Hnd. pose proof (filter_id_unique i rows Hnd) as Hle.
  destruct (existsb _ rows) eqn:Ex.
  - apply existsb_exists in Ex as (r & Hin & Hr).
    assert (In r (List.filter (fun r => r_id r =? i) rows))
      by (apply List.filter_In; auto).
    destruct (List.filter _ rows); [contradiction|]. cbn [length] in *. lia.
  - destruct (List.filter _ rows) as [|r l] eqn:Ef; [reflexivity|].
    assert (Hin : In r (List.filter (fun r => r_id r =? i) rows))
      by (rewrite Ef; left; reflexivity).
    apply List.filter_In in Hin as [Hin Hr].
    assert (existsb (fun r => r_id r =? i) rows = true)
      by (apply existsb_exists; eauto).
    congruence.
Qed.

(** X1.  When the platform does not fault, [deleteMemo] removes the row with
    the given id and nothing else, and returns 1 when there was such a row
    and 0 when there was none.  Afterwards [queryMemoById] finds no note
    under that id, and what it finds under any other id is what it found
    before. *)
Theorem delete_removes_the_note (ctx : Context) (i : Z) (w : World)
    (Hquiet : faults w = [])
    (Hinv : store_inv w) :
  exists w',
    deleteMemo ctx i w =
      (Ok (if existsb (fun r => r_id r =? i) (db_rows w) then 1 else 0), w') /\
    db_rows w' = List.filter (fun r => negb (r_id r =? i)) (db_rows w) /\
    fst (queryMemoById ctx i w') = Ok None /\
    forall j, j <> i -> fst (queryMemoById ctx j w') = fst (queryMemoById ctx j w).
Proof.
  rewrite <- (visible_rows_inv w Hinv).
  eexists. split; [|split; [|split]].
  - rewrite (deleteMemo_quiet ctx i w Hquiet).
    rewrite length_filter_id; [reflexivity|].
    rewrite (visible_rows_inv w Hinv). apply Hinv.
  - reflexivity.
  - rewrite queryMemoById_quiet by (apply after_open_quiet, Hquiet).
    erewrite visible_rows_handle by (cbn; apply after_open_handle).
    cbn [db_rows set_db]. rewrite filter_filter_self. reflexivity.
  - intros j Hj.
    rewrite queryMemoById_quiet by (apply after_open_quiet, Hquiet).
    rewrite (queryMemoById_quiet ctx j w Hquiet).
    erewrite visible_rows_handle by (cbn; apply after_open_handle).
    cbn [db_rows set_db]. rewrite (filter_filter_other i j _ Hj). reflexivity.
Qed.

Lemma delete_removes_the_note_witness :
  faults three_notes = [] /\
  store_inv three_notes /\
  exists w',
    deleteMemo 1%nat 2 three_notes =
      (Ok (if existsb (fun r => r_id r =? 2) (db_rows three_notes) then 1 else 0), w') /\
    db_rows w' = List.filter (fun r => negb (r_id r =? 2)) (db_rows three_notes) /\
    fst (queryMemoById 1%nat 2 w') = Ok None /\
    forall j, j <> 2 ->
      fst (queryMemoById 1%nat j w') = fst (queryMemoById 1%nat j three_notes).
Proof.
  split; [rewrite three_notes_eq; reflexivity|].
  split; [exact three_notes_inv|].
  apply (delete_removes_the_note 1%nat 2 three_notes).
  - rewrite three_notes_eq; reflexivity.
  - exact three_notes_inv.
Defined.

(* ===================================================================== *)
(** * The list on display *)
(* ===================================================================== *)

Lemma queryMemosByTitle_listing (ctx : Context) (keyword : string) (w : World) :
  faults w = [] -> fst (queryMemosByTitle ctx keyword w) = Ok (listing keyword w).
Proof.
  intros Hq. unfold listing. destruct (truthy keyword) eqn:Ek.
  - apply queryMemosByTitle_quiet; assumption.
  - unfold queryMemosByTitle. rewrite Ek. cbn [negb].
    apply queryAllMemos_quiet, Hq.
Qed.

Lemma listing_same (keyword : string) (w w' : World) :
  visible_rows w' = visible_rows w -> listing keyword w' = listing keyword w.
Proof. intros H. unfold listing. rewrite H. reflexivity. Qed.

(** What a search leaves behind when the platform does not fault. *)
Lemma searchMemos_quiet_world (ctx : Context) (keyword : string) (w : World) :
  faults w = [] -> context w = Some ctx ->
  snd (MemoViewModel.searchMemos keyword w) =
    set_isLoading false
      (set_memos (listing (trim keyword) w)
         (snd (queryMemosByTitle ctx (trim keyword)
                 (set_searchKeyword (trim keyword) (set_isLoading true w))))).
Proof.
  intros Hq Hctx. unfold MemoViewModel.searchMemos.
  rewrite (bound_operation _ _ w ctx Hctx).
  unfold bind at 1. cbn [modify]. unfold bind at 1. cbn [modify].
  set (w1 := set_searchKeyword (trim keyword) (set_isLoading true w)).
  rewrite try_finally_state.
  unfold try_catch. unfold bind at 1. cbn [gets].
  change (searchKeyword w1) with (trim keyword).
  pose proof (queryMemosByTitle_listing ctx (trim keyword) w1 Hq) as Hres.
  unfold bind.
  destruct (queryMemosByTitle ctx (trim keyword) w1) as [r w2].
  cbn [fst snd] in *. subst r. reflexivity.
Qed.

Lemma searchMemos_quiet (ctx : Context) (keyword : string) (w : World) :
  faults w = [] -> context w = Some ctx ->
  let w' := snd (MemoViewModel.searchMemos keyword w) in
  memos w' = listing (trim keyword) w /\
  searchKeyword w' = trim keyword /\
  visible_rows w' = visible_rows w /\
  faults w' = [].
Proof.
  intros Hq Hctx. cbn zeta. rewrite (searchMemos_quiet_world ctx keyword w Hq Hctx).
  set (w1 := set_searchKeyword (trim keyword) (set_isLoading true w)).
  assert (Hvm : vm_same w1 (snd (queryMemosByTitle ctx (trim keyword) w1)))
    by apply queryMemosByTitle_vm.
  assert (Hp : persisted_same w1 (snd (queryMemosByTitle ctx (trim keyword) w1)))
    by (persisted_frame @frame_queryMemosByTitle).
  assert (Hk : quiet_kept w1 (snd (queryMemosByTitle ctx (trim keyword) w1)))
    by (quiet_frame @frame_queryMemosByTitle).
  destruct Hvm as (_ & _ & _ & _ & Hkw & _). destruct Hp as [Hrows _].
  split; [reflexivity|]. split; [exact Hkw|]. split; [exact Hrows|apply Hk, Hq].
Qed.

Lemma list_current_after_search (ctx : Context) (keyword : string) (w : World) :
  faults w = [] -> context w = Some ctx ->
  list_current (snd (MemoViewModel.searchMemos keyword w)).
Proof.
  intros Hq Hctx.
  destruct (searchMemos_quiet ctx keyword w Hq Hctx) as (Hm & Hk & Hr & _).
  unfold list_current. rewrite Hm, Hk. symmetry. apply listing_same, Hr.
Qed.

Lemma updateMemo_quiet (ctx : Context) (memo : Memo) (i : Z) (w : World) :
  faults w = [] -> id memo = Some i ->
  updateMemo ctx memo w =
    (Ok (Z.of_nat (length (List.filter (fun r => r_id r =? i) (visible_rows w)))),
     set_db (db_created (after_open w))
       (map (fun r =>
               if r_id r =? i
               then mkRow (r_id r) (title memo) (content memo) (r_created_date r)
                      (now w + hd 0 (clock_steps w))
               else r) (visible_rows w))
       (db_seq (after_open w)) (db_opens (after_open w))
       (snd (Date_now (after_open w)))).
Proof.
  intros Hq Hid. unfold updateMemo. rewrite Hid.
  rewrite (bind_eq _ _ _ _ _ (getRdbStore_quiet ctx w Hq)).
  unfold bind at 1, Date_now. cbn zeta.
  unfold try_catch, store_update.
  match goal with |- context [bind _ _ ?w0] =>
    rewrite (bind_eq _ _ _ _ _
               (bind_eq _ _ _ _ _
                  (platform_call_quiet "RdbStore.update" w0 (after_open_quiet w Hq))))
  end.
  cbn [table_exists p_table equalTo new_RdbPredicates TABLE_NAME String.eqb
       Ascii.eqb Bool.eqb andb forallb column_accepts orb ret fst].
  destruct (after_open_clock w) as [Hnow0 Hsteps0].
  f_equal.
  - f_equal. world_simpl. rewrite after_open_rows.
    rewrite (List.filter_ext _ _ (selects_id i)). reflexivity.
  - world_simpl. rewrite after_open_rows, Hnow0, Hsteps0. f_equal.
    apply map_ext. intros r. rewrite selects_id.
    destruct (r_id r =? i); reflexivity.
Qed.

Lemma list_current_loading (x : bool) (w : World) :
  list_current w -> list_current (set_isLoading x w).
Proof. intros H. exact H. Qed.

Lemma vm_deleteMemo_quiet_world (ctx : Context) (i : Z) (w : World) :
  faults w = [] -> context w = Some ctx ->
  snd (MemoViewModel.deleteMemo i w) =
    set_isLoading false
      (let w1 := snd (deleteMemo ctx i (set_isLoading true w)) in
       if existsb (fun r => r_id r =? i) (visible_rows w)
       then snd (MemoViewModel.searchMemos (searchKeyword w1) w1)
       else w1).
Proof.
  intros Hq Hctx. unfold MemoViewModel.deleteMemo.
  rewrite (bound_operation _ _ w ctx Hctx).
  unfold bind at 1. cbn [modify].
  set (w0 := set_isLoading true w).
  rewrite try_finally_state. f_equal.
  unfold try_catch. unfold bind at 1.
  rewrite (deleteMemo_quiet ctx i w0 Hq). cbn [snd].
  change (visible_rows w0) with (visible_rows w).
  destruct (existsb _ (visible_rows w)) eqn:Ex.
  - apply existsb_exists in Ex as (r & Hin & Hr).
    assert (Hmem : In r (List.filter (fun r => r_id r =? i) (visible_rows w)))
      by (apply List.filter_In; auto).
    destruct (List.filter (fun r => r_id r =? i) (visible_rows w)) as [|x l];
      [contradiction|].
    replace (0 <? Z.of_nat (length (x :: l))) with true
      by (symmetry; apply Z.ltb_lt; cbn [length]; lia).
    unfold bind at 1. cbn [gets].
    match goal with |- context [MemoViewModel.searchMemos ?k ?w1] =>
      destruct (searchMemos_never_raises k w1) as [u Hu];
      destruct (MemoViewModel.searchMemos k w1) as [r1 w2]; cbn [fst] in Hu; subst r1
    end.
    reflexivity.
  - destruct (List.filter (fun r => r_id r =? i) (visible_rows w)) as [|x l] eqn:Ef;
      [reflexivity|].
    assert (Hmem : In x (List.filter (fun r => r_id r =? i) (visible_rows w)))
      by (rewrite Ef; left; reflexivity).
    apply List.filter_In in Hmem as [Hin Hx].
    assert (existsb (fun r => r_id r =? i) (visible_rows w) = true)
      by (apply existsb_exists; eauto).
    congruence.
Qed.

Lemma filter_absent (i : Z) (rows : list Row) :
  existsb (fun r => r_id r =? i) rows = false ->
  List.filter (fun r => negb (r_id r =? i)) rows = rows.
Proof.
  induction rows as [|r rows IH]; [reflexivity|]. cbn.
  intros H. apply orb_false_iff in H as [H1 H2]. rewrite H1. cbn.
  rewrite IH; auto.
Qed.

Lemma list_current_after_delete (ctx : Context) (i : Z) (w : World) :
  faults w = [] -> context w = Some ctx ->
  list_current w -> list_current (snd (MemoViewModel.deleteMemo i w)).
Proof.
  intros Hq Hctx Hcur.
  rewrite (vm_deleteMemo_quiet_world ctx i w Hq Hctx).
  apply list_current_loading. cbn zeta.
  set (w0 := set_isLoading true w).
  assert (Hvm : vm_same w0 (snd (deleteMemo ctx i w0))) by apply deleteMemo_vm.
  assert (Hk : quiet_kept w0 (snd (deleteMemo ctx i w0)))
    by (quiet_frame @frame_deleteMemo).
  destruct (existsb _ (visible_rows w)) eqn:Ex.
  - apply (list_current_after_search ctx).
    + apply Hk, Hq.
    + destruct Hvm as (_ & _ & _ & _ & _ & _ & Hc). rewrite Hc. exact Hctx.
  - destruct Hvm as (Hm & _ & _ & _ & Hkw & _).
    unfold list_current. rewrite Hm, Hkw.
    change (memos w0) with (memos w). change (searchKeyword w0) with (searchKeyword w).
    rewrite Hcur. symmetry. apply listing_same.
    rewrite (deleteMemo_quiet ctx i w0 Hq). cbn [snd].
    erewrite visible_rows_handle by (cbn; apply after_open_handle).
    cbn [db_rows set_db]. apply filter_absent, Ex.
Qed.

(** [saveCurrentMemo], bound to a context: the note it writes, the world
    in which it writes it (the world it was called in but for the loading
    flag and the clock), and the way it settles. *)
Lemma saveCurrentMemo_writes (ctx : Context) (t c : string) (w : World) :
  context w = Some ctx ->
  exists memo tm steps,
    let w1 := set_clock tm steps (set_isLoading true w) in
    title memo = t /\ content memo = c /\
    keeps_inv w w1 /\
    id memo = match currentMemo w with Some m => id m | None => None end /\
    MemoViewModel.saveCurrentMemo t c w =
      match id memo with
      | Some _ => let '(r, w2) := updateMemo ctx memo w1 in settle_save r w2
      | None => let '(r, w2) := addMemo ctx memo w1 in settle_save r w2
      end.
Proof.
  intros Hctx. unfold MemoViewModel.saveCurrentMemo.
  rewrite (bound_operation _ _ w ctx Hctx).
  unfold bind at 1. cbn [modify].
  set (w0 := set_isLoading true w).
  assert (Hinv0 : keeps_inv w w0) by (apply store_inv_same; reflexivity).
  change (currentMemo w) with (currentMemo w0).
  destruct (currentMemo w0) as [m|] eqn:Ecur; [destruct (id m) as [i|] eqn:Eid|].
  - pose proof (save_update_eq ctx t c i (createdDate m) w0) as Hu. cbn zeta in Hu.
    exists (mkMemo (Some i) t c (createdDate m) (now w0 + hd 0 (clock_steps w0))).
    eexists _, _. cbn zeta. split; [reflexivity|]. split; [reflexivity|].
    split; [|split; [reflexivity|]].
    + eapply keeps_inv_trans; [exact Hinv0|].
      eapply keeps_inv_trans; [apply (Date_now_inv w0)|].
      apply (Date_now_inv (snd (Date_now w0))).
    + cbn [id].
      change (set_clock _ _ w0) with (snd (Date_now (snd (Date_now w0)))).
      destruct (updateMemo ctx _ _) as [r w2] eqn:Eu.
      apply save_settles. rewrite Ecur, Eid, Hu. destruct r; reflexivity.
  - pose proof (save_add_eq ctx t c w0) as Ha. cbn zeta in Ha.
    exists (mkMemo None t c (now w0 + hd 0 (clock_steps w0))
              (now w0 + hd 0 (clock_steps w0))).
    eexists _, _. cbn zeta. split; [reflexivity|]. split; [reflexivity|].
    split; [|split; [reflexivity|]].
    + eapply keeps_inv_trans; [exact Hinv0|]. apply (Date_now_inv w0).
    + cbn [id]. change (set_clock _ _ w0) with (snd (Date_now w0)).
      destruct (addMemo ctx _ _) as [r w2] eqn:Eu.
      apply save_settles. rewrite Ecur, Eid, Ha. destruct r; reflexivity.
  - pose proof (save_add_eq ctx t c w0) as Ha. cbn zeta in Ha.
    exists (mkMemo None t c (now w0 + hd 0 (clock_steps w0))
              (now w0 + hd 0 (clock_steps w0))).
    eexists _, _. cbn zeta. split; [reflexivity|]. split; [reflexivity|].
    split; [|split; [reflexivity|]].
    + eapply keeps_inv_trans; [exact Hinv0|]. apply (Date_now_inv w0).
    + cbn [id]. change (set_clock _ _ w0) with (snd (Date_now w0)).
      destruct (addMemo ctx _ _) as [r w2] eqn:Eu.
      apply save_settles. rewrite Ecur, Ha. destruct r; reflexivity.
Qed.

Lemma map_unselected (i : Z) (f : Row -> Row) (rows : list Row) :
  List.filter (fun r => r_id r =? i) rows = [] ->
  map (fun r => if r_id r =? i then f r else r) rows = rows.
Proof.
  induction rows as [|r rows IH]; [reflexivity|]. cbn.
  destruct (r_id r =? i); [discriminate|]. intros H. rewrite IH; auto.
Qed.

Lemma settle_save_world (r : Res Z) (w : World) :
  snd (settle_save r w) =
    set_isLoading false
      (if match r with Ok n => 0 <? n | Raise _ => false end
       then snd (MemoViewModel.searchMemos (searchKeyword w) w) else w).
Proof. reflexivity. Qed.

Lemma list_current_after_save (ctx : Context) (t c : string) (w : World) :
  faults w = [] -> context w = Some ctx -> store_inv w ->
  list_current w -> list_current (snd (MemoViewModel.saveCurrentMemo t c w)).
Proof.
  intros Hq Hctx Hinv Hcur.
  destruct (saveCurrentMemo_writes ctx t c w Hctx)
    as (memo & tm & steps & _ & _ & Hinv1 & _ & E).
  cbn zeta in *. rewrite E. clear E.
  set (w1 := set_clock tm steps (set_isLoading true w)) in *.
  assert (Hq1 : faults w1 = []) by exact Hq.
  assert (Hctx1 : context w1 = Some ctx) by exact Hctx.
  specialize (Hinv1 Hinv).
  destruct (id memo) as [i|] eqn:Eid.
  - pose proof (updateMemo_quiet ctx memo i w1 Hq1 Eid) as Eu.
    assert (Hvm : vm_same w1 (snd (updateMemo ctx memo w1))) by apply updateMemo_vm.
    assert (Hk : quiet_kept w1 (snd (updateMemo ctx memo w1)))
      by (quiet_frame @frame_updateMemo).
    destruct (updateMemo ctx memo w1) as [r w2]. cbn [snd] in Hvm, Hk.
    injection Eu as Er Ew. rewrite settle_save_world. apply list_current_loading.
    subst r. destruct (0 <? _) eqn:En.
    + apply (list_current_after_search ctx); [apply Hk, Hq1|].
      destruct Hvm as (_ & _ & _ & _ & _ & _ & Hc). rewrite Hc. exact Hctx1.
    + destruct Hvm as (Hm & _ & _ & _ & Hkw & _).
      unfold list_current. rewrite Hm, Hkw.
      change (memos w1) with (memos w). change (searchKeyword w1) with (searchKeyword w).
      rewrite Hcur. symmetry. apply listing_same.
      rewrite Ew.
      erewrite visible_rows_handle by (cbn; apply after_open_handle).
      cbn [db_rows set_db].
      change (visible_rows w1) with (visible_rows w).
      apply map_unselected.
      apply Z.ltb_ge in En.
      change (visible_rows w1) with (visible_rows w) in En.
      destruct (List.filter _ (visible_rows w)); [reflexivity|cbn [length] in En; lia].
  - pose proof (addMemo_quiet ctx memo w1 Hq1) as Ea.
    assert (Hvm : vm_same w1 (snd (addMemo ctx memo w1))) by apply addMemo_vm.
    assert (Hk : quiet_kept w1 (snd (addMemo ctx memo w1)))
      by (quiet_frame @frame_addMemo).
    destruct (addMemo ctx memo w1) as [r w2]. cbn [snd] in Hvm, Hk.
    injection Ea as Er Ew. rewrite settle_save_world. apply list_current_loading.
    subst r.
    pose proof (inv_seq _ (after_open_inv w1 Hinv1)) as Hseq.
    replace (0 <? db_seq (after_open w1) + 1) with true
      by (symmetry; apply Z.ltb_lt; lia).
    apply (list_current_after_search ctx); [apply Hk, Hq1|].
    destruct Hvm as (_ & _ & _ & _ & _ & _ & Hc). rewrite Hc. exact Hctx1.
Qed.

Lemma list_current_after_load (ctx : Context) (w : World) :
  faults w = [] -> context w = Some ctx ->
  list_current (snd (MemoViewModel.loadInitialData w)).
Proof.
  intros Hq Hctx. unfold MemoViewModel.loadInitialData.
  rewrite (bound_operation _ _ w ctx Hctx).
  unfold bind at 1. cbn [modify].
  set (w0 := set_isLoading true w).
  rewrite try_finally_state. apply list_current_loading.
  unfold try_catch. unfold bind at 1.
  assert (Hk : quiet_kept w0 (snd (MemoViewModel.loadFontSizes w0)))
    by (quiet_frame @frame_vm_loadFontSizes).
  assert (Hc : same context w0 (snd (MemoViewModel.loadFontSizes w0))).
  { apply (frame_vm_loadFontSizes (same context));
      first [ exact (same_refl context) | exact (same_trans context)
            | intros; apply respects_platform_call; intros; reflexivity
            | intros ctx0; apply (respects_impl vm_same);
                [intros ? ? Hvm; apply Hvm|apply getPreferences_vm]
            | intros; reflexivity ]. }
  destruct (MemoViewModel.loadFontSizes w0) as [[u|e] w1] eqn:El.
  - cbn [snd] in Hk, Hc. unfold bind at 1. cbn [gets].
    pose proof (list_current_after_search ctx (searchKeyword w1) w1 (Hk Hq)) as Hs.
    destruct (MemoViewModel.searchMemos (searchKeyword w1) w1) as [[u2|e2] w2];
      cbn [snd] in *; apply Hs; rewrite Hc; exact Hctx.
  - exfalso.
    assert (Hn : never_raises MemoViewModel.loadFontSizes w0).
    { unfold never_raises, MemoViewModel.loadFontSizes.
      rewrite (bound_operation _ _ w0 ctx Hctx).
      apply try_catch_never_raises. intros; apply ret_never_raises. }
    destruct Hn as [u Hu]. rewrite El in Hu. discriminate.
Qed.

(** X7.  When the platform does not fault, the list on display follows the
    store: after [searchMemos] and after [loadInitialData] the list is the
    listing of the store for the keyword on display, and [saveCurrentMemo]
    and [deleteMemo] leave it so, whether they changed the store (they then
    refresh the list) or not. *)
Theorem list_follows_store (ctx : Context) (w : World)
    (Hquiet : faults w = [])
    (Hbound : context w = Some ctx)
    (Hinv : store_inv w) :
  (forall keyword, list_current (snd (MemoViewModel.searchMemos keyword w))) /\
  list_current (snd (MemoViewModel.loadInitialData w)) /\
  (list_current w ->
   (forall t c, list_current (snd (MemoViewModel.saveCurrentMemo t c w))) /\
   (forall i, list_current (snd (MemoViewModel.deleteMemo i w)))).
Proof.
  split; [intros keyword; apply (list_current_after_search ctx); assumption|].
  split; [apply (list_current_after_load ctx); assumption|].
  intros Hcur. split.
  - intros t c. apply (list_current_after_save ctx); assumption.
  - intros i. apply (list_current_after_delete ctx); assumption.
Qed.

(* ===================================================================== *)
(** * The font sizes *)
(* ===================================================================== *)

Ltac field_frame lemma f :=
  apply (lemma (same f));
  first [ exact (same_refl f) | exact (same_trans f)
        | intros; apply respects_platform_call; intros; reflexivity
        | apply respects_Date_now; intros; reflexivity
        | intros; apply (respects_impl vm_same);
            [ intros ? ? Hvm; unfold same;
              destruct Hvm as (? & ? & ? & ? & ? & ? & ?); assumption
            | first [apply getRdbStore_vm | apply getPreferences_vm] ]
        | intros; reflexivity ].

Lemma pref_values_after_open (w : World) :
  pref_values (after_pref_open w) = pref_values w.
Proof.
  unfold after_pref_open, pref_values. destruct (prefInstance w); [reflexivity|].
  cbn. reflexivity.
Qed.

Lemma saveFontSizes_quiet (ctx : Context) (t c : Z) (w : World) :
  faults w = [] ->
  let m := <[KEY_CONTENT_FONT_SIZE := c]> (<[KEY_TITLE_FONT_SIZE := t]> (pref_values w)) in
  saveFontSizes ctx t c w =
    (Ok tt, set_prefs m (Some m) (pref_opens (after_pref_open w)) (after_pref_open w)).
Proof.
  intros Hq m. pose proof (after_pref_open_quiet w Hq) as Hq1.
  unfold saveFontSizes, try_catch, prefs_put, prefs_flush, bind.
  rewrite (getPreferences_quiet ctx w Hq).
  repeat (match goal with |- context [platform_call ?c ?w0] =>
            rewrite (platform_call_quiet c w0 Hq1) end;
          cbv beta iota; unfold modify at 1).
  subst m. rewrite <- (pref_values_after_open w). reflexivity.
Qed.

Lemma loadFontSizes_quiet (ctx : Context) (w : World) :
  faults w = [] ->
  loadFontSizes ctx w =
    (Ok (default DEFAULT_TITLE_FONT_SIZE (pref_values w !! KEY_TITLE_FONT_SIZE),
         default DEFAULT_CONTENT_FONT_SIZE (pref_values w !! KEY_CONTENT_FONT_SIZE)),
     after_pref_open w).
Proof.
  intros Hq. pose proof (after_pref_open_quiet w Hq) as Hq1.
  unfold loadFontSizes, try_catch, prefs_get, bind.
  rewrite (getPreferences_quiet ctx w Hq).
  repeat (match goal with |- context [platform_call ?c ?w0] =>
            rewrite (platform_call_quiet c w0 Hq1) end;
          cbv beta iota; unfold gets at 1).
  cbv beta iota. unfold ret. fold (pref_values (after_pref_open w)).
  rewrite pref_values_after_open. reflexivity.
Qed.

Lemma default_lookup_cases (m : gmap string Z) (k : string) (d : Z) :
  default d (m !! k) = d \/ m !! k = Some (default d (m !! k)).
Proof. destruct (m !! k); [right|left]; reflexivity. Qed.

(** X12.  [loadFontSizes] always returns a pair of sizes, each of them the size
    the preferences hold under its key or the default (18 for the title, 14
    for the content); when the platform does not fault a size is the
    default only if the preferences hold nothing under its key. *)
Theorem loadFontSizes_stored_or_default (ctx : Context) (w : World) :
  exists t c,
    fst (loadFontSizes ctx w) = Ok (t, c) /\
    (t = DEFAULT_TITLE_FONT_SIZE \/ pref_values w !! KEY_TITLE_FONT_SIZE = Some t) /\
    (c = DEFAULT_CONTENT_FONT_SIZE \/ pref_values w !! KEY_CONTENT_FONT_SIZE = Some c) /\
    (faults w = [] ->
     t = default DEFAULT_TITLE_FONT_SIZE (pref_values w !! KEY_TITLE_FONT_SIZE) /\
     c = default DEFAULT_CONTENT_FONT_SIZE (pref_values w !! KEY_CONTENT_FONT_SIZE)).
Proof.
  destruct (faults w) as [|n s] eqn:Ef.
  - rewrite (loadFontSizes_quiet ctx w Ef). eexists _, _.
    split; [reflexivity|].
    split; [apply default_lookup_cases|].
    split; [apply default_lookup_cases|]. intros _. split; reflexivity.
  - assert (Hquiet : forall t c : Z,
               faults w = [] ->
               t = default DEFAULT_TITLE_FONT_SIZE (pref_values w !! KEY_TITLE_FONT_SIZE) /\
               c = default DEFAULT_CONTENT_FONT_SIZE
                     (pref_values w !! KEY_CONTENT_FONT_SIZE))
      by (intros t c H; rewrite H in Ef; discriminate).
    rewrite <- Ef in *. clear Ef n s.
    destruct (getPreferences_cases ctx w) as [(Hf & _)|(_ & s & E)].
    + destruct (prefs_absorb_open_failure ctx 0 0 w Hf) as [_ H].
      exists DEFAULT_TITLE_FONT_SIZE, DEFAULT_CONTENT_FONT_SIZE.
      split; [exact H|]. split; [left; reflexivity|]. split; [left; reflexivity|].
      apply Hquiet.
    + unfold loadFontSizes, try_catch, prefs_get, bind. rewrite E.
      change (pref_disk (set_faults s (after_pref_open w)))
        with (pref_disk (after_pref_open w)).
      match goal with |- context [platform_call ?c ?w0] =>
        destruct (platform_call_cases c w0) as [(s1 & _ & Hc)|(s1 & _ & Hc)];
        rewrite Hc; cbv beta iota
      end.
      * exists DEFAULT_TITLE_FONT_SIZE, DEFAULT_CONTENT_FONT_SIZE.
        split; [reflexivity|]. split; [left; reflexivity|].
        split; [left; reflexivity|]. apply Hquiet.
      * unfold gets at 1. cbv beta iota.
        match goal with |- context [platform_call ?c ?w0] =>
          destruct (platform_call_cases c w0) as [(s2 & _ & Hc2)|(s2 & _ & Hc2)];
          rewrite Hc2; cbv beta iota
        end.
        -- eexists _, DEFAULT_CONTENT_FONT_SIZE.
           split; [reflexivity|].
           split; [|split; [left; reflexivity|apply Hquiet]].
           change (default (pref_disk _) (pref_cache _))
             with (pref_values (after_pref_open w)).
           rewrite pref_values_after_open. apply default_lookup_cases.
        -- eexists _, _. unfold gets, ret. cbv beta iota.
           split; [reflexivity|].
           change (default (pref_disk (set_faults s1 (set_faults s (after_pref_open w))))
                     (pref_cache (set_faults s1 (set_faults s (after_pref_open w)))))
             with (pref_values (after_pref_open w)).
           change (default (pref_disk (set_faults s2
                              (set_faults s1 (set_faults s (after_pref_open w)))))
                     (pref_cache (set_faults s2
                              (set_faults s1 (set_faults s (after_pref_open w))))))
             with (pref_values (after_pref_open w)).
           rewrite pref_values_after_open.
           split; [apply default_lookup_cases|].
           split; [apply default_lookup_cases|apply Hquiet].
Qed.

Lemma saveFontSizes_disk (ctx : Context) (t c : Z) (w : World) :
  exists w',
    saveFontSizes ctx t c w = (Ok tt, w') /\
    (pref_disk w' = pref_disk w \/
     (pref_disk w' !! KEY_TITLE_FONT_SIZE = Some t /\
      pref_disk w' !! KEY_CONTENT_FONT_SIZE = Some c)).
Proof.
  pose proof (pref_disk_pref_open ctx w) as Hopen.
  unfold saveFontSizes, try_catch, bind at 1.
  destruct (getPreferences ctx w) as [[prefs|e] w1]; cbn [snd] in Hopen;
    [|eexists; split; [reflexivity|left; exact Hopen]].
  unfold same in Hopen. rewrite <- Hopen.
  unfold prefs_put, prefs_flush, bind.
  destruct (platform_call_cases "Preferences.put" w1) as [(s1 & _ & Hc)|(s1 & _ & Hc)];
    rewrite Hc; cbv beta iota; [eexists; split; [reflexivity|left; reflexivity]|].
  unfold modify at 1. cbv beta iota.
  match goal with |- context [platform_call ?c ?w0] =>
    destruct (platform_call_cases c w0) as [(s2 & _ & Hc2)|(s2 & _ & Hc2)];
    rewrite Hc2; cbv beta iota; [eexists; split; [reflexivity|left; reflexivity]|]
  end.
  unfold modify at 1. cbv beta iota.
  match goal with |- context [platform_call ?c ?w0] =>
    destruct (platform_call_cases c w0) as [(s3 & _ & Hc3)|(s3 & _ & Hc3)];
    rewrite Hc3; cbv beta iota; [eexists; split; [reflexivity|left; reflexivity]|]
  end.
  eexists; split; [reflexivity|]. right. world_simpl. split.
  - rewrite lookup_insert_ne by discriminate. apply lookup_insert_eq.
  - apply lookup_insert_eq.
Qed.

(** X13.  Whatever the platform does, [saveFontSizes] leaves the preference
    file as it was or with both sizes written: it never persists one of
    the two sizes without the other. *)
Theorem saveFontSizes_all_or_nothing (ctx : Context) (t c : Z) (w : World) :
  pref_disk (snd (saveFontSizes ctx t c w)) = pref_disk w \/
  (pref_disk (snd (saveFontSizes ctx t c w)) !! KEY_TITLE_FONT_SIZE = Some t /\
   pref_disk (snd (saveFontSizes ctx t c w)) !! KEY_CONTENT_FONT_SIZE = Some c).
Proof.
  destruct (saveFontSizes_disk ctx t c w) as (w' & E & H). rewrite E. exact H.
Qed.

Lemma vm_saveFontSizes_quiet (ctx : Context) (w : World) :
  faults w = [] -> context w = Some ctx ->
  snd (MemoViewModel.saveFontSizes w) =
    snd (saveFontSizes ctx (titleFontSize w) (contentFontSize w) w).
Proof.
  intros Hq Hctx. unfold MemoViewModel.saveFontSizes.
  rewrite (bound_operation _ _ w ctx Hctx).
  unfold try_catch, bind, gets.
  rewrite (saveFontSizes_quiet ctx _ _ w Hq). reflexivity.
Qed.

Lemma vm_loadFontSizes_quiet (ctx : Context) (w : World) :
  faults w = [] -> context w = Some ctx ->
  MemoViewModel.loadFontSizes w =
    (Ok tt,
     set_fontSizes
       (default DEFAULT_TITLE_FONT_SIZE (pref_values w !! KEY_TITLE_FONT_SIZE))
       (default DEFAULT_CONTENT_FONT_SIZE (pref_values w !! KEY_CONTENT_FONT_SIZE))
       (after_pref_open w)).
Proof.
  intros Hq Hctx. unfold MemoViewModel.loadFontSizes.
  rewrite (bound_operation _ _ w ctx Hctx).
  unfold try_catch, bind.
  rewrite (loadFontSizes_quiet ctx w Hq). reflexivity.
Qed.

Lemma loadInitialData_fonts (ctx : Context) (w : World) :
  faults w = [] -> context w = Some ctx ->
  let w' := snd (MemoViewModel.loadInitialData w) in
  titleFontSize w' =
    default DEFAULT_TITLE_FONT_SIZE (pref_values w !! KEY_TITLE_FONT_SIZE) /\
  contentFontSize w' =
    default DEFAULT_CONTENT_FONT_SIZE (pref_values w !! KEY_CONTENT_FONT_SIZE).
Proof.
  intros Hq Hctx.
  assert (E : exists kw w1,
             titleFontSize w1 =
               default DEFAULT_TITLE_FONT_SIZE (pref_values w !! KEY_TITLE_FONT_SIZE) /\
             contentFontSize w1 =
               default DEFAULT_CONTENT_FONT_SIZE
                 (pref_values w !! KEY_CONTENT_FONT_SIZE) /\
             snd (MemoViewModel.loadInitialData w) =
               set_isLoading false (snd (MemoViewModel.searchMemos kw w1))).
  { unfold MemoViewModel.loadInitialData.
    rewrite (bound_operation _ _ w ctx Hctx).
    unfold bind at 1. cbn [modify].
    set (w0 := set_isLoading true w).
    rewrite try_finally_state.
    unfold try_catch. unfold bind at 1.
    rewrite (vm_loadFontSizes_quiet ctx w0 Hq Hctx).
    unfold bind at 1. cbn [gets].
    match goal with |- context [MemoViewModel.searchMemos ?kw ?w1] =>
      exists kw, w1 end.
    split; [reflexivity|]. split; [reflexivity|].
    destruct (MemoViewModel.searchMemos _ _) as [[u|e] w2]; reflexivity. }
  destruct E as (kw & w1 & Ht & Hc & E). cbn zeta. rewrite E.
  assert (Hst : same titleFontSize w1 (snd (MemoViewModel.searchMemos kw w1)))
    by (field_frame @frame_searchMemos titleFontSize).
  assert (Hsc : same contentFontSize w1 (snd (MemoViewModel.searchMemos kw w1)))
    by (field_frame @frame_searchMemos contentFontSize).
  split.
  - change (titleFontSize (snd (MemoViewModel.searchMemos kw w1)) = 
            default DEFAULT_TITLE_FONT_SIZE (pref_values w !! KEY_TITLE_FONT_SIZE)).
    rewrite Hst. exact Ht.
  - change (contentFontSize (snd (MemoViewModel.searchMemos kw w1)) = 
            default DEFAULT_CONTENT_FONT_SIZE (pref_values w !! KEY_CONTENT_FONT_SIZE)).
    rewrite Hsc. exact Hc.
Qed.

(** X14.  The font sizes survive a restart: when the platform does not fault,
    the sizes that [saveFontSizes] of the view model has saved are the
    sizes a new view model shows after [initialize] and [loadInitialData]
    in a new process. *)
Theorem font_sizes_survive_restart (ctx ctx' : Context) (w : World)
    (Hquiet : faults w = [])
    (Hbound : context w = Some ctx) :
  let saved := snd (MemoViewModel.saveFontSizes w) in
  let w' := snd (MemoViewModel.loadInitialData
                   (snd (MemoViewModel.initialize ctx' (restart saved)))) in
  titleFontSize w' = titleFontSize w /\ contentFontSize w' = contentFontSize w.
Proof.
  intros saved w'.
  assert (Hdisk : pref_disk saved !! KEY_TITLE_FONT_SIZE = Some (titleFontSize w) /\
                  pref_disk saved !! KEY_CONTENT_FONT_SIZE = Some (contentFontSize w)).
  { unfold saved. rewrite (vm_saveFontSizes_quiet ctx w Hquiet Hbound).
    rewrite (saveFontSizes_quiet ctx _ _ w Hquiet). cbn [snd]. world_simpl. split.
    - rewrite lookup_insert_ne by discriminate. apply lookup_insert_eq.
    - apply lookup_insert_eq. }
  assert (Hq : faults saved = []).
  { assert (Hk : quiet_kept w saved) by (quiet_frame @frame_vm_saveFontSizes).
    apply Hk, Hquiet. }
  destruct Hdisk as [Ht Hc].
  set (w0 := snd (MemoViewModel.initialize ctx' (restart saved))) in *.
  destruct (loadInitialData_fonts ctx' w0 Hq eq_refl) as [H1 H2].
  unfold w'. rewrite H1, H2.
  change (pref_values w0) with (pref_disk saved). rewrite Ht, Hc.
  split; reflexivity.
Qed.

Lemma font_sizes_survive_restart_witness :
  let w := set_fontSizes 22 16 three_notes in
  faults w = [] /\
  context w = Some 1%nat /\
  let saved := snd (MemoViewModel.saveFontSizes w) in
  let w' := snd (MemoViewModel.loadInitialData
                   (snd (MemoViewModel.initialize 2%nat (restart saved)))) in
  titleFontSize w' = titleFontSize w /\ contentFontSize w' = contentFontSize w.
Proof.
  intros w.
  split; [unfold w; rewrite three_notes_eq; reflexivity|].
  split; [unfold w; rewrite three_notes_eq; reflexivity|].
  apply (font_sizes_survive_restart 1%nat 2%nat w);
    unfold w; rewrite three_notes_eq; reflexivity.
Defined.

(* ===================================================================== *)
(** * Decoding under faults *)
(* ===================================================================== *)

(** A call on a result set that returns has run its body on the result
    set, in a world that differs in the fault schedule only. *)
Lemma on_result_set_ok {A} (call : string) (rs : ResultSetRef)
    (k : ResultSet -> M A) (w w' : World) (a : A) :
  on_result_set call rs k w = (Ok a, w') ->
  exists s r,
    result_sets w !! rs = Some r /\ k r (set_faults s w) = (Ok a, w').
Proof.
  unfold on_result_set, bind.
  destruct (platform_call_cases call w) as [(s & _ & Hc)|(s & _ & Hc)]; rewrite Hc;
    [discriminate|].
  change (result_sets (set_faults s w)) with (result_sets w).
  destruct (result_sets w !! rs) as [r|]; [|discriminate].
  destruct (rs_usable r); [|discriminate].
  intros H. exists s, r. split; [reflexivity|exact H].
Qed.

Lemma holds_rows_faults (rs : ResultSetRef) (rows : list Row) (pos : option nat)
    (s : list nat) (w : World) :
  holds_rows rs rows pos w -> holds_rows rs rows pos (set_faults s w).
Proof. intros H. exact H. Qed.

Lemma holds_rows_clock (rs : ResultSetRef) (rows : list Row) (pos : option nat)
    (t : Z) (s : list Z) (w : World) :
  holds_rows rs rows pos w -> holds_rows rs rows pos (set_clock t s w).
Proof. intros H. exact H. Qed.

Lemma holds_rows_moved (rs : ResultSetRef) (rows : list Row) (pos : option nat)
    (k : nat) (w : World) :
  holds_rows rs rows pos w ->
  holds_rows rs rows (Some k) (set_result_sets (alter (at_row k) rs (result_sets w)) w).
Proof.
  intros (r & Hr & H1 & H2 & H3). exists (at_row k r).
  split; [apply lookup_altered, Hr|]. split; [exact H1|]. split; [exact H2|reflexivity].
Qed.

Section Decoding.
Variable rs : ResultSetRef.
Variable rows : list Row.

(** Reading a column of the current row. *)
Lemma read_long_ok {B} (name : string) (cont : Z -> M B) (k : nat) (row : Row)
    (w w' : World) (b : B) :
  holds_rows rs rows (Some k) w -> rows !! k = Some row ->
  0 <= index_of name COLUMNS ->
  COLUMNS !! Z.to_nat (index_of name COLUMNS) = Some name ->
  (i <- rs_getColumnIndex rs name ;; v <- rs_getLong rs i ;; cont v) w = (Ok b, w') ->
  exists z w1,
    column_value name row = Some (VInt z) /\
    holds_rows rs rows (Some k) w1 /\ cont z w1 = (Ok b, w').
Proof.
  intros Hh Hrow Hi Hn. unfold bind at 1.
  destruct (rs_getColumnIndex rs name w) as [[i|e] w1] eqn:E1; [|discriminate].
  unfold rs_getColumnIndex in E1.
  apply on_result_set_ok in E1 as (s1 & r1 & Hr1 & E1). cbn in E1.
  injection E1 as <- <-.
  unfold bind at 1.
  destruct (rs_getLong rs _ _) as [[z|e] w2] eqn:E2; [|discriminate].
  unfold rs_getLong in E2.
  apply on_result_set_ok in E2 as (s2 & r2 & Hr2 & E2).
  change (result_sets (set_faults s1 w)) with (result_sets w) in Hr2.
  destruct Hh as (r & Hr & Hrows & Hcols & Hpos).
  assert (r1 = r) by congruence. assert (r2 = r) by congruence. subst r1 r2.
  rewrite Hcols in E2.
  assert (Hcv : current_value r (index_of name COLUMNS) = column_value name row).
  { unfold current_value. destruct (index_of name COLUMNS <? 0) eqn:El;
      [apply Z.ltb_lt in El; lia|].
    rewrite Hpos, Hrows, Hrow, Hcols, Hn. reflexivity. }
  rewrite Hcv in E2.
  destruct (column_value name row) as [[z'|s']|]; try discriminate.
  cbn in E2. injection E2 as <- <-.
  intros Hc. exists z', (set_faults s2 (set_faults s1 w)).
  split; [reflexivity|]. split; [|exact Hc].
  exists r. repeat split; assumption.
Qed.

Lemma read_string_ok {B} (name : string) (cont : string -> M B) (k : nat) (row : Row)
    (w w' : World) (b : B) :
  holds_rows rs rows (Some k) w -> rows !! k = Some row ->
  0 <= index_of name COLUMNS ->
  COLUMNS !! Z.to_nat (index_of name COLUMNS) = Some name ->
  (i <- rs_getColumnIndex rs name ;; v <- rs_getString rs i ;; cont v) w = (Ok b, w') ->
  exists z w1,
    column_value name row = Some (VText z) /\
    holds_rows rs rows (Some k) w1 /\ cont z w1 = (Ok b, w').
Proof.
  intros Hh Hrow Hi Hn. unfold bind at 1.
  destruct (rs_getColumnIndex rs name w) as [[i|e] w1] eqn:E1; [|discriminate].
  unfold rs_getColumnIndex in E1.
  apply on_result_set_ok in E1 as (s1 & r1 & Hr1 & E1). cbn in E1.
  injection E1 as <- <-.
  unfold bind at 1.
  destruct (rs_getString rs _ _) as [[z|e] w2] eqn:E2; [|discriminate].
  unfold rs_getString in E2.
  apply on_result_set_ok in E2 as (s2 & r2 & Hr2 & E2).
  change (result_sets (set_faults s1 w)) with (result_sets w) in Hr2.
  destruct Hh as (r & Hr & Hrows & Hcols & Hpos).
  assert (r1 = r) by congruence. assert (r2 = r) by congruence. subst r1 r2.
  rewrite Hcols in E2.
  assert (Hcv : current_value r (index_of name COLUMNS) = column_value name row).
  { unfold current_value. destruct (index_of name COLUMNS <? 0) eqn:El;
      [apply Z.ltb_lt in El; lia|].
    rewrite Hpos, Hrows, Hrow, Hcols, Hn. reflexivity. }
  rewrite Hcv in E2.
  destruct (column_value name row) as [[z'|s']|]; try discriminate.
  cbn in E2. injection E2 as <- <-.
  intros Hc. exists s', (set_faults s2 (set_faults s1 w)).
  split; [reflexivity|]. split; [|exact Hc].
  exists r. repeat split; assumption.
Qed.

(** A row that the loop decodes is the row the result set stands on. *)
Lemma read_row_ok (k : nat) (w w' : World) (memo : Memo) :
  holds_rows rs rows (Some k) w ->
  read_row rs w = (Ok memo, w') ->
  exists row,
    rows !! k = Some row /\ memo = memo_of_row row /\
    holds_rows rs rows (Some k) w'.
Proof.
  intros Hh E. unfold read_row in E.
  destruct (rows !! k) as [row|] eqn:Hrow.
  - exists row. split; [reflexivity|].
    destruct (read_long_ok "id" _ k row _ _ _ Hh Hrow
                ltac:(vm_compute; discriminate) eq_refl E)
      as (z1 & w1 & H1 & Hh1 & E1).
    destruct (read_string_ok "title" _ k row _ _ _ Hh1 Hrow
                ltac:(vm_compute; discriminate) eq_refl E1)
      as (z2 & w2 & H2 & Hh2 & E2).
    destruct (read_string_ok "content" _ k row _ _ _ Hh2 Hrow
                ltac:(vm_compute; discriminate) eq_refl E2)
      as (z3 & w3 & H3 & Hh3 & E3).
    destruct (read_long_ok "created_date" _ k row _ _ _ Hh3 Hrow
                ltac:(vm_compute; discriminate) eq_refl E3)
      as (z4 & w4 & H4 & Hh4 & E4).
    destruct (read_long_ok "modified_date" _ k row _ _ _ Hh4 Hrow
                ltac:(vm_compute; discriminate) eq_refl E4)
      as (z5 & w5 & H5 & Hh5 & E5).
    cbn in H1, H2, H3, H4, H5.
    injection H1 as <-. injection H2 as <-. injection H3 as <-.
    injection H4 as <-. injection H5 as <-.
    cbn in E5. injection E5 as <- <-.
    split; [reflexivity|]. apply holds_rows_clock, Hh5.
  - exfalso.
    unfold bind at 1 in E.
    destruct (rs_getColumnIndex rs "id" w) as [[i|e] w1] eqn:E1; [|discriminate].
    unfold rs_getColumnIndex in E1.
    apply on_result_set_ok in E1 as (s1 & r1 & Hr1 & E1). cbn in E1.
    injection E1 as <- <-.
    unfold bind at 1 in E.
    destruct (rs_getLong rs _ _) as [[z|e] w2] eqn:E2; [|discriminate].
    unfold rs_getLong in E2.
    apply on_result_set_ok in E2 as (s2 & r2 & Hr2 & E2).
    change (result_sets (set_faults s1 w)) with (result_sets w) in Hr2.
    destruct Hh as (r & Hr & Hrows & Hcols & Hpos).
    assert (r1 = r) by congruence. assert (r2 = r) by congruence. subst r1 r2.
    unfold current_value in E2.
    destruct (_ <? 0); [discriminate|].
    rewrite Hpos, Hrows, Hrow in E2. discriminate.
Qed.

Lemma rs_goToNextRow_ok (k : nat) (w w' : World) (b : bool) :
  holds_rows rs rows (Some k) w ->
  rs_goToNextRow rs w = (Ok b, w') ->
  if b then holds_rows rs rows (Some (S k)) w'
  else holds_rows rs rows (Some (length rows)) w'.
Proof.
  intros Hh E. unfold rs_goToNextRow in E.
  apply on_result_set_ok in E as (s & r & Hr & E).
  destruct Hh as (r0 & Hr0 & Hrows & Hcols & Hpos).
  assert (r = r0) by congruence. subst r0.
  rewrite Hpos, Hrows in E. unfold move_to, alter_result_set, bind, modify, ret in E.
  destruct (S k <? length rows)%nat; injection E as <- <-;
    apply (holds_rows_moved rs rows (Some k) _ (set_faults s w)); exists r;
    repeat split; assumption.
Qed.

Lemma rs_goToFirstRow_ok (pos : option nat) (w w' : World) :
  holds_rows rs rows pos w ->
  rs_goToFirstRow rs w = (Ok true, w') ->
  holds_rows rs rows (Some O) w'.
Proof.
  intros Hh E. unfold rs_goToFirstRow in E.
  apply on_result_set_ok in E as (s & r & Hr & E).
  destruct Hh as (r0 & Hr0 & Hrows & Hcols & Hpos).
  assert (r = r0) by congruence. subst r0.
  rewrite Hrows in E. unfold move_to, alter_result_set, bind, modify, ret in E.
  destruct rows; [discriminate|]. injection E as <-.
  apply (holds_rows_moved rs _ pos _ (set_faults s w)). exists r.
  repeat split; assumption.
Qed.

(** What the loop has collected, however it was left, is what it started
    with followed by the notes of some of the next rows, in their
    order. *)
Lemma parse_rows_prefix (fuel : nat) :
  forall (k : nat) (acc : list Memo) (w : World),
    holds_rows rs rows (Some k) w ->
    exists n,
      fst (fst (parse_rows fuel rs acc w)) =
        acc ++ map memo_of_row (take n (drop k rows)).
Proof.
  induction fuel as [|fuel IH]; intros k acc w Hh; cbn [parse_rows].
  - exists O. cbn. rewrite app_nil_r. reflexivity.
  - destruct (read_row rs w) as [[memo|e] w1] eqn:E1.
    + destruct (read_row_ok k w w1 memo Hh E1) as (row & Hrow & -> & Hh1).
      assert (Hdrop : drop k rows = row :: drop (S k) rows)
        by (apply drop_S, Hrow).
      destruct (rs_goToNextRow rs w1) as [[[|]|e] w2] eqn:E2.
      * pose proof (rs_goToNextRow_ok k w1 w2 true Hh1 E2) as Hh2. cbn in Hh2.
        destruct (IH (S k) (acc ++ [memo_of_row row]) w2 Hh2) as (n & Hn).
        exists (S n). rewrite Hn, Hdrop. cbn. rewrite <- app_assoc. reflexivity.
      * exists 1%nat. rewrite Hdrop. cbn. rewrite take_0. reflexivity.
      * exists 1%nat. rewrite Hdrop. cbn. rewrite take_0. reflexivity.
    + exists O. cbn. rewrite app_nil_r. reflexivity.
Qed.

Lemma parse_try_prefix (pos : option nat) (w : World) :
  holds_rows rs rows pos w ->
  exists n, fst (fst (parse_try rs w)) = map memo_of_row (take n rows).
Proof.
  intros Hh. unfold parse_try, rs_rowCount, gets.
  destruct (_ =? 0); [exists O; reflexivity|].
  destruct (rs_goToFirstRow rs w) as [[[|]|e] w1] eqn:E1;
    [|exists O; reflexivity|exists O; reflexivity].
  pose proof (rs_goToFirstRow_ok pos w w1 Hh E1) as Hh1.
  match goal with |- context [parse_rows ?fuel rs [] w1] =>
    destruct (parse_rows_prefix fuel O [] w1 Hh1) as (n & Hn) end.
  exists n. rewrite Hn. reflexivity.
Qed.

Lemma parseResultSet_prefix (pos : option nat) (w : World) :
  holds_rows rs rows pos w ->
  exists n, fst (parseResultSet (Some rs) w) = Ok (map memo_of_row (take n rows)).
Proof.
  intros Hh. destruct (parse_try_prefix pos w Hh) as (n & Hn). exists n.
  unfold parseResultSet. destruct (parse_try rs w) as [[memos res] w1].
  cbn [fst] in Hn. subst memos.
  destruct (try_catch _ _ w1). reflexivity.
Qed.

(** The single row that [queryMemoById] decodes. *)
Lemma read_single_ok (pos : option nat) (w w' : World) (memo : Memo) :
  holds_rows rs rows pos w ->
  read_single rs w = (Ok (Some memo), w') ->
  exists row, rows !! O = Some row /\ memo = memo_of_row row.
Proof.
  intros Hh E. unfold read_single in E.
  unfold bind at 1 in E. unfold rs_rowCount, gets in E.
  unfold bind at 1 in E.
  destruct (0 <? _).
  - destruct (rs_goToFirstRow rs w) as [[[|]|e] w1] eqn:E1; try discriminate.
    pose proof (rs_goToFirstRow_ok pos w w1 Hh E1) as Hh1.
    change (read_row rs w1) with (read_row rs w1) in E.
    assert (Er : exists w2, read_row rs w1 = (Ok memo, w2)).
    { unfold read_row. unfold bind in E |- *.
      repeat match type of E with
             | context [match ?m with _ => _ end] =>
                 match m with
                 | _ _ => destruct m as [[?|?] ?]; try discriminate
                 end
             end.
      cbn in E |- *. injection E as <- <-. eexists. reflexivity. }
    destruct Er as (w2 & Er).
    destruct (read_row_ok O w1 w2 memo Hh1 Er) as (row & Hrow & Hm & _).
    exists row. split; assumption.
  - cbn in E. discriminate.
Qed.

End Decoding.

Lemma query_and_parse_prefix (store : RdbStore) (p : RdbPredicates) (w : World) :
  table_exists (p_table p) = true ->
  exists n,
    fst (try_catch
           (resultSet <- store_query store p COLUMNS ;;
            memos <- parseResultSet (Some resultSet) ;;
            ret memos) (fun e => ret []) w)
    = Ok (map memo_of_row (take n (run_query p (db_rows w)))).
Proof.
  intros Ht. unfold try_catch, store_query. unfold bind at 1. unfold bind at 1.
  destruct (platform_call_cases "RdbStore.query" w) as [(s & _ & Hc)|(s & _ & Hc)];
    rewrite Hc; cbv beta iota; [exists O; reflexivity|].
  rewrite Ht.
  set (rows := run_query p (db_rows (set_faults s w))).
  set (w2 := set_result_sets _ _).
  assert (Hh : holds_rows (length (result_sets (set_faults s w))) rows None w2).
  { exists (mkResultSet COLUMNS rows None RsOpen).
    split; [apply list_lookup_middle; reflexivity|]. repeat split. }
  destruct (parseResultSet_prefix _ rows None w2 Hh) as (n & Hn).
  exists n. unfold bind.
  destruct (parseResultSet _ w2) as [r w3]. cbn [fst] in Hn. subst r. reflexivity.
Qed.

Lemma take_map_prefix {A B} (f : A -> B) (n : nat) (l : list A) :
  map f (take n l) `prefix_of` map f l.
Proof.
  exists (map f (drop n l)). rewrite <- map_app, take_drop. reflexivity.
Qed.

Lemma queryAllMemos_prefix (ctx : Context) (w : World) :
  match fst (queryAllMemos ctx w) with
  | Ok found => found `prefix_of` listing "" w
  | Raise _ => open_fails w = true
  end.
Proof.
  unfold queryAllMemos.
  destruct (getRdbStore_cases ctx w) as [(Hf & e & s & E)|(_ & s & E)];
    rewrite (bind_eq _ _ _ _ _ E); cbv beta iota; [exact Hf|].
  match goal with |- context [try_catch _ _ ?w1] =>
    destruct (query_and_parse_prefix (default O (rdbStore (after_open w)))
                (orderByDesc "modified_date" (new_RdbPredicates TABLE_NAME)) w1 eq_refl)
      as (n & Hn)
  end.
  rewrite Hn. rewrite run_query_all.
  change (db_rows (set_faults s (after_open w))) with (db_rows (after_open w)).
  rewrite after_open_rows. unfold listing. cbn [truthy]. apply take_map_prefix.
Qed.

Lemma queryMemosByTitle_prefix (ctx : Context) (keyword : string) (w : World) :
  match fst (queryMemosByTitle ctx keyword w) with
  | Ok found => found `prefix_of` listing keyword w
  | Raise _ => open_fails w = true
  end.
Proof.
  unfold queryMemosByTitle. destruct (truthy keyword) eqn:Ek; cbn [negb].
  - destruct (getRdbStore_cases ctx w) as [(Hf & e & s & E)|(_ & s & E)];
      rewrite (bind_eq _ _ _ _ _ E); cbv beta iota; [exact Hf|].
    match goal with |- context [try_catch _ _ ?w1] =>
      destruct (query_and_parse_prefix (default O (rdbStore (after_open w)))
                  (orderByDesc "modified_date"
                     (like "title" (String.append "%" (String.append keyword "%"))
                        (new_RdbPredicates TABLE_NAME))) w1 eq_refl)
        as (n & Hn)
    end.
    rewrite Hn. rewrite run_query_like.
    change (db_rows (set_faults s (after_open w))) with (db_rows (after_open w)).
    rewrite after_open_rows. unfold listing. rewrite Ek. apply take_map_prefix.
  - pose proof (queryAllMemos_prefix ctx w) as H.
    destruct (fst (queryAllMemos ctx w)); [|exact H].
    unfold listing in *. rewrite Ek. exact H.
Qed.

Lemma searchMemos_prefix (ctx : Context) (keyword : string) (w : World) :
  context w = Some ctx ->
  memos (snd (MemoViewModel.searchMemos keyword w)) `prefix_of` listing (trim keyword) w.
Proof.
  intros Hbound. unfold MemoViewModel.searchMemos.
  rewrite (bound_operation _ _ w ctx Hbound).
  unfold bind at 1. cbn [modify]. unfold bind at 1. cbn [modify].
  set (w1 := set_searchKeyword (trim keyword) (set_isLoading true w)).
  rewrite try_finally_state.
  unfold try_catch. unfold bind at 1. cbn [gets].
  change (searchKeyword w1) with (trim keyword).
  pose proof (queryMemosByTitle_prefix ctx (trim keyword) w1) as Hp.
  assert (Hvm : vm_same w1 (snd (queryMemosByTitle ctx (trim keyword) w1)))
    by apply queryMemosByTitle_vm.
  unfold bind.
  destruct (queryMemosByTitle ctx (trim keyword) w1) as [[found|e] w2];
    cbn [fst snd] in *.
  - exact Hp.
  - apply prefix_nil.
Qed.

(** X5.  Whatever the platform does, what a list query returns is an initial
    segment of the listing of the store: a fault while the rows are decoded
    cuts the list short, but no note is returned that the store does not
    hold or the keyword does not select, none twice and none out of order.
    The same holds of the list that [searchMemos] puts on display. *)
Theorem lists_are_initial_segments (ctx : Context) (keyword : string) (w : World)
    (Hbound : context w = Some ctx) :
  match fst (queryAllMemos ctx w) with
  | Ok found => found `prefix_of` listing "" w
  | Raise _ => open_fails w = true
  end /\
  match fst (queryMemosByTitle ctx keyword w) with
  | Ok found => found `prefix_of` listing keyword w
  | Raise _ => open_fails w = true
  end /\
  memos (snd (MemoViewModel.searchMemos keyword w)) `prefix_of` listing (trim keyword) w.
Proof.
  split; [apply queryAllMemos_prefix|]. split; [apply queryMemosByTitle_prefix|].
  apply (searchMemos_prefix ctx keyword w Hbound).
Qed.

Lemma lists_are_initial_segments_witness :
  let w := set_faults [14%nat] three_notes in
  context w = Some 1%nat /\
  match fst (queryAllMemos 1%nat w) with
  | Ok found => found `prefix_of` listing "" w
  | Raise _ => open_fails w = true
  end /\
  match fst (queryMemosByTitle 1%nat "a" w) with
  | Ok found => found `prefix_of` listing "a" w
  | Raise _ => open_fails w = true
  end /\
  memos (snd (MemoViewModel.searchMemos "a" w)) `prefix_of` listing (trim "a") w.
Proof.
  intros w.
  split; [unfold w; rewrite three_notes_eq; reflexivity|].
  apply (lists_are_initial_segments 1%nat "a" w).
  unfold w; rewrite three_notes_eq; reflexivity.
Defined.

(** A list cut short by a fault while the rows are decoded. *)
Example list_cut_short :
  let w := set_faults [14%nat] three_notes in
  memos (snd (MemoViewModel.searchMemos "a" w)) =
    [mkMemo (Some 3) "Alphabet" "c" 1003 1003] /\
  listing "a" w =
    [mkMemo (Some 3) "Alphabet" "c" 1003 1003;
     mkMemo (Some 2) "Beta" "b" 1002 1002;
     mkMemo (Some 1) "Alpha" "a" 1001 1001].
Proof. rewrite three_notes_eq. split; vm_compute; reflexivity. Qed.

Lemma try_finally_ok {A} (m : M A) (f : M unit) (w w' : World) (a : A) :
  try_finally m f w = (Ok a, w') -> exists w1, m w = (Ok a, w1).
Proof.
  unfold try_finally. destruct (m w) as [r w1]. destruct (f w1) as [[u|e] w2];
    [|discriminate].
  intros H. injection H as -> _. exists w1. reflexivity.
Qed.

Lemma queryMemoById_stored (ctx : Context) (i : Z) (w : World) :
  match fst (queryMemoById ctx i w) with
  | Ok found => stored_under i w found
  | Raise _ => open_fails w = true
  end.
Proof.
  unfold queryMemoById.
  destruct (getRdbStore_cases ctx w) as [(Hf & e & s & E)|(_ & s & E)];
    rewrite (bind_eq _ _ _ _ _ E); cbv beta iota; [exact Hf|].
  set (w1 := set_faults s (after_open w)).
  unfold bind at 1. unfold try_catch at 1. unfold store_query.
  unfold bind at 1. unfold bind at 1.
  destruct (platform_call_cases "RdbStore.query" w1) as [(s1 & _ & Hc)|(s1 & _ & Hc)];
    rewrite Hc; cbv beta iota; [exact I|].
  cbn [table_exists p_table equalTo new_RdbPredicates TABLE_NAME String.eqb Ascii.eqb
       Bool.eqb].
  unfold ret at 1. cbv beta iota.
  set (rows := run_query _ _). set (w2 := set_result_sets _ _).
  assert (Hh : holds_rows (length (result_sets (set_faults s1 w1))) rows None w2).
  { exists (mkResultSet COLUMNS rows None RsOpen).
    split; [apply list_lookup_middle; reflexivity|]. repeat split. }
  destruct (try_finally _ _ w2) as [[[memo|]|e] w3] eqn:Et; cbn [fst]; try exact I.
  - apply try_finally_ok in Et as (w4 & Et). unfold try_catch in Et.
    destruct (read_single _ w2) as [[found|e] w5] eqn:Er; [|discriminate].
    injection Et as -> ->.
    destruct (read_single_ok _ rows None w2 w4 memo Hh Er) as (row & Hrow & Hm).
    exists row.
    assert (Hin : In row rows).
    { apply list_elem_of_In. eapply list_elem_of_lookup_2, Hrow. }
    unfold rows in Hin. rewrite run_query_id in Hin.
    apply List.filter_In in Hin as [Hin Hid].
    change (db_rows (set_faults s1 w1)) with (db_rows (after_open w)) in Hin.
    rewrite after_open_rows in Hin. apply Z.eqb_eq in Hid. auto.
  - exfalso. unfold try_finally in Et.
    destruct (try_catch (read_single _) _ w2) as [r w4] eqn:E1.
    destruct (rs_close_guarded_never_raises (length (result_sets (set_faults s1 w1))) w4)
      as [u Hu].
    destruct (try_catch (rs_close _) _ w4) as [[u'|e'] w5]; cbn [fst] in Hu;
      [|discriminate].
    injection Et as -> _.
    unfold try_catch in E1.
    destruct (read_single _ w2) as [[found|e0] w6]; discriminate.
Qed.

(** X6.  Whatever the platform does, the note that [queryMemoById] returns is
    the note of a stored row with the id asked for, and [loadMemoById]
    leaves in [currentMemo] such a note or nothing: never a note with
    another id, and never one that the store does not hold. *)
Theorem found_by_id_is_stored (ctx : Context) (i : Z) (w : World)
    (Hbound : context w = Some ctx) :
  match fst (queryMemoById ctx i w) with
  | Ok found => stored_under i w found
  | Raise _ => open_fails w = true
  end /\
  stored_under i w (currentMemo (snd (MemoViewModel.loadMemoById i w))).
Proof.
  split; [apply queryMemoById_stored|].
  unfold MemoViewModel.loadMemoById.
  rewrite (bound_operation _ _ w ctx Hbound).
  unfold bind at 1. cbn [modify].
  set (w0 := set_isLoading true w).
  rewrite try_finally_state.
  pose proof (queryMemoById_stored ctx i w0) as Hs.
  unfold try_catch, bind.
  destruct (queryMemoById ctx i w0) as [[found|e] w1]; cbn [fst] in Hs.
  - exact Hs.
  - exact I.
Qed.

Lemma found_by_id_is_stored_witness :
  let w := set_faults [12%nat] three_notes in
  let beta := mkMemo (Some 2) "Beta" "b" 1002 1002 in
  context w = Some 1%nat /\
  fst (queryMemoById 1%nat 2 w) = Ok (Some beta) /\
  currentMemo (snd (MemoViewModel.loadMemoById 2 w)) = Some beta /\
  stored_under 2 w (Some beta) /\
  match fst (queryMemoById 1%nat 2 w) with
  | Ok found => stored_under 2 w found
  | Raise _ => open_fails w = true
  end /\
  stored_under 2 w (currentMemo (snd (MemoViewModel.loadMemoById 2 w))).
Proof.
  intros w beta.
  assert (Hc : context w = Some 1%nat)
    by (unfold w; rewrite three_notes_eq; reflexivity).
  assert (Hq : fst (queryMemoById 1%nat 2 w) = Ok (Some beta))
    by (unfold w; rewrite three_notes_eq; vm_compute; reflexivity).
  assert (Hl : currentMemo (snd (MemoViewModel.loadMemoById 2 w)) = Some beta)
    by (unfold w; rewrite three_notes_eq; vm_compute; reflexivity).
  destruct (found_by_id_is_stored 1%nat 2 w Hc) as [H1 H2].
  split; [exact Hc|]. split; [exact Hq|]. split; [exact Hl|].
  split; [rewrite <- Hl; exact H2|]. split; [exact H1|exact H2].
Defined.

(** The fault of the witness strikes the [close()] of the result set: the
    note has been read by then and is returned. *)
Example found_despite_fault :
  let w := set_faults [12%nat] three_notes in
  fst (queryMemoById 1%nat 2 w) = Ok (Some (mkMemo (Some 2) "Beta" "b" 1002 1002)) /\
  faults (snd (queryMemoById 1%nat 2 w)) = [] /\
  fst (queryMemoById 1%nat 2 (set_faults [7%nat] three_notes)) = Ok None.
Proof. rewrite three_notes_eq. repeat split; vm_compute; reflexivity. Qed.

(* ===================================================================== *)
(** * What a save has written *)
(* ===================================================================== *)

Lemma visible_rows_after_open (w : World) :
  visible_rows (after_open w) = visible_rows w.
Proof.
  rewrite (visible_rows_handle _ _ (after_open_handle w)). apply after_open_rows.
Qed.

Lemma map_unselected_sel (i : Z) (f : Row -> Row) (rows : list Row) :
  List.filter (fun r => r_id r =? i) rows = [] ->
  map (fun r =>
         if selects (equalTo "id" (VInt i) (new_RdbPredicates TABLE_NAME)) r
         then f r else r) rows = rows.
Proof.
  intros H. rewrite <- (map_unselected i f rows H) at 2.
  apply map_ext. intros r. rewrite selects_id. reflexivity.
Qed.

Lemma addMemo_written (ctx : Context) (memo : Memo) (w w' : World) (r : Res Z) :
  store_inv w ->
  addMemo ctx memo w = (r, w') ->
  written (title memo) (content memo) r w w'.
Proof.
  intros Hinv. unfold addMemo.
  destruct (getRdbStore_cases ctx w) as [(Hf & e & s & E)|(_ & s & E)];
    rewrite (bind_eq _ _ _ _ _ E); cbv beta iota;
    [intros H; injection H as <- <-; reflexivity|].
  unfold try_catch, store_insert. unfold bind at 1. unfold bind at 1.
  match goal with |- context [platform_call ?c ?w0] =>
    destruct (platform_call_cases c w0) as [(s1 & _ & Hc)|(s1 & _ & Hc)];
    rewrite Hc; cbv beta iota
  end.
  - cbn [ret]. intros H; injection H as <- <-. cbn [written Z.ltb Z.compare].
    change (visible_rows (set_faults s1 (set_faults s (after_open w))))
      with (visible_rows (after_open w)).
    apply visible_rows_after_open.
  - cbn [table_exists TABLE_NAME String.eqb Ascii.eqb Bool.eqb row_of_bucket bucket_get
         List.find fst snd].
    unfold bind, ret. intros H; injection H as <- <-. cbn [written].
    pose proof (inv_seq _ (after_open_inv w Hinv)) as Hseq.
    change (db_seq (set_faults s1 (set_faults s (after_open w))))
      with (db_seq (after_open w)).
    replace (0 <? db_seq (after_open w) + 1) with true
      by (symmetry; apply Z.ltb_lt; lia).
    eexists. split.
    { erewrite visible_rows_handle by (cbn; apply after_open_handle).
      cbn [db_rows set_db]. apply in_or_app. right. left. reflexivity. }
    split; reflexivity.
Qed.

Lemma updateMemo_written (ctx : Context) (memo : Memo) (w w' : World) (r : Res Z) :
  updateMemo ctx memo w = (r, w') ->
  written (title memo) (content memo) r w w'.
Proof.
  unfold updateMemo. destruct (id memo) as [i|];
    [|intros H; injection H as <- <-; reflexivity].
  destruct (getRdbStore_cases ctx w) as [(Hf & e & s & E)|(_ & s & E)];
    rewrite (bind_eq _ _ _ _ _ E); cbv beta iota;
    [intros H; injection H as <- <-; reflexivity|].
  unfold bind at 1, Date_now. cbn zeta.
  unfold try_catch, store_update. unfold bind at 1. unfold bind at 1.
  match goal with |- context [platform_call ?c ?w0] =>
    destruct (platform_call_cases c w0) as [(s1 & _ & Hc)|(s1 & _ & Hc)];
    rewrite Hc; cbv beta iota
  end.
  - cbn [ret]. intros H; injection H as <- <-. cbn [written Z.ltb Z.compare].
    match goal with |- visible_rows ?w2 = _ =>
      change (visible_rows w2) with (visible_rows (after_open w)) end.
    apply visible_rows_after_open.
  - cbn [table_exists p_table equalTo new_RdbPredicates TABLE_NAME String.eqb
         Ascii.eqb Bool.eqb andb forallb column_accepts orb].
    unfold bind, ret. intros H; injection H as <- <-. cbn [written].
    match goal with |- context [List.filter _ (db_rows ?w2)] =>
      change (db_rows w2) with (db_rows (after_open w)) end.
    rewrite after_open_rows.
    rewrite (List.filter_ext _ _ (selects_id i)).
    set (b := [("title", VText (title memo)); ("content", VText (content memo));
               ("modified_date",
                VInt (now (set_faults s (after_open w)) +
                      hd 0 (clock_steps (set_faults s (after_open w)))))]).
    destruct (0 <? _) eqn:En.
    + apply Z.ltb_lt in En.
      destruct (filter_nonempty (fun r => r_id r =? i) (visible_rows w))
        as (old & Hin & Hid); [lia|].
      exists (write_bucket b old).
      split; [|split; reflexivity].
      erewrite visible_rows_handle by (cbn; apply after_open_handle).
      cbn [db_rows set_db].
      apply in_map_iff. exists old. split; [|exact Hin].
      rewrite selects_id, Hid. reflexivity.
    + apply Z.ltb_ge in En.
      erewrite visible_rows_handle by (cbn; apply after_open_handle).
      cbn [db_rows set_db].
      apply (map_unselected_sel i (fun r => mkRow (r_id r) _ _ (r_created_date r) _)).
      destruct (List.filter _ (visible_rows w)); [reflexivity|cbn [length] in En; lia].
Qed.

(** The write of [saveCurrentMemo] and the way it settles. *)
Lemma saveCurrentMemo_settled (ctx : Context) (t c : string) (w : World) :
  context w = Some ctx -> store_inv w ->
  exists r w2,
    MemoViewModel.saveCurrentMemo t c w = settle_save r w2 /\ written t c r w w2.
Proof.
  intros Hbound Hinv.
  destruct (saveCurrentMemo_writes ctx t c w Hbound)
    as (memo & tm & steps & Ht & Hc & Hinv1 & _ & E).
  cbn zeta in *. rewrite E. clear E.
  set (w1 := set_clock tm steps (set_isLoading true w)) in *.
  specialize (Hinv1 Hinv).
  destruct (id memo).
  - destruct (updateMemo ctx memo w1) as [r w2] eqn:Eu. exists r, w2.
    split; [reflexivity|]. rewrite <- Ht, <- Hc.
    apply (updateMemo_written ctx memo w1 w2 r Eu).
  - destruct (addMemo ctx memo w1) as [r w2] eqn:Ea. exists r, w2.
    split; [reflexivity|]. rewrite <- Ht, <- Hc.
    apply (addMemo_written ctx memo w1 w2 r Hinv1 Ea).
Qed.

Lemma searchMemos_rows (keyword : string) (w : World) :
  visible_rows (snd (MemoViewModel.searchMemos keyword w)) = visible_rows w.
Proof.
  assert (H : persisted_same w (snd (MemoViewModel.searchMemos keyword w)))
    by (persisted_frame @frame_searchMemos).
  apply H.
Qed.

(** X8.  Whatever the platform does, [saveCurrentMemo] settles with a boolean
    that tells what it did: after [true] the store holds a note with the
    given title and content, after [false] the rows of the store are what
    they were.  A save that reported failure can be repeated without
    writing the note twice. *)
Theorem save_reports_what_it_wrote (ctx : Context) (t c : string) (w : World)
    (Hbound : context w = Some ctx)
    (Hinv : store_inv w) :
  exists success w',
    MemoViewModel.saveCurrentMemo t c w = (Ok success, w') /\
    if success
    then exists row, In row (visible_rows w') /\ r_title row = t /\ r_content row = c
    else visible_rows w' = visible_rows w.
Proof.
  destruct (saveCurrentMemo_settled ctx t c w Hbound Hinv) as (r & w2 & -> & Hw).
  unfold settle_save. eexists _, _. split; [reflexivity|].
  unfold written in Hw.
  destruct r as [n|e]; [|exact Hw].
  destruct (0 <? n); [|exact Hw].
  change (visible_rows (set_isLoading false ?x)) with (visible_rows x).
  rewrite searchMemos_rows. exact Hw.
Qed.

Lemma store_inv_faults (s : list nat) (w : World) :
  store_inv w -> store_inv (set_faults s w).
Proof. apply store_inv_same; reflexivity. Qed.

Lemma save_reports_what_it_wrote_witness :
  let w := set_faults [O] three_notes_later in
  context w = Some 1%nat /\
  store_inv w /\
  exists success w',
    MemoViewModel.saveCurrentMemo "Gamma" "g" w = (Ok success, w') /\
    if success
    then exists row,
        In row (visible_rows w') /\ r_title row = "Gamma" /\ r_content row = "g"
    else visible_rows w' = visible_rows w.
Proof.
  intros w.
  assert (Hinv : store_inv w) by apply store_inv_faults, three_notes_later_inv.
  split; [unfold w; rewrite three_notes_later_eq; reflexivity|].
  split; [exact Hinv|].
  apply (save_reports_what_it_wrote 1%nat "Gamma" "g" w);
    [unfold w; rewrite three_notes_later_eq; reflexivity|exact Hinv].
Defined.

(** A save that fails and its repetition. *)
Example save_fails_then_succeeds :
  let r1 := MemoViewModel.saveCurrentMemo "Gamma" "g" (set_faults [O] three_notes_later) in
  let r2 := MemoViewModel.saveCurrentMemo "Gamma" "g" (snd r1) in
  fst r1 = Ok false /\
  db_rows (snd r1) = db_rows three_notes_later /\
  fst r2 = Ok true /\
  map r_title (db_rows (snd r2)) = ["Alpha"; "Beta"; "Alphabet"; "Gamma"].
Proof. rewrite three_notes_later_eq. repeat split; vm_compute; reflexivity. Qed.

(* ===================================================================== *)
(** * Adding and updating *)
(* ===================================================================== *)

(** X2.  When the platform does not fault, [addMemo] appends one row that
    carries the title, the content and the two dates of the note under a
    new id, and returns that id: a positive number above the id of every
    row of the store, whatever the [id] of the note was.  The rows that
    were there are left as they were. *)
Theorem add_appends_a_fresh_row (ctx : Context) (memo : Memo) (w : World)
    (Hquiet : faults w = [])
    (Hinv : store_inv w) :
  exists i w',
    addMemo ctx memo w = (Ok i, w') /\
    db_rows w' =
      db_rows w ++
      [mkRow i (title memo) (content memo) (createdDate memo) (modifiedDate memo)] /\
    0 < i /\
    forall r, In r (db_rows w) -> r_id r < i.
Proof.
  pose proof (after_open_inv w Hinv) as Hinv1.
  assert (Hrows : db_rows (after_open w) = db_rows w)
    by (rewrite after_open_rows; apply visible_rows_inv, Hinv).
  eexists _, _. split; [apply addMemo_quiet, Hquiet|].
  cbn [db_rows set_db]. rewrite Hrows.
  split; [reflexivity|].
  pose proof (inv_seq _ Hinv1). split; [lia|].
  intros r Hr. rewrite <- Hrows in Hr. pose proof (inv_ids _ Hinv1 r Hr). lia.
Qed.

Lemma add_appends_a_fresh_row_witness :
  let memo := mkMemo (Some 2) "Gamma" "g" 1003 1003 in
  faults three_notes = [] /\
  store_inv three_notes /\
  exists i w',
    addMemo 1%nat memo three_notes = (Ok i, w') /\
    db_rows w' =
      db_rows three_notes ++
      [mkRow i (title memo) (content memo) (createdDate memo) (modifiedDate memo)] /\
    0 < i /\
    forall r, In r (db_rows three_notes) -> r_id r < i.
Proof.
  intros memo.
  split; [rewrite three_notes_eq; reflexivity|].
  split; [exact three_notes_inv|].
  apply (add_appends_a_fresh_row 1%nat memo three_notes);
    [rewrite three_notes_eq; reflexivity|exact three_notes_inv].
Defined.

(** X3.  [updateMemo] of a note without an id returns 0 at once: it does not
    ask for the storage handle, reads no clock and calls nothing.  For a
    note whose id no row of the store carries it returns 0, when the
    platform does not fault, and leaves the rows as they were. *)
Theorem update_of_absent_note (ctx : Context) (memo : Memo) (w : World) :
  match id memo with
  | None => updateMemo ctx memo w = (Ok 0, w)
  | Some i =>
      faults w = [] ->
      (forall r, In r (visible_rows w) -> r_id r <> i) ->
      fst (updateMemo ctx memo w) = Ok 0 /\
      visible_rows (snd (updateMemo ctx memo w)) = visible_rows w
  end.
Proof.
  destruct (id memo) as [i|] eqn:Eid.
  - intros Hq Habs. rewrite (updateMemo_quiet ctx memo i w Hq Eid). cbn [fst snd].
    assert (Hnone : List.filter (fun r => r_id r =? i) (visible_rows w) = []).
    { apply filter_none. intros r Hr. apply Z.eqb_neq, Habs, Hr. }
    rewrite Hnone. split; [reflexivity|].
    erewrite visible_rows_handle by (cbn; apply after_open_handle).
    cbn [db_rows set_db]. apply map_unselected, Hnone.
  - unfold updateMemo. rewrite Eid. reflexivity.
Qed.

(** An update under an id that the store does not hold. *)
Example update_under_unknown_id :
  let r := updateMemo 1%nat (mkMemo (Some 9) "Nine" "n" 0 0) three_notes_later in
  fst r = Ok 0 /\ db_rows (snd r) = db_rows three_notes_later.
Proof. rewrite three_notes_later_eq. split; vm_compute; reflexivity. Qed.

(* ===================================================================== *)
(** * A view model without a context *)
(* ===================================================================== *)

(** X9.  Until [initialize] has given it a context, every operation of the
    view model returns at once and leaves everything as it was: nothing is
    loaded, saved or deleted, no flag is set, and [saveCurrentMemo] answers
    [false]. *)
Theorem unbound_view_model_does_nothing (w : World) (Hunbound : context w = None) :
  MemoViewModel.loadInitialData w = (Ok tt, w) /\
  (forall keyword, MemoViewModel.searchMemos keyword w = (Ok tt, w)) /\
  (forall i, MemoViewModel.loadMemoById i w = (Ok tt, w)) /\
  (forall t c, MemoViewModel.saveCurrentMemo t c w = (Ok false, w)) /\
  (forall i, MemoViewModel.deleteMemo i w = (Ok tt, w)) /\
  MemoViewModel.loadFontSizes w = (Ok tt, w) /\
  MemoViewModel.saveFontSizes w = (Ok tt, w).
Proof.
  unfold MemoViewModel.loadInitialData, MemoViewModel.searchMemos,
    MemoViewModel.loadMemoById, MemoViewModel.saveCurrentMemo,
    MemoViewModel.deleteMemo, MemoViewModel.loadFontSizes,
    MemoViewModel.saveFontSizes.
  repeat split; intros; unfold bind, gets; rewrite Hunbound; reflexivity.
Qed.

Lemma unbound_view_model_does_nothing_witness :
  let w := MemoViewModel.fresh three_notes in
  context w = None /\
  MemoViewModel.loadInitialData w = (Ok tt, w) /\
  (forall keyword, MemoViewModel.searchMemos keyword w = (Ok tt, w)) /\
  (forall i, MemoViewModel.loadMemoById i w = (Ok tt, w)) /\
  (forall t c, MemoViewModel.saveCurrentMemo t c w = (Ok false, w)) /\
  (forall i, MemoViewModel.deleteMemo i w = (Ok tt, w)) /\
  MemoViewModel.loadFontSizes w = (Ok tt, w) /\
  MemoViewModel.saveFontSizes w = (Ok tt, w).
Proof.
  intros w. split; [reflexivity|].
  apply (unbound_view_model_does_nothing w). reflexivity.
Defined.

(* ===================================================================== *)
(** * The invariants on concrete worlds *)
(* ===================================================================== *)

Lemma three_notes_listed_eq :
  three_notes_listed =
    mkWorld [] 1003 [] true
      [mkRow 1 "Alpha" "a" 1001 1001;
       mkRow 2 "Beta" "b" 1002 1002;
       mkRow 3 "Alphabet" "c" 1003 1003]
      3 1
      [mkResultSet COLUMNS
         [mkRow 3 "Alphabet" "c" 1003 1003;
          mkRow 2 "Beta" "b" 1002 1002;
          mkRow 1 "Alpha" "a" 1001 1001] (Some 3%nat) RsClosed]
      ∅ None 0 (Some 1%nat) None
      [mkMemo (Some 3) "Alphabet" "c" 1003 1003;
       mkMemo (Some 2) "Beta" "b" 1002 1002;
       mkMemo (Some 1) "Alpha" "a" 1001 1001]
      18 14 false "" None (Some 1%nat).
Proof. vm_compute. reflexivity. Qed.

Lemma three_notes_listed_inv : store_inv three_notes_listed.
Proof. apply (searchMemos_inv "" three_notes), three_notes_inv. Qed.

Lemma three_notes_listed_current : list_current three_notes_listed.
Proof.
  apply (list_current_after_search 1%nat "" three_notes);
    rewrite three_notes_eq; reflexivity.
Qed.

Lemma list_follows_store_witness :
  faults three_notes_listed = [] /\
  context three_notes_listed = Some 1%nat /\
  store_inv three_notes_listed /\
  list_current three_notes_listed /\
  (forall keyword,
      list_current (snd (MemoViewModel.searchMemos keyword three_notes_listed))) /\
  list_current (snd (MemoViewModel.loadInitialData three_notes_listed)) /\
  (list_current three_notes_listed ->
   (forall t c,
       list_current (snd (MemoViewModel.saveCurrentMemo t c three_notes_listed))) /\
   (forall i, list_current (snd (MemoViewModel.deleteMemo i three_notes_listed)))).
Proof.
  split; [rewrite three_notes_listed_eq; reflexivity|].
  split; [rewrite three_notes_listed_eq; reflexivity|].
  split; [exact three_notes_listed_inv|].
  split; [exact three_notes_listed_current|].
  apply (list_follows_store 1%nat three_notes_listed);
    [rewrite three_notes_listed_eq; reflexivity
    |rewrite three_notes_listed_eq; reflexivity
    |exact three_notes_listed_inv].
Defined.


Lemma three_notes_editing_has_id : current_has_id three_notes_editing.
Proof. unfold current_has_id, three_notes_editing. cbn. discriminate. Qed.

Lemma current_has_id_kept_witness :
  current_has_id three_notes_editing /\
  current_has_id (MemoViewModel.fresh three_notes_editing) /\
  current_has_id (snd (MemoViewModel.initialize 1%nat three_notes_editing)) /\
  current_has_id (snd (MemoViewModel.prepareNewMemo three_notes_editing)) /\
  current_has_id (snd (MemoViewModel.loadMemoById 2 three_notes_editing)) /\
  current_has_id (snd (MemoViewModel.loadInitialData three_notes_editing)) /\
  current_has_id (snd (MemoViewModel.searchMemos "a" three_notes_editing)) /\
  current_has_id (snd (MemoViewModel.saveCurrentMemo "t" "c" three_notes_editing)) /\
  current_has_id (snd (MemoViewModel.deleteMemo 2 three_notes_editing)) /\
  current_has_id (snd (MemoViewModel.loadFontSizes three_notes_editing)) /\
  current_has_id (snd (MemoViewModel.saveFontSizes three_notes_editing)).
Proof.
  split; [exact three_notes_editing_has_id|].
  apply (current_has_id_kept 1%nat 2 "a" "t" "c" three_notes_editing).
  exact three_notes_editing_has_id.
Defined.

(* ===================================================================== *)
(** * Numbers written and read back *)
(* ===================================================================== *)

Lemma digits_le_range (fuel : nat) :
  forall n, 0 <= n -> Forall (fun d => 0 <= d <= 9) (digits_le fuel n).
Proof.
  induction fuel as [|fuel IH]; intros n Hn; cbn [digits_le]; [constructor|].
  constructor; [pose proof (Z.mod_pos_bound n 10); lia|].
  destruct (n <? 10); [constructor|]. apply IH. apply Z.div_pos; lia.
Qed.

Lemma digits_le_value (fuel : nat) :
  forall n, 0 <= n < 2 ^ Z.of_nat fuel ->
    foldr (fun d a => d + 10 * a) 0 (digits_le fuel n) = n.
Proof.
  induction fuel as [|fuel IH]; intros n Hn.
  - cbn in Hn. assert (n = 0) by lia. subst n. reflexivity.
  - cbn [digits_le foldr]. destruct (n <? 10) eqn:E.
    + apply Z.ltb_lt in E. cbn [foldr]. rewrite Z.mod_small by lia. lia.
    + apply Z.ltb_ge in E. rewrite IH.
      * pose proof (Z.div_mod n 10). lia.
      * rewrite Nat2Z.inj_succ, Z.pow_succ_r in Hn by lia.
        split; [apply Z.div_pos; lia|].
        apply Z.div_lt_upper_bound; lia.
Qed.

Lemma digit_value_char (d : Z) :
  0 <= d <= 9 -> digit_value 10 (digit_char d) = Some d.
Proof.
  intros H.
  assert (Hd : d = 0 \/ d = 1 \/ d = 2 \/ d = 3 \/ d = 4 \/ d = 5 \/ d = 6 \/
               d = 7 \/ d = 8 \/ d = 9) by lia.
  repeat destruct Hd as [->|Hd]; try subst d; reflexivity.
Qed.

Lemma digits_value_chars (ds : list Z) (acc : Z) :
  Forall (fun d => 0 <= d <= 9) ds ->
  digits_value 10 (string_of_list_ascii (map digit_char ds)) acc =
    foldl (fun a d => a * 10 + d) acc ds.
Proof.
  intros H. revert acc. induction H as [|d ds Hd _ IH]; intros acc; [reflexivity|].
  cbn [map string_of_list_ascii digits_value foldl].
  rewrite (digit_value_char d Hd). apply IH.
Qed.

Lemma foldl_rev_digits (ds : list Z) :
  foldl (fun a d => a * 10 + d) 0 (rev ds) = foldr (fun d a => d + 10 * a) 0 ds.
Proof.
  induction ds as [|d ds IH]; [reflexivity|].
  cbn [rev foldr]. rewrite foldl_app. cbn [foldl]. rewrite IH. lia.
Qed.

Lemma decimal_value (n : Z) :
  0 <= n -> digits_value 10 (decimal n) 0 = n.
Proof.
  intros Hn. unfold decimal.
  rewrite digits_value_chars
    by (apply Forall_rev, digits_le_range, Hn).
  rewrite foldl_rev_digits. apply digits_le_value.
  split; [exact Hn|].
  destruct (Z.eq_dec n 0) as [->|Hne]; [reflexivity|].
  rewrite Nat2Z.inj_succ, Z2Nat.id by apply Z.log2_nonneg.
  apply Z.log2_spec. lia.
Qed.

(** The first character of a decimal numeral is a digit and the second,
    if there is one, is a digit too. *)
Lemma decimal_shape (n : Z) :
  0 <= n ->
  exists d rest,
    decimal n = String (digit_char d) rest /\ 0 <= d <= 9 /\
    match rest with
    | EmptyString => True
    | String c _ => exists e, c = digit_char e /\ 0 <= e <= 9
    end.
Proof.
  intros Hn. unfold decimal.
  pose proof (digits_le_range (S (Z.to_nat (Z.log2 n))) n Hn) as Hr.
  apply Forall_rev in Hr.
  destruct (rev (digits_le (S (Z.to_nat (Z.log2 n))) n)) as [|d [|e l]] eqn:E.
  - exfalso. apply (f_equal (@length Z)) in E. rewrite length_rev in E.
    cbn in E. lia.
  - exists d, EmptyString. apply Forall_cons in Hr as [Hd _]. repeat split; tauto.
  - apply Forall_cons in Hr as [Hd Hr]. apply Forall_cons in Hr as [He _].
    exists d. eexists. cbn [map string_of_list_ascii].
    split; [reflexivity|]. split; [exact Hd|]. exists e. split; [reflexivity|exact He].
Qed.

Lemma digit_char_cases (d : Z) :
  0 <= d <= 9 ->
  (is_white_space [digit_char d] = false /\
   (N_of_ascii (digit_char d) <? 128)%N = true) /\
  digit_char d <> "-"%char /\ digit_char d <> "+"%char /\
  digit_char d <> "x"%char /\ digit_char d <> "X"%char.
Proof.
  intros H.
  assert (Hd : d = 0 \/ d = 1 \/ d = 2 \/ d = 3 \/ d = 4 \/ d = 5 \/ d = 6 \/
               d = 7 \/ d = 8 \/ d = 9) by lia.
  repeat destruct Hd as [->|Hd]; try subst d;
    (split; [split; reflexivity|repeat split; discriminate]).
Qed.

Lemma parseInt_decimal (n : Z) (sign : Z) :
  0 <= n ->
  (let '(R, S2) :=
     match decimal n with
     | String "0" (String "x" r) => (16, r)
     | String "0" (String "X" r) => (16, r)
     | _ => (10, decimal n)
     end in
   if starts_with_digit R S2 then Some (sign * digits_value R S2 0) else None)
  = Some (sign * n).
Proof.
  intros Hn. pose proof (decimal_value n Hn) as Hv.
  destruct (decimal_shape n Hn) as (d & rest & E & Hd & Hrest).
  rewrite E in *.
  assert (Hsd : starts_with_digit 10 (String (digit_char d) rest) = true)
    by (cbn; rewrite (digit_value_char d Hd); reflexivity).
  destruct rest as [|c rest'].
  - destruct (digit_char d) as [[] [] [] [] [] [] [] []]; rewrite ?Hsd, ?Hv; reflexivity.
  - destruct Hrest as (e & -> & He).
    destruct (digit_char_cases e He) as (_ & _ & _ & Hx & HX).
    destruct (digit_char d) as [[] [] [] [] [] [] [] []]; rewrite ?Hsd, ?Hv;
      try reflexivity.
    destruct (digit_char e) as [[] [] [] [] [] [] [] []]; rewrite ?Hsd, ?Hv;
      try reflexivity; congruence.
Qed.

(** A number written by [toString] is read back by [parseInt]. *)
Lemma parseInt_toString (n : Z) : parseInt (Number_toString n) = Some n.
Proof.
  unfold parseInt, Number_toString. destruct (n <? 0) eqn:E.
  - apply Z.ltb_lt in E.
    rewrite (trim_start_plain "-" _ eq_refl eq_refl). cbv beta iota zeta.
    rewrite (parseInt_decimal (- n) (-1)) by lia. f_equal. lia.
  - apply Z.ltb_ge in E.
    destruct (decimal_shape n E) as (d & rest & Es & Hd & _).
    destruct (digit_char_cases d Hd) as ([Hw Hb] & Hm & Hp & _).
    assert (Ht : trim_start (decimal n) = decimal n)
      by (rewrite Es; apply trim_start_plain; assumption).
    rewrite Ht.
    assert (Hs : match decimal n with
                 | String "-" r => (-1, r)
                 | String "+" r => (1, r)
                 | _ => (1, decimal n)
                 end = (1, decimal n)).
    { rewrite Es.
      destruct (digit_char d) as [[] [] [] [] [] [] [] []]; try reflexivity;
        congruence. }
    rewrite Hs. cbv beta iota. rewrite (parseInt_decimal n 1 E). f_equal. lia.
Qed.

(* ===================================================================== *)
(** * From the list to the editor *)
(* ===================================================================== *)

Lemma loadMemoById_quiet (ctx : Context) (i : Z) (w : World) :
  faults w = [] -> context w = Some ctx ->
  exists w',
    MemoViewModel.loadMemoById i w = (Ok tt, w') /\
    currentMemo w' =
      memo_of_row <$> head (List.filter (fun r => r_id r =? i) (visible_rows w)) /\
    faults w' = [] /\ visible_rows w' = visible_rows w /\ context w' = Some ctx.
Proof.
  intros Hq Hctx. unfold MemoViewModel.loadMemoById.
  rewrite (bound_operation _ _ w ctx Hctx).
  unfold bind at 1. cbn [modify].
  set (w0 := set_isLoading true w).
  pose proof (queryMemoById_quiet ctx i w0 Hq) as Hres.
  assert (Hvm : vm_same w0 (snd (queryMemoById ctx i w0))) by apply queryMemoById_vm.
  assert (Hp : persisted_same w0 (snd (queryMemoById ctx i w0)))
    by (persisted_frame @frame_queryMemoById).
  assert (Hk : quiet_kept w0 (snd (queryMemoById ctx i w0)))
    by (quiet_frame @frame_queryMemoById).
  unfold try_finally, try_catch, bind.
  destruct (queryMemoById ctx i w0) as [r w1]. cbn [fst snd] in *. subst r.
  cbn [modify]. eexists. split; [reflexivity|].
  destruct Hvm as (_ & _ & _ & _ & _ & _ & Hc). destruct Hp as [Hrows _].
  split; [reflexivity|]. split; [apply Hk, Hq|]. split; [exact Hrows|].
  exact (eq_trans Hc Hctx).
Qed.

Lemma head_filter_find {A} (f : A -> bool) (l : list A) :
  head (List.filter f l) = List.find f l.
Proof.
  induction l as [|x l IH]; [reflexivity|]. cbn. destruct (f x); [reflexivity|exact IH].
Qed.

Lemma Number_toString_truthy (n : Z) : truthy (Number_toString n) = true.
Proof.
  unfold Number_toString. destruct (n <? 0) eqn:E; [reflexivity|].
  apply Z.ltb_ge in E. destruct (decimal_shape n E) as (d & rest & -> & _).
  reflexivity.
Qed.

(** What [goToEditPage] leaves when the push is not rejected. *)
Lemma goToEditPage_pushes (memoId : option Z) (s : Screen MemoListPage.Fields) :
  faults (world s) = [] ->
  MemoListPage.goToEditPage memoId s =
    (Ok tt,
     mkScreen (world s)
       (mkUi (toasts (ui s)) (backs (ui s))
          (pushes (ui s) ++
           [("pages/MemoEditPage",
             match memoId with
             | Some i => {[ "memoId" := Number_toString i ]}
             | None => ∅
             end)])
          (route_params (ui s)))
       (page s)).
Proof.
  intros Hq. unfold MemoListPage.goToEditPage, Page.try_catch, Page.router_pushUrl,
    Page.bind, Page.lift.
  rewrite (platform_call_quiet _ _ Hq). reflexivity.
Qed.

Lemma open_edit_page_params (ctx : option Context) (s : Screen MemoListPage.Fields)
    (url : string) (params : gmap string string) (u : Ui) :
  ui s = mkUi (toasts u) (backs u) (pushes u ++ [(url, params)]) (route_params u) ->
  open_edit_page ctx s =
    mkScreen (MemoViewModel.fresh (world s))
      (mkUi (toasts u) (backs u) (pushes u ++ [(url, params)]) (Some params))
      (MemoEditPage.created ctx).
Proof.
  intros E. unfold open_edit_page. rewrite E. cbn [toasts backs pushes].
  rewrite last_snoc. reflexivity.
Qed.

Lemma page_bind_gets {P A B} (f : Screen P -> A) (k : A -> PM P B) (s : Screen P) :
  Page.bind (Page.gets f) k s = k (f s) s.
Proof. reflexivity. Qed.

Lemma page_bind_set_page {P B} (f : P -> P) (k : unit -> PM P B) (s : Screen P) :
  Page.bind (Page.set_page f) k s = k tt (mkScreen (world s) (ui s) (f (page s))).
Proof. reflexivity. Qed.

Lemma page_bind_set_ui {P B} (f : Ui -> Ui) (k : unit -> PM P B) (s : Screen P) :
  Page.bind (Page.set_ui f) k s = k tt (mkScreen (world s) (f (ui s)) (page s)).
Proof. reflexivity. Qed.

Lemma page_bind_lift {P A B} (m : M A) (k : A -> PM P B) (s : Screen P)
    (a : A) (w' : World) :
  m (world s) = (Ok a, w') ->
  Page.bind (Page.lift m) k s = k a (mkScreen w' (ui s) (page s)).
Proof. intros E. unfold Page.bind, Page.lift. rewrite E. reflexivity. Qed.

(** [loadExistingMemoData] on a page that has an id, when the platform
    does not fault. *)
Lemma loadExistingMemoData_quiet (ctx : Context) (i : Z)
    (s : Screen MemoEditPage.Fields) :
  faults (world s) = [] -> context (world s) = Some ctx ->
  MemoEditPage.memoId (page s) = Some i ->
  exists w',
    currentMemo w' =
      memo_of_row <$> List.find (fun r => r_id r =? i) (visible_rows (world s)) /\
    faults w' = [] /\ visible_rows w' = visible_rows (world s) /\
    context w' = Some ctx /\
    MemoEditPage.loadExistingMemoData s =
      (Ok tt,
       match currentMemo w' with
       | Some m =>
           mkScreen w' (ui s) (MemoEditPage.set_inputs (title m) (content m) (page s))
       | None =>
           mkScreen w'
             (mkUi (toasts (ui s) ++ ["无法加载笔记数据"]) (S (backs (ui s)))
                (pushes (ui s)) (route_params (ui s)))
             (page s)
       end).
Proof.
  intros Hq Hctx Hid.
  destruct (loadMemoById_quiet ctx i (world s) Hq Hctx) as (w' & E & Hcur & Hq' & Hr & Hc).
  exists w'. rewrite head_filter_find in Hcur.
  split; [exact Hcur|]. split; [exact Hq'|]. split; [exact Hr|]. split; [exact Hc|].
  unfold MemoEditPage.loadExistingMemoData.
  rewrite page_bind_gets, Hid.
  rewrite (page_bind_lift _ _ s tt w' E).
  rewrite page_bind_gets. cbn [world].
  destruct (currentMemo w') as [m|]; reflexivity.
Qed.

Lemma aboutToAppear_with_id (ctx : Context) (ps : gmap string string) (text : string)
    (i : Z) (s : Screen MemoEditPage.Fields) :
  MemoEditPage.page_context (page s) = Some ctx ->
  route_params (ui s) = Some ps -> ps !! "memoId" = Some text ->
  truthy text = true -> parseInt text = Some i ->
  MemoEditPage.aboutToAppear s =
    Page.not_awaited MemoEditPage.loadExistingMemoData
      (mkScreen (set_context (Some ctx) (world s)) (ui s)
         (MemoEditPage.set_isEditMode true
            (MemoEditPage.set_memoId (Some i) (page s)))).
Proof.
  intros Hc Hp Hl Ht Hi. unfold MemoEditPage.aboutToAppear.
  rewrite page_bind_gets, Hc.
  rewrite (page_bind_lift _ _ s tt (set_context (Some ctx) (world s)) eq_refl).
  unfold Page.router_getParams. rewrite page_bind_gets. cbn [ui].
  rewrite Hp. cbn [mbind option_bind]. rewrite Hl, Ht, Hi.
  rewrite page_bind_set_page, page_bind_set_page. reflexivity.
Qed.

Lemma aboutToAppear_without_id (ctx : Context) (s : Screen MemoEditPage.Fields) :
  MemoEditPage.page_context (page s) = Some ctx ->
  route_params (ui s) = Some ∅ ->
  MemoEditPage.aboutToAppear s =
    (Ok tt,
     mkScreen (set_currentMemo None (set_context (Some ctx) (world s))) (ui s)
       (MemoEditPage.set_isEditMode false (page s))).
Proof.
  intros Hc Hp. unfold MemoEditPage.aboutToAppear.
  rewrite page_bind_gets, Hc.
  rewrite (page_bind_lift _ _ s tt (set_context (Some ctx) (world s)) eq_refl).
  unfold Page.router_getParams. rewrite page_bind_gets. cbn [ui].
  rewrite Hp. cbn [mbind option_bind]. rewrite lookup_empty.
  rewrite page_bind_set_page. reflexivity.
Qed.

(** X15.  From the list to the editor and back to the note.  When the platform
    does not fault, [goToEditPage] with the id of a note, followed by
    [aboutToAppear] of the page that the router opens, leaves the editor in
    edit mode under that id: the id written into the route parameters by
    [toString] is the id [parseInt] reads back.  If the store holds a note
    under the id, the editor holds it in [currentMemo] and its title and
    content in the two inputs; if not, the inputs stay empty, the toast
    says that the note could not be loaded, and the page asks the router to
    go back.  [goToEditPage] without an id leaves the editor in add mode,
    with no current note. *)
Theorem editor_opens_on_the_note (ctx : Context) (i : Z)
    (s : Screen MemoListPage.Fields)
    (Hquiet : faults (world s) = [])
    (Hinv : store_inv (world s)) :
  (let pushed := snd (MemoListPage.goToEditPage (Some i) s) in
   let e := snd (MemoEditPage.aboutToAppear (open_edit_page (Some ctx) pushed)) in
   MemoEditPage.memoId (page e) = Some i /\
   MemoEditPage.isEditMode (page e) = true /\
   match List.find (fun r => r_id r =? i) (db_rows (world s)) with
   | Some row =>
       currentMemo (world e) = Some (memo_of_row row) /\
       MemoEditPage.memoTitle (page e) = r_title row /\
       MemoEditPage.memoContent (page e) = r_content row /\
       toasts (ui e) = toasts (ui s) /\
       backs (ui e) = backs (ui s)
   | None =>
       currentMemo (world e) = None /\
       MemoEditPage.memoTitle (page e) = "" /\
       MemoEditPage.memoContent (page e) = "" /\
       toasts (ui e) = toasts (ui s) ++ ["无法加载笔记数据"] /\
       backs (ui e) = S (backs (ui s))
   end) /\
  (let pushed := snd (MemoListPage.goToEditPage None s) in
   let e := snd (MemoEditPage.aboutToAppear (open_edit_page (Some ctx) pushed)) in
   MemoEditPage.memoId (page e) = None /\
   MemoEditPage.isEditMode (page e) = false /\
   currentMemo (world e) = None /\
   toasts (ui e) = toasts (ui s) /\
   backs (ui e) = backs (ui s)).
Proof.
  split.
  - cbn zeta. rewrite (goToEditPage_pushes (Some i) s Hquiet). cbn [snd].
    erewrite open_edit_page_params by reflexivity.
    cbn [world].
    set (s0 := mkScreen (MemoViewModel.fresh (world s)) _ _).
    rewrite (aboutToAppear_with_id ctx {[ "memoId" := Number_toString i ]}
               (Number_toString i) i s0 eq_refl eq_refl
               (lookup_singleton_eq _ _) (Number_toString_truthy i)
               (parseInt_toString i)).
    set (s1 := mkScreen _ _ _).
    destruct (loadExistingMemoData_quiet ctx i s1 Hquiet eq_refl eq_refl)
      as (w' & Hcur & _ & _ & _ & E).
    unfold Page.not_awaited, Page.try_catch, Page.bind. rewrite E. clear E.
    change (visible_rows (world s1)) with (visible_rows (world s)) in Hcur.
    rewrite (visible_rows_inv _ Hinv) in Hcur.
    destruct (List.find _ (db_rows (world s))) as [row|]; cbn [fmap option_fmap option_map] in Hcur;
      rewrite Hcur; cbn; repeat split; first [reflexivity|exact Hcur].
  - cbn zeta. rewrite (goToEditPage_pushes None s Hquiet). cbn [snd].
    erewrite open_edit_page_params by reflexivity.
    cbn [world].
    set (s0 := mkScreen (MemoViewModel.fresh (world s)) _ _).
    rewrite (aboutToAppear_without_id ctx s0 eq_refl eq_refl).
    repeat split; reflexivity.
Qed.

Lemma editor_opens_on_the_note_witness :
  faults (world list_screen) = [] /\
  store_inv (world list_screen) /\
  (let pushed := snd (MemoListPage.goToEditPage (Some 2) list_screen) in
   let e := snd (MemoEditPage.aboutToAppear (open_edit_page (Some 1%nat) pushed)) in
   MemoEditPage.memoId (page e) = Some 2 /\
   MemoEditPage.isEditMode (page e) = true /\
   match List.find (fun r => r_id r =? 2) (db_rows (world list_screen)) with
   | Some row =>
       currentMemo (world e) = Some (memo_of_row row) /\
       MemoEditPage.memoTitle (page e) = r_title row /\
       MemoEditPage.memoContent (page e) = r_content row /\
       toasts (ui e) = toasts (ui list_screen) /\
       backs (ui e) = backs (ui list_screen)
   | None =>
       currentMemo (world e) = None /\
       MemoEditPage.memoTitle (page e) = "" /\
       MemoEditPage.memoContent (page e) = "" /\
       toasts (ui e) = toasts (ui list_screen) ++ ["无法加载笔记数据"] /\
       backs (ui e) = S (backs (ui list_screen))
   end) /\
  (let pushed := snd (MemoListPage.goToEditPage None list_screen) in
   let e := snd (MemoEditPage.aboutToAppear (open_edit_page (Some 1%nat) pushed)) in
   MemoEditPage.memoId (page e) = None /\
   MemoEditPage.isEditMode (page e) = false /\
   currentMemo (world e) = None /\
   toasts (ui e) = toasts (ui list_screen) /\
   backs (ui e) = backs (ui list_screen)).
Proof.
  assert (Hq : faults (world list_screen) = [])
    by (unfold list_screen; cbn [world]; rewrite three_notes_eq; reflexivity).
  split; [exact Hq|]. split; [exact three_notes_inv|].
  exact (editor_opens_on_the_note 1%nat 2 list_screen Hq three_notes_inv).
Defined.

(** Tapping the note "Beta" in the list. *)
Example editor_opens_on_beta :
  let pushed := snd (MemoListPage.goToEditPage (Some 2) list_screen) in
  let e := snd (MemoEditPage.aboutToAppear (open_edit_page (Some 1%nat) pushed)) in
  route_params (ui e) = Some {[ "memoId" := "2" ]} /\
  page e = MemoEditPage.mkFields "Beta" "b" (Some 2) true (Some 1%nat) /\
  currentMemo (world e) = Some (mkMemo (Some 2) "Beta" "b" 1002 1002).
Proof.
  unfold list_screen. rewrite three_notes_eq. repeat split; vm_compute; reflexivity.
Qed.

(* ===================================================================== *)
(** * Saving from the editor *)
(* ===================================================================== *)

Lemma saveCurrentMemo_outcome (t c : string) (w : World) :
  store_inv w ->
  exists success w',
    MemoViewModel.saveCurrentMemo t c w = (Ok success, w') /\
    if success
    then exists row, In row (visible_rows w') /\ r_title row = t /\ r_content row = c
    else visible_rows w' = visible_rows w.
Proof.
  intros Hinv. destruct (context w) as [ctx|] eqn:Hctx.
  - destruct (saveCurrentMemo_settled ctx t c w Hctx Hinv) as (r & w2 & -> & Hw).
    unfold settle_save. eexists _, _. split; [reflexivity|].
    unfold written in Hw.
    destruct r as [n|e]; [|exact Hw].
    destruct (0 <? n); [|exact Hw].
    change (visible_rows (set_isLoading false ?x)) with (visible_rows x).
    rewrite searchMemos_rows. exact Hw.
  - exists false, w. split; [|reflexivity].
    unfold MemoViewModel.saveCurrentMemo, bind, gets. rewrite Hctx. reflexivity.
Qed.

(** X16.  What [saveMemo] tells the user is what has happened.  A title that is
    empty once it is trimmed is refused with a toast and nothing else
    happens.  Otherwise the trimmed title and content are saved and,
    whatever the platform does: either the toast says that the note was
    added or updated, the page asks the router to go back, and the store
    holds a note with that title and content; or the toast says that saving
    failed, the page stays, and the rows of the store are what they
    were. *)
Theorem saveMemo_tells_what_happened (s : Screen MemoEditPage.Fields)
    (Hinv : store_inv (world s)) :
  let t := trim (MemoEditPage.memoTitle (page s)) in
  let c := trim (MemoEditPage.memoContent (page s)) in
  exists s',
    MemoEditPage.saveMemo s = (Ok tt, s') /\
    page s' = page s /\
    route_params (ui s') = route_params (ui s) /\
    if truthy t then
      (toasts (ui s') =
         toasts (ui s) ++
         [if MemoEditPage.isEditMode (page s) then "笔记已更新" else "笔记已添加"] /\
       backs (ui s') = S (backs (ui s)) /\
       exists row,
         In row (visible_rows (world s')) /\ r_title row = t /\ r_content row = c) \/
      (toasts (ui s') = toasts (ui s) ++ ["保存失败，请稍后重试"] /\
       backs (ui s') = backs (ui s) /\
       visible_rows (world s') = visible_rows (world s))
    else
      toasts (ui s') = toasts (ui s) ++ ["标题不能为空"] /\
      backs (ui s') = backs (ui s) /\
      world s' = world s.
Proof.
  intros t c. unfold MemoEditPage.saveMemo. rewrite page_bind_gets. fold t.
  destruct (truthy t) eqn:Et; cbn [negb].
  - rewrite page_bind_gets. fold c.
    destruct (saveCurrentMemo_outcome t c (world s) Hinv) as (success & w' & E & Hw).
    rewrite (page_bind_lift _ _ s success w' E).
    destruct success.
    + rewrite page_bind_gets. cbn [page].
      eexists. split; [reflexivity|]. split; [reflexivity|]. split; [reflexivity|].
      left. split; [reflexivity|]. split; [reflexivity|exact Hw].
    + eexists. split; [reflexivity|]. split; [reflexivity|]. split; [reflexivity|].
      right. split; [reflexivity|]. split; [reflexivity|exact Hw].
  - eexists. split; [reflexivity|]. repeat split; reflexivity.
Qed.

Lemma saveMemo_tells_what_happened_witness :
  let s := editor_screen "  Gamma " "g" in
  store_inv (world s) /\
  let t := trim (MemoEditPage.memoTitle (page s)) in
  let c := trim (MemoEditPage.memoContent (page s)) in
  exists s',
    MemoEditPage.saveMemo s = (Ok tt, s') /\
    page s' = page s /\
    route_params (ui s') = route_params (ui s) /\
    if truthy t then
      (toasts (ui s') =
         toasts (ui s) ++
         [if MemoEditPage.isEditMode (page s) then "笔记已更新" else "笔记已添加"] /\
       backs (ui s') = S (backs (ui s)) /\
       exists row,
         In row (visible_rows (world s')) /\ r_title row = t /\ r_content row = c) \/
      (toasts (ui s') = toasts (ui s) ++ ["保存失败，请稍后重试"] /\
       backs (ui s') = backs (ui s) /\
       visible_rows (world s') = visible_rows (world s))
    else
      toasts (ui s') = toasts (ui s) ++ ["标题不能为空"] /\
      backs (ui s') = backs (ui s) /\
      world s' = world s.
Proof.
  intros s. split; [exact three_notes_later_inv|].
  exact (saveMemo_tells_what_happened s three_notes_later_inv).
Defined.

(** A note saved from the editor, and a title of blanks. *)
Example saveMemo_gamma :
  let s' := snd (MemoEditPage.saveMemo (editor_screen "  Gamma " "g")) in
  db_rows (world s') =
    [mkRow 1 "Alpha" "a" 1001 1001;
     mkRow 2 "Beta" "b" 1002 1002;
     mkRow 3 "Alphabet" "c" 1003 1003;
     mkRow 4 "Gamma" "g" 1008 1008] /\
  toasts (ui s') = ["笔记已添加"] /\ backs (ui s') = 1%nat.
Proof.
  unfold editor_screen. rewrite three_notes_later_eq.
  repeat split; vm_compute; reflexivity.
Qed.

Example saveMemo_blank :
  let s' := snd (MemoEditPage.saveMemo (editor_screen "   " "g")) in
  world s' = three_notes_later /\
  toasts (ui s') = ["标题不能为空"] /\ backs (ui s') = O.
Proof.
  unfold editor_screen. rewrite three_notes_later_eq.
  repeat split; vm_compute; reflexivity.
Qed.

(** A title of ideographic spaces is empty after [trim] and is refused; a
    title between such spaces is saved without them and whole. *)
Example saveMemo_ideographic_space :
  let s' := snd (MemoEditPage.saveMemo (editor_screen "　　" "g")) in
  let s'' := snd (MemoEditPage.saveMemo (editor_screen "　你 " "g")) in
  world s' = three_notes_later /\
  toasts (ui s') = ["标题不能为空"] /\ backs (ui s') = O /\
  db_rows (world s'') =
    [mkRow 1 "Alpha" "a" 1001 1001;
     mkRow 2 "Beta" "b" 1002 1002;
     mkRow 3 "Alphabet" "c" 1003 1003;
     mkRow 4 "你" "g" 1008 1008] /\
  toasts (ui s'') = ["笔记已添加"].
Proof.
  unfold editor_screen. rewrite three_notes_later_eq.
  repeat split; vm_compute; reflexivity.
Qed.

(* ===================================================================== *)
(** * Pages without a context *)
(* ===================================================================== *)

(** X17.  A page finds its context in the field [context], which is [null] when
    the page is created and which the page itself never assigns.  An
    editor whose field has stayed [null] shows a toast in [aboutToAppear]
    and never binds its view model: whatever is typed, [saveMemo] ends
    with the toast for an empty title or with the toast for a failed save,
    and the world is left as it was.  A list page in that state shows its
    toast, and a search changes nothing. *)
Theorem pages_without_context (w : World) (u : Ui) (t c keyword : string) :
  (let s0 := mkScreen (MemoViewModel.fresh w) u (MemoEditPage.created None) in
   let s1 := snd (MemoEditPage.aboutToAppear s0) in
   let s2 := snd (MemoEditPage.onTitleChange t s1) in
   let s3 := snd (MemoEditPage.onContentChange c s2) in
   let s4 := snd (MemoEditPage.saveMemo s3) in
   world s4 = MemoViewModel.fresh w /\
   backs (ui s4) = backs u /\
   toasts (ui s4) =
     toasts u ++
     ["无法初始化页面环境";
      if truthy (trim t) then "保存失败，请稍后重试" else "标题不能为空"]) /\
  (let s0 := mkScreen (MemoViewModel.fresh w) u (MemoListPage.created None) in
   let s1 := snd (MemoListPage.aboutToAppear s0) in
   let s2 := snd (MemoListPage.onSearchChange keyword s1) in
   world s2 = MemoViewModel.fresh w /\
   toasts (ui s2) = toasts u ++ ["无法初始化页面数据"]).
Proof.
  split.
  - cbn zeta.
    change (snd (MemoEditPage.aboutToAppear
                   (mkScreen (MemoViewModel.fresh w) u (MemoEditPage.created None))))
      with (mkScreen (MemoViewModel.fresh w)
              (mkUi (toasts u ++ ["无法初始化页面环境"]) (backs u) (pushes u)
                 (route_params u))
              (MemoEditPage.created None)).
    unfold MemoEditPage.onTitleChange, MemoEditPage.onContentChange, Page.set_page.
    cbn [snd world ui page].
    unfold MemoEditPage.saveMemo. rewrite page_bind_gets.
    cbn [page MemoEditPage.memoTitle MemoEditPage.set_inputs MemoEditPage.created
         MemoEditPage.memoContent].
    destruct (truthy (trim t)); cbn [negb].
    + rewrite page_bind_gets.
      erewrite page_bind_lift by reflexivity.
      cbn [snd world ui toasts backs Page.showToast Page.set_ui].
      rewrite <- app_assoc. repeat split; reflexivity.
    + cbn [snd world ui toasts backs Page.showToast Page.set_ui].
      rewrite <- app_assoc. repeat split; reflexivity.
  - cbn zeta. split; reflexivity.
Qed.

(* ===================================================================== *)
(** * The list page *)
(* ===================================================================== *)

Lemma platform_call_resolves (call : string) (w : World) :
  (forall f, faults w <> O :: f) ->
  exists f, platform_call call w = (Ok tt, set_faults f w) /\
            (forall g, faults w = 1%nat :: g -> f = O :: g).
Proof.
  intros H. unfold platform_call. destruct (faults w) as [|[|n] g] eqn:E.
  - exists []. split; [rewrite <- E, set_faults_same; reflexivity|discriminate].
  - exfalso. apply (H g). reflexivity.
  - exists (n :: g). split; [reflexivity|]. intros g' Hg. injection Hg as <- <-.
    reflexivity.
Qed.

Lemma vm_deleteMemo_never_raises (i : Z) (w : World) :
  never_raises (MemoViewModel.deleteMemo i) w.
Proof.
  unfold never_raises, MemoViewModel.deleteMemo.
  change (bind (gets context) ?k w) with (k (context w) w).
  destruct (context w) as [ctx|]; [|exists tt; reflexivity].
  unfold bind at 1. cbn [modify].
  rewrite try_finally_result.
  apply try_catch_never_raises. intros; apply ret_never_raises.
Qed.

Lemma getRdbStore_cached (ctx : Context) (w : World) (h : RdbStore) :
  rdbStore w = Some h -> getRdbStore ctx w = (Ok h, w).
Proof.
  intros H. unfold getRdbStore.
  change (bind (gets rdbStore) ?k w) with (k (rdbStore w) w).
  rewrite H. reflexivity.
Qed.

(** A delete whose store call faults removes nothing. *)
Lemma vm_deleteMemo_fault (i : Z) (w : World) (g : list nat) (h : RdbStore) :
  faults w = O :: g -> rdbStore w = Some h ->
  visible_rows (snd (MemoViewModel.deleteMemo i w)) = visible_rows w.
Proof.
  intros Hf Hh. unfold MemoViewModel.deleteMemo.
  change (bind (gets context) ?k w) with (k (context w) w).
  destruct (context w) as [ctx|]; [|reflexivity].
  unfold bind at 1. cbn [modify].
  rewrite try_finally_state.
  change (visible_rows (set_isLoading false ?x)) with (visible_rows x).
  set (w0 := set_isLoading true w).
  assert (Ed : deleteMemo ctx i w0 = (Ok 0, set_faults g w0)).
  { unfold deleteMemo.
    rewrite (bind_eq _ _ _ _ _ (getRdbStore_cached ctx w0 h Hh)).
    unfold try_catch, store_delete, bind.
    rewrite (platform_call_fault _ w0 g Hf). reflexivity. }
  unfold try_catch. unfold bind at 1. rewrite Ed. cbn [Z.ltb Z.compare ret snd].
  reflexivity.
Qed.

(** X18.  The toast of the delete button does not wait for the outcome.  When
    the user confirms (button 1) the deletion of a note that has an id, and
    the dialog itself is not rejected, the page shows "笔记已删除" after
    [deleteMemo] of the view model has settled, whatever that has done: the
    view model reports nothing, and the toast is shown also when the store
    call faulted and the rows are what they were.  With any other button
    nothing is deleted and nothing is shown. *)
Theorem delete_toast_whatever_was_deleted (s : Screen MemoListPage.Fields)
    (memo : Memo) (i chosen : Z)
    (Hid : id memo = Some i)
    (Hdialog : forall f, faults (world s) <> O :: f) :
  let s' := snd (MemoListPage.onDeleteClick memo chosen s) in
  (chosen = 1 -> toasts (ui s') = toasts (ui s) ++ ["笔记已删除"]) /\
  (chosen = 1 ->
   forall g h, faults (world s) = 1%nat :: g -> rdbStore (world s) = Some h ->
     visible_rows (world s') = visible_rows (world s)) /\
  (chosen <> 1 ->
   toasts (ui s') = toasts (ui s) /\
   visible_rows (world s') = visible_rows (world s)).
Proof.
  destruct (platform_call_resolves "promptAction.showDialog" (world s) Hdialog)
    as (f & Ec & Hf).
  assert (E : MemoListPage.onDeleteClick memo chosen s =
              if chosen =? 1
              then (Ok tt,
                    mkScreen (snd (MemoViewModel.deleteMemo i (set_faults f (world s))))
                      (mkUi (toasts (ui s) ++ ["笔记已删除"]) (backs (ui s))
                         (pushes (ui s)) (route_params (ui s)))
                      (page s))
              else (Ok tt, mkScreen (set_faults f (world s)) (ui s) (page s))).
  { unfold MemoListPage.onDeleteClick, Page.try_catch, Page.showDialog.
    unfold Page.bind at 1. unfold Page.bind at 1.
    unfold Page.lift at 1. rewrite Ec. cbn [Page.ret].
    destruct (chosen =? 1); [|reflexivity]. rewrite Hid.
    destruct (vm_deleteMemo_never_raises i (set_faults f (world s))) as [u Hu].
    unfold Page.bind, Page.lift. cbn [world].
    destruct (MemoViewModel.deleteMemo i (set_faults f (world s))) as [r w'].
    cbn [fst] in Hu. subst r. reflexivity. }
  cbn zeta. rewrite E. clear E. split; [|split].
  - intros ->. reflexivity.
  - intros -> g h Hg Hh. cbn [Z.eqb Pos.eqb snd world].
    rewrite (vm_deleteMemo_fault i (set_faults f (world s)) g h);
      [reflexivity| |exact Hh].
    cbn. apply Hf, Hg.
  - intros Hne. apply Z.eqb_neq in Hne. rewrite Hne. split; reflexivity.
Qed.

Lemma delete_toast_whatever_was_deleted_witness :
  let s := mkScreen (set_faults [1%nat] three_notes) (mkUi [] 0 [] None)
             (MemoListPage.created (Some 1%nat)) in
  let memo := mkMemo (Some 2) "Beta" "b" 1002 1002 in
  id memo = Some 2 /\
  (forall f, faults (world s) <> O :: f) /\
  let s' := snd (MemoListPage.onDeleteClick memo 1 s) in
  (1 = 1 -> toasts (ui s') = toasts (ui s) ++ ["笔记已删除"]) /\
  (1 = 1 ->
   forall g h, faults (world s) = 1%nat :: g -> rdbStore (world s) = Some h ->
     visible_rows (world s') = visible_rows (world s)) /\
  (1 <> 1 ->
   toasts (ui s') = toasts (ui s) /\
   visible_rows (world s') = visible_rows (world s)).
Proof.
  intros s memo. split; [reflexivity|].
  assert (Hd : forall f, faults (world s) <> O :: f)
    by (intros f; unfold s; cbn [world faults set_faults]; discriminate).
  split; [exact Hd|].
  exact (delete_toast_whatever_was_deleted s memo 2 1 eq_refl Hd).
Defined.

(** The toast after a delete that failed. *)
Example deleted_toast_after_fault :
  let s := mkScreen (set_faults [1%nat] three_notes) (mkUi [] 0 [] None)
             (MemoListPage.created (Some 1%nat)) in
  let s' := snd (MemoListPage.onDeleteClick (mkMemo (Some 2) "Beta" "b" 1002 1002) 1 s) in
  toasts (ui s') = ["笔记已删除"] /\
  map r_title (db_rows (world s')) = ["Alpha"; "Beta"; "Alphabet"].
Proof. rewrite three_notes_eq. split; vm_compute; reflexivity. Qed.

(** X19.  When the platform does not fault, a list page that has a context
    shows the store once [aboutToAppear] and the load it starts have
    settled: the view model is bound to the context, the list on display is
    the listing of the store for the keyword on display, the font sizes are
    those of the preferences (or the defaults), the loading flag is down
    and no toast was shown. *)
Theorem list_page_shows_the_store (ctx : Context) (s : Screen MemoListPage.Fields)
    (Hctx : MemoListPage.page_context (page s) = Some ctx)
    (Hquiet : faults (world s) = []) :
  let s' := snd (MemoListPage.aboutToAppear s) in
  context (world s') = Some ctx /\
  list_current (world s') /\
  titleFontSize (world s') =
    default DEFAULT_TITLE_FONT_SIZE (pref_values (world s) !! KEY_TITLE_FONT_SIZE) /\
  contentFontSize (world s') =
    default DEFAULT_CONTENT_FONT_SIZE (pref_values (world s) !! KEY_CONTENT_FONT_SIZE) /\
  isLoading (world s') = false /\
  visible_rows (world s') = visible_rows (world s) /\
  ui s' = ui s.
Proof.
  set (w0 := set_context (Some ctx) (world s)).
  assert (E : snd (MemoListPage.aboutToAppear s) =
              mkScreen (snd (MemoViewModel.loadInitialData w0)) (ui s) (page s)).
  { unfold MemoListPage.aboutToAppear. rewrite page_bind_gets, Hctx.
    rewrite (page_bind_lift _ _ s tt w0 eq_refl).
    unfold Page.not_awaited, Page.try_catch, Page.bind, Page.lift. cbn [world ui page].
    destruct (MemoViewModel.loadInitialData w0) as [[u|e] w1]; reflexivity. }
  cbn zeta. rewrite E. cbn [world ui].
  assert (Hq0 : faults w0 = []) by exact Hquiet.
  assert (Hc0 : context w0 = Some ctx) by reflexivity.
  destruct (loadInitialData_fonts ctx w0 Hq0 Hc0) as [Ht Hc].
  assert (Hsame : same context w0 (snd (MemoViewModel.loadInitialData w0)))
    by (field_frame @frame_loadInitialData (@context)).
  assert (Hp : persisted_same w0 (snd (MemoViewModel.loadInitialData w0)))
    by (persisted_frame @frame_loadInitialData).
  split; [rewrite Hsame; reflexivity|].
  split; [apply (list_current_after_load ctx); assumption|].
  split; [exact Ht|]. split; [exact Hc|].
  split.
  - unfold MemoViewModel.loadInitialData.
    rewrite (bound_operation _ _ w0 ctx Hc0).
    unfold bind at 1. cbn [modify]. rewrite try_finally_state. reflexivity.
  - split; [apply Hp|reflexivity].
Qed.

Lemma list_page_shows_the_store_witness :
  MemoListPage.page_context (page list_screen) = Some 1%nat /\
  faults (world list_screen) = [] /\
  let s' := snd (MemoListPage.aboutToAppear list_screen) in
  context (world s') = Some 1%nat /\
  list_current (world s') /\
  titleFontSize (world s') =
    default DEFAULT_TITLE_FONT_SIZE
      (pref_values (world list_screen) !! KEY_TITLE_FONT_SIZE) /\
  contentFontSize (world s') =
    default DEFAULT_CONTENT_FONT_SIZE
      (pref_values (world list_screen) !! KEY_CONTENT_FONT_SIZE) /\
  isLoading (world s') = false /\
  visible_rows (world s') = visible_rows (world list_screen) /\
  ui s' = ui list_screen.
Proof.
  assert (Hq : faults (world list_screen) = [])
    by (unfold list_screen; cbn [world]; rewrite three_notes_eq; reflexivity).
  split; [reflexivity|]. split; [exact Hq|].
  exact (list_page_shows_the_store 1%nat list_screen eq_refl Hq).
Defined.

(* ===================================================================== *)
(** * The date on display *)
(* ===================================================================== *)

Lemma YearFromDay_spec (d : Z) :
  DayFromYear (YearFromDay d) <= d < DayFromYear (YearFromDay d + 1).
Proof.
  unfold YearFromDay. cbv zeta.
  set (y := 1970 + d * 400 / 146097).
  assert (Hy : 146097 * (y - 1970) <= d * 400 < 146097 * (y - 1970) + 146097).
  { unfold y. pose proof (Z.div_mod (d * 400) 146097).
    pose proof (Z.mod_pos_bound (d * 400) 146097). lia. }
  clearbody y.
  assert (Hlo : DayFromYear (y - 1) <= d)
    by (unfold DayFromYear; Z.div_mod_to_equations; lia).
  assert (Hhi : d < DayFromYear (y + 1 + 1))
    by (unfold DayFromYear; Z.div_mod_to_equations; lia).
  destruct (DayFromYear (y + 1) <=? d) eqn:E1.
  - apply Z.leb_le in E1. split; assumption.
  - apply Z.leb_gt in E1. destruct (d <? DayFromYear y) eqn:E2.
    + apply Z.ltb_lt in E2. replace (y - 1 + 1) with y by lia. split; assumption.
    + apply Z.ltb_ge in E2. split; assumption.
Qed.

Lemma div_succ (a n : Z) :
  0 < n -> (a + 1) / n = a / n + (if (a + 1) mod n =? 0 then 1 else 0).
Proof.
  intros Hn.
  pose proof (Z.div_mod a n ltac:(lia)) as Ha.
  pose proof (Z.mod_pos_bound a n Hn) as Hr.
  pose proof (Z.div_mod (a + 1) n ltac:(lia)) as Ha'.
  pose proof (Z.mod_pos_bound (a + 1) n Hn) as Hr'.
  set (q := a / n) in *. set (r := a mod n) in *.
  set (q' := (a + 1) / n) in *. set (r' := (a + 1) mod n) in *.
  clearbody q r q' r'.
  assert (Hq : q' = q \/ q' = q + 1).
  { assert (q - 1 < q') by nia. assert (q' < q + 2) by nia. lia. }
  destruct (r' =? 0) eqn:E; [apply Z.eqb_eq in E|apply Z.eqb_neq in E];
    destruct Hq as [-> | ->]; nia.
Qed.

Lemma mod_shift (y k n : Z) : 0 < n -> (y - k * n) mod n = y mod n.
Proof.
  intros Hn. replace (y - k * n) with (y + (- k) * n) by lia.
  apply Z.mod_add. lia.
Qed.

Lemma mod_of_multiple (y n m : Z) :
  0 < n -> 0 < m -> y mod (n * m) = 0 -> y mod n = 0.
Proof.
  intros Hn Hm H.
  apply Z.mod_divide in H; [|lia]. apply Z.mod_divide; [lia|].
  destruct H as [q Hq]. exists (q * m). lia.
Qed.

Lemma DayFromYear_succ (y : Z) :
  DayFromYear (y + 1) = DayFromYear y + 365 + InLeapYear y.
Proof.
  unfold DayFromYear, InLeapYear.
  replace (y + 1 - 1969) with (y - 1969 + 1) by lia.
  replace (y + 1 - 1901) with (y - 1901 + 1) by lia.
  replace (y + 1 - 1601) with (y - 1601 + 1) by lia.
  rewrite (div_succ (y - 1969) 4), (div_succ (y - 1901) 100),
    (div_succ (y - 1601) 400) by lia.
  replace (y - 1969 + 1) with (y - 492 * 4) by lia.
  replace (y - 1901 + 1) with (y - 19 * 100) by lia.
  replace (y - 1601 + 1) with (y - 4 * 400) by lia.
  rewrite !mod_shift by lia.
  pose proof (mod_of_multiple y 4 25 ltac:(lia) ltac:(lia)) as H100.
  pose proof (mod_of_multiple y 100 4 ltac:(lia) ltac:(lia)) as H400.
  change (4 * 25) with 100 in H100. change (100 * 4) with 400 in H400.
  destruct (y mod 4 =? 0) eqn:E4; [apply Z.eqb_eq in E4|apply Z.eqb_neq in E4];
  (destruct (y mod 100 =? 0) eqn:E100;
    [apply Z.eqb_eq in E100|apply Z.eqb_neq in E100]);
  (destruct (y mod 400 =? 0) eqn:E400;
    [apply Z.eqb_eq in E400|apply Z.eqb_neq in E400]);
  cbn [negb]; cbv iota; try lia;
  try (exfalso; auto; fail).
Qed.

Lemma InLeapYear_cases (y : Z) : InLeapYear y = 0 \/ InLeapYear y = 1.
Proof.
  unfold InLeapYear.
  destruct (y mod 4 =? 0), (y mod 100 =? 0), (y mod 400 =? 0); cbn; auto.
Qed.

Lemma DayWithinYear_range (t : Z) :
  0 <= DayWithinYear t < 365 + InLeapYear (YearFromTime t).
Proof.
  unfold DayWithinYear, YearFromTime.
  pose proof (YearFromDay_spec (Day t)) as H.
  rewrite DayFromYear_succ in H. lia.
Qed.

Lemma MonthFromTime_range (t : Z) : 0 <= MonthFromTime t <= 11.
Proof.
  unfold MonthFromTime. cbv zeta.
  repeat match goal with |- context [if ?b then _ else _] => destruct b end; lia.
Qed.

Lemma DateFromTime_range (t : Z) : 1 <= DateFromTime t <= 31.
Proof.
  pose proof (DayWithinYear_range t) as Hd.
  pose proof (InLeapYear_cases (YearFromTime t)) as Hl.
  unfold DateFromTime, MonthFromTime. cbv zeta.
  repeat match goal with
         | |- context [if ?a <? ?b then _ else _] =>
             let E := fresh "E" in
             destruct (a <? b) eqn:E;
             [apply Z.ltb_lt in E|apply Z.ltb_ge in E]
         end; cbv iota; lia.
Qed.

Lemma date_in_month (t : Z) :
  DayWithinYear t =
    days_before_month (InLeapYear (YearFromTime t)) (MonthFromTime t)
    + (DateFromTime t - 1) /\
  1 <= DateFromTime t
    <= days_in_month (InLeapYear (YearFromTime t)) (MonthFromTime t).
Proof.
  pose proof (DayWithinYear_range t) as Hd.
  pose proof (InLeapYear_cases (YearFromTime t)) as Hl.
  unfold DateFromTime, MonthFromTime. cbv zeta.
  repeat match goal with
         | |- context [if ?a <? ?b then _ else _] =>
             let E := fresh "E" in
             destruct (a <? b) eqn:E;
             [apply Z.ltb_lt in E|apply Z.ltb_ge in E]
         end; cbv iota;
  unfold days_before_month, days_in_month, month_lengths;
  repeat match goal with
         | |- context [Z.to_nat ?k] =>
             let v := eval vm_compute in (Z.to_nat k) in
             change (Z.to_nat k) with v
         end;
  cbn [take firstn foldr fold_right nth]; lia.
Qed.
Lemma two_digits (n : Z) :
  0 <= n < 100 ->
  String.length (padStart 2 "0" (Number_toString n)) = 2%nat /\
  parseInt (padStart 2 "0" (Number_toString n)) = Some n.
Proof.
  intros Hn.
  assert (Hb : forallb
            (fun k =>
               let s := padStart 2 "0" (Number_toString (Z.of_nat k)) in
               Nat.eqb (String.length s) 2 &&
               match parseInt s with
               | Some v => v =? Z.of_nat k
               | None => false
               end) (seq 0 100) = true) by (vm_compute; reflexivity).
  rewrite forallb_forall in Hb. specialize (Hb (Z.to_nat n)).
  rewrite Z2Nat.id in Hb by lia. cbv zeta in Hb.
  specialize (Hb ltac:(apply in_seq; lia)).
  apply andb_true_iff in Hb. destruct Hb as [Hl Hp].
  apply Nat.eqb_eq in Hl. split; [exact Hl|].
  destruct (parseInt _) as [v|]; [|discriminate].
  apply Z.eqb_eq in Hp. congruence.
Qed.

Lemma formatDate_zero (tz : Z -> Z) : formatDate tz 0 = "".
Proof. reflexivity. Qed.

Lemma formatDate_not_a_date (tz : Z -> Z) (t : Z) :
  valid_time t = false -> formatDate tz t = "NaN-NaN-NaN".
Proof.
  intros Hv. unfold formatDate, Date_getFullYear, Date_getMonth, Date_getDate.
  rewrite Hv. destruct (t =? 0) eqn:E.
  - apply Z.eqb_eq in E. subst t. discriminate Hv.
  - reflexivity.
Qed.

(** X20.  What [formatDate] shows of an instant other than 0 from which
    [new Date] makes a date: the year written in decimal, a dash, two
    characters, a dash and two characters.  The year is the one in which
    the local day of the instant falls; the first two characters read
    back, by [parseInt], as the month of that day counted from 1, which
    lies between 1 and 12; the last two read back as a day that the month
    has; and the local day is the one so many days after the beginning of
    that month of that year. *)
Theorem formatDate_shows_the_local_day (tz : Z -> Z) (t : Z) :
  t <> 0 ->
  valid_time t = true ->
  let y := YearFromTime (t + tz t) in
  let m := MonthFromTime (t + tz t) in
  let d := DateFromTime (t + tz t) in
  exists ms ds : string,
    formatDate tz t = (Number_toString y ++ "-" ++ ms ++ "-" ++ ds)%string /\
    DayFromYear y <= Day (t + tz t) < DayFromYear (y + 1) /\
    String.length ms = 2%nat /\ parseInt ms = Some (m + 1) /\ 1 <= m + 1 <= 12 /\
    String.length ds = 2%nat /\ parseInt ds = Some d /\
    1 <= d <= days_in_month (InLeapYear y) m /\
    Day (t + tz t) = DayFromYear y + days_before_month (InLeapYear y) m + (d - 1).
Proof.
  intros Ht Hv y m d.
  pose proof (MonthFromTime_range (t + tz t)) as Hm.
  pose proof (DateFromTime_range (t + tz t)) as Hd.
  pose proof (date_in_month (t + tz t)) as [Hday Hin].
  pose proof (two_digits (m + 1) ltac:(unfold m; lia)) as [Hml Hmp].
  pose proof (two_digits d ltac:(unfold d; lia)) as [Hdl Hdp].
  exists (padStart 2 "0" (Number_toString (m + 1))),
    (padStart 2 "0" (Number_toString d)).
  split; [|split; [apply YearFromDay_spec|]].
  - unfold formatDate, Date_getFullYear, Date_getMonth, Date_getDate.
    rewrite Hv. apply Z.eqb_neq in Ht. rewrite Ht. reflexivity.
  - unfold m, d, y in *. repeat split; try assumption; try lia.
    unfold DayWithinYear in Hday. lia.
Qed.

Lemma formatDate_shows_the_local_day_witness :
  exists ms ds : string,
    formatDate (fun _ => 28800000) 1700000000000
    = ("2023" ++ "-" ++ ms ++ "-" ++ ds)%string /\
    parseInt ms = Some 11 /\ parseInt ds = Some 15.
Proof.
  destruct (formatDate_shows_the_local_day (fun _ => 28800000) 1700000000000
              ltac:(discriminate) ltac:(reflexivity))
    as (ms & ds & Hf & _ & _ & Hm & _ & _ & Hd & _).
  exists ms, ds. split; [exact Hf|]. split; [exact Hm|exact Hd].
Defined.

(** What the page shows for some instants, in UTC and eight hours east of
    it: the day changes with the zone; the 29th of February of 2000 is
    followed by the 1st of March; the instant before the epoch falls in
    1969; a year of fewer than four digits is not padded; the timestamp 0
    gives the empty text and an instant out of the range of [Date] gives
    [NaN] three times. *)
Example formatDate_examples :
  formatDate (fun _ => 0) 1700000000000 = "2023-11-14" /\
  formatDate (fun _ => 28800000) 1700000000000 = "2023-11-15" /\
  formatDate (fun _ => 0) 951782400000 = "2000-02-29" /\
  formatDate (fun _ => 0) 951868800000 = "2000-03-01" /\
  formatDate (fun _ => 0) (-1) = "1969-12-31" /\
  formatDate (fun _ => 0) 1 = "1970-01-01" /\
  formatDate (fun _ => 0) (-62135596800000) = "1-01-01" /\
  formatDate (fun _ => 0) 0 = "" /\
  formatDate (fun _ => 0) 8640000000000001 = "NaN-NaN-NaN".
Proof. vm_compute. repeat split. Qed.
(* ===================================================================== *)
(** * The keys of the list *)
(* ===================================================================== *)

Lemma Number_toString_inj (a b : Z) : Number_toString a = Number_toString b -> a = b.
Proof.
  intros H. pose proof (parseInt_toString a) as Ha.
  rewrite H, parseInt_toString in Ha. congruence.
Qed.

Lemma NoDup_map_inj {A B} (g : A -> B) (l : list A) :
  (forall x y, g x = g y -> x = y) -> NoDup l -> NoDup (map g l).
Proof.
  intros Hg. induction 1 as [|x l Hx Hl IH]; cbn; constructor; [|exact IH].
  intros Hin. apply Hx.
  apply list_elem_of_In, in_map_iff in Hin as (y & Hy & Hin).
  apply Hg in Hy. subst y. apply list_elem_of_In, Hin.
Qed.

Lemma listing_keys (keyword : string) (w : World) :
  store_inv w -> keys_distinct (listing keyword w).
Proof.
  intros Hinv. unfold listing.
  set (rows := if truthy keyword then _ else _).
  assert (Hrows : NoDup (map r_id rows)).
  { pose proof (inv_unique w Hinv) as Hu. rewrite <- (visible_rows_inv w Hinv) in Hu.
    unfold rows. destruct (truthy keyword); [apply NoDup_map_filter|]; exact Hu. }
  clearbody rows. split.
  - apply Forall_forall. intros m Hm.
    apply list_elem_of_In, in_map_iff in Hm as (r & <- & _). discriminate.
  - intros random. rewrite map_map.
    rewrite (map_ext _ (fun r => Number_toString (r_id r))) by reflexivity.
    rewrite <- (map_map r_id Number_toString).
    apply NoDup_map_inj; [apply Number_toString_inj|].
    unfold newest_first. rewrite (Permutation_map r_id (sort_desc_perm _ rows)).
    exact Hrows.
Qed.

Lemma keys_distinct_prefix (l k : list Memo) :
  l `prefix_of` k -> keys_distinct k -> keys_distinct l.
Proof.
  intros [rest ->] [Hid Hk]. split.
  - apply Forall_app in Hid. apply Hid.
  - intros random. specialize (Hk random). rewrite map_app in Hk.
    apply NoDup_app in Hk. apply Hk.
Qed.

Lemma keyed_refl (w : World) : keyed w w.
Proof. intros Hi Hk. split; assumption. Qed.

Lemma keyed_trans (w1 w2 w3 : World) : keyed w1 w2 -> keyed w2 w3 -> keyed w1 w3.
Proof. intros H12 H23 Hi Hk. destruct (H12 Hi Hk) as [Hi2 Hk2]. apply H23; assumption. Qed.

(** What keeps the invariant of the store and the fields of the view
    model keeps the keys. *)
Lemma keyed_below {A} (m : M A) :
  respects keeps_inv m -> respects vm_same m -> respects keyed m.
Proof.
  intros Hinv Hvm w Hi Hk. split; [apply (Hinv w Hi)|].
  destruct (Hvm w) as (Hm & _). rewrite Hm. exact Hk.
Qed.

Lemma keyed_field (f : World -> World) :
  (forall w, keeps_inv w (f w)) -> (forall w, memos (f w) = memos w) ->
  respects keyed (modify f).
Proof.
  intros Hinv Hm. apply (respects_modify keyed). intros w Hi Hk.
  split; [apply (Hinv w Hi)|]. rewrite Hm. exact Hk.
Qed.

Lemma searchMemos_keyed (keyword : string) :
  respects keyed (MemoViewModel.searchMemos keyword).
Proof.
  intros w Hi Hk. split; [apply (searchMemos_inv keyword w Hi)|].
  destruct (context w) as [ctx|] eqn:Hc.
  - apply (keys_distinct_prefix _ (listing (trim keyword) w));
      [apply (searchMemos_prefix ctx keyword w Hc)|apply listing_keys, Hi].
  - unfold MemoViewModel.searchMemos, bind, gets. rewrite Hc. exact Hk.
Qed.

Ltac vm_save :=
  lazymatch goal with
  | |- respects _ (addMemo _ _) => apply addMemo_vm
  | |- respects _ (updateMemo _ _) => apply updateMemo_vm
  | |- _ => vm_head
  end.

Lemma save_add_vm (ctx : Context) (t c : string) :
  respects vm_same (MemoViewModel.save_add ctx t c).
Proof. unfold MemoViewModel.save_add, new_Memo. repeat vm_save. Qed.

Lemma save_update_vm (ctx : Context) (t c : string) (i created : Z) :
  respects vm_same (MemoViewModel.save_update ctx t c i created).
Proof. unfold MemoViewModel.save_update, new_Memo. repeat vm_save. Qed.

Ltac keyed_head :=
  lazymatch goal with
  | |- respects _ (ret _) => apply (respects_ret keyed keyed_refl)
  | |- respects _ (throw _) => apply (respects_throw keyed keyed_refl)
  | |- respects _ (gets _) => apply (respects_gets keyed keyed_refl)
  | |- respects _ (modify _) =>
      apply keyed_field; [intros; inv_same|intros; reflexivity]
  | |- respects _ (bind _ _) => apply (respects_bind keyed keyed_trans); [|intros ?]
  | |- respects _ (try_catch _ _) =>
      apply (respects_try_catch keyed keyed_trans); [|intros ?]
  | |- respects _ (try_finally _ _) =>
      apply (respects_try_finally keyed keyed_trans)
  | |- respects _ (MemoViewModel.searchMemos _) => apply searchMemos_keyed
  | |- respects _ (queryMemoById _ _) =>
      apply keyed_below; [apply queryMemoById_inv|apply queryMemoById_vm]
  | |- respects _ (deleteMemo _ _) =>
      apply keyed_below; [apply deleteMemo_inv|apply deleteMemo_vm]
  | |- respects _ (loadFontSizes _) =>
      apply keyed_below; [apply loadFontSizes_inv|apply loadFontSizes_vm]
  | |- respects _ (saveFontSizes _ _ _) =>
      apply keyed_below; [apply saveFontSizes_inv|apply saveFontSizes_vm]
  | |- respects _ (MemoViewModel.save_update _ _ _ _ _) =>
      apply keyed_below; [apply save_update_inv|apply save_update_vm]
  | |- respects _ (MemoViewModel.save_add _ _ _) =>
      apply keyed_below; [apply save_add_inv|apply save_add_vm]
  | |- respects _ (match ?x with Some _ => _ | None => _ end) => destruct x
  | |- respects _ (if ?b then _ else _) => destruct b
  end.

Lemma vm_loadFontSizes_keyed : respects keyed MemoViewModel.loadFontSizes.
Proof. unfold MemoViewModel.loadFontSizes. repeat keyed_head. Qed.

Lemma vm_saveFontSizes_keyed : respects keyed MemoViewModel.saveFontSizes.
Proof. unfold MemoViewModel.saveFontSizes. repeat keyed_head. Qed.

Lemma loadInitialData_keyed : respects keyed MemoViewModel.loadInitialData.
Proof.
  unfold MemoViewModel.loadInitialData.
  repeat lazymatch goal with
         | |- respects _ MemoViewModel.loadFontSizes => apply vm_loadFontSizes_keyed
         | |- _ => keyed_head
         end.
Qed.

Lemma loadMemoById_keyed (i : Z) : respects keyed (MemoViewModel.loadMemoById i).
Proof. unfold MemoViewModel.loadMemoById. repeat keyed_head. Qed.

Lemma saveCurrentMemo_keyed (t c : string) :
  respects keyed (MemoViewModel.saveCurrentMemo t c).
Proof. unfold MemoViewModel.saveCurrentMemo. repeat keyed_head. Qed.

Lemma vm_deleteMemo_keyed (i : Z) : respects keyed (MemoViewModel.deleteMemo i).
Proof. unfold MemoViewModel.deleteMemo. repeat keyed_head. Qed.

(** X21.  The keys of the list stay distinct.  On a store that satisfies
    [store_inv], if every memo on display has an id and no two have the
    same [ForEach] key, then the same holds after each operation of the
    view model, whatever the platform does, and of a new view model, which
    shows no memo: the key of a memo is never a number drawn at random,
    and no key is given twice. *)
Theorem list_keys_stay_distinct (w : World) :
  store_inv w -> keys_distinct (memos w) ->
  keys_distinct (memos (MemoViewModel.fresh w)) /\
  (forall ctx, keys_distinct (memos (snd (MemoViewModel.initialize ctx w)))) /\
  keys_distinct (memos (snd (MemoViewModel.loadInitialData w))) /\
  (forall keyword, keys_distinct (memos (snd (MemoViewModel.searchMemos keyword w)))) /\
  (forall i, keys_distinct (memos (snd (MemoViewModel.loadMemoById i w)))) /\
  keys_distinct (memos (snd (MemoViewModel.prepareNewMemo w))) /\
  (forall t c, keys_distinct (memos (snd (MemoViewModel.saveCurrentMemo t c w)))) /\
  (forall i, keys_distinct (memos (snd (MemoViewModel.deleteMemo i w)))) /\
  keys_distinct (memos (snd (MemoViewModel.loadFontSizes w))) /\
  keys_distinct (memos (snd (MemoViewModel.saveFontSizes w))).
Proof.
  intros Hi Hk.
  split; [split; [constructor|intros; constructor]|].
  split; [intros ctx; exact Hk|].
  split; [apply (loadInitialData_keyed w Hi Hk)|].
  split; [intros keyword; apply (searchMemos_keyed keyword w Hi Hk)|].
  split; [intros i; apply (loadMemoById_keyed i w Hi Hk)|].
  split; [exact Hk|].
  split; [intros t c; apply (saveCurrentMemo_keyed t c w Hi Hk)|].
  split; [intros i; apply (vm_deleteMemo_keyed i w Hi Hk)|].
  split; [apply (vm_loadFontSizes_keyed w Hi Hk)|apply (vm_saveFontSizes_keyed w Hi Hk)].
Qed.
Lemma keys_distinct_faults (s : list nat) (w : World) :
  keys_distinct (memos w) -> keys_distinct (memos (set_faults s w)).
Proof. intros H. exact H. Qed.

Lemma three_notes_listed_keys : keys_distinct (memos three_notes_listed).
Proof.
  pose proof three_notes_listed_current as H. unfold list_current in H.
  rewrite H. apply listing_keys, three_notes_listed_inv.
Qed.

Lemma list_keys_stay_distinct_witness :
  let w := set_faults [14%nat] three_notes_listed in
  store_inv w /\
  keys_distinct (memos w) /\
  keys_distinct (memos (snd (MemoViewModel.deleteMemo 2 w))).
Proof.
  intros w.
  assert (Hi : store_inv w) by apply store_inv_faults, three_notes_listed_inv.
  assert (Hk : keys_distinct (memos w))
    by exact (keys_distinct_faults [14%nat] three_notes_listed three_notes_listed_keys).
  split; [exact Hi|]. split; [exact Hk|].
  destruct (list_keys_stay_distinct w Hi Hk) as (_ & _ & _ & _ & _ & _ & _ & Hd & _).
  exact (Hd 2).
Defined.

(** The keys of the three notes on display, and what is on display after
    a deletion during which the reload of the list is cut short. *)
Example keys_of_three_notes :
  map (item_key "0.5") (memos three_notes_listed) = ["3"; "2"; "1"] /\
  map (item_key "0.5")
    (memos (snd (MemoViewModel.deleteMemo 2 (set_faults [14%nat] three_notes_listed))))
  = ["3"].
Proof. rewrite three_notes_listed_eq. split; vm_compute; reflexivity. Qed.
